(** * A feedforward neural network trained by mini-batch SGD (network.go)

    Shallow embedding of [Network.Init], [Network.FeedForward],
    [Network.SGD], [quadraticCost], [Network.backpropQuadCost],
    [Network.DumpWeightsBiases] and [Network.ReadWeightsBiases], together
    with the part of gonum's [mat64.Dense] they rely on.

    - [float64] is an abstract scalar type with the operations the program
      uses ([Float64]); every theorem holds for all interpretations.
    - a [mat64.Dense] is a header (dimensions, capacities, a slice) over a
      backing array kept in a heap, so that copying a header (as Go's
      struct assignment does) shares the array.
    - [log.Fatal] and run-time panics are two distinct abnormal results.
    - the two file methods run in a world of the process state and a file
      system: a path is missing, a regular file of bytes, or something
      that cannot be opened. *)

From stdpp Require Import base list numbers strings.
From Stdlib Require Import ZArith Lia.
From Stdlib Require Qcanon.

Local Open Scope Z_scope.

(** ** Scalars *)

(** The operations on [float64] used by the program.  [norm_float k] is the
    [k]-th value handed out by the process-wide source behind
    [rand.NormFloat64]. *)
Class Float64 (F : Type) := {
  fzero : F;
  fone : F;
  fadd : F → F → F;
  fsub : F → F → F;
  fmul : F → F → F;
  fdiv : F → F → F;
  fneg : F → F;
  fexp : F → F;
  of_int : Z → F;
  to_int : F → Z;
  norm_float : nat → F
}.

Section Model.
Context {F : Type} `{Float64 F}.

(** func sigmoid(z float64) float64 *)
Definition sigmoid (z : F) : F := fdiv fone (fadd fone (fexp (fneg z))).

(** func sigmoidMatrix(_, _ int, v float64) float64 *)
Definition sigmoidMatrix (_ _ : Z) (v : F) : F := sigmoid v.

(** func sigmoidPrimeMatrix(_, _ int, v float64) float64 *)
Definition sigmoidPrimeMatrix (_ _ : Z) (v : F) : F :=
  fmul (sigmoid v) (fsub fone (sigmoid v)).

(** ** Matrices as values *)

(** A matrix value: dimensions and the entries in row-major order. *)
Record matrix := Mat { mr : Z; mc : Z; md : list F }.

Definition mat_at (a : matrix) (i j : Z) : F :=
  default fzero (md a !! Z.to_nat (i * mc a + j)).

Definition row_major (r c : Z) (f : Z → Z → F) : list F :=
  flat_map (λ i, map (f i) (seqZ 0 c)) (seqZ 0 r).

Definition tabulate (r c : Z) (f : Z → Z → F) : matrix :=
  Mat r c (row_major r c f).

(** Sum of [g 0 .. g (n-1)], accumulated from the left starting at zero. *)
Definition dot (n : Z) (g : Z → F) : F :=
  fold_left (λ acc k, fadd acc (g k)) (seqZ 0 n) fzero.

Definition mmul (a b : matrix) : matrix :=
  tabulate (mr a) (mc b)
    (λ i j, dot (mc a) (λ k, fmul (mat_at a i k) (mat_at b k j))).

Definition mtrans (a : matrix) : matrix :=
  tabulate (mc a) (mr a) (λ i j, mat_at a j i).

Definition melem (op : F → F → F) (a b : matrix) : matrix :=
  tabulate (mr a) (mc a) (λ i j, op (mat_at a i j) (mat_at b i j)).

Definition madd := melem fadd.
Definition msub := melem fsub.
Definition mmulelem := melem fmul.

Definition mapply (fn : Z → Z → F → F) (a : matrix) : matrix :=
  tabulate (mr a) (mc a) (λ i j, fn i j (mat_at a i j)).

(** ** The machine state *)

(** The heap holds the backing arrays of [float64], addressed by
    allocation number. *)
Local Abbreviation Heap := (list (list F)) (only parsing).

Record State := MkState {
  heap : Heap;
  rnd : nat;               (* draws taken from the random source *)
  out : list (Z * Z)       (* "Success : c/t" lines printed so far *)
}.

Inductive Result (A : Type) :=
| Ok (a : A) (st : State)
| Fatal (msg : string) (st : State)   (* log.Fatal: the process exits *)
| Panic.                              (* run-time panic *)
Arguments Ok {A} a st.
Arguments Fatal {A} msg st.
Arguments Panic {A}.

Definition M (A : Type) := State → Result A.

Definition ret {A} (a : A) : M A := λ st, Ok a st.
Definition bind {A B} (m : M A) (f : A → M B) : M B :=
  λ st, match m st with
        | Ok a st' => f a st'
        | Fatal msg st' => Fatal msg st'
        | Panic => Panic
        end.
Definition panic {A} : M A := λ _, Panic.
Definition fatal {A} (msg : string) : M A := λ st, Fatal msg st.

Notation "'let!' x ':=' m 'in' k" := (bind m (λ x, k))
  (at level 10, x name, m at level 100, k at level 200, only parsing).
Notation "'let!' ' p ':=' m 'in' k" := (bind m (λ x, let 'p := x in k))
  (at level 10, p pattern, m at level 100, k at level 200, only parsing).

(** for i := lo; i < lo+n; i++ { a = body i a } *)
Fixpoint for_loop {A} (n : nat) (i : Z) (body : Z → A → M A) (a : A) : M A :=
  match n with
  | O => ret a
  | S n' => let! a' := body i a in for_loop n' (i + 1) body a'
  end.

Definition for_range {A} (lo hi : Z) (body : Z → A → M A) (a : A) : M A :=
  for_loop (Z.to_nat (hi - lo)) lo body a.

(** for i := n-1; i >= 0; i-- { a = body i a } *)
Fixpoint for_down {A} (n : nat) (body : Z → A → M A) (a : A) : M A :=
  match n with
  | O => ret a
  | S n' => let! a' := body (Z.of_nat n') a in for_down n' body a'
  end.

(** Go slice indexing [l[i]] and element assignment [l[i] = x]. *)
Definition index {A} (l : list A) (i : Z) : M A :=
  if decide (0 ≤ i) then
    match l !! Z.to_nat i with Some x => ret x | None => panic end
  else panic.

Definition assign {A} (l : list A) (i : Z) (x : A) : M (list A) :=
  if decide (0 ≤ i < Z.of_nat (length l)) then ret (<[Z.to_nat i := x]> l)
  else panic.

(** ** Slices of float64 *)

(** A [[]float64]: the backing array, the length and the capacity.  The
    program never re-slices from an offset, so a slice is a prefix. *)
Record slice := Slice { ptr : nat; len : nat; cap : nat }.

(** The nil slice. *)
Definition nil_slice : slice := Slice 0 0 0.

(** The elements visible through a slice. *)
Definition slice_view (s : slice) (h : Heap) : list F :=
  take (len s) (default [] (h !! ptr s)).

(** make([]float64, n) *)
Definition make_floats (n : Z) : M slice :=
  λ st,
    if decide (n < 0) then Panic
    else Ok (Slice (length (heap st)) (Z.to_nat n) (Z.to_nat n))
            (MkState (heap st ++ [replicate (Z.to_nat n) fzero]) (rnd st) (out st)).

(** Read [s[0..n)]. *)
Definition slice_get (s : slice) (n : nat) : M (list F) :=
  λ st,
    if decide (n ≤ length (slice_view s (heap st)))%nat
    then Ok (take n (slice_view s (heap st))) st
    else Panic.

(** Write [vs] over [s[0..length vs)]. *)
Definition slice_put (s : slice) (vs : list F) : M unit :=
  λ st,
    if decide (length vs ≤ length (slice_view s (heap st)))%nat
    then Ok tt (MkState (alter (λ arr, vs ++ drop (length vs) arr) (ptr s) (heap st))
                        (rnd st) (out st))
    else Panic.

(** ** mat64.Dense *)

(** The header of a dense matrix.  mat64 also keeps a stride; every
    constructor used here sets it to the column count and the program takes
    no views, so the stride is the [Cols] field. *)
Record Dense := MkDense {
  Rows : Z; Cols : Z; capRows : Z; capCols : Z; Data : slice
}.

(** The zero value [var m mat64.Dense]. *)
Definition Dense0 : Dense := MkDense 0 0 0 0 nil_slice.

(** A [mat64.Matrix] operand: a dense matrix or its transpose view [m.T()]. *)
Inductive operand := Plain (m : Dense) | Trans (m : Dense).

Definition Dims (a : operand) : Z * Z :=
  match a with
  | Plain m => (Rows m, Cols m)
  | Trans m => (Cols m, Rows m)
  end.

(** func (m *Dense) Caps() (r, c int) *)
Definition Caps (m : Dense) : Z * Z := (capRows m, capCols m).

(** isZero: the stride is zero. *)
Definition isZero (m : Dense) : bool := bool_decide (Cols m = 0).

(** The value held by a header. *)
Definition load (m : Dense) : M matrix :=
  if decide (Rows m * Cols m < 0) then panic
  else let! vs := slice_get (Data m) (Z.to_nat (Rows m * Cols m)) in
       ret (Mat (Rows m) (Cols m) vs).

Definition load_operand (a : operand) : M matrix :=
  match a with
  | Plain m => load m
  | Trans m => let! v := load m in ret (mtrans v)
  end.

Definition store (m : Dense) (v : matrix) : M unit := slice_put (Data m) (md v).

(** func NewDense(r, c int, nil) *Dense *)
Definition NewDense (r c : Z) : M Dense :=
  let! d := make_floats (r * c) in ret (MkDense r c r c d).

(** use(f, l): reuse the backing array when it is large enough. *)
Definition use (f : slice) (l : Z) : M slice :=
  if decide (l < 0) then panic
  else if decide (l ≤ Z.of_nat (cap f)) then ret (Slice (ptr f) (Z.to_nat l) (cap f))
  else make_floats l.

(** func (m *Dense) reuseAs(r, c int) *)
Definition reuseAs (m : Dense) (r c : Z) : M Dense :=
  if decide (Rows m > capRows m ∨ Cols m > capCols m) then panic
  else if isZero m then
    let! d := use (Data m) (r * c) in ret (MkDense r c r c d)
  else if decide (r ≠ Rows m ∨ c ≠ Cols m) then panic
  else ret m.

(** func (m *Dense) Reset() *)
Definition Reset (m : Dense) : Dense :=
  MkDense 0 0 0 0 (Slice (ptr (Data m)) 0 (cap (Data m))).

(** func (m *Dense) Clone(a Matrix) *)
Definition Clone (m : Dense) (a : operand) : M Dense :=
  let '(r, c) := Dims a in
  let! d := make_floats (r * c) in
  let! v := load_operand a in
  let m' := MkDense r c r c d in
  let! _ := store m' v in ret m'.

(** The common tail of the arithmetic methods: size the receiver with
    [reuseAs], compute from the operands, fill the receiver. *)
Definition receive (m : Dense) (r c : Z) (compute : M matrix) : M Dense :=
  let! m' := reuseAs m r c in
  let! v := compute in
  let! _ := store m' v in
  ret m'.

(** Read two operands and combine them; read one and transform it. *)
Definition compute2 (g : matrix → matrix → matrix) (a b : operand) : M matrix :=
  let! va := load_operand a in
  let! vb := load_operand b in
  ret (g va vb).

Definition compute1 (g : matrix → matrix) (a : operand) : M matrix :=
  let! va := load_operand a in ret (g va).

(** func (m *Dense) Mul(a, b Matrix) *)
Definition Mul (m : Dense) (a b : operand) : M Dense :=
  let '(ar, ac) := Dims a in
  let '(br, bc) := Dims b in
  if decide (ac ≠ br) then panic
  else receive m ar bc (compute2 mmul a b).

(** The element-wise methods Add, Sub and MulElem. *)
Definition elementwise (op : F → F → F) (m : Dense) (a b : operand) : M Dense :=
  let '(ar, ac) := Dims a in
  let '(br, bc) := Dims b in
  if decide (ar ≠ br ∨ ac ≠ bc) then panic
  else receive m ar ac (compute2 (melem op) a b).

(** func (m *Dense) Add(a, b Matrix) *)
Definition Add := elementwise fadd.
(** func (m *Dense) Sub(a, b Matrix) *)
Definition Sub := elementwise fsub.
(** func (m *Dense) MulElem(a, b Matrix) *)
Definition MulElem := elementwise fmul.

(** func (m *Dense) Apply(fn func(i, j int, v float64) float64, a Matrix) *)
Definition Apply (m : Dense) (fn : Z → Z → F → F) (a : operand) : M Dense :=
  let '(ar, ac) := Dims a in
  receive m ar ac (compute1 (mapply fn) a).

(** func (m *Dense) At(i, j int) float64 *)
Definition At (m : Dense) (i j : Z) : M F :=
  λ st,
    if decide (0 ≤ i < Rows m ∧ 0 ≤ j < Cols m) then
      match slice_view (Data m) (heap st) !! Z.to_nat (i * Cols m + j) with
      | Some v => Ok v st
      | None => Panic
      end
    else Panic.

(** func (m *Dense) Set(i, j int, v float64) *)
Definition Set_ (m : Dense) (i j : Z) (v : F) : M unit :=
  λ st,
    if decide (0 ≤ i < Rows m ∧ 0 ≤ j < Cols m) then
      if decide (Z.to_nat (i * Cols m + j) < length (slice_view (Data m) (heap st)))%nat
      then Ok tt (MkState (alter (λ arr, <[Z.to_nat (i * Cols m + j) := v]> arr)
                                 (ptr (Data m)) (heap st))
                          (rnd st) (out st))
      else Panic
    else Panic.

(** rand.NormFloat64() *)
Definition NormFloat64 : M F :=
  λ st, Ok (norm_float (rnd st)) (MkState (heap st) (S (rnd st)) (out st)).

(** ** The network *)

(** type Network struct.  A [*mat64.Dense] is modelled by the header it
    points to; [TestFunc] is the user's acceptance predicate, a function of
    the produced and the desired output. *)
Record Network := MkNetwork {
  NumLayers : Z;
  Sizes : Dense;
  Weights : list Dense;
  Biases : list Dense;
  TestFunc : option (matrix → matrix → bool)
}.

(** The messages of the three calls of [log.Fatal]. *)
Definition msg_init : string := "Need a minimum of two layers in the network".
Definition msg_sgd : string := "Network not set up".
Definition msg_backprop : string := "Input and output data set mismatch".

(** make([]mat64.Dense, n) and make([]*mat64.Dense, n) *)
Definition make_denses (n : Z) : M (list Dense) :=
  if decide (n < 0) then panic else ret (replicate (Z.to_nat n) Dense0).

(** for j := 0; j < r; j++ { for k := 0; k < c; k++ { m.Set(j, k, rand.NormFloat64()) } } *)
Definition fill_random (m : Dense) (r c : Z) : M unit :=
  for_range 0 r (λ j _,
    for_range 0 c (λ k _,
      let! v := NormFloat64 in Set_ m j k v) tt) tt.

(** func (n *Network) Init(size []int) *)
Definition Init (size : list Z) : M Network :=
  let numLayers := Z.of_nat (length size) in
  if decide (numLayers < 2) then
    fatal msg_init
  else
    let! sizes := NewDense 1 numLayers in
    let! _ := for_range 0 numLayers (λ i _,
                let! val := index size i in
                Set_ sizes 0 i (of_int val)) tt in
    let! weights := make_denses (numLayers - 1) in
    let! biases := make_denses (numLayers - 1) in
    let! '(weights, biases) :=
      for_range 0 (numLayers - 1) (λ i '(weights, biases),
        let! si := index size i in
        let! si1 := index size (i + 1) in
        let! w := NewDense si si1 in
        let! weights := assign weights i w in
        let! _ := fill_random w si si1 in
        let! b := NewDense 1 si1 in
        let! biases := assign biases i b in
        let! _ := fill_random b 1 si1 in
        ret (weights, biases)) (weights, biases) in
    ret (MkNetwork numLayers sizes weights biases None).

(** func (n *Network) FeedForward(input *mat64.Dense) mat64.Dense *)
Definition FeedForward (n : Network) (input : Dense) : M Dense :=
  for_range 0 (NumLayers n - 1) (λ i ptr,
    let! wi := index (Weights n) i in
    let! w := Mul Dense0 (Plain ptr) (Plain wi) in
    let! bi := index (Biases n) i in
    let! w := Add w (Plain w) (Plain bi) in
    let! w := Apply w sigmoidMatrix (Plain w) in
    ret w) input.

(** func quadraticCost(output, desiredOutput *mat64.Dense) mat64.Dense *)
Definition quadraticCost (output desiredOutput : Dense) : M Dense :=
  Sub Dense0 (Plain output) (Plain desiredOutput).

(** The forward pass of [backpropQuadCost]: the loop filling
    [activations] and [zs]. *)
Definition bp_forward (n : Network) (size : Z) (activations zs : list Dense)
  : M (list Dense * list Dense) :=
  for_range 0 size (λ i '(activations, zs),
    let! a1 := index activations (i + 1) in
    let! a := index activations i in
    let! wi := index (Weights n) i in
    let! a1 := Mul a1 (Plain a) (Plain wi) in
    let! bi := index (Biases n) i in
    let! a1 := Add a1 (Plain a1) (Plain bi) in
    let! z := index zs i in
    let! z := Clone z (Plain a1) in
    let! zs := assign zs i z in
    let! a1 := Apply a1 sigmoidMatrix (Plain a1) in
    let! activations := assign activations (i + 1) a1 in
    ret (activations, zs)) (activations, zs).

(** The loop cloning the weights and biases into [nablaW] and [nablaB]. *)
Definition bp_clone (n : Network) (size : Z) (nablaW nablaB : list Dense)
  : M (list Dense * list Dense) :=
  for_range 0 size (λ i '(nablaW, nablaB),
    let! nw := index nablaW i in
    let! wi := index (Weights n) i in
    let! nw := Clone nw (Plain wi) in
    let! nablaW := assign nablaW i nw in
    let! nb := index nablaB i in
    let! bi := index (Biases n) i in
    let! nb := Clone nb (Plain bi) in
    let! nablaB := assign nablaB i nb in
    ret (nablaW, nablaB)) (nablaW, nablaB).

(** The error of the outermost layer: [delta]. *)
Definition bp_output_delta (size : Z) (activations zs data : list Dense) : M Dense :=
  let! aL := index activations size in
  let! desired := index data 1 in
  let! error := quadraticCost aL desired in
  let! z := index zs (size - 1) in
  let! tmp := Apply Dense0 sigmoidPrimeMatrix (Plain z) in
  MulElem Dense0 (Plain error) (Plain tmp).

(** The loop over the remaining layers, from [size - 2] down to [0]. *)
Definition bp_backward (n : Network) (size : Z) (activations zs : list Dense)
    (delta : Dense) (nablaB nablaW : list Dense)
  : M (Dense * list Dense * list Dense) :=
  for_down (Z.to_nat (size - 1)) (λ i '(delta, nablaB, nablaW),
    let! z := index zs i in
    let! sp := Apply Dense0 sigmoidPrimeMatrix (Plain z) in
    let! w1 := index (Weights n) (i + 1) in
    let! tmp := Mul Dense0 (Plain delta) (Trans w1) in
    let delta := Reset delta in
    let! delta := MulElem delta (Plain tmp) (Plain sp) in
    let! nablaB := assign nablaB i delta in
    let! nw := index nablaW i in
    let! a := index activations i in
    let! nw := Mul nw (Trans a) (Plain delta) in
    let! nablaW := assign nablaW i nw in
    ret (delta, nablaB, nablaW)) (delta, nablaB, nablaW).

(** func (n *Network) backpropQuadCost(data []mat64.Dense, eta float64)
      (nablaB, nablaW []mat64.Dense) *)
Definition backpropQuadCost (n : Network) (data : list Dense) (eta : F)
  : M (list Dense * list Dense) :=
  if decide (length data ≠ 2%nat) then
    fatal msg_backprop
  else
    let size := NumLayers n - 1 in
    let! activations := make_denses (size + 1) in
    let! zs := make_denses size in
    let! a0 := index activations 0 in
    let! input := index data 0 in
    let! a0 := Clone a0 (Plain input) in
    let! activations := assign activations 0 a0 in
    let! '(activations, zs) := bp_forward n size activations zs in
    let! nablaW := make_denses size in
    let! nablaB := make_denses size in
    let! '(nablaW, nablaB) := bp_clone n size nablaW nablaB in
    let! delta := bp_output_delta size activations zs data in
    let! nb := index nablaB (size - 1) in
    let! nb := Clone nb (Plain delta) in
    let! nablaB := assign nablaB (size - 1) nb in
    let! nw := index nablaW (size - 1) in
    let! a := index activations (size - 1) in
    let! nw := Mul nw (Trans a) (Plain delta) in
    let! nablaW := assign nablaW (size - 1) nw in
    let! '(_, nablaB, nablaW) :=
      bp_backward n size activations zs delta nablaB nablaW in
    ret (nablaB, nablaW).

(** The gradient accumulators of one batch: [nablaB], [nablaW], zero
    matrices shaped by the entries of [n.Sizes]. *)
Definition sgd_zero_grads (n : Network) (size : Z) : M (list Dense * list Dense) :=
  let! nablaB := make_denses size in
  let! nablaW := make_denses size in
  for_range 0 size (λ i '(nablaB, nablaW),
    let! xf := At (Sizes n) 0 i in
    let! yf := At (Sizes n) 0 (i + 1) in
    let x := to_int xf in
    let y := to_int yf in
    let! w := NewDense x y in
    let! nablaW := assign nablaW i w in
    let! b := NewDense 1 y in
    let! nablaB := assign nablaB i b in
    ret (nablaB, nablaW)) (nablaB, nablaW).

(** for k := 0; k < size; k++ { nablaB[k].Add(..); nablaW[k].Add(..) } *)
Definition sgd_add_grads (size : Z) (tmpNablaB tmpNablaW nablaB nablaW : list Dense)
  : M (list Dense * list Dense) :=
  for_range 0 size (λ k '(nablaB, nablaW),
    let! nb := index nablaB k in
    let! tb := index tmpNablaB k in
    let! nb := Add nb (Plain nb) (Plain tb) in
    let! nablaB := assign nablaB k nb in
    let! nw := index nablaW k in
    let! tw := index tmpNablaW k in
    let! nw := Add nw (Plain nw) (Plain tw) in
    let! nablaW := assign nablaW k nw in
    ret (nablaB, nablaW)) (nablaB, nablaW).

(** for j := 0; j < batchSize; j++ { backprop data[i+j]; add its gradients } *)
Definition sgd_accumulate (n : Network) (data : list (list Dense)) (eta : F)
    (size i batchSize : Z) (nablaB nablaW : list Dense)
  : M (list Dense * list Dense) :=
  for_range 0 batchSize (λ j '(nablaB, nablaW),
    let! example := index data (i + j) in
    let! '(tmpNablaB, tmpNablaW) := backpropQuadCost n example eta in
    sgd_add_grads size tmpNablaB tmpNablaW nablaB nablaW) (nablaB, nablaW).

(** The in-place update of parameter matrix [params[i]] from its summed
    gradient [nabla[i]]:
    params[i].Set(j, k, params[i].At(j, k) - nabla[i].At(j, k)*eta/float64(batchSize)) *)
Definition sgd_step_matrix (params nabla : list Dense) (i : Z) (eta : F)
    (batchSize : Z) : M unit :=
  let! g := index nabla i in
  let '(x, y) := Caps g in
  for_range 0 x (λ j _,
    for_range 0 y (λ k _,
      let! p := index params i in
      let! pv := At p j k in
      let! g := index nabla i in
      let! gv := At g j k in
      Set_ p j k (fsub pv (fdiv (fmul gv eta) (of_int batchSize)))) tt) tt.

(** Change the weights and biases using the cost gradients obtained. *)
Definition sgd_update (n : Network) (eta : F) (size batchSize : Z)
    (nablaB nablaW : list Dense) : M unit :=
  for_range 0 size (λ i _,
    let! _ := sgd_step_matrix (Biases n) nablaB i eta batchSize in
    sgd_step_matrix (Weights n) nablaW i eta batchSize) tt.

(** One iteration of the loop over the batches; [batchSize] is the
    variable the loop may shorten, its new value is returned. *)
Definition sgd_batch (n : Network) (data : list (list Dense)) (eta : F)
    (i batchSize : Z) : M Z :=
  let size := NumLayers n - 1 in
  let! '(nablaB, nablaW) := sgd_zero_grads n size in
  let batchSize :=
    if decide (Z.of_nat (length data) - i * batchSize < batchSize)
    then Z.of_nat (length data) - i * batchSize
    else batchSize in
  let! '(nablaB, nablaW) := sgd_accumulate n data eta size i batchSize nablaB nablaW in
  let! _ := sgd_update n eta size batchSize nablaB nablaW in
  ret batchSize.

(** The number of iterations: len(data)/batchSize, one more when there is
    a remainder (Go's division truncates towards zero). *)
Definition sgd_iterations (len batchSize : Z) : Z :=
  if decide (Z.rem len batchSize > 0)
  then Z.quot len batchSize + 1
  else Z.quot len batchSize.

(** The test phase: count the accepted outputs and print the score. *)
Definition sgd_test (n : Network) (accept : matrix → matrix → bool)
    (test : list (list Dense)) : M unit :=
  let! correct :=
    for_range 0 (Z.of_nat (length test)) (λ i correct,
      let! t := index test i in
      let! input := index t 0 in
      let! op := FeedForward n input in
      let! desired := index t 1 in
      let! vo := load op in
      let! vd := load desired in
      ret (if accept vo vd then correct + 1 else correct)) 0 in
  λ st, Ok tt (MkState (heap st) (rnd st)
                       (out st ++ [(correct, Z.of_nat (length test))])).

(** func (n *Network) SGD(data [][]mat64.Dense, eta float64, batchSize int,
      test [][]mat64.Dense) *)
Definition SGD (n : Network) (data : list (list Dense)) (eta : F)
    (batchSize : Z) (test : option (list (list Dense))) : M unit :=
  if decide (NumLayers n < 2) then fatal msg_sgd
  else if decide (batchSize = 0) then panic
  else
    let iterations := sgd_iterations (Z.of_nat (length data)) batchSize in
    let! _ := for_range 0 iterations (λ i batchSize,
                sgd_batch n data eta i batchSize) batchSize in
    match test, TestFunc n with
    | Some test, Some accept => sgd_test n accept test
    | _, _ => ret tt
    end.

End Model.

Arguments matrix F : clear implicits.
Arguments State F : clear implicits.
Arguments Result F A : clear implicits.
Arguments M F A : clear implicits.
Arguments Network F : clear implicits.
Arguments Ok {F A} a st.
Arguments Fatal {F A} msg st.
Arguments Panic {F A}.

Notation "'let!' x ':=' m 'in' k" := (bind m (λ x, k))
  (at level 10, x name, m at level 100, k at level 200, only parsing).
Notation "'let!' ' p ':=' m 'in' k" := (bind m (λ x, let 'p := x in k))
  (at level 10, p pattern, m at level 100, k at level 200, only parsing).

(** ** A model of the scalars: exact rationals *)

Module QcModel.
Import QArith_base Qcanon.

(** A positive rational stand-in for the exponential. *)
Definition exp_model (x : Qc) : Qc := (1 + x + x * x / Q2Qc (Qmake 2 1))%Qc.

Definition trunc (x : Qc) : Z := Z.quot (Qnum (this x)) (Zpos (Qden (this x))).

Definition sample (k : nat) : Qc := Q2Qc (Qmake (Z.of_nat (k mod 7) - 3) 2).

#[export] Instance Qc_float64 : Float64 Qc := {|
  fzero := Q2Qc 0;
  fone := Q2Qc 1;
  fadd := Qcplus;
  fsub := Qcminus;
  fmul := Qcmult;
  fdiv := Qcdiv;
  fneg := Qcopp;
  fexp := exp_model;
  of_int := λ z, Q2Qc (inject_Z z);
  to_int := trunc;
  norm_float := sample
|}.

Definition st0 : State Qc := MkState [] 0 [].

End QcModel.

(** * Reasoning about the model *)

(** ** Frame reasoning: which arrays a computation may write *)

Section Frame.
Context {F : Type} `{Float64 F}.

(** [sext b st st']: from [st] to [st'] the heap only grew, the arrays
    numbered below [b] are unchanged, nothing was drawn or printed. *)
Definition sext (b : nat) (st st' : State F) : Prop :=
  (b ≤ length (heap st))%nat ∧ (length (heap st) ≤ length (heap st'))%nat ∧
  take b (heap st') = take b (heap st) ∧ rnd st' = rnd st ∧ out st' = out st.

(** A header that owns no array below [b]. *)
Definition young (b : nat) (m : Dense) : Prop :=
  (len (Data m) = 0 ∧ cap (Data m) = 0)%nat ∨ (b ≤ ptr (Data m))%nat.

(** [framed b m Q]: whenever [m] returns or exits, the arrays below [b]
    are unchanged; a returned value satisfies [Q]. *)
Definition framed {A} (b : nat) (m : M F A) (Q : A → Prop) : Prop :=
  ∀ st, (b ≤ length (heap st))%nat →
    match m st with
    | Ok a st' => sext b st st' ∧ Q a
    | Fatal _ st' => sext b st st'
    | Panic => True
    end.

Lemma sext_refl b st : (b ≤ length (heap st))%nat → sext b st st.
Proof. unfold sext. auto. Qed.

Lemma sext_trans b st1 st2 st3 : sext b st1 st2 → sext b st2 st3 → sext b st1 st3.
Proof.
  unfold sext. intros (?&?&?&?&?) (?&?&?&?&?).
  repeat split; try lia; congruence.
Qed.

Lemma framed_ret {A} b (a : A) (Q : A → Prop) : Q a → framed b (ret a) Q.
Proof. intros HQ st Hb. simpl. split; [by apply sext_refl | done]. Qed.

Lemma framed_panic {A} b (Q : A → Prop) : framed b panic Q.
Proof. by intros st Hb. Qed.

Lemma framed_fatal {A} b msg (Q : A → Prop) : framed b (fatal msg) Q.
Proof. intros st Hb. simpl. by apply sext_refl. Qed.

Lemma framed_bind {A B} b (m : M F A) (f : A → M F B) (P : A → Prop) (Q : B → Prop) :
  framed b m P → (∀ a, P a → framed b (f a) Q) → framed b (bind m f) Q.
Proof.
  intros Hm Hf st Hb. unfold bind. specialize (Hm st Hb).
  destruct (m st) as [a st1|msg st1|]; [|done..].
  destruct Hm as [Hext HP]. specialize (Hf a HP st1).
  assert (Hb1 : (b ≤ length (heap st1))%nat) by (destruct Hext as (?&?&_); lia).
  specialize (Hf Hb1).
  destruct (f a st1) as [c st2|msg st2|]; [|by eapply sext_trans|done].
  destruct Hf. split; [by eapply sext_trans | done].
Qed.

Lemma framed_mono {A} b (m : M F A) (P Q : A → Prop) :
  framed b m P → (∀ a, P a → Q a) → framed b m Q.
Proof.
  intros Hm HPQ st Hb. specialize (Hm st Hb).
  destruct (m st); [|done..]. destruct Hm; auto.
Qed.

Lemma framed_for_loop {A} b (I : A → Prop) n i (body : Z → A → M F A) a :
  I a → (∀ j x, I x → framed b (body j x) I) → framed b (for_loop n i body a) I.
Proof.
  intros Ha Hbody. revert i a Ha.
  induction n as [|n IH]; intros i a Ha; simpl.
  - by apply framed_ret.
  - eapply framed_bind; [by apply Hbody|]. intros a' Ha'. by apply IH.
Qed.

Lemma framed_for_range {A} b (I : A → Prop) lo hi (body : Z → A → M F A) a :
  I a → (∀ j x, I x → framed b (body j x) I) → framed b (for_range lo hi body a) I.
Proof. apply framed_for_loop. Qed.

Lemma framed_for_down {A} b (I : A → Prop) n (body : Z → A → M F A) a :
  I a → (∀ j x, I x → framed b (body j x) I) → framed b (for_down n body a) I.
Proof.
  intros Ha Hbody. revert a Ha.
  induction n as [|n IH]; intros a Ha; simpl.
  - by apply framed_ret.
  - eapply framed_bind; [by apply Hbody|]. intros a' Ha'. by apply IH.
Qed.

Lemma framed_index {A} b (P : A → Prop) (l : list A) i :
  Forall P l → framed b (index l i) P.
Proof.
  intros Hl. unfold index. destruct (decide _); [|apply framed_panic].
  destruct (l !! Z.to_nat i) as [x|] eqn:E; [|apply framed_panic].
  apply framed_ret. eapply Forall_lookup_1; eauto.
Qed.

Lemma framed_index_any {A} b (l : list A) i : framed b (index l i) (λ _, True).
Proof. apply framed_index. by apply Forall_true. Qed.

Lemma framed_assign {A} b (P : A → Prop) (l : list A) i x :
  Forall P l → P x → framed b (assign l i x) (Forall P).
Proof.
  intros Hl Hx. unfold assign. destruct (decide _); [|apply framed_panic].
  apply framed_ret. by apply Forall_insert.
Qed.

Lemma young_Dense0 b : young b Dense0.
Proof. by left. Qed.

Lemma young_Reset b m : young b m → young b (Reset m).
Proof. intros [[_ ?]|?]; [left|right]; simpl; auto. Qed.

Lemma framed_make_denses b n : framed b (make_denses n) (Forall (young b)).
Proof.
  unfold make_denses. destruct (decide _); [apply framed_panic|].
  apply framed_ret. apply Forall_replicate, young_Dense0.
Qed.

Lemma framed_make_floats b n : framed b (make_floats n) (λ s, (b ≤ ptr s)%nat).
Proof.
  intros st Hb. unfold make_floats. destruct (decide _); [done|]. simpl.
  split; [|done]. unfold sext; simpl. rewrite length_app. simpl.
  repeat split; try lia. by rewrite take_app_le.
Qed.

Lemma framed_slice_get b s n : framed b (slice_get s n) (λ _, True).
Proof.
  intros st Hb. unfold slice_get. destruct (decide _); [|done].
  split; [by apply sext_refl | done].
Qed.

Lemma framed_load b m : framed b (load m) (λ _, True).
Proof.
  unfold load. destruct (decide _); [apply framed_panic|].
  eapply framed_bind; [apply framed_slice_get|]. intros. by apply framed_ret.
Qed.

Lemma framed_load_operand b a : framed b (load_operand a) (λ _, True).
Proof.
  destruct a; simpl; [apply framed_load|].
  eapply framed_bind; [apply framed_load|]. intros. by apply framed_ret.
Qed.

Lemma slice_view_empty s (h : list (list F)) : len s = 0%nat → slice_view s h = [].
Proof. unfold slice_view. by intros ->. Qed.

Lemma framed_slice_put b s vs :
  (len s = 0%nat ∨ (b ≤ ptr s)%nat) → framed b (slice_put s vs) (λ _, True).
Proof.
  intros Hs st Hb. unfold slice_put. destruct (decide _) as [Hlen|]; [|done].
  split; [|done]. unfold sext; cbn [heap rnd out]. rewrite length_alter.
  repeat split; try lia.
  destruct Hs as [Hs|Hs].
  - rewrite slice_view_empty in Hlen by done. simpl in Hlen.
    destruct vs; [|simpl in Hlen; lia].
    f_equal. apply list_alter_id. done.
  - by rewrite take_alter_ge.
Qed.

Lemma framed_store b m v : young b m → framed b (store m v) (λ _, True).
Proof. intros [[? _]|?]; apply framed_slice_put; auto. Qed.

Lemma framed_use b s l :
  ((len s = 0 ∧ cap s = 0)%nat ∨ (b ≤ ptr s)%nat) →
  framed b (use s l) (λ s', (len s' = 0 ∧ cap s' = 0)%nat ∨ (b ≤ ptr s')%nat).
Proof.
  intros Hs. unfold use. destruct (decide _); [apply framed_panic|].
  destruct (decide _).
  - apply framed_ret. simpl. destruct Hs as [[? Hc]|?]; [left|by right].
    split; [lia|done].
  - eapply framed_mono; [apply framed_make_floats|]. auto.
Qed.

Lemma framed_reuseAs b m r c : young b m → framed b (reuseAs m r c) (young b).
Proof.
  intros Hm. unfold reuseAs. destruct (decide _); [apply framed_panic|].
  destruct (isZero m).
  - eapply framed_bind; [by apply framed_use|]. intros s Hs. by apply framed_ret.
  - destruct (decide _); [apply framed_panic|]. by apply framed_ret.
Qed.

Lemma framed_receive b m r c compute :
  young b m → framed b compute (λ _, True) → framed b (receive m r c compute) (young b).
Proof.
  intros Hm Hc. unfold receive.
  eapply framed_bind; [by apply framed_reuseAs|]. intros m' Hm'.
  eapply framed_bind; [apply Hc|]. intros v _.
  eapply framed_bind; [by apply framed_store|]. intros _ _.
  by apply framed_ret.
Qed.

Lemma framed_load2 b (a a' : operand) (g : matrix F → matrix F → matrix F) :
  framed b (compute2 g a a') (λ _, True).
Proof.
  unfold compute2.
  eapply framed_bind; [apply framed_load_operand|]. intros va _.
  eapply framed_bind; [apply framed_load_operand|]. intros vb _.
  by apply framed_ret.
Qed.

Lemma framed_Mul b m a a' : young b m → framed b (Mul m a a') (young b).
Proof.
  intros Hm. unfold Mul. destruct (Dims a), (Dims a').
  destruct (decide _); [apply framed_panic|].
  apply framed_receive; [done|]. apply framed_load2.
Qed.

Lemma framed_elementwise b op m a a' :
  young b m → framed b (elementwise op m a a') (young b).
Proof.
  intros Hm. unfold elementwise. destruct (Dims a), (Dims a').
  destruct (decide _); [apply framed_panic|].
  apply framed_receive; [done|]. apply framed_load2.
Qed.

Lemma framed_Apply b m fn a : young b m → framed b (Apply m fn a) (young b).
Proof.
  intros Hm. unfold Apply. destruct (Dims a).
  apply framed_receive; [done|]. unfold compute1.
  eapply framed_bind; [apply framed_load_operand|]. intros. by apply framed_ret.
Qed.

Lemma framed_Clone b m a : framed b (Clone m a) (young b).
Proof.
  unfold Clone. destruct (Dims a).
  eapply framed_bind; [apply framed_make_floats|]. intros d Hd.
  eapply framed_bind; [apply framed_load_operand|]. intros v _.
  eapply framed_bind; [apply framed_store; by right|]. intros _ _.
  apply framed_ret. by right.
Qed.

(** *** The programs *)

Lemma framed_FeedForward b n input :
  framed b (FeedForward n input) (λ _, True).
Proof.
  unfold FeedForward. apply framed_for_range; [done|]. intros i ptr _.
  eapply framed_bind; [apply framed_index_any|]. intros wi _.
  eapply framed_bind; [apply framed_Mul, young_Dense0|]. intros w Hw.
  eapply framed_bind; [apply framed_index_any|]. intros bi _.
  eapply framed_bind; [by apply framed_elementwise|]. intros w' Hw'.
  eapply framed_bind; [by apply framed_Apply|]. intros w'' Hw''.
  by apply framed_ret.
Qed.

Lemma framed_quadraticCost b o d : framed b (quadraticCost o d) (young b).
Proof. apply framed_elementwise, young_Dense0. Qed.

Definition young2 (b : nat) (p : list Dense * list Dense) : Prop :=
  Forall (young b) p.1 ∧ Forall (young b) p.2.

Lemma framed_bp_forward b n size acts zs :
  Forall (young b) acts → Forall (young b) zs →
  framed b (bp_forward n size acts zs) (young2 b).
Proof.
  intros Ha Hz. unfold bp_forward.
  apply framed_for_range; [by split|]. clear. intros i [acts zs] [Ha Hz]; simpl in *.
  eapply framed_bind; [by apply framed_index|]. intros a1 Ha1.
  eapply framed_bind; [apply framed_index_any|]. intros a _.
  eapply framed_bind; [apply framed_index_any|]. intros wi _.
  eapply framed_bind; [by apply framed_Mul|]. intros a1' Ha1'.
  eapply framed_bind; [apply framed_index_any|]. intros bi _.
  eapply framed_bind; [by apply framed_elementwise|]. intros a1'' Ha1''.
  eapply framed_bind; [apply framed_index_any|]. intros z _.
  eapply framed_bind; [apply framed_Clone|]. intros z' Hz'.
  eapply framed_bind; [by apply framed_assign|]. intros zs' Hzs'.
  eapply framed_bind; [by apply framed_Apply|]. intros a3 Ha3.
  eapply framed_bind; [by apply framed_assign|]. intros acts' Hacts'.
  by apply framed_ret.
Qed.

Lemma framed_bp_clone b n size nW nB :
  Forall (young b) nW → Forall (young b) nB →
  framed b (bp_clone n size nW nB) (young2 b).
Proof.
  intros Ha Hz. unfold bp_clone.
  apply framed_for_range; [by split|]. clear. intros i [nW nB] [HW HB]; simpl in *.
  eapply framed_bind; [apply framed_index_any|]. intros nw _.
  eapply framed_bind; [apply framed_index_any|]. intros wi _.
  eapply framed_bind; [apply framed_Clone|]. intros nw' Hnw'.
  eapply framed_bind; [by apply framed_assign|]. intros nW' HnW'.
  eapply framed_bind; [apply framed_index_any|]. intros nb _.
  eapply framed_bind; [apply framed_index_any|]. intros bi _.
  eapply framed_bind; [apply framed_Clone|]. intros nb' Hnb'.
  eapply framed_bind; [by apply framed_assign|]. intros nB' HnB'.
  by apply framed_ret.
Qed.

Lemma framed_bp_output_delta b size acts zs data :
  framed b (bp_output_delta size acts zs data) (young b).
Proof.
  unfold bp_output_delta.
  eapply framed_bind; [apply framed_index_any|]. intros aL _.
  eapply framed_bind; [apply framed_index_any|]. intros d _.
  eapply framed_bind; [apply framed_quadraticCost|]. intros e _.
  eapply framed_bind; [apply framed_index_any|]. intros z _.
  eapply framed_bind; [apply framed_Apply, young_Dense0|]. intros tmp _.
  apply framed_elementwise, young_Dense0.
Qed.

Definition young3 (b : nat) (p : Dense * list Dense * list Dense) : Prop :=
  young b p.1.1 ∧ Forall (young b) p.1.2 ∧ Forall (young b) p.2.

Lemma framed_bp_backward b n size acts zs delta nB nW :
  young b delta → Forall (young b) nB → Forall (young b) nW →
  framed b (bp_backward n size acts zs delta nB nW) (young3 b).
Proof.
  intros Hd HB HW. unfold bp_backward.
  apply framed_for_down; [by repeat split|]. clear.
  intros i [[delta nB] nW] (Hd & HB & HW); simpl in *.
  eapply framed_bind; [apply framed_index_any|]. intros z _.
  eapply framed_bind; [apply framed_Apply, young_Dense0|]. intros sp _.
  eapply framed_bind; [apply framed_index_any|]. intros w1 _.
  eapply framed_bind; [apply framed_Mul, young_Dense0|]. intros tmp _.
  eapply framed_bind; [by apply framed_elementwise, young_Reset|]. intros delta' Hd'.
  eapply framed_bind; [by apply framed_assign|]. intros nB' HnB'.
  eapply framed_bind; [by apply framed_index|]. intros nw Hnw.
  eapply framed_bind; [apply framed_index_any|]. intros a _.
  eapply framed_bind; [by apply framed_Mul|]. intros nw' Hnw'.
  eapply framed_bind; [by apply framed_assign|]. intros nW' HnW'.
  by apply framed_ret.
Qed.

Lemma framed_backpropQuadCost b n data eta :
  framed b (backpropQuadCost n data eta) (young2 b).
Proof.
  unfold backpropQuadCost. destruct (decide _); [apply framed_fatal|].
  eapply framed_bind; [apply framed_make_denses|]. intros acts Hacts.
  eapply framed_bind; [apply framed_make_denses|]. intros zs Hzs.
  eapply framed_bind; [apply framed_index_any|]. intros a0 _.
  eapply framed_bind; [apply framed_index_any|]. intros input _.
  eapply framed_bind; [apply framed_Clone|]. intros a0' Ha0'.
  eapply framed_bind; [by apply framed_assign|]. intros acts' Hacts'.
  eapply framed_bind; [by apply framed_bp_forward|]. intros [acts2 zs2] [Ha2 Hz2].
  simpl in *.
  eapply framed_bind; [apply framed_make_denses|]. intros nW HnW.
  eapply framed_bind; [apply framed_make_denses|]. intros nB HnB.
  eapply framed_bind; [by apply framed_bp_clone|]. intros [nW2 nB2] [HW2 HB2].
  simpl in *.
  eapply framed_bind; [apply framed_bp_output_delta|]. intros delta Hdelta.
  eapply framed_bind; [apply framed_index_any|]. intros nb _.
  eapply framed_bind; [apply framed_Clone|]. intros nb' Hnb'.
  eapply framed_bind; [by apply framed_assign|]. intros nB3 HnB3.
  eapply framed_bind; [by apply framed_index|]. intros nw Hnw.
  eapply framed_bind; [apply framed_index_any|]. intros a _.
  eapply framed_bind; [by apply framed_Mul|]. intros nw' Hnw'.
  eapply framed_bind; [by apply framed_assign|]. intros nW3 HnW3.
  eapply framed_bind; [by apply framed_bp_backward|].
  intros [[d4 nB4] nW4] (_ & HB4 & HW4). simpl in *.
  by apply framed_ret.
Qed.

Lemma framed_At b m i j : framed b (At m i j) (λ _, True).
Proof.
  intros st Hb. unfold At. destruct (decide _); [|done].
  destruct (_ !! _); [|done]. split; [by apply sext_refl|done].
Qed.

Lemma framed_NewDense b r c : framed b (NewDense r c) (young b).
Proof.
  unfold NewDense. eapply framed_bind; [apply framed_make_floats|].
  intros d Hd. apply framed_ret. by right.
Qed.

Lemma framed_sgd_zero_grads b n size :
  framed b (sgd_zero_grads n size) (young2 b).
Proof.
  unfold sgd_zero_grads.
  eapply framed_bind; [apply framed_make_denses|]. intros nB HnB.
  eapply framed_bind; [apply framed_make_denses|]. intros nW HnW.
  apply framed_for_range; [by split|]. clear. intros i [nB nW] [HB HW]; simpl in *.
  eapply framed_bind; [apply framed_At|]. intros xf _.
  eapply framed_bind; [apply framed_At|]. intros yf _.
  eapply framed_bind; [apply framed_NewDense|]. intros w Hw.
  eapply framed_bind; [by apply framed_assign|]. intros nW' HnW'.
  eapply framed_bind; [apply framed_NewDense|]. intros b' Hb'.
  eapply framed_bind; [by apply framed_assign|]. intros nB' HnB'.
  by apply framed_ret.
Qed.

Lemma framed_sgd_add_grads b size tB tW nB nW :
  Forall (young b) nB → Forall (young b) nW →
  framed b (sgd_add_grads size tB tW nB nW) (young2 b).
Proof.
  intros HB HW. unfold sgd_add_grads.
  apply framed_for_range; [by split|]. clear. intros k [nB nW] [HB HW]; simpl in *.
  eapply framed_bind; [by apply framed_index|]. intros nb Hnb.
  eapply framed_bind; [apply framed_index_any|]. intros tb _.
  eapply framed_bind; [by apply framed_elementwise|]. intros nb' Hnb'.
  eapply framed_bind; [by apply framed_assign|]. intros nB' HnB'.
  eapply framed_bind; [by apply framed_index|]. intros nw Hnw.
  eapply framed_bind; [apply framed_index_any|]. intros tw _.
  eapply framed_bind; [by apply framed_elementwise|]. intros nw' Hnw'.
  eapply framed_bind; [by apply framed_assign|]. intros nW' HnW'.
  by apply framed_ret.
Qed.

Lemma framed_sgd_accumulate b n data eta size i batchSize nB nW :
  Forall (young b) nB → Forall (young b) nW →
  framed b (sgd_accumulate n data eta size i batchSize nB nW) (young2 b).
Proof.
  intros HB HW. unfold sgd_accumulate.
  apply framed_for_range; [by split|]. clear. intros j [nB nW] [HB HW]; simpl in *.
  eapply framed_bind; [apply framed_index_any|]. intros ex _.
  eapply framed_bind; [apply framed_backpropQuadCost|]. intros [tB tW] _.
  by apply framed_sgd_add_grads.
Qed.

(** What a frame statement gives for a completed run. *)
Lemma framed_Ok {A} (m : M F A) (Q : A → Prop) st a st' :
  framed (length (heap st)) m Q → m st = Ok a st' →
  (∃ ext, heap st' = heap st ++ ext) ∧ rnd st' = rnd st ∧ out st' = out st ∧ Q a.
Proof.
  intros Hm E. specialize (Hm st (le_n _)). rewrite E in Hm.
  destruct Hm as [(_ & Hlen & Htake & ? & ?) HQ]. repeat split; try done.
  exists (drop (length (heap st)) (heap st')).
  rewrite <- (take_drop (length (heap st)) (heap st')) at 1.
  f_equal. rewrite Htake. by apply take_ge.
Qed.

End Frame.

(** ** Values held by headers, and runs that return *)

Section Total.
Context {F : Type} `{Float64 F}.
Implicit Types (h : list (list F)) (st : State F) (m : Dense) (v : matrix F).

(** The state after allocating [arr], and after replacing array [p]. *)
Definition push st (arr : list F) : State F :=
  MkState (heap st ++ [arr]) (rnd st) (out st).
Definition poke st (p : nat) (arr : list F) : State F :=
  MkState (<[p := arr]> (heap st)) (rnd st) (out st).

(** The header of a freshly allocated [r]x[c] matrix over array [p]. *)
Definition dense_at (p : nat) (r c : Z) : Dense :=
  MkDense r c r c (Slice p (Z.to_nat (r * c)) (Z.to_nat (r * c))).

Definition cells m : nat := Z.to_nat (Rows m * Cols m).

(** A header with positive dimensions whose array is allocated and large
    enough. *)
Definition valid h m : Prop :=
  0 < Rows m ∧ 0 < Cols m ∧ Rows m ≤ capRows m ∧ Cols m ≤ capCols m ∧
  (cells m ≤ len (Data m) ≤ cap (Data m))%nat ∧
  ∃ arr, h !! ptr (Data m) = Some arr ∧ length arr = cap (Data m).

(** The matrix a header denotes in a heap. *)
Definition value h m : matrix F :=
  Mat (Rows m) (Cols m) (take (cells m) (slice_view (Data m) h)).

Definition holds h m v : Prop := valid h m ∧ value h m = v.

Definition opvalid h (a : operand) : Prop :=
  match a with Plain m | Trans m => valid h m end.
Definition opvalue h (a : operand) : matrix F :=
  match a with Plain m => value h m | Trans m => mtrans (value h m) end.

Definition opholds h (a : operand) v : Prop := opvalid h a ∧ opvalue h a = v.

(** A matrix value with positive dimensions and as many entries. *)
Definition wfm v : Prop :=
  0 < mr v ∧ 0 < mc v ∧ length (md v) = Z.to_nat (mr v * mc v).

(** [tspec st m Q]: run from [st], [m] returns, and the result and final
    state satisfy [Q]. *)
Definition tspec {A} st (m : M F A) (Q : A → State F → Prop) : Prop :=
  match m st with Ok a st' => Q a st' | _ => False end.

Lemma tspec_ret {A} st (a : A) Q : Q a st → tspec st (ret a) Q.
Proof. done. Qed.

Lemma tspec_bind {A B} st (m : M F A) (f : A → M F B) Q :
  tspec st m (λ a st', tspec st' (f a) Q) → tspec st (bind m f) Q.
Proof. unfold tspec, bind. by destruct (m st). Qed.

Lemma tspec_eq {A} st (m : M F A) a st' (Q : A → State F → Prop) :
  m st = Ok a st' → Q a st' → tspec st m Q.
Proof. unfold tspec. by intros ->. Qed.

Lemma tspec_step {A B} st (m : M F A) (f : A → M F B) a st' Q :
  m st = Ok a st' → tspec st' (f a) Q → tspec st (bind m f) Q.
Proof. unfold tspec, bind. by intros ->. Qed.

Lemma tspec_mono {A} st (m : M F A) (P Q : A → State F → Prop) :
  tspec st m P → (∀ a st', P a st' → Q a st') → tspec st m Q.
Proof. unfold tspec. destruct (m st); auto. Qed.

Lemma tspec_inv {A} st (m : M F A) Q :
  tspec st m Q → ∃ a st', m st = Ok a st' ∧ Q a st'.
Proof. unfold tspec. destruct (m st); [eauto|done..]. Qed.

Lemma tspec_for_loop {A} (I : Z → A → State F → Prop) n i
    (body : Z → A → M F A) a st :
  I i a st →
  (∀ j x s, i ≤ j < i + Z.of_nat n → I j x s → tspec s (body j x) (I (j + 1))) →
  tspec st (for_loop n i body a) (I (i + Z.of_nat n)).
Proof.
  revert i a st. induction n as [|n IH]; intros i a st Hi Hbody.
  - simpl. apply tspec_ret. by replace (i + Z.of_nat 0) with i by lia.
  - simpl for_loop. apply tspec_bind.
    eapply tspec_mono; [apply Hbody; [lia|done]|].
    intros a' st' Ha'. simpl in Ha'.
    replace (i + Z.of_nat (S n)) with ((i + 1) + Z.of_nat n) by lia.
    apply IH; [done|]. intros j x s Hj. apply Hbody. lia.
Qed.

Lemma tspec_for_range {A} (I : Z → A → State F → Prop) lo hi
    (body : Z → A → M F A) a st :
  lo ≤ hi → I lo a st →
  (∀ j x s, lo ≤ j < hi → I j x s → tspec s (body j x) (I (j + 1))) →
  tspec st (for_range lo hi body a) (I hi).
Proof.
  intros Hle Hi Hbody. unfold for_range.
  replace hi with (lo + Z.of_nat (Z.to_nat (hi - lo))) at 2 by lia.
  apply tspec_for_loop; [done|]. intros j x s Hj. apply Hbody. lia.
Qed.

Lemma tspec_for_down {A} (I : nat → A → State F → Prop) n
    (body : Z → A → M F A) a st :
  I n a st →
  (∀ k x s, (k < n)%nat → I (S k) x s → tspec s (body (Z.of_nat k) x) (I k)) →
  tspec st (for_down n body a) (I O).
Proof.
  revert a st. induction n as [|n IH]; intros a st Hi Hbody.
  - by apply tspec_ret.
  - simpl for_down. apply tspec_bind.
    eapply tspec_mono; [apply Hbody; [lia|done]|].
    intros a' st' Ha'. apply IH; [done|]. intros k x s Hk. apply Hbody. lia.
Qed.

Lemma index_eq {A} (l : list A) i x st :
  0 ≤ i → l !! Z.to_nat i = Some x → index l i st = Ok x st.
Proof. intros Hi Hl. unfold index. rewrite decide_True by done. by rewrite Hl. Qed.

Lemma assign_eq {A} (l : list A) i x st :
  0 ≤ i < Z.of_nat (length l) → assign l i x st = Ok (<[Z.to_nat i := x]> l) st.
Proof. intros Hi. unfold assign. by rewrite decide_True. Qed.

(** *** Heap lemmas *)

Lemma slice_view_agree s h h' :
  h' !! ptr s = h !! ptr s → slice_view s h' = slice_view s h.
Proof. unfold slice_view. by intros ->. Qed.

Lemma valid_agree h h' m :
  h' !! ptr (Data m) = h !! ptr (Data m) → valid h m → valid h' m.
Proof. unfold valid. intros ->. done. Qed.

Lemma value_agree h h' m :
  h' !! ptr (Data m) = h !! ptr (Data m) → value h' m = value h m.
Proof. unfold value. intros E. by rewrite (slice_view_agree _ _ _ E). Qed.

Lemma valid_ptr h m : valid h m → (ptr (Data m) < length h)%nat.
Proof. intros (_&_&_&_&_&arr&Harr&_). by eapply lookup_lt_Some. Qed.

Lemma valid_cells h m : valid h m → (0 < cells m)%nat.
Proof. intros (?&?&_). unfold cells. nia. Qed.

Lemma valid_app h ext m : valid h m → valid (h ++ ext) m.
Proof.
  intros Hv. eapply valid_agree; [|done].
  apply lookup_app_l. by eapply valid_ptr.
Qed.

Lemma value_app h ext m : valid h m → value (h ++ ext) m = value h m.
Proof. intros Hv. apply value_agree, lookup_app_l. by eapply valid_ptr. Qed.

Lemma holds_app h ext m v : holds h m v → holds (h ++ ext) m v.
Proof. intros [Hv <-]. split; [by apply valid_app | by apply value_app]. Qed.

Lemma valid_insert h p arr m :
  valid h m → (∀ old, h !! p = Some old → length arr = length old) →
  valid (<[p := arr]> h) m.
Proof.
  intros (?&?&?&?&?&old&Hold&Hlen) Harr. unfold valid.
  split_and!; try done; try lia.
  destruct (decide (p = ptr (Data m))) as [->|Hne].
  - exists arr. split; [|rewrite (Harr _ Hold); done].
    apply list_lookup_insert_eq. by eapply lookup_lt_Some.
  - exists old. by rewrite list_lookup_insert_ne.
Qed.

Lemma value_insert_ne h p arr m :
  ptr (Data m) ≠ p → value (<[p := arr]> h) m = value h m.
Proof. intros Hne. apply value_agree. by apply list_lookup_insert_ne. Qed.

Lemma holds_insert_ne h p arr m v :
  holds h m v → ptr (Data m) ≠ p →
  (∀ old, h !! p = Some old → length arr = length old) →
  holds (<[p := arr]> h) m v.
Proof.
  intros [Hv <-] Hne Hlen. split; [by apply valid_insert|by apply value_insert_ne].
Qed.

Lemma slice_view_valid h m arr :
  valid h m → h !! ptr (Data m) = Some arr →
  slice_view (Data m) h = take (len (Data m)) arr.
Proof. intros _ E. unfold slice_view. by rewrite E. Qed.

Lemma value_valid h m arr :
  valid h m → h !! ptr (Data m) = Some arr →
  value h m = Mat (Rows m) (Cols m) (take (cells m) arr).
Proof.
  intros Hv E. unfold value. rewrite (slice_view_valid _ _ _ Hv E).
  destruct Hv as (_&_&_&_&?&_). rewrite take_take. f_equal. f_equal. lia.
Qed.

Lemma value_wfm h m : valid h m → wfm (value h m).
Proof.
  intros Hv. pose proof Hv as (?&?&_&_&?&arr&E&Hlen).
  rewrite (value_valid _ _ _ Hv E). unfold wfm; simpl. split_and!; try done.
  rewrite length_take. unfold cells in *. lia.
Qed.

Lemma value_dims h m : mr (value h m) = Rows m ∧ mc (value h m) = Cols m.
Proof. done. Qed.

Lemma valid_fresh h arr r c :
  0 < r → 0 < c → length arr = Z.to_nat (r * c) →
  valid (h ++ [arr]) (dense_at (length h) r c).
Proof.
  intros Hr Hc Hlen. unfold valid, dense_at, cells; simpl. split_and!; try lia.
  exists arr. split; [|done]. by rewrite lookup_app_r, Nat.sub_diag.
Qed.

Lemma value_fresh h arr r c :
  length arr = Z.to_nat (r * c) →
  value (h ++ [arr]) (dense_at (length h) r c) = Mat r c arr.
Proof.
  intros Hlen. unfold value, dense_at, cells, slice_view; simpl.
  rewrite lookup_app_r, Nat.sub_diag by done. simpl.
  rewrite take_take, Nat.min_id, <- Hlen. by rewrite firstn_all.
Qed.

(** *** Matrix values *)

Lemma length_row_major r c (f : Z → Z → F) :
  length (row_major r c f) = (Z.to_nat r * Z.to_nat c)%nat.
Proof.
  unfold row_major. rewrite <- (length_seqZ 0 r).
  induction (seqZ 0 r) as [|i l IH]; [done|].
  simpl. rewrite length_app, IH, length_map, length_seqZ. done.
Qed.

Lemma wfm_tabulate r c (f : Z → Z → F) : 0 < r → 0 < c → wfm (tabulate r c f).
Proof.
  intros Hr Hc. unfold wfm, tabulate; simpl. split_and!; try done.
  rewrite length_row_major. lia.
Qed.

Lemma lookup_flat_map_const {A B} (g : A → list B) (l : list A) n a b x :
  (∀ y, length (g y) = n) → l !! a = Some x → (b < n)%nat →
  flat_map g l !! (a * n + b)%nat = g x !! b.
Proof.
  intros Hg. revert a. induction l as [|y l IH]; intros a Ha Hb; [done|].
  destruct a as [|a]; simpl in *.
  - injection Ha as ->. apply lookup_app_l. rewrite Hg. done.
  - rewrite lookup_app_r by (rewrite Hg; lia).
    rewrite Hg. replace (n + a * n + b - n)%nat with (a * n + b)%nat by lia.
    by apply IH.
Qed.

Lemma mat_at_tabulate r c (f : Z → Z → F) i j :
  0 ≤ i < r → 0 ≤ j < c → mat_at (tabulate r c f) i j = f i j.
Proof.
  intros Hi Hj. unfold mat_at, tabulate, row_major; simpl.
  replace (Z.to_nat (i * c + j)) with (Z.to_nat i * Z.to_nat c + Z.to_nat j)%nat by nia.
  erewrite lookup_flat_map_const with (x := i).
  - rewrite list_lookup_fmap, lookup_seqZ_lt by lia. simpl. f_equal. lia.
  - intros y. by rewrite length_map, length_seqZ.
  - rewrite lookup_seqZ_lt by lia. f_equal. lia.
  - lia.
Qed.

Lemma opvalue_dims h a :
  mr (opvalue h a) = (Dims a).1 ∧ mc (opvalue h a) = (Dims a).2.
Proof. by destruct a. Qed.

Lemma opvalid_dims h a : opvalid h a → 0 < (Dims a).1 ∧ 0 < (Dims a).2.
Proof. destruct a; intros (?&?&_); simpl; done. Qed.

Lemma opvalid_app h ext a : opvalid h a → opvalid (h ++ ext) a.
Proof. destruct a; apply valid_app. Qed.

Lemma opvalue_app h ext a : opvalid h a → opvalue (h ++ ext) a = opvalue h a.
Proof. destruct a; simpl; intros Hv; by rewrite value_app. Qed.

(** *** What the mat64 operations return *)

Lemma alter_insert {A} (f : A → A) (l : list A) p x :
  l !! p = Some x → alter f p l = <[p := f x]> l.
Proof.
  intros E. apply list_eq. intros q.
  destruct (decide (p = q)) as [<-|Hne].
  - rewrite list_lookup_alter_eq, E.
    rewrite list_lookup_insert_eq by (by eapply lookup_lt_Some). done.
  - by rewrite list_lookup_alter_ne, list_lookup_insert_ne.
Qed.

Lemma make_floats_eq st n :
  0 ≤ n →
  make_floats n st
  = Ok (Slice (length (heap st)) (Z.to_nat n) (Z.to_nat n))
       (push st (replicate (Z.to_nat n) fzero)).
Proof. intros Hn. unfold make_floats. by rewrite decide_False by lia. Qed.

Lemma NewDense_eq st r c :
  0 ≤ r * c →
  NewDense r c st
  = Ok (dense_at (length (heap st)) r c) (push st (replicate (Z.to_nat (r * c)) fzero)).
Proof. intros Hn. unfold NewDense, bind. by rewrite make_floats_eq. Qed.

Lemma load_eq st m : valid (heap st) m → load m st = Ok (value (heap st) m) st.
Proof.
  intros Hv. pose proof Hv as (?&?&_&_&?&arr&E&Hlen).
  unfold load. rewrite decide_False by nia.
  unfold bind, slice_get. rewrite decide_True; [done|].
  rewrite (slice_view_valid _ _ _ Hv E), length_take. unfold cells in *. lia.
Qed.

Lemma load_operand_eq st a :
  opvalid (heap st) a → load_operand a st = Ok (opvalue (heap st) a) st.
Proof.
  destruct a; simpl; intros Hv; [by apply load_eq|].
  unfold bind. by rewrite load_eq.
Qed.

Lemma compute2_eq st g a b :
  opvalid (heap st) a → opvalid (heap st) b →
  compute2 g a b st = Ok (g (opvalue (heap st) a) (opvalue (heap st) b)) st.
Proof.
  intros Ha Hb. unfold compute2, bind. by rewrite !load_operand_eq.
Qed.

Lemma compute1_eq st g a :
  opvalid (heap st) a → compute1 g a st = Ok (g (opvalue (heap st) a)) st.
Proof. intros Ha. unfold compute1, bind. by rewrite load_operand_eq. Qed.

Lemma store_eq st m v arr :
  heap st !! ptr (Data m) = Some arr →
  (length (md v) ≤ len (Data m))%nat → (length (md v) ≤ length arr)%nat →
  store m v st
  = Ok tt (poke st (ptr (Data m)) (md v ++ drop (length (md v)) arr)).
Proof.
  intros E Hlen Harr. unfold store, slice_put, slice_view. rewrite E. simpl.
  rewrite decide_True by (rewrite length_take; lia).
  unfold poke. by rewrite (alter_insert _ _ _ _ E).
Qed.

(** The receiver is empty and too small: a new array is allocated. *)
Lemma receive_fresh st m r c compute v :
  isZero m = true → Rows m ≤ capRows m → Cols m ≤ capCols m →
  Z.of_nat (cap (Data m)) < r * c →
  (∀ z, compute (push st z) = Ok v (push st z)) →
  length (md v) = Z.to_nat (r * c) →
  receive m r c compute st = Ok (dense_at (length (heap st)) r c) (push st (md v)).
Proof.
  intros Hz Hr Hc Hcap Hcomp Hlen. unfold receive, bind at 1, reuseAs.
  rewrite decide_False by lia. rewrite Hz. unfold bind at 1, use.
  rewrite decide_False by lia. rewrite decide_False by lia.
  rewrite make_floats_eq by lia. simpl. unfold bind at 1. rewrite Hcomp.
  unfold bind.
  erewrite store_eq with (arr := replicate (Z.to_nat (r * c)) fzero).
  - simpl. unfold push, poke; simpl. f_equal. f_equal.
    rewrite insert_app_r_alt, Nat.sub_diag by done. simpl.
    rewrite drop_ge by (rewrite length_replicate; lia). by rewrite app_nil_r.
  - simpl. by rewrite lookup_app_r, Nat.sub_diag.
  - simpl. lia.
  - rewrite length_replicate. lia.
Qed.

(** The receiver already has the right shape: it is overwritten. *)
Lemma receive_inplace st m r c compute v arr :
  valid (heap st) m → Rows m = r → Cols m = c →
  heap st !! ptr (Data m) = Some arr →
  compute st = Ok v st → length (md v) = cells m →
  receive m r c compute st
  = Ok m (poke st (ptr (Data m)) (md v ++ drop (cells m) arr)).
Proof.
  intros Hv <- <- E Hcomp Hlen. pose proof Hv as (?&?&?&?&?&arr'&E'&Harr).
  rewrite E in E'. injection E' as <-.
  unfold receive, bind at 1, reuseAs.
  rewrite decide_False by lia.
  unfold isZero. rewrite bool_decide_eq_false_2 by lia.
  rewrite decide_False by (intros [?|?]; done).
  simpl. unfold bind at 1. rewrite Hcomp. unfold bind.
  rewrite (store_eq _ _ _ _ E) by lia. by rewrite Hlen.
Qed.

(** The receiver was reset and its array is large enough: it is reused. *)
Lemma receive_reuse st m r c compute v arr :
  isZero m = true → Rows m ≤ capRows m → Cols m ≤ capCols m →
  0 ≤ r * c ≤ Z.of_nat (cap (Data m)) →
  heap st !! ptr (Data m) = Some arr → length arr = cap (Data m) →
  compute st = Ok v st → length (md v) = Z.to_nat (r * c) →
  receive m r c compute st
  = Ok (MkDense r c r c (Slice (ptr (Data m)) (Z.to_nat (r * c)) (cap (Data m))))
       (poke st (ptr (Data m)) (md v ++ drop (Z.to_nat (r * c)) arr)).
Proof.
  intros Hz Hr Hc Hcap E Harr Hcomp Hlen. unfold receive, bind at 1, reuseAs.
  rewrite decide_False by lia. rewrite Hz. unfold bind at 1, use.
  rewrite decide_False by lia. rewrite decide_True by lia.
  simpl. unfold bind at 1. rewrite Hcomp. unfold bind.
  erewrite store_eq with (arr := arr); simpl; [|done|lia..].
  by rewrite Hlen.
Qed.

(** *** How a step changes the heap *)

(** [keeps p st st']: only array [p] may have been written, it kept its
    length, and the heap did not shrink. *)
Definition keeps (p : nat) st st' : Prop :=
  rnd st' = rnd st ∧ out st' = out st ∧
  (length (heap st) ≤ length (heap st'))%nat ∧
  (∀ q, q ≠ p → (q < length (heap st))%nat → heap st' !! q = heap st !! q) ∧
  (∀ arr, heap st !! p = Some arr →
     ∃ arr', heap st' !! p = Some arr' ∧ length arr' = length arr).

(** [stable b st st']: the arrays below [b] are unchanged. *)
Definition stable (b : nat) st st' : Prop :=
  rnd st' = rnd st ∧ out st' = out st ∧
  (length (heap st) ≤ length (heap st'))%nat ∧
  (∀ q, (q < b)%nat → heap st' !! q = heap st !! q).

Lemma stable_refl b st : stable b st st.
Proof. by unfold stable. Qed.

Lemma stable_trans b st1 st2 st3 :
  stable b st1 st2 → stable b st2 st3 → stable b st1 st3.
Proof.
  intros (?&?&?&Ha) (?&?&?&Hb). unfold stable. split_and!; try congruence; try lia.
  intros q Hq. rewrite Hb, Ha; done.
Qed.

Lemma stable_le b b' st st' : (b' ≤ b)%nat → stable b st st' → stable b' st st'.
Proof.
  intros Hle (?&?&?&Ha). unfold stable. split_and!; try done.
  intros q Hq. apply Ha. lia.
Qed.

Lemma keeps_stable p b st st' :
  keeps p st st' → (b ≤ p)%nat → (b ≤ length (heap st))%nat → stable b st st'.
Proof.
  intros (?&?&?&Hq&_) Hb Hlen. unfold stable. split_and!; try done.
  intros q Hlt. apply Hq; lia.
Qed.

Lemma keeps_length p st st' :
  keeps p st st' → (length (heap st) ≤ length (heap st'))%nat.
Proof. by intros (_&_&?&_). Qed.

Lemma stable_length b st st' :
  stable b st st' → (length (heap st) ≤ length (heap st'))%nat.
Proof. by intros (_&_&?&_). Qed.

Lemma valid_keeps p st st' m :
  keeps p st st' → valid (heap st) m → valid (heap st') m.
Proof.
  intros (_&_&_&Hq&Hp) Hv. pose proof (valid_ptr _ _ Hv) as Hlt.
  destruct (decide (ptr (Data m) = p)) as [<-|Hne].
  - destruct Hv as (?&?&?&?&?&arr&E&Hlen).
    destruct (Hp _ E) as (arr'&E'&Hlen').
    unfold valid. split_and!; try done; try lia. exists arr'. split; [done|lia].
  - eapply valid_agree; [|done]. by apply Hq.
Qed.

Lemma value_keeps p st st' m :
  keeps p st st' → valid (heap st) m → ptr (Data m) ≠ p →
  value (heap st') m = value (heap st) m.
Proof.
  intros (_&_&_&Hq&_) Hv Hne. apply value_agree, Hq; [done|].
  by eapply valid_ptr.
Qed.

Lemma holds_keeps p st st' m v :
  keeps p st st' → holds (heap st) m v → ptr (Data m) ≠ p → holds (heap st') m v.
Proof.
  intros K [Hv <-] Hne. split; [by eapply valid_keeps|by eapply value_keeps].
Qed.

Lemma holds_stable b st st' m v :
  stable b st st' → holds (heap st) m v → (ptr (Data m) < b)%nat →
  holds (heap st') m v.
Proof.
  intros (_&_&_&Hq) [Hv <-] Hlt.
  split; [eapply valid_agree; [|done]|apply value_agree]; by apply Hq.
Qed.

Lemma opvalid_keeps p st st' a :
  keeps p st st' → opvalid (heap st) a → opvalid (heap st') a.
Proof. destruct a; apply valid_keeps. Qed.

Lemma keeps_push st arr : keeps (length (heap st)) st (push st arr).
Proof.
  unfold keeps, push; simpl. split_and!; try done.
  - rewrite length_app. lia.
  - intros q _ Hq. by apply lookup_app_l.
  - intros old E. apply lookup_lt_Some in E. lia.
Qed.

Lemma keeps_poke st p arr arr' :
  heap st !! p = Some arr → length arr' = length arr → keeps p st (poke st p arr').
Proof.
  intros E Hlen. unfold keeps, poke; simpl. split_and!; try done.
  - by rewrite length_insert.
  - intros q Hne _. by apply list_lookup_insert_ne.
  - intros old E'. exists arr'. rewrite E in E'. injection E' as <-.
    split; [|done]. apply list_lookup_insert_eq. by eapply lookup_lt_Some.
Qed.

Lemma holds_push_fresh st v :
  wfm v → holds (heap (push st (md v))) (dense_at (length (heap st)) (mr v) (mc v)) v.
Proof.
  intros (Hr&Hc&Hlen). split; simpl.
  - by apply valid_fresh.
  - rewrite value_fresh by done. by destruct v.
Qed.

Lemma length_heap_push st arr : length (heap (push st arr)) = S (length (heap st)).
Proof. simpl. rewrite length_app. simpl. lia. Qed.

(** Overwriting the cells of a header's array with a value of its shape. *)
Lemma holds_poke st m v arr :
  wfm v → Rows m = mr v → Cols m = mc v →
  Rows m ≤ capRows m → Cols m ≤ capCols m →
  (cells m ≤ len (Data m) ≤ cap (Data m))%nat →
  heap st !! ptr (Data m) = Some arr → length arr = cap (Data m) →
  holds (heap (poke st (ptr (Data m)) (md v ++ drop (length (md v)) arr))) m v.
Proof.
  intros (Hr&Hc&Hlen) HR HC ? ? Hn E Harr.
  assert (Hp : (ptr (Data m) < length (heap st))%nat) by (by eapply lookup_lt_Some).
  assert (Hcells : cells m = length (md v)) by (unfold cells; congruence).
  split.
  - unfold valid; simpl. split_and!; try lia.
    exists (md v ++ drop (length (md v)) arr).
    rewrite list_lookup_insert_eq by done. split; [done|].
    rewrite length_app, length_drop. lia.
  - unfold value, slice_view; simpl.
    rewrite list_lookup_insert_eq by done. simpl.
    rewrite take_take, Nat.min_l by lia. rewrite Hcells.
    rewrite take_app_le by lia. rewrite firstn_all, HR, HC. by destruct v.
Qed.

(** *** Specifications of the mat64 operations *)

Lemma receive_fresh_spec st m r c compute v (Q : Dense → State F → Prop) :
  isZero m = true → Rows m ≤ capRows m → Cols m ≤ capCols m →
  Z.of_nat (cap (Data m)) < r * c →
  (∀ z, compute (push st z) = Ok v (push st z)) →
  wfm v → mr v = r → mc v = c →
  (∀ st', keeps (length (heap st)) st st' →
          length (heap st') = S (length (heap st)) →
          holds (heap st') (dense_at (length (heap st)) r c) v →
          Q (dense_at (length (heap st)) r c) st') →
  tspec st (receive m r c compute) Q.
Proof.
  intros Hz Hr Hc Hcap Hcomp Hv <- <- HQ.
  eapply tspec_eq.
  - apply receive_fresh; try done. by destruct Hv as (_&_&?).
  - apply HQ; [apply keeps_push|apply length_heap_push|by apply holds_push_fresh].
Qed.

Lemma receive_inplace_spec st m r c compute v (Q : Dense → State F → Prop) :
  valid (heap st) m → Rows m = r → Cols m = c →
  compute st = Ok v st → wfm v → mr v = r → mc v = c →
  (∀ st', keeps (ptr (Data m)) st st' → length (heap st') = length (heap st) →
          holds (heap st') m v → Q m st') →
  tspec st (receive m r c compute) Q.
Proof.
  intros Hm HR HC Hcomp Hv Hmr Hmc HQ.
  pose proof Hm as (?&?&?&?&?&arr&E&Harr).
  assert (Hlen : length (md v) = cells m).
  { destruct Hv as (_&_&->). unfold cells. congruence. }
  eapply tspec_eq.
  - by eapply receive_inplace.
  - rewrite <- Hlen. apply HQ.
    + eapply keeps_poke; [done|]. rewrite length_app, length_drop. lia.
    + simpl. by rewrite length_insert.
    + apply holds_poke; try done; congruence.
Qed.

Lemma receive_reset_spec st d r c compute v (Q : Dense → State F → Prop) :
  valid (heap st) d → 0 < r → 0 < c →
  (∀ z, compute (push st z) = Ok v (push st z)) → compute st = Ok v st →
  wfm v → mr v = r → mc v = c →
  (∀ m' st', keeps (ptr (Data m')) st st' →
             (ptr (Data m') = ptr (Data d) ∨ ptr (Data m') = length (heap st)) →
             holds (heap st') m' v → Q m' st') →
  tspec st (receive (Reset d) r c compute) Q.
Proof.
  intros Hd Hr Hc Hcomp1 Hcomp2 Hv Hmr Hmc HQ.
  pose proof Hd as (?&?&?&?&?&arr&E&Harr).
  assert (Hlen : length (md v) = Z.to_nat (r * c)).
  { destruct Hv as (_&_&->). congruence. }
  destruct (decide (r * c ≤ Z.of_nat (cap (Data d)))) as [Hle|Hgt].
  - eapply tspec_eq.
    + by eapply (receive_reuse st (Reset d) r c compute v arr); simpl; try lia.
    + rewrite <- Hlen.
      apply (HQ (MkDense r c r c (Slice (ptr (Data d)) (length (md v)) (cap (Data d)))));
        simpl.
      * eapply keeps_poke; [done|]. rewrite length_app, length_drop. lia.
      * by left.
      * apply (holds_poke st
                 (MkDense r c r c (Slice (ptr (Data d)) (length (md v)) (cap (Data d)))));
          simpl; try done; try lia.
        unfold cells; simpl. lia.
  - eapply receive_fresh_spec; simpl; try done; try lia.
    intros st' K L Hh. apply HQ; simpl; [done|by right|done].
Qed.

Lemma compute2_push st g a b z :
  opvalid (heap st) a → opvalid (heap st) b →
  compute2 g a b (push st z)
  = Ok (g (opvalue (heap st) a) (opvalue (heap st) b)) (push st z).
Proof.
  intros Ha Hb. rewrite compute2_eq by (by apply opvalid_app).
  simpl. by rewrite !opvalue_app.
Qed.

Lemma compute1_push st g a z :
  opvalid (heap st) a →
  compute1 g a (push st z) = Ok (g (opvalue (heap st) a)) (push st z).
Proof.
  intros Ha. rewrite compute1_eq by (by apply opvalid_app).
  simpl. by rewrite !opvalue_app.
Qed.

Lemma Mul_receive m a b :
  (Dims a).2 = (Dims b).1 →
  Mul m a b = receive m (Dims a).1 (Dims b).2 (compute2 mmul a b).
Proof.
  intros E. unfold Mul. destruct (Dims a), (Dims b); simpl in *.
  by rewrite decide_False by (by intros ?).
Qed.

Lemma elementwise_receive op m a b :
  Dims a = Dims b →
  elementwise op m a b = receive m (Dims a).1 (Dims a).2 (compute2 (melem op) a b).
Proof.
  intros E. unfold elementwise. rewrite <- E. destruct (Dims a); simpl in *.
  by rewrite decide_False by (by intros [?|?]).
Qed.

Lemma Apply_receive m fn a :
  Apply m fn a = receive m (Dims a).1 (Dims a).2 (compute1 (mapply fn) a).
Proof. unfold Apply. by destruct (Dims a). Qed.

Lemma wfm_mmul va vb : 0 < mr va → 0 < mc vb → wfm (mmul va vb).
Proof. apply wfm_tabulate. Qed.

Lemma wfm_melem op va vb : 0 < mr va → 0 < mc va → wfm (melem op va vb).
Proof. apply wfm_tabulate. Qed.

Lemma wfm_mapply fn va : 0 < mr va → 0 < mc va → wfm (mapply fn va).
Proof. apply wfm_tabulate. Qed.

Lemma opvalue_pos h a : opvalid h a → 0 < mr (opvalue h a) ∧ 0 < mc (opvalue h a).
Proof.
  intros Ha. destruct (opvalue_dims h a) as [-> ->]. by eapply opvalid_dims.
Qed.

Lemma Mul_fresh_spec st a b va vb (Q : Dense → State F → Prop) :
  opholds (heap st) a va → opholds (heap st) b vb → (Dims a).2 = (Dims b).1 →
  (∀ st', keeps (length (heap st)) st st' →
          length (heap st') = S (length (heap st)) →
          holds (heap st') (dense_at (length (heap st)) (Dims a).1 (Dims b).2)
                (mmul va vb) →
          Q (dense_at (length (heap st)) (Dims a).1 (Dims b).2) st') →
  tspec st (Mul Dense0 a b) Q.
Proof.
  intros [Ha <-] [Hb <-] E HQ. rewrite Mul_receive by done.
  destruct (opvalue_pos _ _ Ha), (opvalue_pos _ _ Hb).
  destruct (opvalid_dims _ _ Ha), (opvalid_dims _ _ Hb).
  eapply receive_fresh_spec; try done.
  - simpl. nia.
  - intros z. by apply compute2_push.
  - by apply wfm_mmul.
  - simpl. by destruct (opvalue_dims (heap st) a).
  - simpl. by destruct (opvalue_dims (heap st) b).
Qed.

Lemma Mul_inplace_spec st m a b va vb (Q : Dense → State F → Prop) :
  valid (heap st) m → opholds (heap st) a va → opholds (heap st) b vb →
  (Dims a).2 = (Dims b).1 → Rows m = (Dims a).1 → Cols m = (Dims b).2 →
  (∀ st', keeps (ptr (Data m)) st st' → length (heap st') = length (heap st) →
          holds (heap st') m (mmul va vb) →
          Q m st') →
  tspec st (Mul m a b) Q.
Proof.
  intros Hm [Ha <-] [Hb <-] E HR HC HQ. rewrite Mul_receive by done.
  destruct (opvalue_pos _ _ Ha), (opvalue_pos _ _ Hb).
  eapply receive_inplace_spec; try done.
  - by apply compute2_eq.
  - by apply wfm_mmul.
  - simpl. by destruct (opvalue_dims (heap st) a).
  - simpl. by destruct (opvalue_dims (heap st) b).
Qed.

Lemma elementwise_fresh_spec st op a b va vb (Q : Dense → State F → Prop) :
  opholds (heap st) a va → opholds (heap st) b vb → Dims a = Dims b →
  (∀ st', keeps (length (heap st)) st st' →
          length (heap st') = S (length (heap st)) →
          holds (heap st') (dense_at (length (heap st)) (Dims a).1 (Dims a).2)
                (melem op va vb) →
          Q (dense_at (length (heap st)) (Dims a).1 (Dims a).2) st') →
  tspec st (elementwise op Dense0 a b) Q.
Proof.
  intros [Ha <-] [Hb <-] E HQ. rewrite elementwise_receive by done.
  destruct (opvalue_pos _ _ Ha). destruct (opvalid_dims _ _ Ha).
  eapply receive_fresh_spec; try done.
  - simpl. nia.
  - intros z. by apply compute2_push.
  - by apply wfm_melem.
  - simpl. by destruct (opvalue_dims (heap st) a).
  - simpl. by destruct (opvalue_dims (heap st) a).
Qed.

Lemma elementwise_inplace_spec st op m a b va vb (Q : Dense → State F → Prop) :
  valid (heap st) m → opholds (heap st) a va → opholds (heap st) b vb →
  Dims a = Dims b → Rows m = (Dims a).1 → Cols m = (Dims a).2 →
  (∀ st', keeps (ptr (Data m)) st st' → length (heap st') = length (heap st) →
          holds (heap st') m (melem op va vb) →
          Q m st') →
  tspec st (elementwise op m a b) Q.
Proof.
  intros Hm [Ha <-] [Hb <-] E HR HC HQ. rewrite elementwise_receive by done.
  destruct (opvalue_pos _ _ Ha).
  eapply receive_inplace_spec; try done.
  - by apply compute2_eq.
  - by apply wfm_melem.
  - simpl. by destruct (opvalue_dims (heap st) a).
  - simpl. by destruct (opvalue_dims (heap st) a).
Qed.

Lemma elementwise_reset_spec st op d a b va vb (Q : Dense → State F → Prop) :
  valid (heap st) d → opholds (heap st) a va → opholds (heap st) b vb →
  Dims a = Dims b →
  (∀ m' st', keeps (ptr (Data m')) st st' →
             (ptr (Data m') = ptr (Data d) ∨ ptr (Data m') = length (heap st)) →
             holds (heap st') m'
                   (melem op va vb) →
             Q m' st') →
  tspec st (elementwise op (Reset d) a b) Q.
Proof.
  intros Hd [Ha <-] [Hb <-] E HQ. rewrite elementwise_receive by done.
  destruct (opvalue_pos _ _ Ha). destruct (opvalid_dims _ _ Ha).
  eapply receive_reset_spec; try done.
  - intros z. by apply compute2_push.
  - by apply compute2_eq.
  - by apply wfm_melem.
  - simpl. by destruct (opvalue_dims (heap st) a).
  - simpl. by destruct (opvalue_dims (heap st) a).
Qed.

Lemma Apply_fresh_spec st fn a va (Q : Dense → State F → Prop) :
  opholds (heap st) a va →
  (∀ st', keeps (length (heap st)) st st' →
          length (heap st') = S (length (heap st)) →
          holds (heap st') (dense_at (length (heap st)) (Dims a).1 (Dims a).2)
                (mapply fn va) →
          Q (dense_at (length (heap st)) (Dims a).1 (Dims a).2) st') →
  tspec st (Apply Dense0 fn a) Q.
Proof.
  intros [Ha <-] HQ. rewrite Apply_receive.
  destruct (opvalue_pos _ _ Ha). destruct (opvalid_dims _ _ Ha).
  eapply receive_fresh_spec; try done.
  - simpl. nia.
  - intros z. by apply compute1_push.
  - by apply wfm_mapply.
  - simpl. by destruct (opvalue_dims (heap st) a).
  - simpl. by destruct (opvalue_dims (heap st) a).
Qed.

Lemma Apply_inplace_spec st m fn a va (Q : Dense → State F → Prop) :
  valid (heap st) m → opholds (heap st) a va →
  Rows m = (Dims a).1 → Cols m = (Dims a).2 →
  (∀ st', keeps (ptr (Data m)) st st' → length (heap st') = length (heap st) →
          holds (heap st') m (mapply fn va) → Q m st') →
  tspec st (Apply m fn a) Q.
Proof.
  intros Hm [Ha <-] HR HC HQ. rewrite Apply_receive.
  destruct (opvalue_pos _ _ Ha).
  eapply receive_inplace_spec; try done.
  - by apply compute1_eq.
  - by apply wfm_mapply.
  - simpl. by destruct (opvalue_dims (heap st) a).
  - simpl. by destruct (opvalue_dims (heap st) a).
Qed.

Lemma Clone_spec st m a (Q : Dense → State F → Prop) :
  valid (heap st) a →
  (∀ st', keeps (length (heap st)) st st' →
          length (heap st') = S (length (heap st)) →
          holds (heap st') (dense_at (length (heap st)) (Rows a) (Cols a))
                (value (heap st) a) →
          Q (dense_at (length (heap st)) (Rows a) (Cols a)) st') →
  tspec st (Clone m (Plain a)) Q.
Proof.
  intros Ha HQ. pose proof Ha as (?&?&_).
  pose proof (value_wfm _ _ Ha) as Hw. pose proof Hw as (_&_&Hlen).
  simpl in Hlen.
  assert (E : Clone m (Plain a) st
              = Ok (dense_at (length (heap st)) (Rows a) (Cols a))
                   (push st (md (value (heap st) a)))).
  { set (z := replicate (Z.to_nat (Rows a * Cols a)) (fzero : F)).
    assert (Hva : value (heap (push st z)) a = value (heap st) a)
      by apply (value_app (heap st) [z] a Ha).
    assert (Hz : length z = Z.to_nat (Rows a * Cols a)) by apply length_replicate.
    unfold Clone; simpl. unfold bind at 1. rewrite make_floats_eq by nia.
    fold z. unfold bind at 1.
    rewrite load_eq by apply (valid_app (heap st) [z] a Ha).
    unfold bind. rewrite Hva.
    erewrite store_eq with (arr := z).
    - simpl. unfold push, poke; simpl. f_equal. f_equal.
      rewrite insert_app_r_alt, Nat.sub_diag by done. simpl.
      rewrite drop_ge by lia. by rewrite app_nil_r.
    - simpl. by rewrite lookup_app_r, Nat.sub_diag.
    - simpl. lia.
    - simpl. lia. }
  eapply tspec_eq; [exact E|].
  apply HQ; [apply keeps_push|apply length_heap_push|].
  by apply (holds_push_fresh st (value (heap st) a)).
Qed.

End Total.

(** ** Feedforward *)

Section Feedforward.
Context {F : Type} `{Float64 F}.
Implicit Types (h : list (list F)) (st : State F) (m : Dense) (v : matrix F).

(** The specification's layer step: [pre = a × W + B], then the sigmoid
    of every entry. *)
Definition layer_pre (W B a : matrix F) : matrix F := madd (mmul a W) B.
Definition layer_out (W B a : matrix F) : matrix F :=
  mapply sigmoidMatrix (layer_pre W B a).

Definition mat0 : matrix F := Mat 0 0 [].

(** [activation Ws Bs x k]: the specification's [activation_k] for input
    [x]; [preact] is its [zs[k]]. *)
Fixpoint activation (Ws Bs : list (matrix F)) (x : matrix F) (k : nat) : matrix F :=
  match k with
  | O => x
  | S k' => layer_out (nth k' Ws mat0) (nth k' Bs mat0) (activation Ws Bs x k')
  end.

Definition preact (Ws Bs : list (matrix F)) (x : matrix F) (k : nat) : matrix F :=
  layer_pre (nth k Ws mat0) (nth k Bs mat0) (activation Ws Bs x k).

(** The specification's backward pass for the example [(x, y)] on a
    network whose last weight matrix has index [top] (that is, [L-2]).
    [delta_out] is the error of the output layer,
    [(activations[L-1] - desired) ⊙ sigmoid'(zs[L-2])]. *)
Definition delta_out (Ws Bs : list (matrix F)) (x y : matrix F) (top : nat)
  : matrix F :=
  mmulelem (msub (activation Ws Bs x (S top)) y)
           (mapply sigmoidPrimeMatrix (preact Ws Bs x top)).

(** [delta_down .. top j] is the error of layer [top - j], by the backward
    recursion [delta = (delta × W[i+1]ᵗ) ⊙ sigmoid'(zs[i])]. *)
Fixpoint delta_down (Ws Bs : list (matrix F)) (x y : matrix F) (top j : nat)
  : matrix F :=
  match j with
  | O => delta_out Ws Bs x y top
  | S j' =>
      mmulelem (mmul (delta_down Ws Bs x y top j') (mtrans (nth (top - j') Ws mat0)))
               (mapply sigmoidPrimeMatrix (preact Ws Bs x (top - S j')))
  end.

(** The error of layer [i], and the gradients the specification assigns
    to it: [nablaB[i] = delta], [nablaW[i] = activations[i]ᵗ × delta]. *)
Definition delta (Ws Bs : list (matrix F)) (x y : matrix F) (top i : nat)
  : matrix F := delta_down Ws Bs x y top (top - i).

Definition gradW (Ws Bs : list (matrix F)) (x y : matrix F) (top i : nat)
  : matrix F := mmul (mtrans (activation Ws Bs x i)) (delta Ws Bs x y top i).

(** An initialized network in heap [h]: [sizes] are the layer sizes, [Ws]
    and [Bs] the values of the weight and bias matrices. *)
Record wf_net (n : Network F) h (sizes : list Z) (Ws Bs : list (matrix F)) : Prop := {
  wf_layers : NumLayers n = Z.of_nat (length sizes);
  wf_two : (2 ≤ length sizes)%nat;
  wf_lenW : length Ws = (length sizes - 1)%nat;
  wf_lenB : length Bs = (length sizes - 1)%nat;
  wf_W : Forall2 (holds h) (Weights n) Ws;
  wf_B : Forall2 (holds h) (Biases n) Bs;
  wf_shapeW : ∀ k W, Ws !! k = Some W →
                sizes !! k = Some (mr W) ∧ sizes !! S k = Some (mc W);
  wf_shapeB : ∀ k B, Bs !! k = Some B → mr B = 1 ∧ sizes !! S k = Some (mc B)
}.

Lemma wf_net_W n h sizes Ws Bs k :
  wf_net n h sizes Ws Bs → (k < length sizes - 1)%nat →
  ∃ w W, Weights n !! k = Some w ∧ Ws !! k = Some W ∧ nth k Ws mat0 = W ∧
         holds h w W ∧ sizes !! k = Some (mr W) ∧ sizes !! S k = Some (mc W).
Proof.
  intros Hwf Hk.
  destruct (lookup_lt_is_Some_2 Ws k) as [W HW]; [rewrite (wf_lenW _ _ _ _ _ Hwf); lia|].
  destruct (Forall2_lookup_r _ _ _ _ _ (wf_W _ _ _ _ _ Hwf) HW) as (w & Hw & Hh).
  destruct (wf_shapeW _ _ _ _ _ Hwf _ _ HW).
  exists w, W. split_and!; try done. by apply nth_lookup_Some with (d := mat0) in HW.
Qed.

Lemma wf_net_B n h sizes Ws Bs k :
  wf_net n h sizes Ws Bs → (k < length sizes - 1)%nat →
  ∃ b B, Biases n !! k = Some b ∧ Bs !! k = Some B ∧ nth k Bs mat0 = B ∧
         holds h b B ∧ mr B = 1 ∧ sizes !! S k = Some (mc B).
Proof.
  intros Hwf Hk.
  destruct (lookup_lt_is_Some_2 Bs k) as [B HB]; [rewrite (wf_lenB _ _ _ _ _ Hwf); lia|].
  destruct (Forall2_lookup_r _ _ _ _ _ (wf_B _ _ _ _ _ Hwf) HB) as (b & Hb & Hh).
  destruct (wf_shapeB _ _ _ _ _ Hwf _ _ HB).
  exists b, B. split_and!; try done. by apply nth_lookup_Some with (d := mat0) in HB.
Qed.

Lemma wf_net_stable n st st' b sizes Ws Bs :
  wf_net n (heap st) sizes Ws Bs → stable b st st' →
  (length (heap st) ≤ b)%nat → wf_net n (heap st') sizes Ws Bs.
Proof.
  intros [] Hs Hb. split; try done.
  - eapply Forall2_impl; [done|]. intros w W Hh. eapply holds_stable; [done..|].
    destruct Hh as [Hv _]. apply valid_ptr in Hv. lia.
  - eapply Forall2_impl; [done|]. intros w W Hh. eapply holds_stable; [done..|].
    destruct Hh as [Hv _]. apply valid_ptr in Hv. lia.
Qed.

Lemma holds_ptr h m v : holds h m v → (ptr (Data m) < length h)%nat.
Proof. intros [Hv _]. by eapply valid_ptr. Qed.

Lemma holds_dims h m v : holds h m v → Rows m = mr v ∧ Cols m = mc v.
Proof. by intros [_ <-]. Qed.

Lemma holds_trans h m v : holds h m v → opholds h (Trans m) (mtrans v).
Proof. intros [Hv <-]. by split. Qed.

Lemma activation_shape n h sizes Ws Bs x k :
  wf_net n h sizes Ws Bs → mr x = 1 → sizes !! O = Some (mc x) →
  (k < length sizes)%nat →
  mr (activation Ws Bs x k) = 1 ∧ sizes !! k = Some (mc (activation Ws Bs x k)).
Proof.
  intros Hwf Hx Hs Hk. destruct k as [|k]; [done|]. simpl. split.
  - clear Hk. induction k as [|k IH]; simpl; done.
  - destruct (wf_net_W _ _ _ _ _ k Hwf) as (w & W & _ & _ & -> & _ & _ & ?); [lia|].
    done.
Qed.

(** FeedForward returns the last activation; the arrays that existed before
    the call are unchanged. *)
Lemma FeedForward_spec n st sizes Ws Bs input x :
  wf_net n (heap st) sizes Ws Bs → holds (heap st) input x →
  mr x = 1 → sizes !! O = Some (mc x) →
  tspec st (FeedForward n input) (λ out st',
    stable (length (heap st)) st st' ∧
    holds (heap st') out (activation Ws Bs x (length sizes - 1))).
Proof.
  intros Hwf Hx Hrx Hcx. unfold FeedForward.
  set (b0 := length (heap st)).
  pose proof (wf_two _ _ _ _ _ Hwf) as Htwo.
  rewrite (wf_layers _ _ _ _ _ Hwf).
  eapply tspec_mono.
  - apply (tspec_for_range (λ i ptr s,
      stable b0 st s ∧ holds (heap s) ptr (activation Ws Bs x (Z.to_nat i)))).
    + lia.
    + split; [apply stable_refl|done].
    + intros i ptr s Hi [Hst Hptr].
      set (k := Z.to_nat i).
      assert (Hk : (k < length sizes - 1)%nat) by lia.
      destruct (wf_net_W _ _ _ _ _ k Hwf Hk) as (w & W & Hw & _ & HnW & HhW & HW1 & HW2).
      destruct (wf_net_B _ _ _ _ _ k Hwf Hk) as (b & B & Hb & _ & HnB & HhB & HB1 & HB2).
      destruct (activation_shape _ _ _ _ _ x k Hwf Hrx Hcx) as [Har Hac]; [lia|].
      fold k in Hptr.
      pose proof (stable_length _ _ _ Hst) as Hlen.
      assert (HhW' : holds (heap s) w W).
      { eapply holds_stable; [done..|]. by eapply holds_ptr. }
      assert (HhB' : holds (heap s) b B).
      { eapply holds_stable; [done..|]. by eapply holds_ptr. }
      destruct (holds_dims _ _ _ Hptr) as [HR HC].
      destruct (holds_dims _ _ _ HhW') as [HRW HCW].
      destruct (holds_dims _ _ _ HhB') as [HRB HCB].
      eapply tspec_step; [apply index_eq; [lia|done]|].
      apply tspec_bind. eapply (Mul_fresh_spec s (Plain ptr) (Plain w)); [done..| |].
      { simpl. congruence. }
      intros s1 K1 L1 H1. simpl in H1.
      eapply tspec_step; [apply index_eq; [lia|done]|].
      apply tspec_bind.
      eapply (elementwise_inplace_spec s1 fadd _ (Plain _) (Plain b)); [| | | | | |].
      { apply H1. } { apply H1. }
      { eapply holds_keeps; [done..|]. apply holds_ptr in HhB'. lia. }
      { simpl. f_equal; congruence. } { done. } { done. }
      intros s2 K2 L2 H2. simpl in K2.
      apply tspec_bind.
      eapply (Apply_inplace_spec s2 _ sigmoidMatrix (Plain _)); [| | | |].
      { apply H2. } { apply H2. } { done. } { done. }
      intros s3 K3 L3 H3. simpl in K3.
      apply tspec_ret. split.
      * eapply stable_trans; [done|].
        eapply stable_trans; [eapply (keeps_stable _ b0); [done|lia..]|].
        eapply stable_trans; [eapply (keeps_stable _ b0); [done|lia..]|].
        eapply (keeps_stable _ b0); [done|lia..].
      * replace (Z.to_nat (i + 1)) with (S k) by lia. simpl.
        rewrite HnW, HnB. done.
  - intros out st' [Hst Hout]. split; [done|].
    by replace (Z.to_nat (Z.of_nat (length sizes) - 1)) with (length sizes - 1)%nat in Hout by lia.
Qed.

End Feedforward.

(** ** Backpropagation *)

Section Backprop.
Context {F : Type} `{Float64 F}.
Implicit Types (h : list (list F)) (st s : State F) (m : Dense) (v : matrix F).

(** Entries [lo..hi) of a list of headers hold the values [vf lo .. vf (hi-1)]. *)
Definition holds_range h (l : list Dense) (vf : nat → matrix F) (lo hi : nat) : Prop :=
  ∀ k, (lo ≤ k < hi)%nat → ∃ m, l !! k = Some m ∧ holds h m (vf k).

Lemma holds_range_stable b st st' l vf lo hi :
  stable b st st' → (length (heap st) ≤ b)%nat →
  holds_range (heap st) l vf lo hi → holds_range (heap st') l vf lo hi.
Proof.
  intros Hs Hb Hr k Hk. destruct (Hr k Hk) as (m & Hm & Hh).
  exists m. split; [done|]. eapply holds_stable; [done..|].
  apply holds_ptr in Hh. lia.
Qed.

Lemma holds_range_snoc h l vf lo hi m :
  holds_range h l vf lo hi → holds h m (vf hi) → (hi < length l)%nat →
  holds_range h (<[hi := m]> l) vf lo (S hi).
Proof.
  intros Hr Hm Hlen k Hk. destruct (decide (k = hi)) as [->|Hne].
  - exists m. split; [by apply list_lookup_insert_eq|done].
  - destruct (Hr k) as (m' & Hm' & Hh); [lia|].
    exists m'. split; [by rewrite list_lookup_insert_ne|done].
Qed.

Lemma holds_range_le h l vf lo hi lo' hi' :
  holds_range h l vf lo hi → (lo ≤ lo')%nat → (hi' ≤ hi)%nat →
  holds_range h l vf lo' hi'.
Proof. intros Hr ? ? k Hk. apply Hr. lia. Qed.

Lemma stable_chain2 b s s1 s2 p1 p2 :
  keeps p1 s s1 → keeps p2 s1 s2 → (b ≤ length (heap s))%nat →
  (b ≤ p1)%nat → (b ≤ p2)%nat → stable b s s2.
Proof.
  intros K1 K2 Hb H1 H2. pose proof (keeps_length _ _ _ K1).
  eapply stable_trans; eapply keeps_stable; try done; lia.
Qed.

(** The block computing the error of the outermost layer. *)
Lemma bp_output_delta_spec s size acts zs data aL z desired va vz vy :
  1 ≤ size → acts !! Z.to_nat size = Some aL →
  zs !! Z.to_nat (size - 1) = Some z → data !! 1%nat = Some desired →
  holds (heap s) aL va → holds (heap s) z vz → holds (heap s) desired vy →
  mr va = mr vy → mc va = mc vy → mr vz = mr va → mc vz = mc va →
  tspec s (bp_output_delta size acts zs data) (λ d s',
    holds (heap s') d (mmulelem (msub va vy) (mapply sigmoidPrimeMatrix vz)) ∧
    ptr (Data d) = (length (heap s) + 2)%nat ∧
    length (heap s') = (length (heap s) + 3)%nat ∧
    stable (length (heap s)) s s').
Proof.
  intros Hsize HaL Hz Hd Ha Hhz Hy E1 E2 E3 E4. unfold bp_output_delta.
  destruct (holds_dims _ _ _ Ha) as [HRa HCa].
  destruct (holds_dims _ _ _ Hhz) as [HRz HCz].
  destruct (holds_dims _ _ _ Hy) as [HRy HCy].
  eapply tspec_step; [apply index_eq; [lia|done]|].
  eapply tspec_step; [apply index_eq; [lia|done]|].
  apply tspec_bind. unfold quadraticCost, Sub.
  eapply (elementwise_fresh_spec s fsub (Plain aL) (Plain desired)); [done..| |].
  { simpl. f_equal; congruence. }
  intros s1 K1 L1 H1. simpl in H1.
  eapply tspec_step; [apply index_eq; [lia|done]|].
  apply tspec_bind.
  eapply (Apply_fresh_spec s1 sigmoidPrimeMatrix (Plain z)).
  { eapply holds_keeps; [done..|]. apply holds_ptr in Hhz. lia. }
  intros s2 K2 L2 H2. simpl in H2.
  unfold MulElem.
  eapply (elementwise_fresh_spec s2 fmul (Plain _) (Plain _)).
  { eapply (holds_keeps _ s1 s2); [done..|]. simpl. lia. }
  { exact H2. }
  { simpl. f_equal; congruence. }
  intros s3 K3 L3 H3. simpl in H3.
  split_and!.
  - exact H3.
  - simpl. lia.
  - lia.
  - eapply stable_trans; [eapply (stable_chain2 _ s s1 s2); try done; lia|].
    eapply keeps_stable; [done|lia..].
Qed.

Section Forward.
Variables (n : Network F) (sizes : list Z) (Ws Bs : list (matrix F)) (x : matrix F).
Hypothesis Hrx : mr x = 1.
Hypothesis Hcx : sizes !! O = Some (mc x).

Local Abbreviation L := (length sizes).
Local Abbreviation A := (activation Ws Bs x).
Local Abbreviation Zs := (preact Ws Bs x).

Definition fwd_inv (st : State F) (i : Z) (p : list Dense * list Dense)
    (s : State F) : Prop :=
  stable (length (heap st)) st s ∧
  length p.1 = L ∧ length p.2 = (L - 1)%nat ∧
  holds_range (heap s) p.1 A 0 (S (Z.to_nat i)) ∧
  (∀ k, (Z.to_nat i < k < L)%nat → p.1 !! k = Some Dense0) ∧
  holds_range (heap s) p.2 Zs 0 (Z.to_nat i).

Lemma bp_forward_body st i acts zs s :
  wf_net n (heap st) sizes Ws Bs →
  0 ≤ i < Z.of_nat L - 1 → fwd_inv st i (acts, zs) s →
  tspec s
    (let! a1 := index acts (i + 1) in
     let! a := index acts i in
     let! wi := index (Weights n) i in
     let! a1 := Mul a1 (Plain a) (Plain wi) in
     let! bi := index (Biases n) i in
     let! a1 := Add a1 (Plain a1) (Plain bi) in
     let! z := index zs i in
     let! z := Clone z (Plain a1) in
     let! zs := assign zs i z in
     let! a1 := Apply a1 sigmoidMatrix (Plain a1) in
     let! activations := assign acts (i + 1) a1 in
     ret (activations, zs))
    (fwd_inv st (i + 1)).
Proof.
  intros Hwf Hi (Hst & HlenA & HlenZ & HA & HA0 & HZ). simpl in *.
  set (k := Z.to_nat i) in *.
  assert (Hk : (k < L - 1)%nat) by lia.
  destruct (wf_net_W _ _ _ _ _ k Hwf Hk) as (w & W & Hw & _ & HnW & HhW & HW1 & HW2).
  destruct (wf_net_B _ _ _ _ _ k Hwf Hk) as (b & B & Hb & _ & HnB & HhB & HB1 & HB2).
  destruct (activation_shape _ _ _ _ _ x k Hwf Hrx Hcx) as [Har Hac]; [lia|].
  pose proof (stable_length _ _ _ Hst) as Hlen.
  assert (HhW' : holds (heap s) w W).
  { eapply holds_stable; [done..|]. by eapply holds_ptr. }
  assert (HhB' : holds (heap s) b B).
  { eapply holds_stable; [done..|]. by eapply holds_ptr. }
  destruct (HA k) as (a & Ha & Hha); [lia|].
  destruct (holds_dims _ _ _ Hha) as [HR HC].
  destruct (holds_dims _ _ _ HhW') as [HRW HCW].
  destruct (holds_dims _ _ _ HhB') as [HRB HCB].
  destruct (lookup_lt_is_Some_2 zs k) as [z Hz]; [lia|].
  eapply tspec_step.
  { apply index_eq; [lia|]. replace (Z.to_nat (i + 1)) with (S k) by lia.
    apply HA0. lia. }
  eapply tspec_step; [apply index_eq; [lia|done]|].
  eapply tspec_step; [apply index_eq; [lia|done]|].
  apply tspec_bind. eapply (Mul_fresh_spec s (Plain a) (Plain w)); [done..| |].
  { simpl. congruence. }
  intros s1 K1 L1 H1. simpl in H1.
  eapply tspec_step; [apply index_eq; [lia|done]|].
  apply tspec_bind.
  eapply (elementwise_inplace_spec s1 fadd _ (Plain _) (Plain b)); [| | | | | |].
  { apply H1. } { apply H1. }
  { eapply holds_keeps; [done..|]. apply holds_ptr in HhB'. lia. }
  { simpl. f_equal; congruence. } { done. } { done. }
  intros s2 K2 L2 H2. simpl in K2.
  eapply tspec_step; [apply index_eq; [lia|done]|].
  apply tspec_bind. eapply Clone_spec; [apply H2|].
  intros s3 K3 L3 H3. destruct H2 as [H2v H2]. rewrite H2 in H3. simpl in H3.
  eapply tspec_step; [apply assign_eq; lia|].
  apply tspec_bind.
  eapply (Apply_inplace_spec s3 _ sigmoidMatrix (Plain _)); [| | | |].
  { eapply valid_keeps; done. }
  { eapply (holds_keeps _ s2 s3); [done|by split|]. simpl. lia. }
  { done. } { done. }
  intros s4 K4 L4 H4. simpl in K4.
  eapply tspec_step; [apply assign_eq; lia|].
  apply tspec_ret.
  assert (Hs4 : stable (length (heap s)) s s4).
  { eapply stable_trans; [eapply (stable_chain2 _ s s1 s2); try done; lia|].
    eapply (stable_chain2 _ s2 s3 s4); try done; lia. }
  unfold fwd_inv; simpl. replace (Z.to_nat (i + 1)) with (S k) by lia.
  split_and!.
  - eapply stable_trans; [done|]. eapply stable_le; [|done]. lia.
  - by rewrite length_insert.
  - by rewrite length_insert.
  - apply holds_range_snoc; [| |lia].
    + eapply holds_range_stable; [done|lia|done].
    + simpl. rewrite HnW, HnB. exact H4.
  - intros k' Hk'. rewrite list_lookup_insert_ne by lia. apply HA0. lia.
  - apply holds_range_snoc; [| |lia].
    + eapply holds_range_stable; [done|lia|done].
    + unfold preact. rewrite HnW, HnB.
      eapply holds_keeps; [done..|]. simpl. lia.
Qed.

Lemma bp_forward_spec st a0 :
  wf_net n (heap st) sizes Ws Bs → holds (heap st) a0 x →
  tspec st
    (bp_forward n (Z.of_nat L - 1) (<[O := a0]> (replicate L Dense0))
       (replicate (L - 1) Dense0))
    (fwd_inv st (Z.of_nat L - 1)).
Proof.
  intros Hwf Ha0. pose proof (wf_two _ _ _ _ _ Hwf) as Htwo.
  unfold bp_forward.
  apply (tspec_for_range (fwd_inv st)).
  - lia.
  - unfold fwd_inv; simpl. split_and!.
    + apply stable_refl.
    + by rewrite length_insert, length_replicate.
    + by rewrite length_replicate.
    + intros k Hk. assert (k = O) as -> by lia. exists a0. split; [|done].
      apply list_lookup_insert_eq. rewrite length_replicate. lia.
    + intros k Hk. rewrite list_lookup_insert_ne by lia.
      apply lookup_replicate_2. lia.
    + intros k Hk. lia.
  - intros i [acts zs] s Hi Hinv. by apply bp_forward_body.
Qed.

(** Entries [lo..hi) of a list of headers sit on the arrays [pf lo ..] and
    hold the values [vf lo ..]. *)
Definition held h (l : list Dense) (pf : nat → nat) (vf : nat → matrix F)
    (lo hi : nat) : Prop :=
  ∀ k, (lo ≤ k < hi)%nat →
    ∃ m, l !! k = Some m ∧ ptr (Data m) = pf k ∧ holds h m (vf k).

Lemma held_snoc h l pf vf lo hi m :
  held h l pf vf lo hi → holds h m (vf hi) → ptr (Data m) = pf hi →
  (hi < length l)%nat → held h (<[hi := m]> l) pf vf lo (S hi).
Proof.
  intros Hr Hm Hp Hlen k Hk. destruct (decide (k = hi)) as [->|Hne].
  - exists m. split; [by apply list_lookup_insert_eq|done].
  - destruct (Hr k) as (m' & Hm' & Hh); [lia|].
    exists m'. split; [by rewrite list_lookup_insert_ne|done].
Qed.

Lemma held_stable b st st' l pf vf lo hi :
  stable b st st' → (length (heap st) ≤ b)%nat →
  held (heap st) l pf vf lo hi → held (heap st') l pf vf lo hi.
Proof.
  intros Hs Hb Hr k Hk. destruct (Hr k Hk) as (m & Hm & Hp & Hh).
  exists m. split_and!; [done..|]. eapply holds_stable; [done..|].
  apply holds_ptr in Hh. lia.
Qed.

Lemma held_insert_other h l pf vf lo hi j m :
  held h l pf vf lo hi → ¬ (lo ≤ j < hi)%nat → held h (<[j := m]> l) pf vf lo hi.
Proof.
  intros Hr Hj k Hk. destruct (Hr k Hk) as (m' & Hm' & Hh).
  exists m'. split; [|done]. rewrite list_lookup_insert_ne by lia. done.
Qed.

Local Abbreviation Wv := (λ k : nat, nth k Ws mat0).
Local Abbreviation Bv := (λ k : nat, nth k Bs mat0).

Definition clone_inv (st : State F) (i : Z) (p : list Dense * list Dense)
    (s : State F) : Prop :=
  stable (length (heap st)) st s ∧
  length (heap s) = (length (heap st) + 2 * Z.to_nat i)%nat ∧
  length p.1 = (L - 1)%nat ∧ length p.2 = (L - 1)%nat ∧
  held (heap s) p.1 (λ k, length (heap st) + 2 * k)%nat Wv 0 (Z.to_nat i) ∧
  held (heap s) p.2 (λ k, length (heap st) + 2 * k + 1)%nat Bv 0 (Z.to_nat i).

Lemma bp_clone_spec st :
  wf_net n (heap st) sizes Ws Bs →
  tspec st
    (bp_clone n (Z.of_nat L - 1) (replicate (L - 1) Dense0) (replicate (L - 1) Dense0))
    (clone_inv st (Z.of_nat L - 1)).
Proof.
  intros Hwf. pose proof (wf_two _ _ _ _ _ Hwf) as Htwo.
  unfold bp_clone. apply (tspec_for_range (clone_inv st)).
  - lia.
  - unfold clone_inv; simpl. rewrite !length_replicate.
    split_and!; try apply stable_refl; try (intros k Hk; lia); try done; try lia.
  - intros i [nW nB] s Hi (Hst & Hlen & HlW & HlB & HW & HB). simpl in *.
    set (k := Z.to_nat i) in *.
    assert (Hk : (k < L - 1)%nat) by lia.
    destruct (wf_net_W _ _ _ _ _ k Hwf Hk) as (w & W & Hw & _ & HnW & HhW & _).
    destruct (wf_net_B _ _ _ _ _ k Hwf Hk) as (b & B & Hb & _ & HnB & HhB & _).
    assert (HhW' : holds (heap s) w W).
    { eapply holds_stable; [done..|]. by eapply holds_ptr. }
    assert (HhB' : holds (heap s) b B).
    { eapply holds_stable; [done..|]. by eapply holds_ptr. }
    destruct (lookup_lt_is_Some_2 nW k) as [nw Hnw]; [lia|].
    destruct (lookup_lt_is_Some_2 nB k) as [nb Hnb]; [lia|].
    eapply tspec_step; [apply index_eq; [lia|done]|].
    eapply tspec_step; [apply index_eq; [lia|done]|].
    apply tspec_bind. eapply Clone_spec; [apply HhW'|].
    intros s1 K1 L1 H1. destruct HhW' as [HvW HvalW]. rewrite HvalW in H1.
    eapply tspec_step; [apply assign_eq; lia|].
    eapply tspec_step; [apply index_eq; [lia|done]|].
    eapply tspec_step; [apply index_eq; [lia|done]|].
    apply tspec_bind. eapply Clone_spec.
    { eapply valid_keeps; [done|]. apply HhB'. }
    intros s2 K2 L2 H2.
    rewrite (value_keeps _ _ _ _ K1) in H2;
      [|apply HhB'|apply holds_ptr in HhB'; lia].
    destruct HhB' as [HvB HvalB]. rewrite HvalB in H2.
    eapply tspec_step; [apply assign_eq; lia|].
    apply tspec_ret.
    assert (Hs2 : stable (length (heap s)) s s2).
    { eapply (stable_chain2 _ s s1 s2); try done; lia. }
    unfold clone_inv; simpl. replace (Z.to_nat (i + 1)) with (S k) by lia.
    split_and!.
    + eapply stable_trans; [done|]. eapply stable_le; [|done].
      by apply stable_length in Hst.
    + lia.
    + by rewrite length_insert.
    + by rewrite length_insert.
    + apply held_snoc; [| | |lia].
      * eapply held_stable; [done|lia|done].
      * rewrite HnW. eapply holds_keeps; [done..|]. simpl. lia.
      * simpl. lia.
    + apply held_snoc; [| | |lia].
      * eapply held_stable; [done|lia|done].
      * rewrite HnB. done.
      * simpl. lia.
Qed.

Lemma preact_shape st k :
  wf_net n (heap st) sizes Ws Bs → (k < L - 1)%nat →
  mr (Zs k) = 1 ∧ sizes !! S k = Some (mc (Zs k)).
Proof.
  intros Hwf Hk.
  destruct (activation_shape _ _ _ _ _ x k Hwf Hrx Hcx) as [Har Hac]; [lia|].
  destruct (wf_net_W _ _ _ _ _ k Hwf Hk) as (w & W & _ & _ & HnW & _ & _ & HW2).
  unfold preact. rewrite HnW. simpl. done.
Qed.

End Forward.

Section Backward.
Variables (n : Network F) (sizes : list Z) (Ws Bs : list (matrix F)) (x y : matrix F).
Hypothesis Hrx : mr x = 1.
Hypothesis Hcx : sizes !! O = Some (mc x).
Hypothesis Hry : mr y = 1.

Local Abbreviation L := (length sizes).
Local Abbreviation top := (length sizes - 2)%nat.
Local Abbreviation A := (activation Ws Bs x).
Local Abbreviation Zs := (preact Ws Bs x).
Local Abbreviation Dl := (delta Ws Bs x y top).
Local Abbreviation Wv := (λ k : nat, nth k Ws mat0).

Lemma delta_shape st i :
  wf_net n (heap st) sizes Ws Bs → (i ≤ top)%nat →
  mr (Dl i) = 1 ∧ sizes !! S i = Some (mc (Dl i)).
Proof.
  intros Hwf Hi. pose proof (wf_two _ _ _ _ _ Hwf) as Htwo.
  unfold delta. remember (top - i)%nat as j eqn:Hj.
  assert (Hi' : i = (top - j)%nat) by lia. rewrite Hi'.
  assert (Hjt : (j ≤ top)%nat) by lia. clear Hj Hi Hi'.
  induction j as [|j IH].
  - simpl. rewrite Nat.sub_0_r.
    destruct (activation_shape _ _ _ _ _ x (S top) Hwf Hrx Hcx) as [Har Hac]; [lia|].
    done.
  - simpl. destruct IH as [IH1 IH2]; [lia|]. split; [done|].
    destruct (wf_net_W _ _ _ _ _ (top - j)%nat Hwf) as (w & W & _ & _ & -> & _ & HW1 & _);
      [lia|].
    replace (S (top - S j)) with (top - j)%nat by lia. done.
Qed.

Lemma delta_step i :
  (S i ≤ top)%nat →
  Dl i = mmulelem (mmul (Dl (S i)) (mtrans (Wv (S i))))
                  (mapply sigmoidPrimeMatrix (Zs i)).
Proof.
  intros Hi. unfold delta.
  replace (top - i)%nat with (S (top - S i)) by lia. simpl.
  replace (top - (top - S i))%nat with (S i) by lia.
  replace (top - S (top - S i))%nat with i by lia. done.
Qed.

(** The state [sC] after the forward pass, and what it holds. *)
Variables (sC : State F) (acts zs : list Dense).
Hypothesis Hwf : wf_net n (heap sC) sizes Ws Bs.
Hypothesis Hacts : holds_range (heap sC) acts A 0 L.
Hypothesis Hzs : holds_range (heap sC) zs Zs 0 (L - 1).

Local Abbreviation bC := (length (heap sC)).
Local Abbreviation pD := (length (heap sC) + 2 * (length sizes - 1) + 2)%nat.

Definition bwd_inv (k : nat) (p : Dense * list Dense * list Dense)
    (s : State F) : Prop :=
  let '(d, nB, nW) := p in
  stable bC sC s ∧ (pD + 2 ≤ length (heap s))%nat ∧
  length nB = (L - 1)%nat ∧ length nW = (L - 1)%nat ∧
  holds (heap s) d (Dl k) ∧
  (ptr (Data d) = pD ∨ (pD + 1 < ptr (Data d))%nat) ∧
  held (heap s) nW (λ j, bC + 2 * j)%nat
       (λ j, if decide (k ≤ j)%nat then gradW Ws Bs x y top j else Wv j)
       0 (L - 1) ∧
  held (heap s) nB (λ _, pD + 1)%nat (λ _, Dl top) top (S top) ∧
  (∀ j, (k ≤ j < top)%nat →
     ∃ m, nB !! j = Some m ∧ valid (heap s) m ∧ Rows m = 1 ∧
          sizes !! S j = Some (Cols m)) ∧
  ((k < top)%nat → nB !! k = Some d).

Lemma bp_backward_body i d nB nW s :
  (i < top)%nat → bwd_inv (S i) (d, nB, nW) s →
  tspec s
    (let! z := index zs (Z.of_nat i) in
     let! sp := Apply Dense0 sigmoidPrimeMatrix (Plain z) in
     let! w1 := index (Weights n) (Z.of_nat i + 1) in
     let! tmp := Mul Dense0 (Plain d) (Trans w1) in
     let delta := Reset d in
     let! delta := MulElem delta (Plain tmp) (Plain sp) in
     let! nablaB := assign nB (Z.of_nat i) delta in
     let! nw := index nW (Z.of_nat i) in
     let! a := index acts (Z.of_nat i) in
     let! nw := Mul nw (Trans a) (Plain delta) in
     let! nablaW := assign nW (Z.of_nat i) nw in
     ret (delta, nablaB, nablaW))
    (bwd_inv i).
Proof.
  intros Hi (Hst & HpD & HlB & HlW & Hd & Hdp & HW & HBtop & HBv & HBk).
  pose proof (wf_two _ _ _ _ _ Hwf) as Htwo.
  pose proof (stable_length _ _ _ Hst) as Hlen.
  (* what the earlier phases left below [bC] *)
  destruct (Hzs i) as (z & Hz & Hhz); [lia|].
  destruct (Hacts i) as (a & Ha & Hha); [lia|].
  destruct (wf_net_W _ _ _ _ _ (S i) Hwf) as (w1 & W1 & Hw1 & _ & HnW1 & HhW1 & HW1a & HW1b);
    [lia|].
  destruct (wf_net_W _ _ _ _ _ i Hwf) as (w0 & W0 & _ & _ & HnW0 & _ & HW0a & HW0b); [lia|].
  destruct (preact_shape n sizes Ws Bs x Hrx Hcx sC i Hwf) as [HZr HZc]; [lia|].
  destruct (activation_shape _ _ _ _ _ x i Hwf Hrx Hcx) as [HAr HAc]; [lia|].
  destruct (delta_shape sC (S i) Hwf) as [HDr HDc]; [lia|].
  destruct (delta_shape sC i Hwf) as [HDr0 HDc0]; [lia|].
  pose proof (holds_ptr _ _ _ Hhz) as Hpz.
  pose proof (holds_ptr _ _ _ Hha) as Hpa.
  pose proof (holds_ptr _ _ _ HhW1) as Hpw1.
  pose proof (holds_ptr _ _ _ Hd) as Hpd.
  assert (Hhz' : holds (heap s) z (Zs i)) by (eapply holds_stable; done).
  destruct (HW i) as (nw & Hnw & Hpnw & Hhnw); [lia|].
  rewrite decide_False in Hhnw by lia.
  destruct (holds_dims _ _ _ Hhz') as [HRz HCz].
  destruct (holds_dims _ _ _ Hha) as [HRa HCa].
  destruct (holds_dims _ _ _ HhW1) as [HRw1 HCw1].
  destruct (holds_dims _ _ _ Hd) as [HRd HCd].
  destruct (holds_dims _ _ _ Hhnw) as [HRnw HCnw].
  eapply tspec_step; [apply index_eq; [lia|by rewrite Nat2Z.id]|].
  apply tspec_bind. eapply (Apply_fresh_spec s sigmoidPrimeMatrix (Plain z)); [done|].
  intros s1 K1 L1 H1. simpl in H1.
  eapply tspec_step.
  { apply index_eq; [lia|]. by replace (Z.to_nat (Z.of_nat i + 1)) with (S i) by lia. }
  apply tspec_bind. eapply (Mul_fresh_spec s1 (Plain d) (Trans w1)).
  { eapply holds_keeps; [done..|]. lia. }
  { apply holds_trans. eapply holds_keeps; [done| |lia].
    eapply holds_stable; [done..]. }
  { simpl. congruence. }
  intros s2 K2 L2 H2. simpl in H2.
  apply tspec_bind. unfold MulElem.
  eapply (elementwise_reset_spec s2 fmul d (Plain _) (Plain _)).
  { eapply valid_keeps; [done|]. eapply valid_keeps; [done|]. apply Hd. }
  { exact H2. }
  { eapply (holds_keeps _ s1 s2); [done..|]. simpl. lia. }
  { simpl. f_equal; congruence. }
  intros d' s3 K3 Hd'p H3.
  assert (Hd'p' : ptr (Data d') = pD ∨ (pD + 1 < ptr (Data d'))%nat) by lia.
  eapply tspec_step; [apply assign_eq; lia|].
  eapply tspec_step; [apply index_eq; [lia|by rewrite Nat2Z.id]|].
  eapply tspec_step; [apply index_eq; [lia|by rewrite Nat2Z.id]|].
  pose proof (keeps_length _ _ _ K3) as L3.
  assert (Hs3 : stable bC s s3).
  { eapply stable_trans; [eapply (stable_chain2 _ s s1 s2); try done; lia|].
    eapply keeps_stable; [done|lia..]. }
  apply tspec_bind. eapply (Mul_inplace_spec s3 nw (Trans a) (Plain d')).
  { eapply valid_keeps; [done|]. eapply valid_keeps; [done|].
    eapply valid_keeps; [done|]. apply Hhnw. }
  { apply holds_trans. eapply holds_stable; [|done|done].
    eapply stable_trans; done. }
  { exact H3. }
  { simpl. destruct (holds_dims _ _ _ H3) as [-> _]. simpl. congruence. }
  { simpl. rewrite HRnw, HCa. rewrite HnW0. congruence. }
  { simpl. destruct (holds_dims _ _ _ H3) as [_ ->]. simpl.
    rewrite HCnw, HnW0. congruence. }
  intros s4 K4 L4 H4.
  eapply tspec_step; [apply assign_eq; lia|].
  apply tspec_ret. rewrite !Nat2Z.id.
  assert (Hs4 : stable bC s s4).
  { eapply stable_trans; [done|]. eapply keeps_stable; [done|lia..]. }
  assert (Hkeep : ∀ m v, holds (heap s) m v →
            ptr (Data m) ≠ (bC + 2 * i)%nat →
            (ptr (Data m) = (pD + 1)%nat ∨ (ptr (Data m) < pD)%nat) →
            holds (heap s4) m v).
  { intros m v Hm Hne Hlt. pose proof (holds_ptr _ _ _ Hm).
    eapply holds_keeps; [exact K4| |lia].
    eapply holds_keeps; [exact K3| |lia].
    eapply holds_keeps; [exact K2| |lia].
    eapply holds_keeps; [exact K1|done|lia]. }
  unfold bwd_inv. split_and!.
  - eapply stable_trans; done.
  - lia.
  - by rewrite length_insert.
  - by rewrite length_insert.
  - rewrite (delta_step i) by lia. rewrite HnW1.
    eapply holds_keeps; [exact K4|exact H3|lia].
  - done.
  - intros j Hj. destruct (decide (j = i)) as [->|Hne].
    + exists nw. rewrite list_lookup_insert_eq by lia. split_and!; [done..|].
      rewrite decide_True by lia. unfold gradW.
      rewrite (delta_step i) by lia. rewrite HnW1. exact H4.
    + destruct (HW j Hj) as (m & Hm & Hpm & Hhm).
      exists m. rewrite list_lookup_insert_ne by done. split_and!; [done..|].
      assert (Hv : (if decide (i ≤ j)%nat then gradW Ws Bs x y top j else Wv j)
                   = (if decide (S i ≤ j)%nat then gradW Ws Bs x y top j else Wv j)).
      { repeat case_decide; try done; lia. }
      rewrite Hv. apply Hkeep; [done|lia|lia].
  - intros j Hj. destruct (HBtop j Hj) as (m & Hm & Hpm & Hhm).
    exists m. rewrite list_lookup_insert_ne by lia. split_and!; [done..|].
    apply Hkeep; [done|lia|lia].
  - intros j Hj. destruct (decide (j = i)) as [->|Hne].
    + exists d'. rewrite list_lookup_insert_eq by lia.
      destruct (holds_dims _ _ _ H3) as [HR3 HC3]. simpl in HR3, HC3.
      split_and!; [done| |congruence|].
      * eapply valid_keeps; [done|]. apply H3.
      * rewrite HC3. exact HW1a.
    + destruct (HBv j) as (m & Hm & Hvm & Hrm & Hcm); [lia|].
      exists m. rewrite list_lookup_insert_ne by done. split_and!; [done| |done..].
      eapply valid_keeps; [exact K4|]. eapply valid_keeps; [exact K3|].
      eapply valid_keeps; [exact K2|]. eapply valid_keeps; [exact K1|done].
  - intros _. by rewrite list_lookup_insert_eq by lia.
Qed.

Lemma bp_backward_spec d nB nW s :
  bwd_inv top (d, nB, nW) s →
  tspec s (bp_backward n (Z.of_nat L - 1) acts zs d nB nW) (bwd_inv O).
Proof.
  intros Hinv. pose proof (wf_two _ _ _ _ _ Hwf) as Htwo.
  unfold bp_backward.
  replace (Z.to_nat (Z.of_nat L - 1 - 1)) with top by lia.
  apply (tspec_for_down bwd_inv); [done|].
  intros k [[d' nB'] nW'] s' Hk Hinv'. by apply bp_backward_body.
Qed.

End Backward.

(** What [backpropQuadCost] returns for a well-formed example [(x, y)]:
    every [nablaW[i]] holds [activations[i]ᵗ × delta_i]; [nablaB] holds the
    error of the last and of the first layer at its two ends, and valid
    row vectors of the right widths in between. *)
Definition bp_post (sizes : list Z) (Ws Bs : list (matrix F)) (x y : matrix F)
    (st : State F) (r : list Dense * list Dense) (s' : State F) : Prop :=
  let top := (length sizes - 2)%nat in
  stable (length (heap st)) st s' ∧
  length r.1 = (length sizes - 1)%nat ∧ length r.2 = (length sizes - 1)%nat ∧
  holds_range (heap s') r.2 (gradW Ws Bs x y top) 0 (length sizes - 1) ∧
  holds_range (heap s') r.1 (delta Ws Bs x y top) top (S top) ∧
  holds_range (heap s') r.1 (delta Ws Bs x y top) 0 1 ∧
  (∀ j, (j < length sizes - 1)%nat →
     ∃ m, r.1 !! j = Some m ∧ valid (heap s') m ∧ Rows m = 1 ∧
          sizes !! S j = Some (Cols m)).

Lemma backprop_spec n sizes Ws Bs x y st input desired eta :
  wf_net n (heap st) sizes Ws Bs →
  holds (heap st) input x → holds (heap st) desired y →
  mr x = 1 → sizes !! O = Some (mc x) →
  mr y = 1 → sizes !! (length sizes - 1)%nat = Some (mc y) →
  tspec st (backpropQuadCost n [input; desired] eta) (bp_post sizes Ws Bs x y st).
Proof.
  intros Hwf Hx Hy Hrx Hcx Hry Hcy.
  pose proof (wf_two _ _ _ _ _ Hwf) as Htwo.
  set (L := length sizes) in *. set (top := (L - 2)%nat).
  pose proof (holds_ptr _ _ _ Hx) as Hpx.
  pose proof (holds_ptr _ _ _ Hy) as Hpy.
  unfold backpropQuadCost. rewrite decide_False by (simpl; lia).
  rewrite (wf_layers _ _ _ _ _ Hwf). fold L.
  unfold make_denses at 1. rewrite decide_False by lia.
  eapply tspec_step; [reflexivity|].
  unfold make_denses at 1. rewrite decide_False by lia.
  eapply tspec_step; [reflexivity|].
  replace (Z.to_nat (Z.of_nat L - 1 + 1)) with L by lia.
  replace (Z.to_nat (Z.of_nat L - 1)) with (L - 1)%nat by lia.
  eapply tspec_step; [apply index_eq; [lia|]; apply lookup_replicate_2; lia|].
  eapply tspec_step; [apply index_eq; [lia|done]|].
  apply tspec_bind. eapply Clone_spec; [apply Hx|].
  intros s1 K1 L1 H1. destruct Hx as [Hxv Hxval]. rewrite Hxval in H1.
  eapply tspec_step; [apply assign_eq; rewrite length_replicate; lia|].
  assert (Hst1 : stable (length (heap st)) st s1)
    by (eapply keeps_stable; [done|lia..]).
  assert (Hwf1 : wf_net n (heap s1) sizes Ws Bs)
    by (eapply wf_net_stable; [done..|lia]).
  (* the forward pass *)
  apply tspec_bind.
  eapply tspec_mono; [apply (bp_forward_spec n sizes Ws Bs x Hrx Hcx s1); done|].
  intros [acts zs] sC (HstC & HlA & HlZ & HA & _ & HZ). simpl in HlA, HlZ, HA, HZ.
  fold L in HlA, HlZ, HA, HZ.
  replace (S (Z.to_nat (Z.of_nat L - 1))) with L in HA by lia.
  replace (Z.to_nat (Z.of_nat L - 1)) with (L - 1)%nat in HZ by lia.
  pose proof (stable_length _ _ _ HstC) as HlenC.
  assert (HstC0 : stable (length (heap st)) st sC).
  { eapply stable_trans; [done|]. eapply stable_le; [|done]. lia. }
  assert (HwfC : wf_net n (heap sC) sizes Ws Bs)
    by (eapply wf_net_stable; [done..|lia]).
  assert (HyC : holds (heap sC) desired y) by (eapply holds_stable; done).
  (* the gradient matrices *)
  unfold make_denses at 1. rewrite decide_False by lia.
  eapply tspec_step; [reflexivity|].
  unfold make_denses at 1. rewrite decide_False by lia.
  eapply tspec_step; [reflexivity|].
  replace (Z.to_nat (Z.of_nat L - 1)) with (L - 1)%nat by lia.
  apply tspec_bind.
  eapply tspec_mono; [apply (bp_clone_spec n sizes Ws Bs sC); done|].
  intros [nW nB] s3 (Hst3 & Hl3 & HlW & HlB & HW & HB). simpl in HlW, HlB, HW, HB.
  fold L in HlW, HlB, HW, HB.
  replace (Z.to_nat (Z.of_nat L - 1)) with (L - 1)%nat in * by lia.
  set (bC := length (heap sC)) in *.
  (* the output layer *)
  destruct (HA (L - 1)%nat) as (aL & HaL & HhaL); [lia|].
  destruct (HZ top) as (zt & Hzt & Hhzt); [lia|].
  destruct (HA top) as (at_ & Hat & Hhat); [lia|].
  destruct (activation_shape _ _ _ _ _ x (L - 1)%nat HwfC Hrx Hcx) as [HAr HAc]; [lia|].
  destruct (activation_shape _ _ _ _ _ x top HwfC Hrx Hcx) as [HAtr HAtc]; [lia|].
  destruct (preact_shape n sizes Ws Bs x Hrx Hcx sC top HwfC) as [HZr HZc]; [lia|].
  replace (S top) with (L - 1)%nat in HZc by lia.
  apply tspec_bind.
  eapply tspec_mono.
  { eapply (bp_output_delta_spec s3 (Z.of_nat L - 1) acts zs _ aL zt desired).
    - lia.
    - by replace (Z.to_nat (Z.of_nat L - 1)) with (L - 1)%nat by lia.
    - by replace (Z.to_nat (Z.of_nat L - 1 - 1)) with top by lia.
    - done.
    - eapply holds_stable; [exact Hst3|done|]. by eapply holds_ptr.
    - eapply holds_stable; [exact Hst3|done|]. by eapply holds_ptr.
    - eapply holds_stable; [exact Hst3|done|]. by eapply holds_ptr.
    - congruence.
    - congruence.
    - congruence.
    - congruence. }
  intros d s4 (Hd & Hdp & Hl4 & Hst4).
  assert (HdDl : mmulelem (msub (activation Ws Bs x (L - 1)) y)
                   (mapply sigmoidPrimeMatrix (preact Ws Bs x top))
                 = delta Ws Bs x y top top).
  { unfold delta. rewrite Nat.sub_diag. simpl. unfold delta_out.
    by replace (S top) with (L - 1)%nat by lia. }
  rewrite HdDl in Hd.
  destruct (HW top) as (nwt & Hnwt & Hpnwt & Hhnwt); [lia|].
  destruct (lookup_lt_is_Some_2 nB top) as [nbt Hnbt]; [lia|].
  eapply tspec_step.
  { apply index_eq; [lia|]. by replace (Z.to_nat (Z.of_nat L - 1 - 1)) with top by lia. }
  apply tspec_bind. eapply Clone_spec; [apply Hd|].
  intros s5 K5 L5 H5. destruct Hd as [Hdv Hdval]. rewrite Hdval in H5.
  eapply tspec_step; [apply assign_eq; lia|].
  eapply tspec_step.
  { apply index_eq; [lia|]. by replace (Z.to_nat (Z.of_nat L - 1 - 1)) with top by lia. }
  eapply tspec_step.
  { apply index_eq; [lia|]. by replace (Z.to_nat (Z.of_nat L - 1 - 1)) with top by lia. }
  replace (Z.to_nat (Z.of_nat L - 1 - 1)) with top by lia.
  assert (Hst5 : stable (length (heap s3)) s3 s5).
  { eapply stable_trans; [done|]. eapply keeps_stable; [done|lia..]. }
  destruct (wf_net_W _ _ _ _ _ top HwfC) as (wt & Wt & _ & _ & HnWt & _ & HWa & HWb); [lia|].
  replace (S top) with (L - 1)%nat in HWb by lia.
  destruct (holds_dims _ _ _ Hhnwt) as [HRnw HCnw]. rewrite HnWt in HRnw, HCnw.
  destruct (holds_dims _ _ _ Hhat) as [HRat HCat].
  destruct (delta_shape n sizes Ws Bs x y Hrx Hcx sC top HwfC) as [HDr HDc]; [lia|].
  replace (S top) with (L - 1)%nat in HDc by lia.
  assert (HRd : Rows d = 1).
  { change (Rows d) with (mr (value (heap s4) d)). by rewrite Hdval. }
  assert (HCd : sizes !! (L - 1)%nat = Some (Cols d)).
  { change (Cols d) with (mc (value (heap s4) d)). by rewrite Hdval. }
  apply tspec_bind. eapply (Mul_inplace_spec s5 nwt (Trans at_) (Plain d)).
  { eapply valid_keeps; [done|]. eapply holds_stable; [exact Hst4|done|].
    by eapply holds_ptr. }
  { apply holds_trans. eapply holds_stable; [exact Hst5| |].
    - eapply holds_stable; [exact Hst3|done|]. by eapply holds_ptr.
    - apply holds_ptr in Hhat. pose proof (stable_length _ _ _ Hst3). lia. }
  { eapply holds_keeps; [done|by split|lia]. }
  { simpl. congruence. }
  { simpl. congruence. }
  { simpl. congruence. }
  intros s6 K6 L6 H6.
  eapply tspec_step; [apply assign_eq; lia|].
  (* the remaining layers *)
  replace (Z.to_nat (Z.of_nat L - 1 - 1)) with top by lia.
  apply tspec_bind.
  eapply tspec_mono.
  { eapply (bp_backward_spec n sizes Ws Bs x y Hrx Hcx sC acts zs HwfC HA HZ).
    fold L top bC. unfold bwd_inv. fold L top bC.
    assert (Hst6 : stable bC sC s6).
    { eapply stable_trans; [done|]. eapply stable_trans.
      - eapply stable_le; [|exact Hst5]. pose proof (stable_length _ _ _ Hst3). lia.
      - eapply keeps_stable; [done|lia..]. }
    split_and!.
    - done.
    - lia.
    - by rewrite length_insert.
    - by rewrite length_insert.
    - eapply holds_keeps; [exact K6| |lia].
      eapply holds_keeps; [exact K5|by split|lia].
    - left. lia.
    - intros j Hj. destruct (decide (j = top)) as [->|Hne].
      + exists nwt. rewrite list_lookup_insert_eq by lia. split_and!; [done..|].
        rewrite decide_True by lia. exact H6.
      + destruct (HW j) as (m & Hm & Hpm & Hhm); [lia|].
        exists m. rewrite list_lookup_insert_ne by done. split_and!; [done..|].
        rewrite decide_False by lia.
        eapply holds_keeps; [exact K6| |lia].
        eapply holds_stable; [exact Hst5|done|]. by eapply holds_ptr.
    - intros j Hj. assert (j = top) as -> by lia.
      eexists. rewrite list_lookup_insert_eq by lia. split_and!; [done| |].
      + simpl. lia.
      + eapply holds_keeps; [exact K6|exact H5|]. simpl. lia.
    - intros j Hj. lia.
    - intros Hlt. lia. }
  intros [[d7 nB7] nW7] s7 (Hst7 & HpD7 & HlB7 & HlW7 & Hd7 & _ & HW7 & HBt7 & HBv7 & HBk7).
  apply tspec_ret. unfold bp_post; simpl. fold L top.
  split_and!.
  - eapply stable_trans; [exact HstC0|]. eapply stable_le; [|exact Hst7]. lia.
  - done.
  - done.
  - intros j Hj. destruct (HW7 j Hj) as (m & Hm & _ & Hhm).
    rewrite decide_True in Hhm by lia. eauto.
  - intros j Hj. assert (j = top) as -> by lia.
    destruct (HBt7 top) as (m & Hm & _ & Hhm); [lia|].
    exists m. split; [exact Hm|exact Hhm].
  - intros j Hj. assert (j = O) as -> by lia.
    destruct (decide (top = O)) as [Ht|Ht].
    + destruct (HBt7 top) as (m & Hm & _ & Hhm); [lia|].
      fold L top in Hm, Hhm. rewrite Ht in Hm. rewrite Ht in Hhm at 2.
      exists m. split; [exact Hm|exact Hhm].
    + exists d7. split; [apply HBk7; lia|exact Hd7].
  - intros j Hj. destruct (decide (j = top)) as [->|Hne].
    + destruct (HBt7 top) as (m & Hm & _ & Hhm); [lia|].
      destruct (holds_dims _ _ _ Hhm) as [HRm HCm].
      exists m. split_and!; [exact Hm|apply Hhm|rewrite HRm; exact HDr|].
      rewrite HCm. replace (S top) with (L - 1)%nat by lia. exact HDc.
    + apply HBv7. lia.
Qed.

End Backprop.

(** ** A concrete three-layer network over the rationals *)

Module Example3.
Import QcModel.

Definition q (z : Z) : Qcanon.Qc := of_int z.

(** Layer sizes [1; 2; 1]; arrays 0..6 hold [Sizes], [W0], [B0], [W1], [B1],
    an input and a desired output. *)
Definition sizes3 : list Z := [1; 2; 1].
Definition heap3 : list (list Qcanon.Qc) :=
  [ [q 1; q 2; q 1]; [q 1; q (-1)]; [q 0; q 1]; [q 2; q 1]; [q (-1)]; [q 1]; [q 0] ].
Definition st3 : State Qcanon.Qc := MkState heap3 0 [].
Definition net3 : Network Qcanon.Qc :=
  MkNetwork 3 (dense_at 0 1 3) [dense_at 1 1 2; dense_at 3 2 1] [dense_at 2 1 2; dense_at 4 1 1] None.
Definition Ws3 : list (matrix Qcanon.Qc) := [Mat 1 2 [q 1; q (-1)]; Mat 2 1 [q 2; q 1]].
Definition Bs3 : list (matrix Qcanon.Qc) := [Mat 1 2 [q 0; q 1]; Mat 1 1 [q (-1)]].
Definition input3 : Dense := dense_at 5 1 1.
Definition desired3 : Dense := dense_at 6 1 1.
Definition x3 : matrix Qcanon.Qc := Mat 1 1 [q 1].
Definition y3 : matrix Qcanon.Qc := Mat 1 1 [q 0].

Lemma holds3 p r c (vs : list Qcanon.Qc) :
  0 < r → 0 < c → heap3 !! p = Some vs → length vs = Z.to_nat (r * c) →
  holds heap3 (dense_at p r c) (Mat r c vs).
Proof.
  intros Hr Hc E Hlen. split.
  - unfold valid, cells; simpl. split_and!; try lia. eauto.
  - unfold value, cells, slice_view; simpl. rewrite E. simpl.
    rewrite take_take, Nat.min_id, <- Hlen. by rewrite firstn_all.
Qed.

Lemma wf_net3 : wf_net net3 heap3 sizes3 Ws3 Bs3.
Proof.
  split; try done.
  - simpl. lia.
  - unfold Ws3; simpl.
    constructor; [by apply holds3|constructor; [by apply holds3|constructor]].
  - unfold Bs3; simpl.
    constructor; [by apply holds3|constructor; [by apply holds3|constructor]].
  - intros [|[|k]] W E; simplify_eq/=; done.
  - intros [|[|k]] B E; simplify_eq/=; done.
Qed.

Lemma holds_input3 : holds heap3 input3 x3.
Proof. by apply holds3. Qed.

Lemma holds_desired3 : holds heap3 desired3 y3.
Proof. by apply holds3. Qed.

End Example3.

(** ** A four-layer network with one neuron per layer, over any scalars *)

Section Example4.
Context {F : Type} `{Float64 F}.
Variables (w0 b0 w1 b1 w2 b2 x0 y0 : F).

(** Arrays 0..8 hold [Sizes], [W0], [B0], [W1], [B1], [W2], [B2], an input
    and a desired output. *)
Definition heap4 : list (list F) :=
  [ [of_int 1; of_int 1; of_int 1; of_int 1];
    [w0]; [b0]; [w1]; [b1]; [w2]; [b2]; [x0]; [y0] ].
Definition st4 : State F := MkState heap4 0 [].
Definition net4 : Network F :=
  MkNetwork 4 (dense_at 0 1 4)
    [dense_at 1 1 1; dense_at 3 1 1; dense_at 5 1 1]
    [dense_at 2 1 1; dense_at 4 1 1; dense_at 6 1 1] None.
Definition example4 : list Dense := [dense_at 7 1 1; dense_at 8 1 1].
Definition Ws4 : list (matrix F) := [Mat 1 1 [w0]; Mat 1 1 [w1]; Mat 1 1 [w2]].
Definition Bs4 : list (matrix F) := [Mat 1 1 [b0]; Mat 1 1 [b1]; Mat 1 1 [b2]].
Definition x4 : matrix F := Mat 1 1 [x0].
Definition y4 : matrix F := Mat 1 1 [y0].

End Example4.

(** ** Which calls can end in log.Fatal *)

Section FatalExits.
Context {F : Type} `{Float64 F}.
Implicit Types (st s : State F) (m : Dense) (v : matrix F).

(** [fatal_in P m]: when [m] ends in [log.Fatal], the message satisfies [P]. *)
Definition fatal_in {A} (P : string → Prop) (m : M F A) : Prop :=
  ∀ st msg st', m st = Fatal msg st' → P msg.

Lemma fatal_in_ret {A} P (a : A) : fatal_in P (ret a).
Proof. by intros st msg st' E. Qed.

Lemma fatal_in_panic {A} P : fatal_in P (panic (A := A)).
Proof. by intros st msg st' E. Qed.

Lemma fatal_in_bind {A B} P (m : M F A) (f : A → M F B) :
  fatal_in P m → (∀ a st st', m st = Ok a st' → fatal_in P (f a)) →
  fatal_in P (bind m f).
Proof.
  intros Hm Hf st msg st' E. unfold bind in E.
  destruct (m st) as [a s1|msg1 s1|] eqn:Em; [|injection E as <- <-|done].
  - eapply Hf; done.
  - eapply Hm; done.
Qed.

Lemma fatal_in_mono {A} (P Q : string → Prop) (m : M F A) :
  fatal_in P m → (∀ msg, P msg → Q msg) → fatal_in Q m.
Proof. intros Hm HPQ st msg st' E. eapply HPQ, Hm; done. Qed.

Lemma fatal_in_for_loop {A} P n i (body : Z → A → M F A) a :
  (∀ j x, fatal_in P (body j x)) → fatal_in P (for_loop n i body a).
Proof.
  intros Hbody. revert i a. induction n as [|n IH]; intros i a; simpl.
  - apply fatal_in_ret.
  - apply fatal_in_bind; [apply Hbody|]. intros. apply IH.
Qed.

Lemma fatal_in_for_range {A} P lo hi (body : Z → A → M F A) a :
  (∀ j x, fatal_in P (body j x)) → fatal_in P (for_range lo hi body a).
Proof. apply fatal_in_for_loop. Qed.

Lemma fatal_in_for_down {A} P n (body : Z → A → M F A) a :
  (∀ j x, fatal_in P (body j x)) → fatal_in P (for_down n body a).
Proof.
  intros Hbody. revert a. induction n as [|n IH]; intros a; simpl.
  - apply fatal_in_ret.
  - apply fatal_in_bind; [apply Hbody|]. intros. apply IH.
Qed.

Lemma fatal_in_index {A} P (l : list A) i : fatal_in P (index l i).
Proof.
  intros st msg st' E. unfold index in E.
  destruct (decide _); [|done]. by destruct (l !! _).
Qed.

Lemma fatal_in_assign {A} P (l : list A) i x : fatal_in P (assign l i x).
Proof. intros st msg st' E. unfold assign in E. by destruct (decide _). Qed.

Lemma fatal_in_make_denses P n : fatal_in P (make_denses n).
Proof. intros st msg st' E. unfold make_denses in E. by destruct (decide _). Qed.

Lemma fatal_in_make_floats P n : fatal_in P (make_floats n).
Proof. intros st msg st' E. unfold make_floats in E. by destruct (decide _). Qed.

Lemma fatal_in_slice_get P sl n : fatal_in P (slice_get sl n).
Proof. intros st msg st' E. unfold slice_get in E. by destruct (decide _). Qed.

Lemma fatal_in_slice_put P sl vs : fatal_in P (slice_put sl vs).
Proof. intros st msg st' E. unfold slice_put in E. by destruct (decide _). Qed.

Lemma fatal_in_At P m i j : fatal_in P (At m i j).
Proof.
  intros st msg st' E. unfold At in E. destruct (decide _); [|done].
  by destruct (_ !! _).
Qed.

Lemma fatal_in_Set P m i j x : fatal_in P (Set_ m i j x).
Proof.
  intros st msg st' E. unfold Set_ in E. destruct (decide _); [|done].
  by destruct (decide _).
Qed.

Lemma fatal_in_NormFloat64 P : fatal_in P NormFloat64.
Proof. by intros st msg st' E. Qed.

Lemma fatal_in_load P m : fatal_in P (load m).
Proof.
  unfold load. destruct (decide _); [apply fatal_in_panic|].
  apply fatal_in_bind; [apply fatal_in_slice_get|]. intros. apply fatal_in_ret.
Qed.

Lemma fatal_in_load_operand P a : fatal_in P (load_operand a).
Proof.
  destruct a; simpl; [apply fatal_in_load|].
  apply fatal_in_bind; [apply fatal_in_load|]. intros. apply fatal_in_ret.
Qed.

Lemma fatal_in_compute2 P g a b : fatal_in P (compute2 g a b).
Proof.
  unfold compute2. apply fatal_in_bind; [apply fatal_in_load_operand|]. intros.
  apply fatal_in_bind; [apply fatal_in_load_operand|]. intros. apply fatal_in_ret.
Qed.

Lemma fatal_in_compute1 P g a : fatal_in P (compute1 g a).
Proof.
  unfold compute1. apply fatal_in_bind; [apply fatal_in_load_operand|]. intros.
  apply fatal_in_ret.
Qed.

Lemma fatal_in_NewDense P r c : fatal_in P (NewDense r c).
Proof.
  unfold NewDense. apply fatal_in_bind; [apply fatal_in_make_floats|]. intros.
  apply fatal_in_ret.
Qed.

Lemma fatal_in_reuseAs P m r c : fatal_in P (reuseAs m r c).
Proof.
  unfold reuseAs. destruct (decide _); [apply fatal_in_panic|].
  destruct (isZero m).
  - apply fatal_in_bind; [|intros; apply fatal_in_ret].
    unfold use. destruct (decide _); [apply fatal_in_panic|].
    destruct (decide _); [apply fatal_in_ret|apply fatal_in_make_floats].
  - destruct (decide _); [apply fatal_in_panic|apply fatal_in_ret].
Qed.

Lemma fatal_in_receive P m r c compute :
  fatal_in P compute → fatal_in P (receive m r c compute).
Proof.
  intros Hc. unfold receive.
  apply fatal_in_bind; [apply fatal_in_reuseAs|]. intros.
  apply fatal_in_bind; [apply Hc|]. intros.
  apply fatal_in_bind; [apply fatal_in_slice_put|]. intros. apply fatal_in_ret.
Qed.

Lemma fatal_in_Mul P m a b : fatal_in P (Mul m a b).
Proof.
  unfold Mul. destruct (Dims a), (Dims b). destruct (decide _); [apply fatal_in_panic|].
  apply fatal_in_receive, fatal_in_compute2.
Qed.

Lemma fatal_in_elementwise P op m a b : fatal_in P (elementwise op m a b).
Proof.
  unfold elementwise. destruct (Dims a), (Dims b).
  destruct (decide _); [apply fatal_in_panic|].
  apply fatal_in_receive, fatal_in_compute2.
Qed.

Lemma fatal_in_Apply P m fn a : fatal_in P (Apply m fn a).
Proof.
  unfold Apply. destruct (Dims a). apply fatal_in_receive, fatal_in_compute1.
Qed.

Lemma fatal_in_Clone P m a : fatal_in P (Clone m a).
Proof.
  unfold Clone. destruct (Dims a).
  apply fatal_in_bind; [apply fatal_in_make_floats|]. intros.
  apply fatal_in_bind; [apply fatal_in_load_operand|]. intros.
  apply fatal_in_bind; [apply fatal_in_slice_put|]. intros. apply fatal_in_ret.
Qed.

(** One step of a proof that a sequence of calls has no fatal exit of
    its own. *)
Ltac fatal_step :=
  first
    [ apply fatal_in_ret | apply fatal_in_panic
    | apply fatal_in_index | apply fatal_in_assign | apply fatal_in_make_denses
    | apply fatal_in_Mul | apply fatal_in_elementwise | apply fatal_in_Apply
    | apply fatal_in_Clone | apply fatal_in_NewDense | apply fatal_in_At
    | apply fatal_in_Set | apply fatal_in_NormFloat64 | apply fatal_in_load
    | apply fatal_in_bind; [|intros ? ? ? _]
    | apply fatal_in_for_range; intros ? ?
    | apply fatal_in_for_down; intros ? ?
    | match goal with |- fatal_in _ (let '(_, _) := ?p in _) => destruct p end
    | match goal with |- fatal_in _ (match ?p with _ => _ end) => destruct p end ].


Lemma fatal_in_FeedForward P (n : Network F) input : fatal_in P (FeedForward n input).
Proof. unfold FeedForward. repeat fatal_step. Qed.

Lemma fatal_in_bp_forward P (n : Network F) size acts zs :
  fatal_in P (bp_forward n size acts zs).
Proof. unfold bp_forward. repeat fatal_step. Qed.

Lemma fatal_in_bp_clone P (n : Network F) size nW nB :
  fatal_in P (bp_clone n size nW nB).
Proof. unfold bp_clone. repeat fatal_step. Qed.

Lemma fatal_in_bp_output_delta P size acts zs data :
  fatal_in P (bp_output_delta (F := F) size acts zs data).
Proof. unfold bp_output_delta, quadraticCost, Sub, MulElem. repeat fatal_step. Qed.

Lemma fatal_in_bp_backward P (n : Network F) size acts zs d nB nW :
  fatal_in P (bp_backward n size acts zs d nB nW).
Proof. unfold bp_backward, MulElem. repeat fatal_step. Qed.

Lemma backprop_fatal (n : Network F) data eta st msg st' :
  backpropQuadCost n data eta st = Fatal msg st' →
  length data ≠ 2%nat ∧ msg = msg_backprop ∧ st' = st.
Proof.
  unfold backpropQuadCost. destruct (decide _) as [Hd|Hd].
  - intros E. injection E as <- <-. done.
  - intros E. exfalso. revert E.
    apply (fatal_in_bind (λ _, False)); [apply fatal_in_make_denses|]. intros.
    repeat first [ apply fatal_in_bp_forward | apply fatal_in_bp_clone
                 | apply fatal_in_bp_output_delta | apply fatal_in_bp_backward
                 | fatal_step ].
Qed.

Lemma fatal_in_backprop (n : Network F) data eta (ds : list (list Dense)) :
  data ∈ ds →
  fatal_in (λ msg, msg = msg_backprop ∧ ∃ ex, ex ∈ ds ∧ length ex ≠ 2%nat)
    (backpropQuadCost n data eta).
Proof.
  intros Hin st msg st' E. apply backprop_fatal in E as (?&?&?). eauto.
Qed.

Lemma fatal_in_sgd_batch (n : Network F) data eta i batchSize :
  fatal_in (λ msg, msg = msg_backprop ∧ ∃ ex, ex ∈ data ∧ length ex ≠ 2%nat)
    (sgd_batch n data eta i batchSize).
Proof.
  unfold sgd_batch.
  apply fatal_in_bind.
  { unfold sgd_zero_grads. repeat fatal_step. }
  intros [nB nW] ? ? _.
  apply fatal_in_bind.
  { unfold sgd_accumulate. apply fatal_in_for_range. intros j [nB' nW'].
    apply fatal_in_bind; [apply fatal_in_index|].
    intros ex s s' Hex. unfold index in Hex.
    destruct (decide _); [|done].
    destruct (data !! _) as [ex'|] eqn:El; [|done]. injection Hex as -> _.
    apply fatal_in_bind.
    { apply fatal_in_backprop. by eapply list_elem_of_lookup_2. }
    intros [tB tW] ? ? _. unfold sgd_add_grads, Add. repeat fatal_step. }
  intros [nB' nW'] ? ? _.
  apply fatal_in_bind; [|intros; apply fatal_in_ret].
  unfold sgd_update, sgd_step_matrix. repeat fatal_step.
Qed.


Lemma fatal_in_sgd_test P (n : Network F) accept test :
  fatal_in P (sgd_test n accept test).
Proof.
  unfold sgd_test. apply fatal_in_bind.
  - repeat first [ apply fatal_in_FeedForward | fatal_step ].
  - intros a s1 s2 _ st1 msg st1' E. done.
Qed.

Lemma SGD_fatal (n : Network F) data eta batchSize test st msg st' :
  SGD n data eta batchSize test st = Fatal msg st' →
  (NumLayers n < 2 ∧ msg = msg_sgd ∧ st' = st) ∨
  (2 ≤ NumLayers n ∧ msg = msg_backprop ∧ ∃ ex, ex ∈ data ∧ length ex ≠ 2%nat).
Proof.
  unfold SGD. destruct (decide _) as [Hd|Hd].
  - intros E. injection E as <- <-. by left.
  - destruct (decide _); [done|]. intros E. right. split; [lia|].
    revert E.
    apply (fatal_in_bind
             (λ msg, msg = msg_backprop ∧ ∃ ex, ex ∈ data ∧ length ex ≠ 2%nat)).
    + apply fatal_in_for_range. intros. apply fatal_in_sgd_batch.
    + intros. destruct test; [|apply fatal_in_ret].
      destruct (TestFunc n); [apply fatal_in_sgd_test|apply fatal_in_ret].
Qed.




End FatalExits.

(** ** Initialization *)

Section Initialization.
Context {F : Type} `{Float64 F}.
Implicit Types (h : list (list F)) (st s : State F) (m : Dense) (v : matrix F).

(** The header has non-negative dimensions and its slice has room for
    every entry. *)
Definition room h m : Prop :=
  0 ≤ Rows m ∧ 0 ≤ Cols m ∧
  (Z.to_nat (Rows m * Cols m) ≤ length (slice_view (Data m) h))%nat.

(** Every slice sees as many elements in [h'] as in [h]. *)
Definition views_same h h' : Prop :=
  ∀ sl, length (slice_view (F := F) sl h') = length (slice_view sl h).

Lemma views_same_refl h : views_same h h.
Proof. by intros sl. Qed.

Lemma views_same_trans h1 h2 h3 :
  views_same h1 h2 → views_same h2 h3 → views_same h1 h3.
Proof. intros H12 H23 sl. by rewrite H23, H12. Qed.

Lemma room_views_same h h' m : views_same h h' → room h m → room h' m.
Proof. intros Hv (?&?&?). unfold room. by rewrite Hv. Qed.

Lemma Set_spec st m i j x (Q : unit → State F → Prop) :
  room (heap st) m → 0 ≤ i < Rows m → 0 ≤ j < Cols m →
  (∀ st', views_same (heap st) (heap st') → Q tt st') →
  tspec st (Set_ m i j x) Q.
Proof.
  intros (Hr & Hc & Hroom) Hi Hj HQ. unfold tspec, Set_.
  rewrite decide_True by done. rewrite decide_True by nia.
  apply HQ. intros sl. simpl. unfold slice_view.
  destruct (decide (ptr sl = ptr (Data m))) as [E|Hne].
  - rewrite E, list_lookup_alter_eq.
    destruct (heap st !! ptr (Data m)); [|done]. simpl.
    by rewrite !length_take, length_insert.
  - by rewrite list_lookup_alter_ne.
Qed.

Lemma fill_random_spec st m r c :
  room (heap st) m → Rows m = r → Cols m = c →
  tspec st (fill_random m r c) (λ _ st', views_same (heap st) (heap st')).
Proof.
  intros Hroom HR HC. pose proof Hroom as (Hr & Hc & _). unfold fill_random.
  apply (tspec_for_range (λ _ _ s, views_same (heap st) (heap s))); [lia| |].
  { apply views_same_refl. }
  intros j [] s Hj Hs.
  apply (tspec_for_range (λ _ _ s', views_same (heap st) (heap s'))); [lia|done|].
  intros k [] s' Hk Hs'.
  eapply tspec_step; [reflexivity|].
  apply Set_spec; [|lia..|].
  - eapply (room_views_same (heap st)); done.
  - intros s'' Hs''. eapply views_same_trans; done.
Qed.

Lemma room_fresh h r c :
  0 ≤ r → 0 ≤ c →
  room (h ++ [replicate (Z.to_nat (r * c)) fzero]) (dense_at (length h) r c).
Proof.
  intros Hr Hc. unfold room, dense_at, slice_view; simpl. split_and!; try done.
  rewrite lookup_app_r, Nat.sub_diag by done. simpl.
  by rewrite length_take, length_replicate, Nat.min_id.
Qed.

(** The shapes [Init] gives to the weight and bias matrices. *)
Definition init_shapes (size : list Z) (weights biases : list Dense) (k : nat) : Prop :=
  ∀ i a a', (i < k)%nat → size !! i = Some a → size !! S i = Some a' →
    ∃ w b, weights !! i = Some w ∧ biases !! i = Some b ∧
           Rows w = a ∧ Cols w = a' ∧ Rows b = 1 ∧ Cols b = a'.

Lemma Init_spec size st :
  (2 ≤ length size)%nat → Forall (λ z, 0 ≤ z) size →
  tspec st (Init size) (λ n st',
    NumLayers n = Z.of_nat (length size) ∧
    Rows (Sizes n) = 1 ∧ Cols (Sizes n) = Z.of_nat (length size) ∧
    length (Weights n) = (length size - 1)%nat ∧
    length (Biases n) = (length size - 1)%nat ∧
    init_shapes size (Weights n) (Biases n) (length size - 1)).
Proof.
  intros Htwo Hpos. unfold Init. set (L := length size) in *.
  rewrite decide_False by lia.
  eapply tspec_step; [apply NewDense_eq; lia|].
  set (s1 := push st _). set (sz := dense_at (length (heap st)) 1 (Z.of_nat L)).
  assert (Hroom1 : room (heap s1) sz) by (apply room_fresh; lia).
  apply tspec_bind.
  eapply tspec_mono.
  { apply (tspec_for_range (λ _ _ s, views_same (heap s1) (heap s))); [lia| |].
    { apply views_same_refl. }
    intros i [] s Hi Hs.
    destruct (lookup_lt_is_Some_2 size (Z.to_nat i)) as [val Hval]; [lia|].
    eapply tspec_step; [apply index_eq; [lia|done]|].
    apply Set_spec; [|simpl; lia..|].
    - eapply (room_views_same (heap s1)); done.
    - intros s' Hs'. eapply views_same_trans; done. }
  intros [] s2 _.
  unfold make_denses at 1. rewrite decide_False by lia.
  eapply tspec_step; [reflexivity|].
  unfold make_denses at 1. rewrite decide_False by lia.
  eapply tspec_step; [reflexivity|].
  apply tspec_bind.
  eapply tspec_mono.
  { apply (tspec_for_range (λ i (p : list Dense * list Dense) (s : State F),
             length p.1 = (L - 1)%nat ∧ length p.2 = (L - 1)%nat ∧
             init_shapes size p.1 p.2 (Z.to_nat i))); [lia| |].
    { simpl. rewrite !length_replicate. split_and!; try lia.
      intros i a a' Hi. lia. }
    intros i [ws bs] s Hi (HlW & HlB & Hsh). simpl in HlW, HlB, Hsh.
    destruct (lookup_lt_is_Some_2 size (Z.to_nat i)) as [si Hsi]; [lia|].
    destruct (lookup_lt_is_Some_2 size (Z.to_nat (i + 1))) as [si1 Hsi1]; [lia|].
    pose proof (Forall_lookup_1 _ _ _ _ Hpos Hsi) as Hsi0.
    pose proof (Forall_lookup_1 _ _ _ _ Hpos Hsi1) as Hsi10. simpl in Hsi0, Hsi10.
    eapply tspec_step; [apply index_eq; [lia|done]|].
    eapply tspec_step; [apply index_eq; [lia|done]|].
    eapply tspec_step; [apply NewDense_eq; nia|].
    eapply tspec_step; [apply assign_eq; lia|].
    apply tspec_bind.
    eapply tspec_mono; [apply fill_random_spec; [by apply room_fresh|done..]|].
    intros [] s3 _.
    eapply tspec_step; [apply NewDense_eq; nia|].
    eapply tspec_step; [apply assign_eq; lia|].
    apply tspec_bind.
    eapply tspec_mono; [apply fill_random_spec; [apply room_fresh; lia|done..]|].
    intros [] s4 _.
    apply tspec_ret. simpl. rewrite !length_insert. split_and!; [done..|].
    intros k a a' Hk Ha Ha'.
    destruct (decide (k = Z.to_nat i)) as [->|Hne].
    - do 2 eexists. rewrite !list_lookup_insert_eq by lia.
      split_and!; try done; simpl.
      + congruence.
      + replace (S (Z.to_nat i)) with (Z.to_nat (i + 1)) in Ha' by lia. congruence.
      + replace (S (Z.to_nat i)) with (Z.to_nat (i + 1)) in Ha' by lia. congruence.
    - rewrite !list_lookup_insert_ne by done. apply Hsh; [lia|done..]. }
  intros [ws bs] s5 (HlW & HlB & Hsh). simpl in HlW, HlB, Hsh.
  apply tspec_ret. simpl. split_and!; try done.
  by replace (Z.to_nat (Z.of_nat L - 1)) with (L - 1)%nat in Hsh by lia.
Qed.

End Initialization.

(** ** Which examples SGD reads *)

Section Batches.
Context {F : Type} `{Float64 F}.
Implicit Types (st s : State F).

Lemma bind_ext {A B} (m1 m2 : M F A) (f1 f2 : A → M F B) st :
  m1 st = m2 st → (∀ a s, m1 st = Ok a s → f1 a s = f2 a s) →
  bind m1 f1 st = bind m2 f2 st.
Proof.
  intros Em Ef. unfold bind. rewrite <- Em.
  destruct (m1 st) as [a s| |] eqn:E; [|done..]. by apply Ef.
Qed.

(** Two loops agree when their bodies agree on the values the loop
    variable takes and on the accumulators that satisfy an invariant. *)
Lemma for_loop_ext {A} (I : A → Prop) n i (body1 body2 : Z → A → M F A) a st :
  I a →
  (∀ j x s, i ≤ j < i + Z.of_nat n → I x → body1 j x s = body2 j x s) →
  (∀ j x s x' s', I x → body1 j x s = Ok x' s' → I x') →
  for_loop n i body1 a st = for_loop n i body2 a st.
Proof.
  revert i a st. induction n as [|n IH]; intros i a st Ha Hb Hpres; [done|].
  simpl. apply bind_ext.
  - apply Hb; [lia|done].
  - intros a' s' E. apply IH.
    + by eapply Hpres.
    + intros j x s Hj. apply Hb. lia.
    + done.
Qed.

Lemma for_range_ext {A} (I : A → Prop) lo hi (body1 body2 : Z → A → M F A) a st :
  I a →
  (∀ j x s, lo ≤ j < hi → I x → body1 j x s = body2 j x s) →
  (∀ j x s x' s', I x → body1 j x s = Ok x' s' → I x') →
  for_range lo hi body1 a st = for_range lo hi body2 a st.
Proof.
  intros Ha Hb Hpres. unfold for_range. apply (for_loop_ext I); [done| |done].
  intros j x s Hj. apply Hb. lia.
Qed.

Lemma index_ext {A} (l l' : list A) i st :
  l !! Z.to_nat i = l' !! Z.to_nat i → index l i st = index l' i st.
Proof. intros E. unfold index. by rewrite E. Qed.

(** The batch size [sgd_batch] returns is at most the one it was given. *)
Lemma sgd_batch_size (n : Network F) data eta i batchSize st r st' :
  sgd_batch n data eta i batchSize st = Ok r st' → r ≤ batchSize.
Proof.
  unfold sgd_batch, bind.
  destruct (sgd_zero_grads _ _ _) as [[nB nW] s1| |]; [|done..].
  destruct (sgd_accumulate _ _ _ _ _ _ _ _ _) as [[nB' nW'] s2| |]; [|done..].
  destruct (sgd_update _ _ _ _ _ _ _) as [[] s3| |]; [|done..].
  intros E. injection E as <- _. case_decide; lia.
Qed.

Lemma sgd_batch_ext (n : Network F) data data' eta i batchSize bound st :
  length data = length data' →
  (∀ k, Z.of_nat k < bound → data !! k = data' !! k) →
  0 ≤ i → i + batchSize ≤ bound →
  sgd_batch n data eta i batchSize st = sgd_batch n data' eta i batchSize st.
Proof.
  intros Hlen Hagree Hi Hb. unfold sgd_batch. rewrite <- Hlen.
  apply bind_ext; [done|]. intros [nB nW] s1 _.
  set (bs := if decide _ then _ else batchSize).
  assert (Hbs : bs ≤ batchSize) by (unfold bs; case_decide; lia).
  apply bind_ext; [|done].
  unfold sgd_accumulate. apply (for_range_ext (λ _, True)); [done| |done].
  intros j [nB' nW'] s Hj _. apply bind_ext; [|done].
  apply index_ext, Hagree. lia.
Qed.

End Batches.

(** ** One batch of SGD *)

Section BatchUpdate.
Context {F : Type} `{Float64 F}.
Implicit Types (h : list (list F)) (st s : State F) (m : Dense) (v : matrix F).

(** The zero matrix, the sum of a list of matrices in the order the
    accumulator adds them, and the two forms of the update: the one the
    code computes entry by entry, [p - g*eta/float64(batchSize)], and the
    specification's [P - (eta/batchSize) * G]. *)
Definition mzero (r c : Z) : matrix F := Mat r c (replicate (Z.to_nat (r * c)) fzero).

Definition msum (r c : Z) (gs : list (matrix F)) : matrix F :=
  fold_left madd gs (mzero r c).

Definition sgd_new (eta : F) (batchSize : Z) (P G : matrix F) : matrix F :=
  tabulate (mr P) (mc P)
    (λ i j, fsub (mat_at P i j) (fdiv (fmul (mat_at G i j) eta) (of_int batchSize))).



Lemma row_major_lookup r c (f : Z → Z → F) i j :
  0 ≤ i < r → 0 ≤ j < c →
  row_major r c f !! Z.to_nat (i * c + j) = Some (f i j).
Proof.
  intros Hi Hj. unfold row_major.
  replace (Z.to_nat (i * c + j)) with (Z.to_nat i * Z.to_nat c + Z.to_nat j)%nat by nia.
  erewrite lookup_flat_map_const with (x := i).
  - rewrite list_lookup_fmap, lookup_seqZ_lt by lia. simpl. do 2 f_equal. lia.
  - intros y. by rewrite length_map, length_seqZ.
  - rewrite lookup_seqZ_lt by lia. f_equal. lia.
  - lia.
Qed.

Lemma tabulate_ext r c (f g : Z → Z → F) :
  (∀ i j, 0 ≤ i < r → 0 ≤ j < c → f i j = g i j) → tabulate r c f = tabulate r c g.
Proof.
  intros Hfg. unfold tabulate, row_major. f_equal.
  assert (Hrows : Forall (λ i, 0 ≤ i < r) (seqZ 0 r)).
  { apply Forall_seqZ. lia. }
  induction Hrows as [|i l Hi _ IH]; [done|]. simpl. f_equal; [|done].
  apply map_ext_in. intros j Hj. apply list_elem_of_In, elem_of_seqZ in Hj.
  apply Hfg; lia.
Qed.


Lemma keeps_trans p s1 s2 s3 : keeps p s1 s2 → keeps p s2 s3 → keeps p s1 s3.
Proof.
  intros (?&?&?&Hq1&Hp1) (?&?&?&Hq2&Hp2). unfold keeps.
  split_and!; try congruence; try lia.
  - intros q Hne Hlt. rewrite Hq2, Hq1; [done..|lia].
  - intros arr E. destruct (Hp1 _ E) as (arr1 & E1 & Hl1).
    destruct (Hp2 _ E1) as (arr2 & E2 & Hl2). exists arr2. split; [done|lia].
Qed.

Lemma keeps_refl p s : keeps p s s.
Proof. unfold keeps. split_and!; try done. eauto. Qed.

Lemma At_eq st m i j arr a :
  heap st !! ptr (Data m) = Some arr → 0 ≤ i < Rows m → 0 ≤ j < Cols m →
  (Z.to_nat (i * Cols m + j) < len (Data m))%nat →
  arr !! Z.to_nat (i * Cols m + j) = Some a →
  At m i j st = Ok a st.
Proof.
  intros E Hi Hj Hlen Ha. unfold At, slice_view. rewrite decide_True by done.
  rewrite E. simpl. by rewrite lookup_take_lt, Ha by done.
Qed.

Lemma At_spec st m v i j :
  holds (heap st) m v → 0 ≤ i < mr v → 0 ≤ j < mc v →
  At m i j st = Ok (mat_at v i j) st.
Proof.
  intros [Hv <-] Hi Hj. pose proof Hv as (?&?&_&_&?&arr&E&Hlen). simpl in Hi, Hj.
  assert (Hidx : (Z.to_nat (i * Cols m + j) < cells m)%nat) by (unfold cells; nia).
  destruct (lookup_lt_is_Some_2 arr (Z.to_nat (i * Cols m + j))) as [a Ha]; [lia|].
  rewrite (At_eq st m i j arr a) by (done || lia). f_equal.
  unfold mat_at. rewrite (value_valid _ _ _ Hv E). simpl.
  by rewrite lookup_take_lt, Ha by done.
Qed.

Lemma Set_eq st m i j x arr :
  heap st !! ptr (Data m) = Some arr → 0 ≤ i < Rows m → 0 ≤ j < Cols m →
  (Z.to_nat (i * Cols m + j) < len (Data m))%nat →
  (Z.to_nat (i * Cols m + j) < length arr)%nat →
  Set_ m i j x st
  = Ok tt (poke st (ptr (Data m)) (<[Z.to_nat (i * Cols m + j) := x]> arr)).
Proof.
  intros E Hi Hj Hlen Harr. unfold Set_, slice_view. rewrite decide_True by done.
  rewrite E. simpl. rewrite decide_True by (rewrite length_take; lia).
  unfold poke. by rewrite (alter_insert _ _ _ _ E).
Qed.

Lemma take_drop_step {A} (l1 l2 : list A) t x :
  l1 !! t = Some x → (t < length l2)%nat →
  <[t := x]> (take t l1 ++ drop t l2) = take (S t) l1 ++ drop (S t) l2.
Proof.
  intros E1 Hl2. apply lookup_lt_Some in E1 as Hl1.
  destruct (lookup_lt_is_Some_2 l2 t Hl2) as [y E2].
  rewrite insert_app_r_alt by (rewrite length_take; lia).
  rewrite length_take, Nat.min_l, Nat.sub_diag by lia.
  rewrite (drop_S _ _ _ E2). simpl.
  rewrite (take_S_r _ _ _ E1), <- app_assoc. done.
Qed.

Lemma holds_intro h m v arr :
  0 < Rows m → 0 < Cols m → Rows m ≤ capRows m → Cols m ≤ capCols m →
  (cells m ≤ len (Data m) ≤ cap (Data m))%nat →
  h !! ptr (Data m) = Some arr → length arr = cap (Data m) →
  v = Mat (Rows m) (Cols m) (take (cells m) arr) →
  holds h m v.
Proof.
  intros ? ? ? ? ? E Hlen ->.
  assert (Hv : valid h m) by (unfold valid; split_and!; try done; try lia; eauto).
  split; [done|]. by apply value_valid.
Qed.

(** The update of one parameter matrix from its summed gradient. *)
Lemma sgd_step_matrix_spec st ps gs i p g P G eta bs :
  0 ≤ i → ps !! Z.to_nat i = Some p → gs !! Z.to_nat i = Some g →
  holds (heap st) p P → holds (heap st) g G →
  capRows g = Rows g → capCols g = Cols g →
  mr G = mr P → mc G = mc P → ptr (Data p) ≠ ptr (Data g) →
  tspec st (sgd_step_matrix ps gs i eta bs) (λ _ s',
    keeps (ptr (Data p)) st s' ∧ length (heap s') = length (heap st) ∧
    holds (heap s') p (sgd_new eta bs P G)).
Proof.
  intros Hi Hp Hg HP HG HcR HcC Hr Hc Hne.
  pose proof HP as [HPv HPval]. pose proof HPv as (Hr0 & Hc0 & ? & ? & Hlen & arr0 & E0 & Harr0).
  destruct (holds_dims _ _ _ HP) as [HRp HCp].
  destruct (holds_dims _ _ _ HG) as [HRg HCg].
  set (pp := ptr (Data p)) in *.
  set (f := λ a b, fsub (mat_at P a b) (fdiv (fmul (mat_at G a b) eta) (of_int bs))).
  set (new := row_major (mr P) (mc P) f).
  assert (Hnew : length new = cells p).
  { unfold new, cells. rewrite length_row_major, HRp, HCp. lia. }
  assert (HmdP : md P = take (cells p) arr0).
  { rewrite <- HPval, (value_valid _ _ _ HPv E0). done. }
  set (Inv := λ (t : nat) (s : State F),
        keeps pp st s ∧ length (heap s) = length (heap st) ∧
        heap s !! pp = Some (take t new ++ drop t arr0)).
  unfold sgd_step_matrix.
  eapply tspec_step; [apply index_eq; [lia|done]|].
  unfold Caps. rewrite HcR, HcC, HRg, HCg, Hr, Hc.
  eapply tspec_mono.
  { apply (tspec_for_range (λ j _ s, Inv (Z.to_nat (j * mc P)) s)); [lia| |].
    { unfold Inv. simpl. split_and!; [apply keeps_refl|done|done]. }
    intros j [] s Hj HInv.
    eapply tspec_mono.
    { apply (tspec_for_range (λ k _ s, Inv (Z.to_nat (j * mc P + k)) s)); [lia| |].
      { by replace (j * mc P + 0) with (j * mc P) by lia. }
      intros k [] s' Hk (HK & HL & HA).
      set (t := Z.to_nat (j * mc P + k)) in *.
      assert (Ht : (t < cells p)%nat) by (unfold t, cells; nia).
      destruct (lookup_lt_is_Some_2 arr0 t) as [a0 Ha0]; [lia|].
      assert (Hcur : (take t new ++ drop t arr0) !! t = Some a0).
      { rewrite lookup_app_r by (rewrite length_take; lia).
        rewrite length_take, Nat.min_l, Nat.sub_diag by lia.
        rewrite lookup_drop. by rewrite Nat.add_0_r. }
      assert (Ha0P : a0 = mat_at P j k).
      { unfold mat_at. fold t. rewrite HmdP, lookup_take_lt, Ha0 by done. done. }
      eapply tspec_step; [apply index_eq; [lia|done]|].
      eapply tspec_step.
      { eapply (At_eq s' p j k); [done|lia|lia| |].
        - rewrite HCp. fold t. lia.
        - rewrite HCp. exact Hcur. }
      eapply tspec_step; [apply index_eq; [lia|done]|].
      eapply tspec_step.
      { apply (At_spec s' g G j k); [|lia..].
        eapply holds_keeps; [done..|]. fold pp. done. }
      eapply tspec_eq.
      { eapply (Set_eq s' p j k); [done|lia|lia| |].
        - rewrite HCp. fold t. lia.
        - rewrite HCp. fold t. rewrite length_app, length_take, length_drop. lia. }
      rewrite HCp. fold t. fold pp.
      rewrite take_drop_step; [| |lia].
      2:{ unfold new, t. rewrite row_major_lookup by lia. unfold f. by rewrite Ha0P. }
      unfold Inv. replace (Z.to_nat (j * mc P + (k + 1))) with (S t) by lia.
      split_and!.
      - eapply keeps_trans; [done|]. eapply keeps_poke; [done|].
        rewrite !length_app, !length_take, !length_drop. lia.
      - simpl. by rewrite length_insert.
      - simpl. apply list_lookup_insert_eq. by eapply lookup_lt_Some. }
    intros [] s' HInv'. by replace ((j + 1) * mc P) with (j * mc P + mc P) by lia. }
  intros [] s' (HK & HL & HA). split_and!; [done..|].
  replace (Z.to_nat (mr P * mc P)) with (cells p) in HA by (unfold cells; congruence).
  eapply (holds_intro _ _ _ _ Hr0 Hc0); try done.
  - rewrite length_app, length_take, length_drop. lia.
  - unfold sgd_new, tabulate. fold f new.
    rewrite HRp, HCp. f_equal.
    rewrite take_app_le by (rewrite length_take; lia).
    rewrite take_take, Nat.min_id. rewrite <- Hnew. by rewrite firstn_all.
Qed.

End BatchUpdate.

(** ** One batch of [SGD] *)

Section BatchSpec.
Context {F : Type} `{Float64 F}.
Implicit Types (h : list (list F)) (st s : State F) (m : Dense) (v : matrix F).

Variables (n : Network F) (sizes : list Z) (Ws Bs : list (matrix F)).

(** The layer sizes by position. *)
Definition sz (k : nat) : Z := nth k sizes 0.

(** The value of the [Sizes] row of the network. *)
Definition sizes_row : matrix F :=
  Mat 1 (Z.of_nat (length sizes)) (map of_int sizes).

(** The accumulators a batch allocates from array [b0] on: the weight
    accumulator of layer [k] over array [b0+2k], its bias accumulator over
    array [b0+2k+1]. *)
Definition accW (b0 k : nat) : Dense := dense_at (b0 + 2 * k) (sz k) (sz (S k)).
Definition accB (b0 k : nat) : Dense := dense_at (b0 + 2 * k + 1) 1 (sz (S k)).

(** The first [upto] accumulators are in place and hold [AB] and [AW]. *)
Definition accs h (b0 : nat) (nB nW : list Dense) (AB AW : nat → matrix F)
    (upto : nat) : Prop :=
  ∀ k, (k < upto)%nat →
    nB !! k = Some (accB b0 k) ∧ nW !! k = Some (accW b0 k) ∧
    holds h (accB b0 k) (AB k) ∧ holds h (accW b0 k) (AW k).

Definition zeroB (k : nat) : matrix F := mzero 1 (sz (S k)).
Definition zeroW (k : nat) : matrix F := mzero (sz k) (sz (S k)).

Lemma sz_lookup k z : sizes !! k = Some z → sz k = z.
Proof. intros E. unfold sz. by rewrite nth_lookup, E. Qed.

Lemma sz_pos h k :
  wf_net n h sizes Ws Bs → (k < length sizes)%nat → 0 < sz k.
Proof.
  intros Hwf Hk. pose proof (wf_two _ _ _ _ _ Hwf).
  destruct (decide (k < length sizes - 1)%nat) as [Hlt|Hge].
  - destruct (wf_net_W _ _ _ _ _ k Hwf Hlt) as (w & W & _ & _ & _ & Hw & E & _).
    rewrite (sz_lookup _ _ E). destruct (holds_dims _ _ _ Hw) as [<- _].
    by destruct Hw as [(?&_) _].
  - destruct k as [|k]; [lia|].
    destruct (wf_net_W _ _ _ _ _ k Hwf) as (w & W & _ & _ & _ & Hw & _ & E); [lia|].
    rewrite (sz_lookup _ _ E). destruct (holds_dims _ _ _ Hw) as [_ <-].
    by destruct Hw as [(_&?&_) _].
Qed.

Lemma sizes_row_at (k : nat) :
  (k < length sizes)%nat → mat_at sizes_row 0 (Z.of_nat k) = of_int (sz k).
Proof.
  intros Hk. unfold mat_at, sizes_row, sz; simpl.
  replace (Z.to_nat (0 * Z.of_nat (length sizes) + Z.of_nat k)) with k by lia.
  rewrite list_lookup_fmap, nth_lookup.
  destruct (lookup_lt_is_Some_2 sizes k Hk) as [z ->]. done.
Qed.

Lemma wfm_mzero r c : 0 < r → 0 < c → wfm (mzero r c).
Proof.
  intros Hr Hc. unfold wfm, mzero; simpl. split_and!; try done.
  by rewrite length_replicate.
Qed.

Lemma sgd_zero_grads_spec st :
  wf_net n (heap st) sizes Ws Bs →
  holds (heap st) (Sizes n) sizes_row →
  Forall (λ z, to_int (of_int z) = z) sizes →
  tspec st (sgd_zero_grads n (NumLayers n - 1)) (λ r s',
    stable (length (heap st)) st s' ∧
    length (heap s') = (length (heap st) + 2 * (length sizes - 1))%nat ∧
    length r.1 = (length sizes - 1)%nat ∧ length r.2 = (length sizes - 1)%nat ∧
    accs (heap s') (length (heap st)) r.1 r.2 zeroB zeroW (length sizes - 1)).
Proof.
  intros Hwf Hsz Hint. pose proof (wf_two _ _ _ _ _ Hwf) as Htwo.
  set (L := length sizes) in *. set (b0 := length (heap st)).
  unfold sgd_zero_grads. rewrite (wf_layers _ _ _ _ _ Hwf). fold L.
  unfold make_denses at 1. rewrite decide_False by lia.
  eapply tspec_step; [reflexivity|].
  unfold make_denses at 1. rewrite decide_False by lia.
  eapply tspec_step; [reflexivity|].
  eapply tspec_mono.
  { apply (tspec_for_range (λ i (p : list Dense * list Dense) (s : State F),
      stable b0 st s ∧ length (heap s) = (b0 + 2 * Z.to_nat i)%nat ∧
      length p.1 = (L - 1)%nat ∧ length p.2 = (L - 1)%nat ∧
      accs (heap s) b0 p.1 p.2 zeroB zeroW (Z.to_nat i))); [lia| |].
    { simpl. rewrite !length_replicate. split_and!; try lia.
      - apply stable_refl.
      - intros k Hk. lia. }
    intros i [nB nW] s Hi (Hst & Hlen & HlB & HlW & Hacc). simpl in HlB, HlW, Hacc.
    assert (Hsz' : holds (heap s) (Sizes n) sizes_row).
    { eapply holds_stable; [done..|]. by eapply holds_ptr. }
    assert (Hget : ∀ k : nat, (k < L)%nat →
              to_int (mat_at sizes_row 0 (Z.of_nat k)) = sz k).
    { intros k Hk. rewrite sizes_row_at by done.
      destruct (lookup_lt_is_Some_2 sizes k Hk) as [z Hz].
      rewrite (sz_lookup _ _ Hz).
      by apply (Forall_lookup_1 _ _ _ _ Hint Hz). }
    set (k := Z.to_nat i).
    pose proof (sz_pos _ k Hwf) as Hpos. pose proof (sz_pos _ (S k) Hwf) as Hpos1.
    eapply tspec_step; [apply (At_spec s _ sizes_row); [done|simpl; lia..]|].
    eapply tspec_step; [apply (At_spec s _ sizes_row); [done|simpl; lia..]|].
    assert (Ex : to_int (mat_at sizes_row 0 i) = sz k).
    { rewrite <- Hget by lia. do 2 f_equal. lia. }
    assert (Ey : to_int (mat_at sizes_row 0 (i + 1)) = sz (S k)).
    { rewrite <- Hget by lia. do 2 f_equal. lia. }
    rewrite Ex, Ey.
    eapply tspec_step; [apply NewDense_eq; nia|].
    eapply tspec_step; [apply assign_eq; lia|].
    eapply tspec_step; [apply NewDense_eq; lia|].
    eapply tspec_step; [apply assign_eq; lia|].
    apply tspec_ret. cbn [fst snd]. rewrite !length_insert.
    rewrite !length_heap_push, Hlen. fold k.
    set (zw := replicate (Z.to_nat (sz k * sz (S k))) fzero).
    set (zb := replicate (Z.to_nat (1 * sz (S k))) fzero).
    split_and!; try done; try lia.
    - eapply stable_trans; [done|]. eapply stable_trans.
      + eapply keeps_stable; [apply keeps_push|lia..].
      + eapply keeps_stable; [apply keeps_push|rewrite length_heap_push; lia..].
    - intros k' Hk'.
      destruct (decide (k' = k)) as [->|Hne].
      + rewrite !list_lookup_insert_eq by lia.
        unfold accB, accW. replace (b0 + 2 * k + 1)%nat with (S (b0 + 2 * k)) by lia.
        fold k in Hlen. rewrite <- Hlen. split_and!; try done.
        * rewrite <- (length_heap_push s zw).
          apply (holds_push_fresh (push s zw) (zeroB k)). apply wfm_mzero; lia.
        * apply (holds_app _ [zb]).
          apply (holds_push_fresh s (zeroW k)). apply wfm_mzero; lia.
      + rewrite !list_lookup_insert_ne by done.
        destruct (Hacc k') as (? & ? & ? & ?); [lia|].
        split_and!; try done.
        * apply (holds_app _ [zb]). by apply (holds_app _ [zw]).
        * apply (holds_app _ [zb]). by apply (holds_app _ [zw]). }
  intros [nB nW] s' (Hst & Hlen & HlB & HlW & Hacc). cbn [fst snd] in *.
  replace (Z.to_nat (Z.of_nat L - 1)) with (L - 1)%nat in * by lia.
  split_and!; try done.
Qed.

(** The gradients of one example: headers over arrays from [b1] on. *)
Definition tmps h (b1 : nat) (l : list Dense) (G : nat → matrix F) (size : nat)
  : Prop :=
  ∀ k, (k < size)%nat →
    ∃ m, l !! k = Some m ∧ holds h m (G k) ∧ (b1 ≤ ptr (Data m))%nat.

(** The sums once the first [upto] layers of a gradient are added. *)
Definition added (A G : nat → matrix F) (upto : nat) : nat → matrix F :=
  λ k, if decide (k < upto)%nat then madd (A k) (G k) else A k.

(** The shapes of a gradient: those of the biases and of the weights. *)
Definition bias_shaped (G : nat → matrix F) (size : nat) : Prop :=
  ∀ k, (k < size)%nat → mr (G k) = 1 ∧ mc (G k) = sz (S k).
Definition weight_shaped (G : nat → matrix F) (size : nat) : Prop :=
  ∀ k, (k < size)%nat → mr (G k) = sz k ∧ mc (G k) = sz (S k).

Lemma accs_keeps s s' p b0 nB nW AB AW size :
  keeps p s s' → (p < b0 ∨ b0 + 2 * size ≤ p)%nat →
  accs (heap s) b0 nB nW AB AW size → accs (heap s') b0 nB nW AB AW size.
Proof.
  intros K Hp Hacc k Hk. destruct (Hacc k Hk) as (? & ? & ? & ?).
  split_and!; try done.
  - eapply holds_keeps; [done..|]. simpl. lia.
  - eapply holds_keeps; [done..|]. simpl. lia.
Qed.

Lemma accs_stable s s' b b0 nB nW AB AW size :
  stable b s s' → (b0 + 2 * size ≤ b)%nat →
  accs (heap s) b0 nB nW AB AW size → accs (heap s') b0 nB nW AB AW size.
Proof.
  intros K Hp Hacc k Hk. destruct (Hacc k Hk) as (? & ? & ? & ?).
  split_and!; try done.
  - eapply holds_stable; [done..|]. simpl. lia.
  - eapply holds_stable; [done..|]. simpl. lia.
Qed.

Lemma tmps_keeps s s' p b1 l G size :
  keeps p s s' → (p < b1)%nat → tmps (heap s) b1 l G size → tmps (heap s') b1 l G size.
Proof.
  intros K Hp Ht k Hk. destruct (Ht k Hk) as (m & ? & ? & ?).
  exists m. split_and!; try done. eapply holds_keeps; [done..|]. lia.
Qed.

Lemma accs_added_B s s' b0 nB nW AB AW GB size k :
  (k < size)%nat → keeps (ptr (Data (accB b0 k))) s s' →
  holds (heap s') (accB b0 k) (madd (AB k) (GB k)) →
  accs (heap s) b0 nB nW (added AB GB k) AW size →
  accs (heap s') b0 nB nW (added AB GB (S k)) AW size.
Proof.
  intros Hk K Hnew Hacc k' Hk'. destruct (Hacc k' Hk') as (? & ? & HB & HW).
  split_and!; try done.
  - unfold added in *. destruct (decide (k' = k)) as [->|Hne].
    + by rewrite decide_True by lia.
    + assert (Hb : bool_decide (k' < S k)%nat = bool_decide (k' < k)%nat).
      { apply bool_decide_ext. lia. }
      destruct (decide (k' < S k)%nat), (decide (k' < k)%nat); try lia;
        (eapply holds_keeps; [done..|]; simpl; lia).
  - eapply holds_keeps; [done..|]. simpl. lia.
Qed.

Lemma accs_added_W s s' b0 nB nW AB AW GW size k :
  (k < size)%nat → keeps (ptr (Data (accW b0 k))) s s' →
  holds (heap s') (accW b0 k) (madd (AW k) (GW k)) →
  accs (heap s) b0 nB nW AB (added AW GW k) size →
  accs (heap s') b0 nB nW AB (added AW GW (S k)) size.
Proof.
  intros Hk K Hnew Hacc k' Hk'. destruct (Hacc k' Hk') as (? & ? & HB & HW).
  split_and!; try done.
  - eapply holds_keeps; [done..|]. simpl. lia.
  - unfold added in *. destruct (decide (k' = k)) as [->|Hne].
    + by rewrite decide_True by lia.
    + destruct (decide (k' < S k)%nat), (decide (k' < k)%nat); try lia;
        (eapply holds_keeps; [done..|]; simpl; lia).
Qed.

Lemma sgd_add_grads_spec s b0 size nB nW tB tW AB AW GB GW :
  length nB = size → length nW = size → (b0 ≤ length (heap s))%nat →
  accs (heap s) b0 nB nW AB AW size →
  tmps (heap s) (b0 + 2 * size) tB GB size →
  tmps (heap s) (b0 + 2 * size) tW GW size →
  bias_shaped GB size → weight_shaped GW size →
  tspec s (sgd_add_grads (Z.of_nat size) tB tW nB nW) (λ r s',
    r = (nB, nW) ∧ stable b0 s s' ∧ length (heap s') = length (heap s) ∧
    accs (heap s') b0 nB nW (added AB GB size) (added AW GW size) size).
Proof.
  intros HlB HlW Hb0 Hacc HtB HtW HsB HsW. unfold sgd_add_grads.
  eapply tspec_mono.
  { apply (tspec_for_range (λ k (r : list Dense * list Dense) (s' : State F),
      r = (nB, nW) ∧ stable b0 s s' ∧ length (heap s') = length (heap s) ∧
      accs (heap s') b0 nB nW (added AB GB (Z.to_nat k)) (added AW GW (Z.to_nat k)) size ∧
      tmps (heap s') (b0 + 2 * size) tB GB size ∧
      tmps (heap s') (b0 + 2 * size) tW GW size)); [lia| |].
    { by split_and!. }
    intros k r s1 Hk (-> & Hst & Hlen & Hacc1 & HtB1 & HtW1).
    set (kn := Z.to_nat k) in *.
    replace (Z.to_nat (k + 1)) with (S kn) by lia.
    destruct (Hacc1 kn) as (EB & EW & HaB & HaW); [lia|].
    destruct (HtB1 kn) as (tb & Etb & Htb & Hptb); [lia|].
    destruct (HtW1 kn) as (tw & Etw & Htw & Hptw); [lia|].
    destruct (HsB kn) as [HrB HcB]; [lia|]. destruct (HsW kn) as [HrW HcW]; [lia|].
    destruct (holds_dims _ _ _ Htb) as [HRtb HCtb].
    destruct (holds_dims _ _ _ Htw) as [HRtw HCtw].
    unfold added in HaB at 1. unfold added in HaW at 1.
    rewrite decide_False in HaB, HaW by lia.
    eapply tspec_step; [apply index_eq; [lia|done]|].
    eapply tspec_step; [apply index_eq; [lia|done]|].
    apply tspec_bind. unfold Add.
    eapply (elementwise_inplace_spec s1 fadd (accB b0 kn) (Plain (accB b0 kn)) (Plain tb));
      [by destruct HaB|exact HaB|exact Htb|simpl; congruence|done..|].
    intros s2 K2 Hlen2 Hnew2.
    eapply tspec_step; [apply assign_eq; lia|].
    rewrite list_insert_id by done.
    eapply tspec_step; [apply index_eq; [lia|done]|].
    eapply tspec_step; [apply index_eq; [lia|done]|].
    apply tspec_bind.
    assert (Hkn : (kn < size)%nat) by lia.
    pose proof (accs_added_B _ _ _ _ _ _ _ GB _ kn Hkn K2 Hnew2 Hacc1) as Hacc2.
    assert (Htw2 : holds (heap s2) tw (GW kn)).
    { eapply holds_keeps; [done..|]. simpl. lia. }
    destruct (Hacc2 kn) as (_ & _ & _ & HaW2); [lia|].
    unfold added in HaW2 at 1. rewrite decide_False in HaW2 by lia.
    eapply (elementwise_inplace_spec s2 fadd (accW b0 kn) (Plain (accW b0 kn)) (Plain tw));
      [by destruct HaW2|exact HaW2|exact Htw2|simpl; congruence|done..|].
    intros s3 K3 Hlen3 Hnew3.
    eapply tspec_step; [apply assign_eq; lia|].
    rewrite list_insert_id by done.
    apply tspec_ret. split_and!; try done.
    - eapply stable_trans; [done|].
      eapply (stable_chain2 _ _ _ _ _ _ K2 K3); simpl; lia.
    - lia.
    - by eapply accs_added_W.
    - eapply tmps_keeps; [exact K3|simpl; lia|].
      eapply tmps_keeps; [exact K2|simpl; lia|done].
    - eapply tmps_keeps; [exact K3|simpl; lia|].
      eapply tmps_keeps; [exact K2|simpl; lia|done]. }
  intros r s' (-> & Hst & Hlen & Hacc' & _).
  replace (Z.to_nat (Z.of_nat size)) with size in Hacc' by lia. done.
Qed.

(** A training example in heap [h]: the headers of an input and of a
    desired output, row vectors as wide as the first and the last layer. *)
Definition example_ok h (ex : list Dense) (xy : matrix F * matrix F) : Prop :=
  ∃ inp des, ex = [inp; des] ∧ holds h inp xy.1 ∧ holds h des xy.2 ∧
    mr xy.1 = 1 ∧ sizes !! O = Some (mc xy.1) ∧
    mr xy.2 = 1 ∧ sizes !! (length sizes - 1)%nat = Some (mc xy.2).

(** [GB] are the bias gradients [backpropQuadCost] returns for the
    example [xy] on the network with parameters [Ws], [Bs]: the values of
    the headers it returns; among them the error of the last layer and
    that of the first layer. *)
Definition bias_grad (eta : F) (xy : matrix F * matrix F) (GB : nat → matrix F)
  : Prop :=
  let top := (length sizes - 2)%nat in
  GB top = delta Ws Bs xy.1 xy.2 top top ∧
  GB O = delta Ws Bs xy.1 xy.2 top O ∧
  bias_shaped GB (length sizes - 1) ∧
  ∃ ex s tB tW s',
    wf_net n (heap s) sizes Ws Bs ∧ example_ok (heap s) ex xy ∧
    backpropQuadCost n ex eta s = Ok (tB, tW) s' ∧
    ∀ k, (k < length sizes - 1)%nat →
      ∃ m, tB !! k = Some m ∧ holds (heap s') m (GB k).

(** The weight gradient of an example, by the specification's formulas. *)
Definition weight_grad (xy : matrix F * matrix F) (k : nat) : matrix F :=
  gradW Ws Bs xy.1 xy.2 (length sizes - 2) k.

(** The sums of the gradients of a batch, from zero, in the order of the
    batch. *)
Definition sumW (batch : list (matrix F * matrix F)) (k : nat) : matrix F :=
  msum (sz k) (sz (S k)) (map (λ xy, weight_grad xy k) batch).
Definition sumB (GBs : list (nat → matrix F)) (k : nat) : matrix F :=
  msum 1 (sz (S k)) (map (λ G, G k) GBs).

Lemma msum_snoc r c gs g : msum r c (gs ++ [g]) = madd (msum r c gs) g.
Proof. unfold msum. by rewrite fold_left_app. Qed.

Lemma accs_ext h b0 nB nW AB AW AB' AW' size :
  (∀ k, (k < size)%nat → AB k = AB' k ∧ AW k = AW' k) →
  accs h b0 nB nW AB AW size → accs h b0 nB nW AB' AW' size.
Proof.
  intros Hext Hacc k Hk. destruct (Hacc k Hk) as (? & ? & ? & ?).
  destruct (Hext k Hk) as [<- <-]. done.
Qed.

Lemma young_valid h b m : young b m → valid h m → (b ≤ ptr (Data m))%nat.
Proof.
  intros [[Hl _]|?] (? & ? & _ & _ & Hc & _); [|done].
  unfold cells in Hc. nia.
Qed.

Lemma weight_grad_shape h xy k :
  wf_net n h sizes Ws Bs → mr xy.1 = 1 → sizes !! O = Some (mc xy.1) →
  (k < length sizes - 1)%nat →
  mr (weight_grad xy k) = sz k ∧ mc (weight_grad xy k) = sz (S k).
Proof.
  intros Hwf Hr Hc Hk.
  destruct (activation_shape _ _ _ _ _ xy.1 k Hwf Hr Hc) as [_ Ha]; [lia|].
  destruct (delta_shape n sizes Ws Bs xy.1 xy.2 Hr Hc (MkState h 0 []) k Hwf)
    as [_ Hd]; [lia|].
  unfold weight_grad, gradW; simpl.
  by rewrite (sz_lookup _ _ Ha), (sz_lookup _ _ Hd).
Qed.

Lemma example_ok_stable b st s ex xy :
  stable b st s → (length (heap st) ≤ b)%nat →
  example_ok (heap st) ex xy → example_ok (heap s) ex xy.
Proof.
  intros Hst Hb (inp & des & -> & Hi & Hd & ? & ? & ? & ?). exists inp, des.
  split_and!; try done.
  - apply (holds_stable b st s); [done..|]. apply holds_ptr in Hi. lia.
  - apply (holds_stable b st s); [done..|]. apply holds_ptr in Hd. lia.
Qed.

(** The examples of a batch, one after the other: every example is run
    through [backpropQuadCost] on the unchanged parameters and its
    gradients are added to the accumulators. *)
Lemma sgd_accumulate_spec st s0 data xys eta i bs nB nW :
  let b0 := length (heap st) in
  let size := (length sizes - 1)%nat in
  let batch := take (Z.to_nat bs) (drop (Z.to_nat i) xys) in
  wf_net n (heap st) sizes Ws Bs →
  Forall2 (example_ok (heap st)) data xys →
  0 ≤ i → 0 ≤ bs → i + bs ≤ Z.of_nat (length data) →
  stable b0 st s0 → (b0 + 2 * size ≤ length (heap s0))%nat →
  length nB = size → length nW = size →
  accs (heap s0) b0 nB nW zeroB zeroW size →
  tspec s0 (sgd_accumulate n data eta (Z.of_nat size) i bs nB nW) (λ r s',
    r = (nB, nW) ∧ stable b0 st s' ∧ (b0 + 2 * size ≤ length (heap s'))%nat ∧
    ∃ GBs, Forall2 (bias_grad eta) batch GBs ∧
           accs (heap s') b0 nB nW (sumB GBs) (sumW batch) size).
Proof.
  intros b0 size batch Hwf Hdata Hi Hbs Hfit Hst0 Hlen0 HlB HlW Hacc0.
  pose proof (Forall2_length _ _ _ Hdata) as Hlxy.
  pose proof (wf_two _ _ _ _ _ Hwf) as Htwo.
  set (rest := drop (Z.to_nat i) xys) in *.
  unfold sgd_accumulate.
  eapply tspec_mono.
  { apply (tspec_for_range (λ j (r : list Dense * list Dense) (s : State F),
      r = (nB, nW) ∧ stable b0 st s ∧ (b0 + 2 * size ≤ length (heap s))%nat ∧
      ∃ GBs, Forall2 (bias_grad eta) (take (Z.to_nat j) rest) GBs ∧
             accs (heap s) b0 nB nW (sumB GBs) (sumW (take (Z.to_nat j) rest)) size));
      [lia| |].
    { split_and!; try done. exists []. split; [constructor|done]. }
    intros j r s Hj (-> & Hst & Hlen & GBs & HGBs & Hacc).
    set (jn := Z.to_nat j) in *.
    destruct (lookup_lt_is_Some_2 data (Z.to_nat (i + j))) as [ex Hex]; [lia|].
    destruct (Forall2_lookup_l _ _ _ _ _ Hdata Hex) as (xy & Hxy & Hok).
    assert (Hwf' : wf_net n (heap s) sizes Ws Bs).
    { eapply wf_net_stable; [done..|]. unfold b0. lia. }
    assert (Hok' : example_ok (heap s) ex xy).
    { eapply example_ok_stable; [exact Hst|unfold b0; lia|done]. }
    destruct Hok' as (inp & des & -> & Hin & Hdes & Hrx & Hcx & Hry & Hcy).
    pose proof (backprop_spec n sizes Ws Bs _ _ s inp des eta
                  Hwf' Hin Hdes Hrx Hcx Hry Hcy) as Hbp.
    apply tspec_inv in Hbp as ([tB tW] & s1 & Ebp & Hpost).
    destruct (framed_Ok _ _ _ _ _ (framed_backpropQuadCost _ _ _ _) Ebp)
      as (_ & _ & _ & [HyB HyW]).
    unfold bp_post in Hpost. cbn [fst snd] in Hpost, HyB, HyW.
    destruct Hpost as (Hst1 & HlB1 & HlW1 & HrW & HrBtop & HrB0 & HvB).
    eapply tspec_step; [apply index_eq; [lia|done]|].
    eapply tspec_step; [exact Ebp|].
    set (GB := λ k, match tB !! k with
                    | Some m => value (heap s1) m
                    | None => mat0
                    end).
    assert (Hlen1 : (length (heap s) ≤ length (heap s1))%nat) by (by destruct Hst1 as (_&_&?&_)).
    assert (HtB : tmps (heap s1) (b0 + 2 * size) tB GB size).
    { intros k Hk. destruct (HvB k Hk) as (m & Em & Hv & _). exists m.
      split_and!; [done| |].
      - unfold GB. rewrite Em. by split.
      - pose proof (young_valid _ _ _ (Forall_lookup_1 _ _ _ _ HyB Em) Hv). lia. }
    assert (HtW : tmps (heap s1) (b0 + 2 * size) tW (weight_grad xy) size).
    { intros k Hk. destruct (HrW k) as (m & Em & Hh); [lia|]. exists m.
      split_and!; [done..|].
      pose proof (young_valid _ _ _ (Forall_lookup_1 _ _ _ _ HyW Em) (proj1 Hh)). lia. }
    assert (HsB : bias_shaped GB size).
    { intros k Hk. destruct (HvB k Hk) as (m & Em & Hv & HR & HC).
      unfold GB. rewrite Em. simpl. by rewrite (sz_lookup _ _ HC). }
    assert (HsW : weight_shaped (weight_grad xy) size).
    { intros k Hk. by eapply weight_grad_shape. }
    assert (HG : bias_grad eta xy GB).
    { unfold bias_grad. cbn zeta. split_and!; [| |done|].
      - destruct (HrBtop (length sizes - 2)%nat) as (m & Em & [_ <-]); [lia|].
        unfold GB. by rewrite Em.
      - destruct (HrB0 O) as (m & Em & [_ <-]); [lia|].
        unfold GB. by rewrite Em.
      - exists [inp; des], s, tB, tW, s1. split_and!; [done| |done|].
        + exists inp, des. by split_and!.
        + intros k Hk. destruct (HtB k Hk) as (m & ? & ? & _). by exists m. }
    eapply tspec_mono.
    { apply (sgd_add_grads_spec s1 b0 size nB nW tB tW (sumB GBs)
               (sumW (take jn rest)) GB (weight_grad xy)); try done; [lia|].
      eapply accs_stable; [exact Hst1|lia|done]. }
    intros r s2 (-> & Hst2 & Hlen2 & Hacc2).
    assert (Hrest : rest !! jn = Some xy).
    { unfold rest. rewrite lookup_drop. rewrite <- Hxy. f_equal. lia. }
    replace (Z.to_nat (j + 1)) with (S jn) by lia.
    rewrite (take_S_r _ _ _ Hrest).
    split_and!; [done| |lia|].
    - eapply stable_trans; [exact Hst|]. eapply stable_trans; [|exact Hst2].
      eapply stable_le; [|exact Hst1]. lia.
    - exists (GBs ++ [GB]). split.
      + apply Forall2_app; [done|]. by constructor.
      + eapply accs_ext; [|exact Hacc2]. intros k Hk. unfold added, sumB, sumW.
        rewrite !decide_True by done. rewrite !map_app. cbn [map].
        by rewrite !msum_snoc. }
  intros r s' (-> & Hst & Hlen & GBs & HGBs & Hacc). split_and!; try done.
  by exists GBs.
Qed.

(** The parameter matrices own distinct arrays. *)
Definition params_apart : Prop :=
  NoDup (map (λ m, ptr (Data m)) (Weights n ++ Biases n)).

(** The parameters once the first [upto] layers are updated. *)
Definition upd_to (eta : F) (bs : Z) (Ps : list (matrix F)) (A : nat → matrix F)
    (upto k : nat) : matrix F :=
  if decide (k < upto)%nat then sgd_new eta bs (nth k Ps mat0) (A k)
  else nth k Ps mat0.

Definition params_at h (b0 : nat) (eta : F) (bs : Z) (AB AW : nat → matrix F)
    (upto : nat) : Prop :=
  ∀ k, (k < length sizes - 1)%nat →
    ∃ w b, Weights n !! k = Some w ∧ Biases n !! k = Some b ∧
           holds h w (upd_to eta bs Ws AW upto k) ∧
           holds h b (upd_to eta bs Bs AB upto k) ∧
           (ptr (Data w) < b0)%nat ∧ (ptr (Data b) < b0)%nat.

Lemma apart_idx (l : list Dense) i j m m' :
  NoDup (map (λ m, ptr (Data m)) l) → l !! i = Some m → l !! j = Some m' →
  i ≠ j → ptr (Data m) ≠ ptr (Data m').
Proof.
  intros Hnd Hi Hj Hne E. apply Hne.
  apply (NoDup_lookup _ i j (ptr (Data m)) Hnd).
  - by rewrite list_lookup_fmap, Hi.
  - by rewrite list_lookup_fmap, Hj, E.
Qed.

Lemma apart_WW k k' w w' :
  params_apart → Weights n !! k = Some w → Weights n !! k' = Some w' →
  k ≠ k' → ptr (Data w) ≠ ptr (Data w').
Proof.
  intros Hnd Hw Hw' Hne.
  apply (apart_idx _ k k' _ _ Hnd); [| |done].
  - rewrite lookup_app_l; [done|]. by eapply lookup_lt_Some.
  - rewrite lookup_app_l; [done|]. by eapply lookup_lt_Some.
Qed.

Lemma apart_BB k k' b b' :
  params_apart → Biases n !! k = Some b → Biases n !! k' = Some b' →
  k ≠ k' → ptr (Data b) ≠ ptr (Data b').
Proof.
  intros Hnd Hb Hb' Hne.
  apply (apart_idx _ (length (Weights n) + k) (length (Weights n) + k') _ _ Hnd);
    [| |lia].
  - rewrite lookup_app_r by lia. rewrite <- Hb. f_equal. lia.
  - rewrite lookup_app_r by lia. rewrite <- Hb'. f_equal. lia.
Qed.

Lemma apart_WB k k' w b :
  params_apart → Weights n !! k = Some w → Biases n !! k' = Some b →
  ptr (Data w) ≠ ptr (Data b).
Proof.
  intros Hnd Hw Hb. apply lookup_lt_Some in Hw as Hk.
  apply (apart_idx _ k (length (Weights n) + k') _ _ Hnd); [| |lia].
  - by rewrite lookup_app_l.
  - rewrite lookup_app_r by lia. rewrite <- Hb. f_equal. lia.
Qed.

Lemma params_at_start st b0 eta bs AB AW :
  wf_net n (heap st) sizes Ws Bs → (length (heap st) ≤ b0)%nat →
  params_at (heap st) b0 eta bs AB AW 0.
Proof.
  intros Hwf Hb0 k Hk.
  destruct (wf_net_W _ _ _ _ _ k Hwf Hk) as (w & W & Ew & _ & EW & Hw & _).
  destruct (wf_net_B _ _ _ _ _ k Hwf Hk) as (b & B & Eb & _ & EB & Hb & _).
  exists w, b. unfold upd_to. rewrite !decide_False by lia. rewrite EW, EB.
  split_and!; try done.
  - apply holds_ptr in Hw. lia.
  - apply holds_ptr in Hb. lia.
Qed.

Lemma params_at_stable st s b0 eta bs AB AW upto :
  stable b0 st s → params_at (heap st) b0 eta bs AB AW upto →
  params_at (heap s) b0 eta bs AB AW upto.
Proof.
  intros Hst Hpar k Hk. destruct (Hpar k Hk) as (w & b & ? & ? & ? & ? & ? & ?).
  exists w, b. split_and!; try done; by eapply holds_stable.
Qed.

(** The update loop: every bias and weight matrix is replaced, in place,
    by its value minus the scaled accumulator. *)
Lemma sgd_update_spec st s eta bs nB nW AB AW :
  let b0 := length (heap st) in
  let size := (length sizes - 1)%nat in
  wf_net n (heap st) sizes Ws Bs → params_apart → stable b0 st s →
  length nB = size → length nW = size →
  accs (heap s) b0 nB nW AB AW size →
  bias_shaped AB size → weight_shaped AW size →
  tspec s (sgd_update n eta (Z.of_nat size) bs nB nW) (λ _ s',
    params_at (heap s') b0 eta bs AB AW size).
Proof.
  intros b0 size Hwf Hnd Hst HlB HlW Hacc HsB HsW.
  assert (Hpar0 : params_at (heap s) b0 eta bs AB AW 0).
  { eapply params_at_stable; [done|]. by apply (params_at_start st). }
  unfold sgd_update.
  eapply tspec_mono.
  { apply (tspec_for_range (λ i (_ : unit) (s1 : State F),
      params_at (heap s1) b0 eta bs AB AW (Z.to_nat i) ∧
      accs (heap s1) b0 nB nW AB AW size)); [lia|by split|].
    intros i [] s1 Hi [Hpar Hacc1].
    set (k := Z.to_nat i) in *.
    assert (Hk : (k < length sizes - 1)%nat) by (fold size; lia).
    destruct (Hpar k Hk) as (w & b & Ew & Eb & Hw & Hb & Hpw & Hpb).
    unfold upd_to in Hw, Hb. rewrite decide_False in Hw, Hb by lia.
    destruct (Hacc1 k Hk) as (EB & EW & HaB & HaW).
    destruct (wf_net_W _ _ _ _ _ k Hwf Hk) as (w0 & W & _ & _ & EWv & _ & HWr & HWc).
    destruct (wf_net_B _ _ _ _ _ k Hwf Hk) as (b1 & B & _ & _ & EBv & _ & HBr & HBc).
    destruct (HsB k Hk) as [HABr HABc]. destruct (HsW k Hk) as [HAWr HAWc].
    apply sz_lookup in HWr, HWc, HBc.
    apply tspec_bind. eapply tspec_mono.
    { apply (sgd_step_matrix_spec s1 (Biases n) nB i b (accB b0 k)
               (nth k Bs mat0) (AB k) eta bs); try done; try lia.
      - rewrite EBv. congruence.
      - rewrite EBv. congruence.
      - simpl. lia. }
    intros [] s2 (K2 & Hl2 & Hb2).
    assert (Hwb : ptr (Data w) ≠ ptr (Data b)) by (by eapply apart_WB).
    eapply tspec_mono.
    { apply (sgd_step_matrix_spec s2 (Weights n) nW i w (accW b0 k)
               (nth k Ws mat0) (AW k) eta bs); try done; try lia.
      - eapply holds_keeps; [exact K2|done|done].
      - eapply holds_keeps; [exact K2|done|simpl; lia].
      - rewrite EWv. congruence.
      - rewrite EWv. congruence.
      - simpl. lia. }
    intros [] s3 (K3 & Hl3 & Hw3).
    replace (Z.to_nat (i + 1)) with (S k) by lia.
    split.
    - intros k' Hk'.
      destruct (Hpar k' Hk') as (w' & b' & Ew' & Eb' & Hw' & Hb' & ? & ?).
      exists w', b'. split_and!; try done.
      + unfold upd_to in *. destruct (decide (k' = k)) as [->|Hne].
        * rewrite decide_True by lia. by replace w' with w by congruence.
        * assert (ptr (Data w') ≠ ptr (Data w)) by (by eapply apart_WW).
          assert (ptr (Data w') ≠ ptr (Data b)) by (by eapply apart_WB).
          destruct (decide (k' < S k)%nat), (decide (k' < k)%nat); try lia;
            (eapply holds_keeps; [exact K3| |done];
             eapply holds_keeps; [exact K2|done|done]).
      + unfold upd_to in *. destruct (decide (k' = k)) as [->|Hne].
        * rewrite decide_True by lia. replace b' with b by congruence.
          eapply holds_keeps; [exact K3|done|]. congruence.
        * assert (ptr (Data b') ≠ ptr (Data b)) by (by eapply apart_BB).
          assert (ptr (Data w) ≠ ptr (Data b')) by (by eapply apart_WB).
          destruct (decide (k' < S k)%nat), (decide (k' < k)%nat); try lia;
            (eapply holds_keeps; [exact K3| |congruence];
             eapply holds_keeps; [exact K2|done|done]).
    - eapply accs_keeps; [exact K3|left; lia|].
      eapply accs_keeps; [exact K2|left; lia|done]. }
  intros [] s' [Hpar _]. by replace (Z.to_nat (Z.of_nat size)) with size in Hpar by lia.
Qed.

Lemma msum_shape r c gs : mr (msum r c gs) = r ∧ mc (msum r c gs) = c.
Proof.
  unfold msum. generalize (mzero r c) (eq_refl : mr (mzero r c) = r)
    (eq_refl : mc (mzero r c) = c).
  induction gs as [|g gs IH]; intros a Hr Hc; simpl; [done|].
  by apply IH.
Qed.

(** The size iteration [i] gives its batch: what is left of the data
    past [i * batchSize], at most [batchSize]. *)
Definition batch_size (len i batchSize : Z) : Z :=
  if decide (len - i * batchSize < batchSize) then len - i * batchSize
  else batchSize.

Lemma sgd_batch_spec st data xys eta i batchSize :
  let b := batch_size (Z.of_nat (length data)) i batchSize in
  let batch := take (Z.to_nat b) (drop (Z.to_nat i) xys) in
  wf_net n (heap st) sizes Ws Bs →
  holds (heap st) (Sizes n) sizes_row →
  Forall (λ z, to_int (of_int z) = z) sizes →
  params_apart →
  Forall2 (example_ok (heap st)) data xys →
  0 ≤ i → 1 ≤ batchSize → i * batchSize ≤ Z.of_nat (length data) →
  tspec st (sgd_batch n data eta i batchSize) (λ r s',
    r = b ∧
    ∃ GBs, Forall2 (bias_grad eta) batch GBs ∧
           params_at (heap s') (length (heap st)) eta b (sumB GBs) (sumW batch)
                     (length sizes - 1)).
Proof.
  intros b batch Hwf Hsz Hint Hnd Hdata Hi HB Hfit.
  pose proof (wf_two _ _ _ _ _ Hwf) as Htwo.
  assert (Hb : 0 ≤ b ∧ i + b ≤ Z.of_nat (length data)).
  { unfold b, batch_size. destruct (decide _); nia. }
  unfold sgd_batch. cbn zeta. fold (batch_size (Z.of_nat (length data)) i batchSize).
  fold b. apply tspec_bind.
  eapply tspec_mono; [by apply sgd_zero_grads_spec|].
  intros [nB nW] s0 (Hst0 & Hlen0 & HlB & HlW & Hacc0). cbn [fst snd] in *.
  rewrite (wf_layers _ _ _ _ _ Hwf).
  replace (Z.of_nat (length sizes) - 1) with (Z.of_nat (length sizes - 1)) by lia.
  apply tspec_bind.
  eapply tspec_mono.
  { apply (sgd_accumulate_spec st s0 data xys eta i b nB nW); try done; lia. }
  intros r s1 (-> & Hst1 & Hlen1 & GBs & HG & Hacc1). fold batch in HG, Hacc1.
  apply tspec_bind.
  eapply tspec_mono.
  { apply (sgd_update_spec st s1 eta b nB nW (sumB GBs) (sumW batch)); try done.
    - intros k Hk. apply msum_shape.
    - intros k Hk. apply msum_shape. }
  intros [] s2 Hpar. apply tspec_ret. split; [done|]. by exists GBs.
Qed.

End BatchSpec.

(** ** Where a pass of [SGD] exits *)

Section FatalPass.
Context {F : Type} `{Float64 F}.
Implicit Types (st s : State F) (n : Network F).














End FatalPass.

(** * The claims *)

Section Claims.
Context {F : Type} `{Float64 F}.
Implicit Types (st s : State F) (m : Dense) (v : matrix F).

Lemma mat_at_melem op va vb i j :
  0 ≤ i < mr va → 0 ≤ j < mc va →
  mat_at (melem op va vb) i j = op (mat_at va i j) (mat_at vb i j).
Proof. intros. unfold melem. by rewrite mat_at_tabulate. Qed.

Lemma mat_at_mapply fn va i j :
  0 ≤ i < mr va → 0 ≤ j < mc va →
  mat_at (mapply fn va) i j = fn i j (mat_at va i j).
Proof. intros. unfold mapply. by rewrite mat_at_tabulate. Qed.

Lemma mat_at_mmul va vb i j :
  0 ≤ i < mr va → 0 ≤ j < mc vb →
  mat_at (mmul va vb) i j
  = dot (mc va) (λ k, fmul (mat_at va i k) (mat_at vb k j)).
Proof. intros. unfold mmul. by rewrite mat_at_tabulate. Qed.

(** C5: on an initialized network and an input row vector of the width of
    the first layer, FeedForward returns; the result holds the last of the
    activations [activation_0 = input],
    [activation_(i+1) = sigmoid(activation_i × W[i] + B[i])], entry by entry;
    it is a row vector as wide as the last layer. *)
Theorem FeedForward_correct (n : Network F) st sizes Ws Bs input x :
  wf_net n (heap st) sizes Ws Bs → holds (heap st) input x →
  mr x = 1 → sizes !! O = Some (mc x) →
  ∃ out st',
    FeedForward n input st = Ok out st' ∧
    value (heap st') out = activation Ws Bs x (length sizes - 1) ∧
    Rows out = 1 ∧ sizes !! (length sizes - 1)%nat = Some (Cols out) ∧
    activation Ws Bs x 0 = x ∧
    (∀ i, activation Ws Bs x (S i)
          = mapply sigmoidMatrix
              (madd (mmul (activation Ws Bs x i) (nth i Ws mat0)) (nth i Bs mat0))) ∧
    (∀ i j c, (i < length sizes - 1)%nat → sizes !! S i = Some c → 0 ≤ j < c →
       mat_at (activation Ws Bs x (S i)) 0 j
       = sigmoid (fadd (dot (mc (activation Ws Bs x i))
                            (λ k, fmul (mat_at (activation Ws Bs x i) 0 k)
                                       (mat_at (nth i Ws mat0) k j)))
                       (mat_at (nth i Bs mat0) 0 j))).
Proof.
  intros Hwf Hx Hrx Hcx. pose proof (wf_two _ _ _ _ _ Hwf) as Htwo.
  destruct (tspec_inv _ _ _ (FeedForward_spec n st sizes Ws Bs input x Hwf Hx Hrx Hcx))
    as (out & st' & E & _ & Hout).
  destruct (activation_shape _ _ _ _ _ x (length sizes - 1)%nat Hwf Hrx Hcx)
    as [HAr HAc]; [lia|].
  destruct (holds_dims _ _ _ Hout) as [HR HC].
  exists out, st'. split_and!; try done.
  - apply Hout.
  - congruence.
  - congruence.
  - intros i j c Hi Hc Hj.
    destruct (activation_shape _ _ _ _ _ x i Hwf Hrx Hcx) as [HAir HAic]; [lia|].
    destruct (wf_net_W _ _ _ _ _ i Hwf Hi) as (w & W & _ & _ & HnW & _ & HW1 & HW2).
    simpl. rewrite HnW. unfold layer_out, layer_pre, madd.
    assert (mc W = c) by congruence.
    rewrite mat_at_mapply by (simpl; lia).
    rewrite mat_at_melem by (simpl; lia).
    rewrite mat_at_mmul by lia. done.
Qed.

(** C2 as amended: the gradients of the output layer are
    [nablaB[L-2] = delta] and [nablaW[L-2] = activations[L-2]ᵗ × delta],
    where [delta] is the error of the output layer; with two layers this
    is [activations[0]ᵗ × delta]. *)
Theorem backprop_output_gradients (n : Network F) sizes Ws Bs x y st input desired eta :
  wf_net n (heap st) sizes Ws Bs →
  holds (heap st) input x → holds (heap st) desired y →
  mr x = 1 → sizes !! O = Some (mc x) →
  mr y = 1 → sizes !! (length sizes - 1)%nat = Some (mc y) →
  ∃ nablaB nablaW st' mB mW,
    backpropQuadCost n [input; desired] eta st = Ok (nablaB, nablaW) st' ∧
    nablaB !! (length sizes - 2)%nat = Some mB ∧
    nablaW !! (length sizes - 2)%nat = Some mW ∧
    value (heap st') mB = delta_out Ws Bs x y (length sizes - 2) ∧
    value (heap st') mW
    = mmul (mtrans (activation Ws Bs x (length sizes - 2)))
           (delta_out Ws Bs x y (length sizes - 2)) ∧
    (length sizes = 2%nat →
     value (heap st') mW = mmul (mtrans x) (delta_out Ws Bs x y 0)).
Proof.
  intros Hwf Hx Hy Hrx Hcx Hry Hcy. pose proof (wf_two _ _ _ _ _ Hwf) as Htwo.
  destruct (tspec_inv _ _ _
    (backprop_spec n sizes Ws Bs x y st input desired eta Hwf Hx Hy Hrx Hcx Hry Hcy))
    as ([nB nW] & st' & E & _ & _ & _ & HW & HBt & _). simpl in HW, HBt.
  destruct (HW (length sizes - 2)%nat) as (mW & HmW & HhW); [lia|].
  destruct (HBt (length sizes - 2)%nat) as (mB & HmB & HhB); [lia|].
  assert (Hd : delta Ws Bs x y (length sizes - 2) (length sizes - 2)
               = delta_out Ws Bs x y (length sizes - 2)).
  { unfold delta. by rewrite Nat.sub_diag. }
  unfold gradW in HhW. rewrite Hd in HhW, HhB.
  exists nB, nW, st', mB, mW. split_and!; try done.
  - apply HhB.
  - apply HhW.
  - intros E2. destruct HhW as [_ ->]. by rewrite E2.
Qed.

(** C6: [quadraticCost] returns the entry-wise difference [output - desired];
    the block of backpropagation computing the error of the outermost layer
    returns [(activations[L-1] - desired) ⊙ sigmoid'(zs[L-2])], entry by
    entry [(a - y) * (sigmoid z * (1 - sigmoid z))]; and that is what a run
    of backpropagation on a well-formed example leaves in [nablaB[L-2]]. *)
Theorem quadratic_cost_output_error :
  (∀ s o d vo vd,
     holds (heap s) o vo → holds (heap s) d vd → mr vo = mr vd → mc vo = mc vd →
     ∃ e s', quadraticCost o d s = Ok e s' ∧ value (heap s') e = msub vo vd) ∧
  (∀ vo vd i j, 0 ≤ i < mr vo → 0 ≤ j < mc vo →
     mat_at (msub vo vd) i j = fsub (mat_at vo i j) (mat_at vd i j)) ∧
  (∀ s size acts zs data aL z desired va vz vy,
     1 ≤ size → acts !! Z.to_nat size = Some aL →
     zs !! Z.to_nat (size - 1) = Some z → data !! 1%nat = Some desired →
     holds (heap s) aL va → holds (heap s) z vz → holds (heap s) desired vy →
     mr va = mr vy → mc va = mc vy → mr vz = mr va → mc vz = mc va →
     ∃ d s', bp_output_delta size acts zs data s = Ok d s' ∧
             value (heap s') d
             = mmulelem (msub va vy) (mapply sigmoidPrimeMatrix vz)) ∧
  (∀ va vy vz i j, 0 ≤ i < mr va → 0 ≤ j < mc va →
     mr vz = mr va → mc vz = mc va →
     mat_at (mmulelem (msub va vy) (mapply sigmoidPrimeMatrix vz)) i j
     = fmul (fsub (mat_at va i j) (mat_at vy i j))
            (fmul (sigmoid (mat_at vz i j)) (fsub fone (sigmoid (mat_at vz i j))))) ∧
  (∀ (n : Network F) sizes Ws Bs x y st input desired eta,
     wf_net n (heap st) sizes Ws Bs →
     holds (heap st) input x → holds (heap st) desired y →
     mr x = 1 → sizes !! O = Some (mc x) →
     mr y = 1 → sizes !! (length sizes - 1)%nat = Some (mc y) →
     ∃ nablaB nablaW st' mB,
       backpropQuadCost n [input; desired] eta st = Ok (nablaB, nablaW) st' ∧
       nablaB !! (length sizes - 2)%nat = Some mB ∧
       value (heap st') mB
       = mmulelem (msub (activation Ws Bs x (length sizes - 1)) y)
                  (mapply sigmoidPrimeMatrix (preact Ws Bs x (length sizes - 2)))).
Proof.
  split_and!.
  - intros s o d vo vd Ho Hd E1 E2.
    destruct (holds_dims _ _ _ Ho), (holds_dims _ _ _ Hd).
    assert (T : tspec s (quadraticCost o d) (λ e s', value (heap s') e = msub vo vd)).
    { unfold quadraticCost, Sub.
      eapply (elementwise_fresh_spec s fsub (Plain o) (Plain d)); [done..| |].
      - simpl. f_equal; congruence.
      - intros s' _ _ Hh. apply Hh. }
    destruct (tspec_inv _ _ _ T) as (e & s' & E & Hv). eauto.
  - intros. by apply mat_at_melem.
  - intros s size acts zs data aL z desired va vz vy ? ? ? ? ? ? ? ? ? ? ?.
    destruct (tspec_inv _ _ _
      (bp_output_delta_spec s size acts zs data aL z desired va vz vy
         ltac:(done) ltac:(done) ltac:(done) ltac:(done) ltac:(done) ltac:(done)
         ltac:(done) ltac:(done) ltac:(done) ltac:(done) ltac:(done)))
      as (d & s' & E & Hh & _).
    exists d, s'. split; [done|apply Hh].
  - intros va vy vz i j Hi Hj E1 E2. unfold mmulelem, msub.
    rewrite mat_at_melem by (simpl; lia).
    rewrite mat_at_melem by lia.
    rewrite mat_at_mapply by lia. done.
  - intros n sizes Ws Bs x y st input desired eta Hwf Hx Hy Hrx Hcx Hry Hcy.
    pose proof (wf_two _ _ _ _ _ Hwf) as Htwo.
    destruct (tspec_inv _ _ _
      (backprop_spec n sizes Ws Bs x y st input desired eta Hwf Hx Hy Hrx Hcx Hry Hcy))
      as ([nB nW] & st' & E & _ & _ & _ & _ & HBt & _). simpl in HBt.
    destruct (HBt (length sizes - 2)%nat) as (mB & HmB & HhB); [lia|].
    exists nB, nW, st', mB. split_and!; try done.
    destruct HhB as [_ ->]. unfold delta. rewrite Nat.sub_diag. simpl.
    unfold delta_out. by replace (S (length sizes - 2)) with (length sizes - 1)%nat by lia.
Qed.

(** C10: the gradients returned by per-example backpropagation do not
    depend on the learning rate passed to it. *)
Theorem backprop_eta_irrelevant (n : Network F) data eta1 eta2 st :
  backpropQuadCost n data eta1 st = backpropQuadCost n data eta2 st.
Proof. reflexivity. Qed.

(** C9: FeedForward and per-example backpropagation leave every array that
    existed before the call as it was (so the weights, biases and sizes of
    the network keep their values), draw nothing and print nothing; the
    same holds for the whole gradient phase of a batch (the dense_at
    accumulators and every backpropagation of the batch), which therefore
    reads the parameters as they were before the update; and the value
    FeedForward returns is a function of the values of the parameters and
    of the input alone. *)
Theorem frame_effect :
  (∀ (n : Network F) input st o st',
     FeedForward n input st = Ok o st' →
     (∃ ext, heap st' = heap st ++ ext) ∧ rnd st' = rnd st ∧ out st' = out st) ∧
  (∀ (n : Network F) data eta st r st',
     backpropQuadCost n data eta st = Ok r st' →
     (∃ ext, heap st' = heap st ++ ext) ∧ rnd st' = rnd st ∧ out st' = out st) ∧
  (∀ (n : Network F) data eta size i batchSize st nablaB nablaW st1 r st2,
     sgd_zero_grads n size st = Ok (nablaB, nablaW) st1 →
     sgd_accumulate n data eta size i batchSize nablaB nablaW st1 = Ok r st2 →
     (∃ ext, heap st2 = heap st ++ ext) ∧ rnd st2 = rnd st ∧ out st2 = out st) ∧
  (∀ st ext m, valid (heap st) m →
     valid (heap st ++ ext) m ∧ value (heap st ++ ext) m = value (heap st) m) ∧
  (∀ (n1 n2 : Network F) sizes Ws Bs st1 st2 input1 input2 x,
     wf_net n1 (heap st1) sizes Ws Bs → wf_net n2 (heap st2) sizes Ws Bs →
     holds (heap st1) input1 x → holds (heap st2) input2 x →
     mr x = 1 → sizes !! O = Some (mc x) →
     ∃ o1 s1 o2 s2,
       FeedForward n1 input1 st1 = Ok o1 s1 ∧ FeedForward n2 input2 st2 = Ok o2 s2 ∧
       value (heap s1) o1 = value (heap s2) o2).
Proof.
  split_and!.
  - intros n input st o st' E.
    destruct (framed_Ok _ _ _ _ _ (framed_FeedForward _ n input) E) as (?&?&?&_).
    done.
  - intros n data eta st r st' E.
    destruct (framed_Ok _ _ _ _ _ (framed_backpropQuadCost _ n data eta) E) as (?&?&?&_).
    done.
  - intros n data eta size i batchSize st nB nW st1 r st2 E1 E2.
    assert (Hf : framed (length (heap st))
              (let! p := sgd_zero_grads n size in
               sgd_accumulate n data eta size i batchSize p.1 p.2)
              (young2 (length (heap st)))).
    { eapply framed_bind; [apply framed_sgd_zero_grads|].
      intros [nB' nW'] [HB HW]. by apply framed_sgd_accumulate. }
    eapply (framed_Ok _ _ st r st2) in Hf as (?&?&?&_); [done|].
    unfold bind. by rewrite E1.
  - intros st ext m Hv. split; [by apply valid_app|by apply value_app].
  - intros n1 n2 sizes Ws Bs st1 st2 input1 input2 x Hwf1 Hwf2 Hx1 Hx2 Hrx Hcx.
    destruct (tspec_inv _ _ _ (FeedForward_spec n1 st1 sizes Ws Bs input1 x Hwf1 Hx1 Hrx Hcx))
      as (o1 & s1 & E1 & _ & [_ Hv1]).
    destruct (tspec_inv _ _ _ (FeedForward_spec n2 st2 sizes Ws Bs input2 x Hwf2 Hx2 Hrx Hcx))
      as (o2 & s2 & E2 & _ & [_ Hv2]).
    exists o1, s1, o2, s2. split_and!; [done..|]. congruence.
Qed.


(** C8: for layer sizes [size] of length at least two (none negative),
    [Init] returns a network with [length size - 1] weight matrices and as
    many bias vectors; weight matrix [i] has shape
    [(size[i], size[i+1])] and bias vector [i] shape [(1, size[i+1])]. *)
Theorem Init_shapes (size : list Z) (st : State F) :
  (2 ≤ length size)%nat → Forall (λ z, 0 ≤ z) size →
  ∃ n st',
    Init size st = Ok n st' ∧
    NumLayers n = Z.of_nat (length size) ∧
    length (Weights n) = (length size - 1)%nat ∧
    length (Biases n) = (length size - 1)%nat ∧
    ∀ i a a', (i < length size - 1)%nat →
      size !! i = Some a → size !! S i = Some a' →
      ∃ w b, Weights n !! i = Some w ∧ Biases n !! i = Some b ∧
             Dims (Plain w) = (a, a') ∧ Dims (Plain b) = (1, a').
Proof.
  intros Htwo Hpos.
  destruct (tspec_inv _ _ _ (Init_spec size st Htwo Hpos))
    as (n & st' & E & HL & _ & _ & HlW & HlB & Hsh).
  exists n, st'. split_and!; try done.
  intros i a a' Hi Ha Ha'.
  destruct (Hsh i a a' Hi Ha Ha') as (w & b & Hw & Hb & ? & ? & ? & ?).
  exists w, b. split_and!; try done; simpl; congruence.
Qed.

(** C3 fails on the code: on a four-layer network with one neuron per
    layer, the [nablaB[1]] that backpropagation returns is the very header
    of [nablaB[0]], over the same array; it holds the error of layer 0,
    not the error of layer 1 from which [nablaW[1]] was computed. *)
Theorem backprop_nablaB_aliased (w0 b0 w1 b1 w2 b2 x0 y0 eta : F) :
  let Ws := Ws4 w0 w1 w2 in
  let Bs := Bs4 b0 b1 b2 in
  ∃ nablaB nablaW st' d mW,
    backpropQuadCost net4 example4 eta (st4 w0 b0 w1 b1 w2 b2 x0 y0)
    = Ok (nablaB, nablaW) st' ∧
    nablaB !! 0%nat = Some d ∧ nablaB !! 1%nat = Some d ∧
    value (heap st') d = delta Ws Bs (x4 x0) (y4 y0) 2 0 ∧
    nablaW !! 1%nat = Some mW ∧
    value (heap st') mW
    = mmul (mtrans (activation Ws Bs (x4 x0) 1)) (delta Ws Bs (x4 x0) (y4 y0) 2 1).
Proof.
  intros Ws Bs. eexists _, _, _, _, _.
  split; [vm_compute; reflexivity|].
  split; [reflexivity|]. split; [reflexivity|].
  split; [vm_compute; reflexivity|].
  split; [reflexivity|]. vm_compute. reflexivity.
Qed.

(** C1 fails on the code: batch [i] reads the examples [i .. i+B-1], not
    [i*B .. i*B+B-1], so a pass over [ceil(N/B)] batches reads no example
    of index [ceil(N/B) + B - 1] or more: two training sets of one length
    that agree below that index are indistinguishable to [SGD]. *)
Theorem SGD_reads_prefix_only (n : Network F) data data' eta batchSize test st :
  1 ≤ batchSize → length data = length data' →
  (∀ k, Z.of_nat k < sgd_iterations (Z.of_nat (length data)) batchSize + batchSize - 1 →
        data !! k = data' !! k) →
  SGD n data eta batchSize test st = SGD n data' eta batchSize test st.
Proof.
  intros HB Hlen Hagree. unfold SGD.
  destruct (decide _); [done|]. destruct (decide _); [done|].
  rewrite <- Hlen.
  set (iters := sgd_iterations (Z.of_nat (length data)) batchSize) in *.
  apply bind_ext; [|done].
  apply (for_range_ext (λ bs, bs ≤ batchSize)); [lia| |].
  - intros i bs s Hi Hbs.
    apply (sgd_batch_ext n data data' eta i bs (iters + batchSize - 1)); [done..|lia|lia].
  - intros i bs s bs' s' Hbs E. apply sgd_batch_size in E. lia.
Qed.


End Claims.

(** * Further properties of the code *)

Section Gradients.
Context {F : Type} `{Float64 F}.
Implicit Types (st s : State F) (m : Dense) (v : matrix F).

(** X1: on an initialized network and a well-formed example,
    backpropagation returns one weight gradient and one bias gradient for
    each of the [L-1] layers, of the shapes of the weight and bias
    matrices; every weight gradient [nablaW[k]] is
    [activations[k]ᵗ × delta_k], where [delta_(L-2)] is the error of the
    output layer and [delta_i = (delta_(i+1) × W[i+1]ᵗ) ⊙ sigmoid'(zs[i])]. *)
Theorem backprop_weight_gradients (n : Network F) sizes Ws Bs x y st input desired eta :
  wf_net n (heap st) sizes Ws Bs →
  holds (heap st) input x → holds (heap st) desired y →
  mr x = 1 → sizes !! O = Some (mc x) →
  mr y = 1 → sizes !! (length sizes - 1)%nat = Some (mc y) →
  let top := (length sizes - 2)%nat in
  ∃ nablaB nablaW st',
    backpropQuadCost n [input; desired] eta st = Ok (nablaB, nablaW) st' ∧
    length nablaB = (length sizes - 1)%nat ∧
    length nablaW = (length sizes - 1)%nat ∧
    (∀ k, (k < length sizes - 1)%nat →
       ∃ mW mB a b,
         nablaW !! k = Some mW ∧ nablaB !! k = Some mB ∧
         sizes !! k = Some a ∧ sizes !! S k = Some b ∧
         Dims (Plain mW) = (a, b) ∧ Dims (Plain mB) = (1, b) ∧
         value (heap st') mW
         = mmul (mtrans (activation Ws Bs x k)) (delta Ws Bs x y top k)) ∧
    delta Ws Bs x y top top = delta_out Ws Bs x y top ∧
    (∀ i, (S i ≤ top)%nat →
       delta Ws Bs x y top i
       = mmulelem (mmul (delta Ws Bs x y top (S i)) (mtrans (nth (S i) Ws mat0)))
                  (mapply sigmoidPrimeMatrix (preact Ws Bs x i))).
Proof.
  intros Hwf Hx Hy Hrx Hcx Hry Hcy top.
  pose proof (wf_two _ _ _ _ _ Hwf) as Htwo.
  destruct (tspec_inv _ _ _
    (backprop_spec n sizes Ws Bs x y st input desired eta Hwf Hx Hy Hrx Hcx Hry Hcy))
    as ([nB nW] & st' & E & _ & HlB & HlW & HW & _ & _ & HB).
  cbn [fst snd] in *. fold top in HW.
  exists nB, nW, st'. split_and!; try done.
  - intros k Hk.
    destruct (HW k) as (mW & HmW & HhW); [lia|].
    destruct (HB k Hk) as (mB & HmB & _ & HRB & HCB).
    destruct (holds_dims _ _ _ HhW) as [HRW HCW].
    destruct (activation_shape _ _ _ _ _ x k Hwf Hrx Hcx) as [_ Ha]; [lia|].
    destruct (delta_shape n sizes Ws Bs x y Hrx Hcx st k Hwf) as [_ Hd]; [lia|].
    exists mW, mB, (mc (activation Ws Bs x k)), (Cols mB).
    split_and!; try done.
    + simpl. rewrite HRW, HCW. unfold gradW; simpl. f_equal.
      fold top in Hd. congruence.
    + simpl. by rewrite HRB.
    + apply HhW.
  - unfold delta. by rewrite Nat.sub_diag.
  - intros i Hi. by apply delta_step.
Qed.

(** X2: of the bias gradients backpropagation returns, [nablaB[0]] and
    [nablaB[L-2]] hold the errors [delta_0] and [delta_(L-2)] of their
    layers; on a network of at most three layers these are all of them. *)
Theorem backprop_bias_gradients (n : Network F) sizes Ws Bs x y st input desired eta :
  wf_net n (heap st) sizes Ws Bs →
  holds (heap st) input x → holds (heap st) desired y →
  mr x = 1 → sizes !! O = Some (mc x) →
  mr y = 1 → sizes !! (length sizes - 1)%nat = Some (mc y) →
  let top := (length sizes - 2)%nat in
  ∃ nablaB nablaW st',
    backpropQuadCost n [input; desired] eta st = Ok (nablaB, nablaW) st' ∧
    (∀ k, k = O ∨ k = top ∨ (length sizes ≤ 3)%nat → (k < length sizes - 1)%nat →
       ∃ mB, nablaB !! k = Some mB ∧
             value (heap st') mB = delta Ws Bs x y top k).
Proof.
  intros Hwf Hx Hy Hrx Hcx Hry Hcy top.
  pose proof (wf_two _ _ _ _ _ Hwf) as Htwo.
  destruct (tspec_inv _ _ _
    (backprop_spec n sizes Ws Bs x y st input desired eta Hwf Hx Hy Hrx Hcx Hry Hcy))
    as ([nB nW] & st' & E & _ & _ & _ & _ & HBt & HB0 & _).
  cbn [fst snd] in *. fold top in HBt, HB0.
  exists nB, nW, st'. split; [done|].
  intros k Hwhich Hk.
  assert (Hk' : k = O ∨ k = top) by (unfold top in *; lia).
  destruct Hk' as [->| ->].
  - destruct (HB0 O) as (m & Hm & Hh); [lia|]. exists m. split; [done|apply Hh].
  - destruct (HBt top) as (m & Hm & Hh); [lia|]. exists m. split; [done|apply Hh].
Qed.

End Gradients.

Section ShapeChecks.
Context {F : Type} `{Float64 F}.
Implicit Types (st s : State F) (m : Dense) (v : matrix F).

Lemma bind_Ok {A B} (m : M F A) (f : A → M F B) st a st' :
  m st = Ok a st' → bind m f st = f a st'.
Proof. intros E. unfold bind. by rewrite E. Qed.

Lemma bind_Panic {A B} (m : M F A) (f : A → M F B) st :
  m st = Panic → bind m f st = Panic.
Proof. intros E. unfold bind. by rewrite E. Qed.

Lemma for_range_first {A} lo hi (body : Z → A → M F A) a :
  lo < hi →
  for_range lo hi body a
  = bind (body lo a) (λ a', for_range (lo + 1) hi body a').
Proof.
  intros Hlt. unfold for_range.
  replace (Z.to_nat (hi - lo)) with (S (Z.to_nat (hi - (lo + 1)))) by lia. done.
Qed.

(** X3: on an initialized network, [FeedForward] returns for an input of
    one row as wide as the first layer, and for no other: for a matrix of
    another width or of several rows it panics (in [Mul], or in [Add],
    which does not spread the bias over rows). *)
Theorem FeedForward_accepts (n : Network F) st sizes Ws Bs input x :
  wf_net n (heap st) sizes Ws Bs → holds (heap st) input x →
  ((∃ out st', FeedForward n input st = Ok out st')
   ↔ mr x = 1 ∧ sizes !! O = Some (mc x)) ∧
  (¬ (mr x = 1 ∧ sizes !! O = Some (mc x)) → FeedForward n input st = Panic).
Proof.
  intros Hwf Hx. pose proof (wf_two _ _ _ _ _ Hwf) as Htwo.
  assert (HP : ¬ (mr x = 1 ∧ sizes !! O = Some (mc x)) →
               FeedForward n input st = Panic).
  { intros Hno.
    destruct (wf_net_W _ _ _ _ _ O Hwf) as (w & W & Ew & _ & _ & Hw & HWr & _); [lia|].
    destruct (wf_net_B _ _ _ _ _ O Hwf) as (b & B & Eb & _ & _ & Hb & HBr & _); [lia|].
    destruct (holds_dims _ _ _ Hx) as [HRx HCx].
    destruct (holds_dims _ _ _ Hw) as [HRw HCw].
    destruct (holds_dims _ _ _ Hb) as [HRb HCb].
    unfold FeedForward. rewrite for_range_first
      by (rewrite (wf_layers _ _ _ _ _ Hwf); lia).
    apply bind_Panic.
    rewrite (bind_Ok _ _ st w st) by (by apply index_eq).
    destruct (decide (sizes !! O = Some (mc x))) as [Hc|Hc].
    - assert (Hr : mr x ≠ 1) by tauto.
      assert (T : tspec st (Mul Dense0 (Plain input) (Plain w))
                    (λ m' _, Rows m' = Rows input ∧ Cols m' = Cols w)).
      { eapply (Mul_fresh_spec st (Plain input) (Plain w)); [exact Hx|exact Hw| |done].
        simpl. congruence. }
      apply tspec_inv in T as (m' & s1 & E1 & HR' & HC').
      rewrite (bind_Ok _ _ _ _ _ E1).
      rewrite (bind_Ok _ _ s1 b s1) by (by apply index_eq).
      apply bind_Panic. unfold Add, elementwise; simpl.
      rewrite decide_True; [done|]. left. congruence.
    - apply bind_Panic. unfold Mul; simpl.
      rewrite decide_True; [done|]. congruence. }
  split; [|done]. split.
  - intros (o & st' & E).
    destruct (decide (mr x = 1 ∧ sizes !! O = Some (mc x))) as [|Hno]; [done|].
    rewrite (HP Hno) in E. discriminate E.
  - intros [Hr Hc].
    destruct (tspec_inv _ _ _ (FeedForward_spec n st sizes Ws Bs input x Hwf Hx Hr Hc))
      as (o & st' & E & _). eauto.
Qed.

Lemma panic_step {A B} (m : M F A) (f : A → M F B) st a st' :
  m st = Ok a st' → f a st' = Panic → bind m f st = Panic.
Proof. intros E Ef. by rewrite (bind_Ok _ _ _ _ _ E). Qed.

Lemma panic_after {A B} (m : M F A) (f : A → M F B) st (Q : A → State F → Prop) :
  tspec st m Q → (∀ a st', Q a st' → f a st' = Panic) → bind m f st = Panic.
Proof.
  intros T Hf. apply tspec_inv in T as (a & st' & E & HQ).
  rewrite (bind_Ok _ _ _ _ _ E). by apply Hf.
Qed.

(** The first layer rejects an input that is not one row as wide as the
    first layer. *)
Lemma first_layer_panics (n : Network F) s sizes Ws Bs a x {B} (k : Dense → M F B) :
  wf_net n (heap s) sizes Ws Bs → holds (heap s) a x →
  ¬ (mr x = 1 ∧ sizes !! O = Some (mc x)) →
  (let! wi := index (Weights n) 0 in
   let! a1 := Mul Dense0 (Plain a) (Plain wi) in
   let! bi := index (Biases n) 0 in
   let! a1 := Add a1 (Plain a1) (Plain bi) in
   k a1) s = Panic.
Proof.
  intros Hwf Hx Hno. pose proof (wf_two _ _ _ _ _ Hwf) as Htwo.
  destruct (wf_net_W _ _ _ _ _ O Hwf) as (w & W & Ew & _ & _ & Hw & HWr & _); [lia|].
  destruct (wf_net_B _ _ _ _ _ O Hwf) as (b & Bv & Eb & _ & _ & Hb & HBr & _); [lia|].
  destruct (holds_dims _ _ _ Hx) as [HRx HCx].
  destruct (holds_dims _ _ _ Hw) as [HRw HCw].
  destruct (holds_dims _ _ _ Hb) as [HRb HCb].
  eapply panic_step; [by apply index_eq|].
  destruct (decide (sizes !! O = Some (mc x))) as [Hc|Hc].
  - assert (Hr : mr x ≠ 1) by tauto.
    eapply (panic_after _ _ _ (λ m' _, Rows m' = Rows a ∧ Cols m' = Cols w)).
    { eapply (Mul_fresh_spec s (Plain a) (Plain w)); [exact Hx|exact Hw| |done].
      simpl. congruence. }
    intros m' s1 [HR' HC'].
    eapply panic_step; [by apply index_eq|].
    apply bind_Panic. unfold Add, elementwise; simpl.
    rewrite decide_True; [done|]. left. congruence.
  - apply bind_Panic. unfold Mul; simpl.
    rewrite decide_True; [done|]. congruence.
Qed.

(** X4: on an initialized network, backpropagation returns exactly for an
    example whose input is one row as wide as the first layer and whose
    desired output is one row as wide as the last layer; for any other
    pair of matrices it panics. *)
Theorem backprop_accepts (n : Network F) st sizes Ws Bs input desired x y eta :
  wf_net n (heap st) sizes Ws Bs →
  holds (heap st) input x → holds (heap st) desired y →
  let good := mr x = 1 ∧ sizes !! O = Some (mc x) ∧
              mr y = 1 ∧ sizes !! (length sizes - 1)%nat = Some (mc y) in
  ((∃ r st', backpropQuadCost n [input; desired] eta st = Ok r st') ↔ good) ∧
  (¬ good → backpropQuadCost n [input; desired] eta st = Panic).
Proof.
  intros Hwf Hx Hy good. pose proof (wf_two _ _ _ _ _ Hwf) as Htwo.
  assert (HP : ¬ good → backpropQuadCost n [input; desired] eta st = Panic).
  { intros Hno. set (L := length sizes) in *.
    unfold backpropQuadCost. rewrite decide_False by (simpl; lia).
    rewrite (wf_layers _ _ _ _ _ Hwf). fold L.
    unfold make_denses at 1. rewrite decide_False by lia.
    eapply panic_step; [reflexivity|].
    unfold make_denses at 1. rewrite decide_False by lia.
    eapply panic_step; [reflexivity|].
    replace (Z.to_nat (Z.of_nat L - 1 + 1)) with L by lia.
    replace (Z.to_nat (Z.of_nat L - 1)) with (L - 1)%nat by lia.
    eapply panic_step; [apply index_eq; [lia|]; apply lookup_replicate_2; lia|].
    eapply panic_step; [apply index_eq; [lia|done]|].
    eapply (panic_after _ _ _ (λ a0 s1,
              keeps (length (heap st)) st s1 ∧ holds (heap s1) a0 x)).
    { eapply Clone_spec; [apply Hx|]. intros s1 K1 _ H1.
      destruct Hx as [_ Hxval]. rewrite Hxval in H1. done. }
    intros a0 s1 [K1 H1].
    eapply panic_step; [apply assign_eq; rewrite length_replicate; lia|].
    assert (Hst1 : stable (length (heap st)) st s1)
      by (eapply keeps_stable; [done|lia..]).
    assert (Hwf1 : wf_net n (heap s1) sizes Ws Bs)
      by (eapply wf_net_stable; [done..|lia]).
    destruct (decide (mr x = 1 ∧ sizes !! O = Some (mc x))) as [[Hrx Hcx]|Hbad].
    - eapply panic_after; [apply (bp_forward_spec n sizes Ws Bs x Hrx Hcx s1); done|].
      intros [acts zs] sC (HstC & HlA & HlZ & HA & _ & HZ). cbn [fst snd] in *.
      fold L in HlA, HlZ, HA, HZ.
      replace (S (Z.to_nat (Z.of_nat L - 1))) with L in HA by lia.
      assert (HwfC : wf_net n (heap sC) sizes Ws Bs)
        by (eapply wf_net_stable; [done..|lia]).
      unfold make_denses at 1. rewrite decide_False by lia.
      eapply panic_step; [reflexivity|].
      unfold make_denses at 1. rewrite decide_False by lia.
      eapply panic_step; [reflexivity|].
      replace (Z.to_nat (Z.of_nat L - 1)) with (L - 1)%nat by lia.
      eapply panic_after; [apply (bp_clone_spec n sizes Ws Bs sC); done|].
      intros [nW nB] s3 (Hst3 & _).
      destruct (HA (L - 1)%nat) as (aL & HaL & HhaL); [lia|].
      destruct (activation_shape _ _ _ _ _ x (L - 1)%nat HwfC Hrx Hcx) as [HAr HAc]; [lia|].
      destruct (holds_dims _ _ _ HhaL) as [HRa HCa].
      destruct (holds_dims _ _ _ Hy) as [HRy HCy].
      apply bind_Panic. unfold bp_output_delta.
      eapply panic_step.
      { apply index_eq; [lia|]. by replace (Z.to_nat (Z.of_nat L - 1)) with (L - 1)%nat by lia. }
      eapply panic_step; [apply index_eq; [lia|done]|].
      apply bind_Panic. unfold quadraticCost, Sub, elementwise; simpl.
      rewrite decide_True; [done|].
      destruct (decide (mr y = 1)) as [Hry|Hry]; [right|left; congruence].
      intros Ec. apply Hno. unfold good. split_and!; try done.
      rewrite HAc. f_equal. congruence.
    - apply bind_Panic. unfold bp_forward.
      rewrite for_range_first by lia. apply bind_Panic. cbn beta iota.
      eapply panic_step.
      { apply index_eq; [lia|]. rewrite list_lookup_insert_ne by done.
        apply lookup_replicate_2. lia. }
      eapply panic_step.
      { apply index_eq; [lia|]. apply list_lookup_insert_eq.
        rewrite length_replicate. lia. }
      by apply (first_layer_panics n s1 sizes Ws Bs a0 x). }
  split; [|done]. split.
  - intros (r & st' & E).
    destruct (decide good) as [|Hno]; [done|].
    rewrite (HP Hno) in E. discriminate E.
  - intros (Hrx & Hcx & Hry & Hcy).
    destruct (tspec_inv _ _ _
      (backprop_spec n sizes Ws Bs x y st input desired eta Hwf Hx Hy Hrx Hcx Hry Hcy))
      as (r & st' & E & _). eauto.
Qed.

Lemma panic_cases {A B} (m : M F A) (f : A → M F B) st :
  fatal_in (λ _, False) m → (∀ a st', m st = Ok a st' → f a st' = Panic) →
  bind m f st = Panic.
Proof.
  intros Hf Hk. unfold bind. destruct (m st) as [a st'|msg st'|] eqn:E; [|exfalso|done].
  - by apply Hk.
  - by apply (Hf _ _ _ E).
Qed.

(** X5: a network with fewer than two layers (one that was not
    initialized).  [FeedForward] hands back its input, the state
    untouched; [backpropQuadCost], which [SGD] guards with its fatal
    check, panics on every example of two elements. *)
Theorem uninitialized_network (n : Network F) :
  NumLayers n < 2 →
  (∀ input st, FeedForward n input st = Ok input st) ∧
  (∀ input desired eta st,
     backpropQuadCost n [input; desired] eta st = Panic).
Proof.
  intros HN. split.
  - intros input st. unfold FeedForward, for_range.
    by replace (Z.to_nat (NumLayers n - 1 - 0)) with 0%nat by lia.
  - intros input desired eta st. unfold backpropQuadCost.
    rewrite decide_False by (simpl; lia).
    destruct (decide (NumLayers n - 1 + 1 < 0)) as [Hneg|Hpos].
    { unfold make_denses at 1. by rewrite decide_True. }
    destruct (decide (NumLayers n - 1 < 0)) as [Hneg|Hone].
    { unfold make_denses at 1. rewrite decide_False by done.
      eapply panic_step; [reflexivity|].
      unfold make_denses at 1. by rewrite decide_True. }
    assert (E : NumLayers n = 1) by lia. rewrite E.
    eapply panic_step; [reflexivity|].
    eapply panic_step; [reflexivity|].
    eapply panic_step; [reflexivity|].
    eapply panic_step; [reflexivity|].
    apply panic_cases; [apply fatal_in_Clone|]. intros a0 s1 _.
    eapply panic_step; [reflexivity|].
    eapply panic_step; [reflexivity|].
    eapply panic_step; [reflexivity|].
    eapply panic_step; [reflexivity|].
    eapply panic_step; [reflexivity|].
    apply bind_Panic. unfold bp_output_delta.
    eapply panic_step; [reflexivity|].
    eapply panic_step; [reflexivity|].
    apply panic_cases; [apply fatal_in_elementwise|]. intros e s2 _.
    by apply bind_Panic.
Qed.

End ShapeChecks.

(** ** Which arrays the update step writes *)

Section Writes.
Context {F : Type} `{Float64 F}.
Implicit Types (st s : State F) (m : Dense) (v : matrix F).

(** [writes_in P m Q]: a run of [m] that returns allocates nothing, draws
    and prints nothing, and leaves every array outside [P] as it was; the
    value it returns satisfies [Q]. *)
Definition writes_in {A} (P : nat → Prop) (m : M F A) (Q : A → Prop) : Prop :=
  ∀ st a st', m st = Ok a st' →
    Q a ∧ length (heap st') = length (heap st) ∧
    rnd st' = rnd st ∧ out st' = out st ∧
    ∀ q, ¬ P q → heap st' !! q = heap st !! q.

Lemma writes_in_ret {A} P (a : A) (Q : A → Prop) : Q a → writes_in P (ret a) Q.
Proof. intros HQ st a' st' E. unfold ret in E. by simplify_eq. Qed.

Lemma writes_in_bind {A B} P (m : M F A) (f : A → M F B) Q1 Q2 :
  writes_in P m Q1 → (∀ a, Q1 a → writes_in P (f a) Q2) →
  writes_in P (bind m f) Q2.
Proof.
  intros Hm Hf st b st' E. unfold bind in E.
  destruct (m st) as [a s1| |] eqn:Em; [|done..].
  destruct (Hm _ _ _ Em) as (HQ & Hl & Hr & Ho & Hq).
  destruct (Hf a HQ _ _ _ E) as (HQ' & Hl' & Hr' & Ho' & Hq').
  split_and!; try congruence. intros q HP. by rewrite Hq', Hq.
Qed.

Lemma writes_in_for_loop {A} P (I : A → Prop) n i (body : Z → A → M F A) a :
  I a → (∀ j x, I x → writes_in P (body j x) I) →
  writes_in P (for_loop n i body a) I.
Proof.
  intros Ha Hbody. revert i a Ha.
  induction n as [|n IH]; intros i a Ha; simpl.
  - by apply writes_in_ret.
  - eapply writes_in_bind; [by apply Hbody|]. intros a' Ha'. by apply IH.
Qed.

Lemma writes_in_for_range {A} P (I : A → Prop) lo hi (body : Z → A → M F A) a :
  I a → (∀ j x, I x → writes_in P (body j x) I) →
  writes_in P (for_range lo hi body a) I.
Proof. apply writes_in_for_loop. Qed.

Lemma writes_in_index {A} P (Q : A → Prop) (l : list A) i :
  Forall Q l → writes_in P (index l i) Q.
Proof.
  intros Hl st a st' E. unfold index in E.
  destruct (decide _); [|done].
  destruct (l !! Z.to_nat i) as [x|] eqn:El; [|done].
  unfold ret in E. simplify_eq.
  split_and!; try done. eapply Forall_lookup_1; eauto.
Qed.

Lemma writes_in_At P m i j : writes_in P (At m i j) (λ _, True).
Proof.
  intros st a st' E. unfold At in E. destruct (decide _); [|done].
  destruct (_ !! _); [|done]. by simplify_eq.
Qed.

Lemma writes_in_Set (P : nat → Prop) m i j x :
  P (ptr (Data m)) → writes_in P (Set_ m i j x) (λ _, True).
Proof.
  intros HP st a st' E. unfold Set_ in E.
  destruct (decide _); [|done]. destruct (decide _); [|done]. simplify_eq/=.
  split_and!; try done.
  - by rewrite length_alter.
  - intros q Hq. apply list_lookup_alter_ne. by intros <-.
Qed.

Lemma writes_in_sgd_step_matrix P (params nabla : list Dense) i eta batchSize :
  Forall (λ p, P (ptr (Data p))) params →
  writes_in P (sgd_step_matrix params nabla i eta batchSize) (λ _, True).
Proof.
  intros Hp. unfold sgd_step_matrix.
  eapply writes_in_bind; [apply (writes_in_index _ (λ _, True)), Forall_true; done|].
  intros g _. destruct (Caps g) as [x y].
  apply writes_in_for_range; [done|]. intros j [] _.
  apply writes_in_for_range; [done|]. intros k [] _.
  eapply writes_in_bind; [by apply writes_in_index|]. intros p HPp.
  eapply writes_in_bind; [apply writes_in_At|]. intros pv _.
  eapply writes_in_bind; [apply (writes_in_index _ (λ _, True)), Forall_true; done|].
  intros g' _.
  eapply writes_in_bind; [apply writes_in_At|]. intros gv _.
  by apply writes_in_Set.
Qed.

(** The arrays of the parameter matrices. *)
Definition param_array (n : Network F) (q : nat) : Prop :=
  ∃ m, m ∈ Weights n ++ Biases n ∧ ptr (Data m) = q.

Lemma writes_in_sgd_update (n : Network F) eta size batchSize nablaB nablaW :
  writes_in (param_array n) (sgd_update n eta size batchSize nablaB nablaW)
    (λ _, True).
Proof.
  unfold sgd_update. apply writes_in_for_range; [done|]. intros i [] _.
  eapply writes_in_bind.
  - apply writes_in_sgd_step_matrix. apply Forall_forall. intros m Hm.
    exists m. split; [|done]. apply elem_of_app. by right.
  - intros _ _. apply writes_in_sgd_step_matrix. apply Forall_forall. intros m Hm.
    exists m. split; [|done]. apply elem_of_app. by left.
Qed.

End Writes.

(** ** A whole pass of [SGD] *)

Section Training.
Context {F : Type} `{Float64 F}.
Implicit Types (h : list (list F)) (st s : State F) (m : Dense) (v : matrix F).

Variables (n : Network F) (sizes : list Z).

(** A header over an array that is not a parameter's. *)
Definition off_params (m : Dense) : Prop := ¬ param_array n (ptr (Data m)).

(** What a batch needs of the state: the network is initialized, [Sizes]
    holds the layer sizes, the training examples are well-formed. *)
Definition trainable (data : list (list Dense)) (xys : list (matrix F * matrix F))
    (s : State F) : Prop :=
  (∃ Ws Bs, wf_net n (heap s) sizes Ws Bs) ∧
  holds (heap s) (Sizes n) (sizes_row sizes) ∧
  Forall2 (example_ok sizes (heap s)) data xys.

Lemma holds_agree h h' m v :
  h' !! ptr (Data m) = h !! ptr (Data m) → holds h m v → holds h' m v.
Proof.
  intros E [Hv <-]. split; [by eapply valid_agree|by apply value_agree].
Qed.

Lemma sgd_iterations_spec N B :
  0 ≤ N → 1 ≤ B →
  N ≤ sgd_iterations N B * B < N + B.
Proof.
  intros HN HB. unfold sgd_iterations.
  rewrite Z.rem_mod_nonneg, Z.quot_div_nonneg by lia.
  pose proof (Z.div_mod N B ltac:(lia)).
  pose proof (Z.mod_pos_bound N B ltac:(lia)).
  destruct (decide _); nia.
Qed.

Lemma bind_inv_Ok {A B} (m : M F A) (f : A → M F B) st b st' :
  bind m f st = Ok b st' → ∃ a s1, m st = Ok a s1 ∧ f a s1 = Ok b st'.
Proof.
  unfold bind. destruct (m st) as [a s1| |]; [|done..]. eauto.
Qed.

(** What a batch leaves of the state it started from: the arrays that are
    not a parameter's, the random source and the output. *)
Lemma sgd_batch_frame data eta i batchSize st b st' :
  sgd_batch n data eta i batchSize st = Ok b st' →
  (length (heap st) ≤ length (heap st'))%nat ∧
  rnd st' = rnd st ∧ out st' = out st ∧
  ∀ q, (q < length (heap st))%nat → ¬ param_array n q →
       heap st' !! q = heap st !! q.
Proof.
  intros E. unfold sgd_batch in E.
  apply bind_inv_Ok in E as ([nB nW] & s1 & E1 & E).
  apply bind_inv_Ok in E as ([nB' nW'] & s2 & E2 & E).
  apply bind_inv_Ok in E as ([] & s3 & E3 & E).
  unfold ret in E. simplify_eq.
  assert (Hf : framed (length (heap st))
            (let! p := sgd_zero_grads n (NumLayers n - 1) in
             sgd_accumulate n data eta (NumLayers n - 1) i
               (if decide (Z.of_nat (length data) - i * batchSize < batchSize)
                then Z.of_nat (length data) - i * batchSize else batchSize) p.1 p.2)
            (young2 (length (heap st)))).
  { eapply framed_bind; [apply framed_sgd_zero_grads|].
    intros [nB0 nW0] [HB HW]. by apply framed_sgd_accumulate. }
  eapply (framed_Ok _ _ st (nB', nW') s2) in Hf as ([ext Hext] & Hr & Ho & _).
  2:{ unfold bind. by rewrite E1. }
  destruct (writes_in_sgd_update n eta _ _ _ _ _ _ _ E3) as (_ & Hl3 & Hr3 & Ho3 & Hq3).
  split_and!; try congruence.
  - rewrite Hl3, Hext, length_app. lia.
  - intros q Hq Hnp. rewrite (Hq3 q Hnp), Hext. by apply lookup_app_l.
Qed.

(** The assumptions on the set-up that no run changes. *)
Definition set_up (data : list (list Dense)) : Prop :=
  Forall (λ z, to_int (of_int z) = z) sizes ∧
  params_apart n ∧ off_params (Sizes n) ∧
  Forall (Forall off_params) data.

Lemma example_ok_agree h h' ex xy :
  (∀ m, m ∈ ex → h' !! ptr (Data m) = h !! ptr (Data m)) →
  example_ok sizes h ex xy → example_ok sizes h' ex xy.
Proof.
  intros Hag (inp & des & -> & Hi & Hd & ? & ? & ? & ?). exists inp, des.
  split_and!; try done.
  - eapply holds_agree; [|done]. apply Hag. constructor.
  - eapply holds_agree; [|done]. apply Hag. do 2 constructor.
Qed.

(** A batch keeps the set-up: the parameters have new values of the old
    shapes, everything else is as before. *)
Lemma sgd_batch_trainable data xys eta i batchSize st :
  trainable data xys st → set_up data →
  0 ≤ i → 1 ≤ batchSize → i * batchSize ≤ Z.of_nat (length data) →
  tspec st (sgd_batch n data eta i batchSize) (λ b s',
    b = batch_size (Z.of_nat (length data)) i batchSize ∧
    trainable data xys s' ∧
    (length (heap st) ≤ length (heap s'))%nat ∧
    rnd s' = rnd st ∧ out s' = out st ∧
    ∀ q, (q < length (heap st))%nat → ¬ param_array n q →
         heap s' !! q = heap st !! q).
Proof.
  intros ((Ws & Bs & Hwf) & Hsz & Hdata) (Hint & Hnd & HoffS & HoffD) Hi HB Hfit.
  pose proof (wf_two _ _ _ _ _ Hwf) as Htwo.
  pose proof (sgd_batch_spec n sizes Ws Bs st data xys eta i batchSize
                Hwf Hsz Hint Hnd Hdata Hi HB Hfit) as T.
  apply tspec_inv in T as (b & s' & E & -> & GBs & _ & Hpar).
  set (b := batch_size (Z.of_nat (length data)) i batchSize) in *.
  set (batch := take (Z.to_nat b) (drop (Z.to_nat i) xys)) in *.
  destruct (sgd_batch_frame _ _ _ _ _ _ _ E) as (Hlen & Hr & Ho & Hq).
  eapply tspec_eq; [exact E|]. split_and!; try done.
  set (AW := sumW sizes Ws Bs batch) in *. set (AB := sumB sizes GBs) in *.
  set (size := (length sizes - 1)%nat) in *.
  split_and!.
  - exists (map (λ k, sgd_new eta b (nth k Ws mat0) (AW k)) (seq 0 size)),
           (map (λ k, sgd_new eta b (nth k Bs mat0) (AB k)) (seq 0 size)).
    pose proof (Forall2_length _ _ _ (wf_W _ _ _ _ _ Hwf)) as HlW.
    pose proof (Forall2_length _ _ _ (wf_B _ _ _ _ _ Hwf)) as HlB.
    rewrite (wf_lenW _ _ _ _ _ Hwf) in HlW. rewrite (wf_lenB _ _ _ _ _ Hwf) in HlB.
    split.
    + apply (wf_layers _ _ _ _ _ Hwf).
    + done.
    + by rewrite length_map, length_seq.
    + by rewrite length_map, length_seq.
    + apply Forall2_same_length_lookup_2; [by rewrite length_map, length_seq|].
      intros k w W' Ew EW'. apply lookup_lt_Some in Ew as Hk. rewrite HlW in Hk.
      rewrite list_lookup_fmap, lookup_seq_lt in EW' by done. simplify_eq/=.
      destruct (Hpar k Hk) as (w' & c' & Ew' & _ & Hw & _).
      unfold upd_to in Hw. rewrite decide_True in Hw by done. congruence.
    + apply Forall2_same_length_lookup_2; [by rewrite length_map, length_seq|].
      intros k c B' Ec EB'. apply lookup_lt_Some in Ec as Hk. rewrite HlB in Hk.
      rewrite list_lookup_fmap, lookup_seq_lt in EB' by done. simplify_eq/=.
      destruct (Hpar k Hk) as (w' & c' & _ & Ec' & _ & Hc & _).
      unfold upd_to in Hc. rewrite decide_True in Hc by done. congruence.
    + intros k W' EW'. apply lookup_lt_Some in EW' as Hk.
      rewrite length_map, length_seq in Hk.
      rewrite list_lookup_fmap, lookup_seq_lt in EW' by done. simplify_eq/=.
      destruct (wf_net_W _ _ _ _ _ k Hwf Hk) as (_ & W & _ & _ & -> & _ & ? & ?).
      done.
    + intros k B' EB'. apply lookup_lt_Some in EB' as Hk.
      rewrite length_map, length_seq in Hk.
      rewrite list_lookup_fmap, lookup_seq_lt in EB' by done. simplify_eq/=.
      destruct (wf_net_B _ _ _ _ _ k Hwf Hk) as (_ & B & _ & _ & -> & _ & ? & ?).
      done.
  - eapply holds_agree; [|exact Hsz]. apply Hq; [by eapply holds_ptr|done].
  - apply Forall2_same_length_lookup_2; [by eapply Forall2_length|].
    intros j ex xy Eex Exy.
    pose proof (Forall2_lookup_lr _ _ _ _ _ _ Hdata Eex Exy) as Hok.
    pose proof (Forall_lookup_1 _ _ _ _ HoffD Eex) as Hoff.
    eapply example_ok_agree; [|exact Hok]. intros m Hm.
    destruct Hok as (inp & des & -> & Hin & Hdes & _).
    apply Hq; [|by apply (proj1 (Forall_forall _ _) Hoff)].
    assert (m = inp ∨ m = des) as [->| ->]; [|by eapply holds_ptr..].
    apply elem_of_cons in Hm as [?|Hm]; [by left|].
    apply elem_of_cons in Hm as [?|Hm]; [by right|]. by apply elem_of_nil in Hm.
Qed.

(** The loop over the batches. *)
Lemma sgd_train_spec data xys eta batchSize st :
  trainable data xys st → set_up data → 1 ≤ batchSize →
  tspec st
    (for_range 0 (sgd_iterations (Z.of_nat (length data)) batchSize)
       (λ i bs, sgd_batch n data eta i bs) batchSize)
    (λ _ s', trainable data xys s' ∧
             (length (heap st) ≤ length (heap s'))%nat ∧
             rnd s' = rnd st ∧ out s' = out st ∧
             ∀ q, (q < length (heap st))%nat → ¬ param_array n q →
                  heap s' !! q = heap st !! q).
Proof.
  intros Htr Hset HB.
  pose proof (sgd_iterations_spec (Z.of_nat (length data)) batchSize
                ltac:(lia) HB) as Hit.
  set (iters := sgd_iterations (Z.of_nat (length data)) batchSize) in *.
  eapply tspec_mono.
  { apply (tspec_for_range (λ i bs s',
      (bs = batchSize ∨ iters ≤ i) ∧ trainable data xys s' ∧
      (length (heap st) ≤ length (heap s'))%nat ∧
      rnd s' = rnd st ∧ out s' = out st ∧
      ∀ q, (q < length (heap st))%nat → ¬ param_array n q →
           heap s' !! q = heap st !! q)); [nia| |].
    { split_and!; try done. by left. }
    intros i bs s Hi ([->|?] & Htr' & Hlen & Hr & Ho & Hq); [|lia].
    eapply tspec_mono; [apply (sgd_batch_trainable data xys); try done; nia|].
    intros b s' (-> & Htr2 & Hlen2 & Hr2 & Ho2 & Hq2).
    split_and!; try done; try congruence; try lia.
    - unfold batch_size. destruct (decide _); [right; nia|by left].
    - intros q Hlt Hnp. rewrite Hq2 by (done || lia). by apply Hq. }
  intros bs s' (_ & ? & ? & ? & ? & ?). done.
Qed.

(** A test pair in heap [h]: an input row as wide as the first layer and
    a desired output; further elements are not looked at. *)
Definition test_ok h (t : list Dense) (xy : matrix F * matrix F) : Prop :=
  ∃ inp des rest, t = inp :: des :: rest ∧
    holds h inp xy.1 ∧ mr xy.1 = 1 ∧ sizes !! O = Some (mc xy.1) ∧
    holds h des xy.2.

(** The number of test pairs whose output, on parameters [Ws], [Bs], the
    acceptance predicate accepts. *)
Definition score (accept : matrix F → matrix F → bool) (Ws Bs : list (matrix F))
    (txys : list (matrix F * matrix F)) : Z :=
  Z.of_nat (length (List.filter
    (λ xy, accept (activation Ws Bs xy.1 (length sizes - 1)) xy.2) txys)).

Lemma score_snoc accept Ws Bs txys xy :
  score accept Ws Bs (txys ++ [xy])
  = if accept (activation Ws Bs xy.1 (length sizes - 1)) xy.2
    then score accept Ws Bs txys + 1 else score accept Ws Bs txys.
Proof.
  unfold score. rewrite List.filter_app, length_app. simpl.
  destruct (accept _ _); simpl; lia.
Qed.

Lemma score_bounds accept Ws Bs txys :
  0 ≤ score accept Ws Bs txys ≤ Z.of_nat (length txys).
Proof.
  unfold score. split; [lia|]. apply Nat2Z.inj_le, List.filter_length_le.
Qed.

Lemma test_ok_agree h h' t xy :
  (∀ m, m ∈ take 2 t → h' !! ptr (Data m) = h !! ptr (Data m)) →
  test_ok h t xy → test_ok h' t xy.
Proof.
  intros Hag (inp & des & rest & -> & Hi & ? & ? & Hd). exists inp, des, rest.
  split_and!; try done.
  - eapply holds_agree; [|done]. apply Hag. constructor.
  - eapply holds_agree; [|done]. apply Hag. do 2 constructor.
Qed.

Lemma wf_net_agree h h' Ws Bs :
  (∀ q, (q < length h)%nat → h' !! q = h !! q) →
  wf_net n h sizes Ws Bs → wf_net n h' sizes Ws Bs.
Proof.
  intros Hag []. split; try done.
  - eapply Forall2_impl; [done|]. intros m v Hm.
    eapply holds_agree; [|done]. apply Hag. by eapply holds_ptr.
  - eapply Forall2_impl; [done|]. intros m v Hm.
    eapply holds_agree; [|done]. apply Hag. by eapply holds_ptr.
Qed.

(** The test phase: every test input is fed forward, the accepted outputs
    are counted, one line is printed. *)
Lemma sgd_test_spec Ws Bs accept test txys st :
  wf_net n (heap st) sizes Ws Bs → Forall2 (test_ok (heap st)) test txys →
  tspec st (sgd_test n accept test) (λ _ s',
    out s' = out st ++ [(score accept Ws Bs txys, Z.of_nat (length test))] ∧
    rnd s' = rnd st ∧ (length (heap st) ≤ length (heap s'))%nat ∧
    ∀ q, (q < length (heap st))%nat → heap s' !! q = heap st !! q).
Proof.
  intros Hwf Htest. pose proof (Forall2_length _ _ _ Htest) as Hlen.
  set (b0 := length (heap st)).
  unfold sgd_test. apply tspec_bind.
  eapply tspec_mono.
  { apply (tspec_for_range (λ i c s,
      stable b0 st s ∧ c = score accept Ws Bs (take (Z.to_nat i) txys))); [lia| |].
    { split; [apply stable_refl|done]. }
    intros i c s Hi [Hst ->]. set (k := Z.to_nat i).
    destruct (lookup_lt_is_Some_2 test k) as [t Et]; [lia|].
    destruct (Forall2_lookup_l _ _ _ _ _ Htest Et) as (xy & Exy & Hok).
    destruct Hok as (inp & des & rest & -> & Hin & Hrx & Hcx & Hdes).
    assert (Hwf' : wf_net n (heap s) sizes Ws Bs).
    { eapply wf_net_stable; [done..|]. unfold b0. lia. }
    assert (Hin' : holds (heap s) inp xy.1).
    { eapply holds_stable; [done..|]. by eapply holds_ptr. }
    assert (Hdes' : holds (heap s) des xy.2).
    { eapply holds_stable; [done..|]. by eapply holds_ptr. }
    eapply tspec_step; [apply index_eq; [lia|done]|].
    eapply tspec_step; [by apply index_eq|].
    apply tspec_bind.
    eapply tspec_mono; [by apply (FeedForward_spec n s sizes Ws Bs inp xy.1)|].
    intros op s1 [Hst1 Hop].
    eapply tspec_step; [by apply index_eq|].
    eapply tspec_step; [apply load_eq, Hop|].
    assert (Hdes1 : holds (heap s1) des xy.2).
    { eapply holds_stable; [done..|]. by eapply holds_ptr. }
    eapply tspec_step; [apply load_eq, Hdes1|].
    apply tspec_ret. split.
    - eapply stable_trans; [done|]. eapply stable_le; [|done].
      pose proof (stable_length _ _ _ Hst). lia.
    - replace (Z.to_nat (i + 1)) with (S k) by lia.
      rewrite (take_S_r _ _ _ Exy), score_snoc.
      destruct Hop as [_ ->]. destruct Hdes1 as [_ ->]. done. }
  intros c s [(Hr & Ho & Hl & Hq) ->]. unfold tspec. cbn [heap rnd out].
  rewrite firstn_all2 by lia. split_and!; try done. by rewrite Ho.
Qed.

(** A whole pass: the batches, then the test phase. *)
Lemma SGD_run data xys eta batchSize test txys st :
  trainable data xys st → set_up data → 1 ≤ batchSize →
  (∀ tests, test = Some tests → TestFunc n ≠ None →
     Forall2 (test_ok (heap st)) tests txys ∧
     Forall (Forall off_params) tests) →
  ∃ st' Ws' Bs',
    SGD n data eta batchSize test st = Ok tt st' ∧
    wf_net n (heap st') sizes Ws' Bs' ∧
    holds (heap st') (Sizes n) (sizes_row sizes) ∧
    Forall2 (example_ok sizes (heap st')) data xys ∧
    rnd st' = rnd st ∧
    (∀ q, (q < length (heap st))%nat → ¬ param_array n q →
          heap st' !! q = heap st !! q) ∧
    out st' = out st ++
      match test, TestFunc n with
      | Some tests, Some accept =>
          [(score accept Ws' Bs' txys, Z.of_nat (length tests))]
      | _, _ => []
      end.
Proof.
  intros Htr Hset HB Htests.
  pose proof Htr as ((Ws0 & Bs0 & Hwf0) & _).
  pose proof (wf_two _ _ _ _ _ Hwf0) as Htwo.
  pose proof (wf_layers _ _ _ _ _ Hwf0) as HL.
  destruct (tspec_inv _ _ _ (sgd_train_spec data xys eta batchSize st Htr Hset HB))
    as (bs & s1 & E1 & ((Ws' & Bs' & Hwf1) & Hsz1 & Hdata1) & Hl1 & Hr1 & Ho1 & Hq1).
  unfold SGD. rewrite decide_False by lia. rewrite decide_False by lia.
  rewrite (bind_Ok _ _ _ _ _ E1).
  destruct test as [tests|], (TestFunc n) as [accept|] eqn:ET;
    try (exists s1, Ws', Bs'; split_and!; try done; by rewrite Ho1, app_nil_r).
  destruct (Htests tests eq_refl) as [Hok Hoff]; [done|].
  assert (Hok1 : Forall2 (test_ok (heap s1)) tests txys).
  { apply Forall2_same_length_lookup_2; [by eapply Forall2_length|].
    intros j t xy Et Exy.
    pose proof (Forall2_lookup_lr _ _ _ _ _ _ Hok Et Exy) as Ht.
    pose proof (Forall_lookup_1 _ _ _ _ Hoff Et) as Hofft.
    eapply test_ok_agree; [|exact Ht]. intros m Hm.
    destruct Ht as (inp & des & rest & -> & Hin & _ & _ & Hdes).
    apply Hq1.
    - cbn [take] in Hm.
      apply elem_of_cons in Hm as [->|Hm]; [by eapply holds_ptr|].
      apply elem_of_cons in Hm as [->|Hm]; [by eapply holds_ptr|].
      by apply elem_of_nil in Hm.
    - apply (proj1 (Forall_forall _ _) Hofft). cbn [take] in Hm.
      apply elem_of_cons in Hm as [->|Hm]; [constructor|].
      apply elem_of_cons in Hm as [->|Hm]; [do 2 constructor|].
      by apply elem_of_nil in Hm. }
  destruct (tspec_inv _ _ _ (sgd_test_spec Ws' Bs' accept tests txys s1 Hwf1 Hok1))
    as ([] & s2 & E2 & Ho2 & Hr2 & Hl2 & Hq2).
  exists s2, Ws', Bs'. split_and!; try done.
  - by eapply wf_net_agree.
  - eapply holds_agree; [|exact Hsz1]. apply Hq2. by eapply holds_ptr.
  - eapply Forall2_impl; [exact Hdata1|]. intros ex xy Hex.
    eapply example_ok_agree; [|exact Hex]. intros m Hm.
    destruct Hex as (inp & des & -> & Hin & Hdes & _). apply Hq2.
    apply elem_of_cons in Hm as [->|Hm]; [by eapply holds_ptr|].
    apply elem_of_cons in Hm as [->|Hm]; [by eapply holds_ptr|].
    by apply elem_of_nil in Hm.
  - congruence.
  - intros q Hq Hnp. rewrite Hq2 by lia. by apply Hq1.
  - by rewrite Ho2, Ho1.
Qed.

Lemma off_params_alt m :
  ptr (Data m) ∉ map (λ p, ptr (Data p)) (Weights n ++ Biases n) → off_params m.
Proof.
  intros Hnot (p & Hp & E). apply Hnot. rewrite <- E.
  apply list_elem_of_fmap. by exists p.
Qed.

End Training.

Section TrainingTheorems.
Context {F : Type} `{Float64 F}.
Implicit Types (st s : State F) (m : Dense) (v : matrix F).

(** X6: the test phase of [SGD].  On an initialized network and test
    pairs whose inputs are rows as wide as the first layer, it returns
    after printing one line ["Success : c/t"], where [t] is the number of
    test pairs and [c], between 0 and [t], the number of pairs whose
    output [FeedForward] computes is accepted by the network's
    [TestFunc]; it draws nothing and leaves every array that existed as
    it was. *)
Theorem SGD_test_report (n : Network F) sizes Ws Bs accept test txys st :
  wf_net n (heap st) sizes Ws Bs →
  Forall2 (test_ok sizes (heap st)) test txys →
  ∃ st' c,
    sgd_test n accept test st = Ok tt st' ∧
    out st' = out st ++ [(c, Z.of_nat (length test))] ∧
    c = Z.of_nat (length (List.filter
          (λ xy, accept (activation Ws Bs xy.1 (length sizes - 1)) xy.2) txys)) ∧
    0 ≤ c ≤ Z.of_nat (length test) ∧
    rnd st' = rnd st ∧
    ∀ q, (q < length (heap st))%nat → heap st' !! q = heap st !! q.
Proof.
  intros Hwf Htest.
  destruct (tspec_inv _ _ _ (sgd_test_spec n sizes Ws Bs accept test txys st Hwf Htest))
    as ([] & st' & E & Ho & Hr & _ & Hq).
  exists st', (score sizes accept Ws Bs txys). split_and!; try done.
  - apply score_bounds.
  - rewrite (Forall2_length _ _ _ Htest). apply score_bounds.
Qed.

(** X7: a whole call of [SGD].  On an initialized network whose parameter
    matrices own arrays of their own, with well-formed training examples
    (and test pairs, when there are a test set and a [TestFunc]) stored
    outside those arrays and a batch size of at least one, [SGD] returns:
    it neither panics nor exits.  Afterwards the network is initialized
    again, with parameters of the same shapes, [Sizes] and the examples
    are as before, nothing was drawn, only the arrays of the parameters
    were changed, and the output grew by the one line of the test phase,
    or by nothing when there is no test set or no [TestFunc]. *)
Theorem SGD_returns (n : Network F) sizes data xys eta batchSize test txys st :
  trainable n sizes data xys st → set_up n sizes data → 1 ≤ batchSize →
  (∀ tests, test = Some tests → TestFunc n ≠ None →
     Forall2 (test_ok sizes (heap st)) tests txys ∧
     Forall (Forall (off_params n)) tests) →
  ∃ st' Ws' Bs',
    SGD n data eta batchSize test st = Ok tt st' ∧
    wf_net n (heap st') sizes Ws' Bs' ∧
    holds (heap st') (Sizes n) (sizes_row sizes) ∧
    Forall2 (example_ok sizes (heap st')) data xys ∧
    rnd st' = rnd st ∧
    (∀ q, (q < length (heap st))%nat → ¬ param_array n q →
          heap st' !! q = heap st !! q) ∧
    out st' = out st ++
      match test, TestFunc n with
      | Some tests, Some accept =>
          [(score sizes accept Ws' Bs' txys, Z.of_nat (length tests))]
      | _, _ => []
      end.
Proof. apply SGD_run. Qed.





End TrainingTheorems.

(** ** What [Init] builds *)

Section InitValues.
Context {F : Type} `{Float64 F}.
Implicit Types (h : list (list F)) (st s : State F) (m : Dense) (v : matrix F).

(** The number of parameters of the layers of [size], as many as [Init]
    draws: [(size[i] + 1) * size[i+1]] for every layer. *)
Fixpoint param_count (size : list Z) : Z :=
  match size with
  | a :: (b :: _) as rest => (a + 1) * b + param_count rest
  | _ => 0
  end.

(** The draws taken before those of layer [i]. *)
Definition drawn_before (size : list Z) (i : nat) : Z :=
  param_count (take (S i) size).

(** The matrices [Init] builds when [r0] draws were taken before the
    call: entry [(j, k)] of weight matrix [i] is draw
    [r0 + drawn_before i + j * size[i+1] + k], the entries of bias vector
    [i] are the draws that follow those of weight matrix [i]. *)
Definition init_W (r0 : nat) (size : list Z) (i : nat) : matrix F :=
  tabulate (sz size i) (sz size (S i))
    (λ j k, norm_float (r0 + Z.to_nat (drawn_before size i + j * sz size (S i) + k))).
Definition init_B (r0 : nat) (size : list Z) (i : nat) : matrix F :=
  tabulate 1 (sz size (S i))
    (λ _ k, norm_float
              (r0 + Z.to_nat (drawn_before size i + sz size i * sz size (S i) + k))).

(** The arrays of the first [k] layers, in the order of allocation. *)
Definition init_arrays (r0 : nat) (size : list Z) (k : nat) : list (list F) :=
  flat_map (λ i, [md (init_W r0 size i); md (init_B r0 size i)]) (seq 0 k).

Lemma param_count_nonneg size : Forall (λ z, 0 < z) size → 0 ≤ param_count size.
Proof.
  induction size as [|a [|b rest] IH]; intros Hpos; simpl; try lia.
  inversion Hpos as [|? ? Ha Hrest]; subst.
  inversion Hrest as [|? ? Hb _]; subst.
  specialize (IH Hrest). simpl in IH. nia.
Qed.

Lemma drawn_before_S size i :
  (S i < length size)%nat →
  drawn_before size (S i)
  = drawn_before size i + (sz size i + 1) * sz size (S i).
Proof.
  unfold drawn_before, sz. revert i.
  induction size as [|a [|b rest] IH]; intros i Hi; simpl in Hi; try lia.
  destruct i as [|i].
  - destruct rest; simpl; lia.
  - specialize (IH i ltac:(simpl; lia)).
    change (take (S (S (S i))) (a :: b :: rest))
      with (a :: take (S (S i)) (b :: rest)).
    change (take (S (S i)) (a :: b :: rest)) with (a :: take (S i) (b :: rest)).
    change (nth (S i) (a :: b :: rest) 0) with (nth i (b :: rest) 0).
    change (nth (S (S i)) (a :: b :: rest) 0) with (nth (S i) (b :: rest) 0).
    assert (G : ∀ l, (0 < length l)%nat → ∀ a', param_count (a' :: l)
                = (a' + 1) * nth 0 l 0 + param_count l).
    { intros [|x l] Hl a'; simpl in *; [lia|done]. }
    rewrite (G (take (S (S i)) (b :: rest))) by (simpl; lia).
    rewrite (G (take (S i) (b :: rest))) by (simpl; lia).
    simpl in IH. simpl. lia.
Qed.

Lemma drawn_before_all size :
  (1 ≤ length size)%nat → drawn_before size (length size - 1) = param_count size.
Proof.
  intros Hl. unfold drawn_before.
  replace (S (length size - 1)) with (length size) by lia.
  by rewrite firstn_all.
Qed.

Lemma insert_last {A} (l : list A) x y : <[length l := y]> (l ++ [x]) = l ++ [y].
Proof. rewrite insert_app_r_alt by lia. by rewrite Nat.sub_diag. Qed.

Lemma lookup_last {A} (l : list A) x : (l ++ [x]) !! length l = Some x.
Proof. rewrite lookup_app_r by lia. by rewrite Nat.sub_diag. Qed.

(** Filling a freshly allocated matrix with draws. *)
Lemma fill_random_fresh s h z r c :
  heap s = h ++ [z] → length z = Z.to_nat (r * c) → 0 < r → 0 < c →
  tspec s (fill_random (dense_at (length h) r c) r c) (λ _ s',
    heap s' = h ++ [row_major r c
                      (λ j k, norm_float (rnd s + Z.to_nat (j * c + k)))] ∧
    rnd s' = (rnd s + Z.to_nat (r * c))%nat ∧ out s' = out s).
Proof.
  intros Hh Hz Hr Hc.
  set (new := row_major r c (λ j k, norm_float (rnd s + Z.to_nat (j * c + k)))).
  assert (Hnew : length new = Z.to_nat (r * c)).
  { unfold new. rewrite length_row_major. lia. }
  set (Inv := λ (t : nat) (s' : State F),
        heap s' = h ++ [take t new ++ drop t z] ∧
        rnd s' = (rnd s + t)%nat ∧ out s' = out s).
  unfold fill_random.
  eapply tspec_mono.
  { apply (tspec_for_range (λ j _ s', Inv (Z.to_nat (j * c)) s')); [lia| |].
    { unfold Inv. simpl. by split_and!. }
    intros j [] s1 Hj HInv.
    eapply tspec_mono.
    { apply (tspec_for_range (λ k _ s', Inv (Z.to_nat (j * c + k)) s')); [lia| |].
      { by replace (j * c + 0) with (j * c) by lia. }
      intros k [] s2 Hk (Hh2 & Hr2 & Ho2).
      set (t := Z.to_nat (j * c + k)) in *.
      assert (Ht : (t < Z.to_nat (r * c))%nat) by (unfold t; nia).
      eapply tspec_step; [reflexivity|].
      eapply tspec_eq.
      { apply (Set_eq _ (dense_at (length h) r c) j k _ (take t new ++ drop t z)).
        - cbn [heap dense_at Data ptr]. rewrite Hh2. apply lookup_last.
        - simpl. lia.
        - simpl. lia.
        - simpl. fold t. lia.
        - simpl. fold t. rewrite length_app, length_take, length_drop. lia. }
      cbn [dense_at Cols Data ptr]. fold t.
      rewrite take_drop_step; [| |lia].
      2:{ unfold new, t. rewrite row_major_lookup by lia. by rewrite Hr2. }
      unfold Inv, poke. cbn [heap rnd out].
      replace (Z.to_nat (j * c + (k + 1))) with (S t) by lia.
      rewrite Hh2, insert_last. split_and!; [done|lia|done]. }
    intros [] s2 HInv'. by replace ((j + 1) * c) with (j * c + c) by lia. }
  intros [] s' (Hh' & Hr' & Ho'). split_and!; try done.
  rewrite Hh'. do 2 f_equal.
  rewrite drop_ge by lia. rewrite app_nil_r, <- Hnew. apply firstn_all.
Qed.

(** The headers of the network [Init] builds on a heap of [b0] arrays:
    [Sizes] over array [b0], weight matrix [i] over array [b0+1+2i], bias
    vector [i] over array [b0+2+2i]. *)
Definition init_w (b0 : nat) (size : list Z) (i : nat) : Dense :=
  dense_at (b0 + 1 + 2 * i) (sz size i) (sz size (S i)).
Definition init_b (b0 : nat) (size : list Z) (i : nat) : Dense :=
  dense_at (b0 + 2 + 2 * i) 1 (sz size (S i)).
Definition init_net (b0 : nat) (size : list Z) : Network F :=
  MkNetwork (Z.of_nat (length size)) (dense_at b0 1 (Z.of_nat (length size)))
    (map (init_w b0 size) (seq 0 (length size - 1)))
    (map (init_b b0 size) (seq 0 (length size - 1))) None.

Lemma insert_next {A} (l : list A) x d i k :
  length l = i →
  <[i := x]> (l ++ replicate (S k) d) = (l ++ [x]) ++ replicate k d.
Proof.
  intros <-. rewrite insert_app_r_alt by lia. rewrite Nat.sub_diag. simpl.
  by rewrite <- app_assoc.
Qed.

Lemma length_init_arrays r0 size k : length (init_arrays r0 size k) = (2 * k)%nat.
Proof.
  unfold init_arrays. induction k as [|k IH]; [done|].
  rewrite seq_S, flat_map_app, length_app, IH. simpl. lia.
Qed.

Lemma init_arrays_S r0 size k :
  init_arrays r0 size (S k)
  = init_arrays r0 size k ++ [md (init_W r0 size k); md (init_B r0 size k)].
Proof. unfold init_arrays. rewrite seq_S, flat_map_app. simpl. done. Qed.

Lemma drawn_before_nonneg size i :
  Forall (λ z, 0 < z) size → 0 ≤ drawn_before size i.
Proof. intros Hpos. apply param_count_nonneg. by apply Forall_take. Qed.

Lemma sz_positive size i :
  Forall (λ z, 0 < z) size → (i < length size)%nat → 0 < sz size i.
Proof.
  intros Hpos Hi. destruct (lookup_lt_is_Some_2 size i Hi) as [z Hz].
  rewrite (sz_lookup _ _ _ Hz). by apply (Forall_lookup_1 _ _ _ _ Hpos Hz).
Qed.

(** The run of [Init]: the network it returns and the state it leaves. *)
Lemma Init_run size st :
  (2 ≤ length size)%nat → Forall (λ z, 0 < z) size →
  tspec st (Init size) (λ n st',
    n = init_net (length (heap st)) size ∧
    heap st' = heap st ++ [map of_int size]
                 ++ init_arrays (rnd st) size (length size - 1) ∧
    rnd st' = (rnd st + Z.to_nat (param_count size))%nat ∧
    out st' = out st).
Proof.
  intros Htwo Hpos. set (L := length size) in *.
  set (b0 := length (heap st)). set (r0 := rnd st).
  unfold Init. fold L. rewrite decide_False by lia.
  eapply tspec_step; [apply NewDense_eq; lia|].
  replace (Z.to_nat (1 * Z.of_nat L)) with L by lia.
  set (zs := replicate L (fzero : F)).
  apply tspec_bind.
  eapply tspec_mono.
  { apply (tspec_for_range (λ i _ s,
      heap s = heap st ++ [take (Z.to_nat i) (map of_int size) ++ drop (Z.to_nat i) zs] ∧
      rnd s = r0 ∧ out s = out st)); [lia| |].
    { by split_and!. }
    intros i [] s Hi (Hh & Hr & Ho). set (k := Z.to_nat i) in *.
    destruct (lookup_lt_is_Some_2 size k) as [val Hval]; [lia|].
    eapply tspec_step; [apply index_eq; [lia|done]|].
    eapply tspec_eq.
    { apply (Set_eq _ (dense_at b0 1 (Z.of_nat L)) 0 i _
               (take k (map of_int size) ++ drop k zs)).
      - cbn [dense_at Data ptr]. rewrite Hh. apply lookup_last.
      - simpl. lia.
      - simpl. lia.
      - simpl. lia.
      - simpl. rewrite length_app, length_take, length_drop, length_map.
        unfold zs. rewrite length_replicate. lia. }
    cbn [dense_at Cols Data ptr].
    replace (Z.to_nat (0 * Z.of_nat L + i)) with k by lia.
    rewrite take_drop_step.
    - unfold poke. cbn [heap rnd out]. fold b0. rewrite Hh. unfold b0.
      rewrite insert_last. replace (Z.to_nat (i + 1)) with (S k) by lia. done.
    - by rewrite list_lookup_fmap, Hval.
    - unfold zs. rewrite length_replicate. lia. }
  intros [] s2 (Hh2 & Hr2 & Ho2).
  rewrite take_ge, drop_ge, app_nil_r in Hh2
    by (rewrite ?length_map; unfold zs; rewrite ?length_replicate; lia).
  unfold make_denses at 1. rewrite decide_False by lia.
  eapply tspec_step; [reflexivity|].
  unfold make_denses at 1. rewrite decide_False by lia.
  eapply tspec_step; [reflexivity|].
  replace (Z.to_nat (Z.of_nat L - 1)) with (L - 1)%nat by lia.
  apply tspec_bind.
  eapply tspec_mono.
  { apply (tspec_for_range (λ i (p : list Dense * list Dense) s,
      heap s = heap st ++ [map of_int size] ++ init_arrays r0 size (Z.to_nat i) ∧
      rnd s = (r0 + Z.to_nat (drawn_before size (Z.to_nat i)))%nat ∧
      out s = out st ∧
      p.1 = map (init_w b0 size) (seq 0 (Z.to_nat i))
              ++ replicate (L - 1 - Z.to_nat i) Dense0 ∧
      p.2 = map (init_b b0 size) (seq 0 (Z.to_nat i))
              ++ replicate (L - 1 - Z.to_nat i) Dense0)); [lia| |].
    { cbn [fst snd]. change (Z.to_nat 0) with 0%nat. rewrite Nat.sub_0_r.
      split_and!; try done.
      unfold drawn_before. destruct size; simpl; lia. }
    intros i [ws bs] s Hi (Hh & Hr & Ho & Hws & Hbs). cbn [fst snd] in Hws, Hbs.
    set (k := Z.to_nat i) in *.
    pose proof (sz_positive size k Hpos ltac:(lia)) as Hsk.
    pose proof (sz_positive size (S k) Hpos ltac:(lia)) as Hsk1.
    pose proof (drawn_before_nonneg size k Hpos) as Hdb.
    assert (Esi : size !! k = Some (sz size k)).
    { destruct (lookup_lt_is_Some_2 size k) as [z Hz]; [lia|].
      by rewrite (sz_lookup _ _ _ Hz). }
    assert (Esi1 : size !! S k = Some (sz size (S k))).
    { destruct (lookup_lt_is_Some_2 size (S k)) as [z Hz]; [lia|].
      by rewrite (sz_lookup _ _ _ Hz). }
    assert (Hlen : length (heap s) = (b0 + 1 + 2 * k)%nat).
    { rewrite Hh, !length_app, length_init_arrays. simpl. lia. }
    eapply tspec_step; [apply index_eq; [lia|done]|].
    eapply tspec_step.
    { apply index_eq; [lia|]. by replace (Z.to_nat (i + 1)) with (S k) by lia. }
    eapply tspec_step; [apply NewDense_eq; nia|].
    eapply tspec_step.
    { apply assign_eq. rewrite Hws, length_app, length_map, length_seq,
        length_replicate. lia. }
    apply tspec_bind.
    eapply tspec_mono.
    { eapply (fill_random_fresh _ (heap s));
        [reflexivity|by rewrite length_replicate|done..]. }
    intros [] s3 (Hh3 & Hr3 & Ho3). cbn [push heap rnd out] in Hh3, Hr3, Ho3.
    eapply tspec_step; [apply NewDense_eq; lia|].
    eapply tspec_step.
    { apply assign_eq. rewrite Hbs, length_app, length_map, length_seq,
        length_replicate. lia. }
    apply tspec_bind.
    eapply tspec_mono.
    { eapply (fill_random_fresh _ (heap s3));
        [reflexivity|by rewrite length_replicate|lia|done]. }
    intros [] s4 (Hh4 & Hr4 & Ho4). cbn [push heap rnd out] in Hh4, Hr4, Ho4.
    apply tspec_ret. cbn [fst snd].
    replace (Z.to_nat (i + 1)) with (S k) by lia.
    assert (EW : row_major (sz size k) (sz size (S k))
                   (λ j k', norm_float (rnd s + Z.to_nat (j * sz size (S k) + k')))
                 = md (init_W r0 size k)).
    { unfold init_W. erewrite <- (tabulate_ext _ _ _); [done|].
      intros j k' Hj Hk'. cbn beta. rewrite Hr. f_equal. lia. }
    assert (EB : row_major 1 (sz size (S k))
                   (λ j k', norm_float (rnd s3 + Z.to_nat (j * sz size (S k) + k')))
                 = md (init_B r0 size k)).
    { unfold init_B. erewrite <- (tabulate_ext _ _ _); [done|].
      intros j k' Hj Hk'. cbn beta. rewrite Hr3, Hr. f_equal. nia. }
    split_and!.
    - rewrite Hh4, Hh3, EW, EB, Hh, init_arrays_S. by rewrite <- !app_assoc.
    - rewrite Hr4, Hr3, Hr, drawn_before_S by lia. nia.
    - congruence.
    - rewrite Hws. replace (L - 1 - k)%nat with (S (L - 1 - S k)) by lia.
      rewrite insert_next by (by rewrite length_map, length_seq).
      rewrite seq_S, map_app. simpl. rewrite Hlen. done.
    - rewrite Hbs. replace (L - 1 - k)%nat with (S (L - 1 - S k)) by lia.
      rewrite insert_next by (by rewrite length_map, length_seq).
      rewrite seq_S, map_app. cbn [map Nat.add].
      rewrite Hh3, length_app, Hlen. cbn [length]. unfold init_b.
      by replace (b0 + 1 + 2 * k + 1)%nat with (b0 + 2 + 2 * k)%nat by lia. }
  intros [ws bs] s5 (Hh5 & Hr5 & Ho5 & Hws & Hbs). cbn [fst snd] in Hws, Hbs.
  replace (Z.to_nat (Z.of_nat L - 1)) with (L - 1)%nat in * by lia.
  rewrite Nat.sub_diag in Hws, Hbs. simpl in Hws, Hbs. rewrite app_nil_r in Hws, Hbs.
  apply tspec_ret. split_and!; try done.
  - unfold init_net. fold L. by rewrite Hws, Hbs.
  - rewrite Hr5. unfold L. rewrite drawn_before_all by lia. done.
Qed.

Lemma holds_dense_at h p v :
  h !! p = Some (md v) → wfm v → holds h (dense_at p (mr v) (mc v)) v.
Proof.
  intros E (Hr & Hc & Hlen).
  eapply (holds_intro h (dense_at p (mr v) (mc v)) v (md v)); simpl; try done; try lia.
  unfold cells; simpl. rewrite <- Hlen, firstn_all. by destruct v.
Qed.

Lemma init_arrays_W r0 size K i :
  (i < K)%nat → init_arrays r0 size K !! (2 * i)%nat = Some (md (init_W r0 size i)).
Proof.
  intros Hi. unfold init_arrays.
  replace (2 * i)%nat with (i * 2 + 0)%nat by lia.
  rewrite (lookup_flat_map_const _ _ 2 i 0 i); [done|done| |lia].
  by apply lookup_seq_lt.
Qed.

Lemma init_arrays_B r0 size K i :
  (i < K)%nat → init_arrays r0 size K !! (2 * i + 1)%nat = Some (md (init_B r0 size i)).
Proof.
  intros Hi. unfold init_arrays.
  replace (2 * i + 1)%nat with (i * 2 + 1)%nat by lia.
  rewrite (lookup_flat_map_const _ _ 2 i 1 i); [done|done| |lia].
  by apply lookup_seq_lt.
Qed.

Lemma elem_of_init_params b0 size m :
  m ∈ Weights (init_net b0 size) ++ Biases (init_net b0 size) →
  (b0 < ptr (Data m))%nat.
Proof.
  intros Hm. apply elem_of_app in Hm as [Hm|Hm]; simpl in Hm;
    apply list_elem_of_fmap in Hm as (i & -> & _); simpl; lia.
Qed.

(** The network [Init] returns is initialized in the heap [Init] leaves:
    its matrices hold the draws, in arrays of their own. *)
Lemma init_ready h0 r0 size :
  (2 ≤ length size)%nat → Forall (λ z, 0 < z) size →
  let n := init_net (length h0) size in
  let h := h0 ++ [map of_int size] ++ init_arrays r0 size (length size - 1) in
  wf_net n h size (map (init_W r0 size) (seq 0 (length size - 1)))
                  (map (init_B r0 size) (seq 0 (length size - 1))) ∧
  holds h (Sizes n) (sizes_row size) ∧
  params_apart n ∧ off_params n (Sizes n).
Proof.
  intros Htwo Hpos n h. set (L := length size) in *. set (b0 := length h0) in *.
  assert (HW : ∀ i, (i < L - 1)%nat → holds h (init_w b0 size i) (init_W r0 size i)).
  { intros i Hi. apply (holds_dense_at h _ (init_W r0 size i)).
    - unfold h. rewrite lookup_app_r by (unfold b0; lia).
      replace (b0 + 1 + 2 * i - length h0)%nat with (S (2 * i)) by (unfold b0; lia).
      simpl. by apply init_arrays_W.
    - apply wfm_tabulate; apply sz_positive; (done || lia). }
  assert (HB : ∀ i, (i < L - 1)%nat → holds h (init_b b0 size i) (init_B r0 size i)).
  { intros i Hi. apply (holds_dense_at h _ (init_B r0 size i)).
    - unfold h. rewrite lookup_app_r by (unfold b0; lia).
      replace (b0 + 2 + 2 * i - length h0)%nat with (S (2 * i + 1)) by (unfold b0; lia).
      simpl. by apply init_arrays_B.
    - apply wfm_tabulate; [lia|]. apply sz_positive; (done || lia). }
  assert (Hsz : ∀ i, (i < L)%nat → size !! i = Some (sz size i)).
  { intros i Hi. destruct (lookup_lt_is_Some_2 size i Hi) as [z Hz].
    by rewrite (sz_lookup _ _ _ Hz). }
  split_and!.
  - split; simpl; try done.
    + by rewrite length_map, length_seq.
    + by rewrite length_map, length_seq.
    + apply Forall2_fmap, Forall_Forall2_diag, Forall_forall.
      intros i Hi%elem_of_seq. apply HW. lia.
    + apply Forall2_fmap, Forall_Forall2_diag, Forall_forall.
      intros i Hi%elem_of_seq. apply HB. lia.
    + intros k W EW. apply lookup_lt_Some in EW as Hk.
      rewrite length_map, length_seq in Hk.
      rewrite list_lookup_fmap, lookup_seq_lt in EW by done. simplify_eq/=.
      split; apply Hsz; fold L; lia.
    + intros k B EB. apply lookup_lt_Some in EB as Hk.
      rewrite length_map, length_seq in Hk.
      rewrite list_lookup_fmap, lookup_seq_lt in EB by done. simplify_eq/=.
      split; [done|]. apply Hsz; fold L; lia.
  - apply (holds_dense_at h b0 (sizes_row size)).
    + unfold h. rewrite lookup_app_r by (unfold b0; lia).
      unfold b0. by rewrite Nat.sub_diag.
    + unfold wfm, sizes_row; simpl. rewrite length_map. fold L. split_and!; lia.
  - unfold params_apart. apply NoDup_alt. intros i j q Ei Ej.
    rewrite list_lookup_fmap in Ei, Ej.
    destruct ((Weights n ++ Biases n) !! i) as [mi|] eqn:Emi; [|done].
    destruct ((Weights n ++ Biases n) !! j) as [mj|] eqn:Emj; [|done].
    simplify_eq/=.
    assert (Hidx : ∀ a ma, (map (init_w b0 size) (seq 0 (L - 1))
                            ++ map (init_b b0 size) (seq 0 (L - 1))) !! a = Some ma →
              ((a < L - 1)%nat ∧ ptr (Data ma) = (b0 + 1 + 2 * a)%nat) ∨
              ((L - 1 ≤ a)%nat ∧ ptr (Data ma) = (b0 + 2 + 2 * (a - (L - 1)))%nat)).
    { intros a ma Ea. destruct (decide (a < L - 1)%nat) as [Hlt|Hge].
      - left. rewrite lookup_app_l in Ea by (by rewrite length_map, length_seq).
        rewrite list_lookup_fmap, lookup_seq_lt in Ea by done. by simplify_eq/=.
      - right. rewrite lookup_app_r in Ea by (rewrite length_map, length_seq; lia).
        rewrite length_map, length_seq in Ea.
        apply lookup_lt_Some in Ea as Hlt. rewrite length_map, length_seq in Hlt.
        rewrite list_lookup_fmap, lookup_seq_lt in Ea by done. simplify_eq/=.
        split; [lia|done]. }
    destruct (Hidx _ _ Emi) as [[? Pi]|[? Pi]], (Hidx _ _ Emj) as [[? Pj]|[? Pj]]; lia.
  - intros (m & Hm & Ep). apply elem_of_init_params in Hm. simpl in Ep. lia.
Qed.

End InitValues.

Section InitTheorems.
Context {F : Type} `{Float64 F}.
Implicit Types (st s : State F) (m : Dense) (v : matrix F).

(** X9: [Init] on at least two positive layer sizes returns a network
    that is initialized in the state it leaves: [Sizes] holds the layer
    sizes, the weight and bias matrices have arrays of their own, apart
    from that of [Sizes], and [TestFunc] is nil.  Every parameter is a
    draw of its own from the random source, taken layer by layer, the
    weights row by row and then the biases; the call takes
    [(size[i] + 1) * size[i+1]] draws for every layer [i], prints nothing
    and leaves the arrays that existed as they were. *)
Theorem Init_builds (size : list Z) (st : State F) :
  (2 ≤ length size)%nat → Forall (λ z, 0 < z) size →
  ∃ n st' Ws Bs,
    Init size st = Ok n st' ∧
    wf_net n (heap st') size Ws Bs ∧
    holds (heap st') (Sizes n) (sizes_row size) ∧
    params_apart n ∧ off_params n (Sizes n) ∧ TestFunc n = None ∧
    (∃ ext, heap st' = heap st ++ ext) ∧ out st' = out st ∧
    rnd st' = (rnd st + Z.to_nat (param_count size))%nat ∧
    ∀ i W B a b, Ws !! i = Some W → Bs !! i = Some B →
      size !! i = Some a → size !! S i = Some b →
      ∀ k, 0 ≤ k < b →
        (∀ j, 0 ≤ j < a →
           mat_at W j k
           = norm_float (rnd st + Z.to_nat (drawn_before size i + j * b + k))) ∧
        mat_at B 0 k
        = norm_float (rnd st + Z.to_nat (drawn_before size i + a * b + k)).
Proof.
  intros Htwo Hpos.
  destruct (tspec_inv _ _ _ (Init_run size st Htwo Hpos))
    as (n & st' & E & -> & Hh & Hr & Ho).
  destruct (init_ready (heap st) (rnd st) size Htwo Hpos) as (Hwf & Hsz & Hnd & Hoff).
  rewrite <- Hh in Hwf, Hsz.
  eexists _, st', _, _. split_and!; try done.
  - by eexists.
  - intros i W B a b EW EB Ea Eb k Hk.
    apply lookup_lt_Some in EW as Hi. rewrite length_map, length_seq in Hi.
    rewrite list_lookup_fmap, lookup_seq_lt in EW, EB by done. simplify_eq/=.
    rewrite <- (sz_lookup _ _ _ Ea), <- (sz_lookup _ _ _ Eb) in *.
    split.
    + intros j Hj. unfold init_W. by rewrite mat_at_tabulate by lia.
    + unfold init_B. by rewrite mat_at_tabulate by lia.
Qed.

(** X10: [Init] and then [FeedForward].  On the network [Init] returns
    for positive layer sizes, in any later state that kept the arrays
    [Init] left, [FeedForward] on a row as wide as the first layer returns
    a row as wide as the last layer. *)
Theorem Init_then_FeedForward (size : list Z) (st : State F) n st' ext input x s2 :
  Forall (λ z, 0 < z) size →
  Init size st = Ok n st' →
  heap s2 = heap st' ++ ext →
  holds (heap s2) input x → mr x = 1 → size !! O = Some (mc x) →
  ∃ o s3,
    FeedForward n input s2 = Ok o s3 ∧
    Rows o = 1 ∧ size !! (length size - 1)%nat = Some (Cols o).
Proof.
  intros Hpos E Hs2 Hx Hrx Hcx.
  assert (Htwo : (2 ≤ length size)%nat).
  { destruct (decide (2 ≤ length size)%nat) as [|Hlt]; [done|].
    unfold Init in E. rewrite decide_True in E by lia. discriminate E. }
  destruct (tspec_inv _ _ _ (Init_run size st Htwo Hpos))
    as (n' & st'' & E' & -> & Hh & _).
  rewrite E in E'. simplify_eq.
  destruct (init_ready (heap st) (rnd st) size Htwo Hpos) as (Hwf & _).
  rewrite <- Hh in Hwf.
  assert (Hwf2 : wf_net (init_net (length (heap st)) size) (heap s2) size
                   (map (init_W (rnd st) size) (seq 0 (length size - 1)))
                   (map (init_B (rnd st) size) (seq 0 (length size - 1)))).
  { rewrite Hs2. eapply wf_net_agree; [|exact Hwf].
    intros q Hq. by apply lookup_app_l. }
  destruct (tspec_inv _ _ _ (FeedForward_spec _ s2 size _ _ input x Hwf2 Hx Hrx Hcx))
    as (o & s3 & E3 & _ & Ho).
  destruct (holds_dims _ _ _ Ho) as [HR HC].
  destruct (activation_shape _ _ _ _ _ x (length size - 1)%nat Hwf2 Hrx Hcx)
    as [HAr HAc]; [lia|].
  exists o, s3. split_and!; [done|congruence|]. by rewrite HC.
Qed.

(** X11: [Init], then [SGD].  Take the network [Init] returns for
    positive layer sizes that [float64] holds exactly, and a later state
    that kept the arrays [Init] left and holds well-formed training
    examples and test pairs in arrays that are not the parameters'.  With
    a batch size of at least one, [SGD] returns and prints nothing ([Init]
    left [TestFunc] nil); once a [TestFunc] is set it returns after
    printing the one line ["Success : c/t"], with [t] the number of test
    pairs and [c] between 0 and [t]. *)
Theorem Init_then_SGD (size : list Z) (st : State F) n st' ext data xys eta
    batchSize tests txys accept s2 :
  Forall (λ z, 0 < z) size → Forall (λ z, to_int (of_int z) = z) size →
  Init size st = Ok n st' →
  heap s2 = heap st' ++ ext →
  Forall2 (example_ok size (heap s2)) data xys →
  Forall (Forall (off_params n)) data →
  Forall2 (test_ok size (heap s2)) tests txys →
  Forall (Forall (off_params n)) tests →
  1 ≤ batchSize →
  (∃ s3, SGD n data eta batchSize (Some tests) s2 = Ok tt s3 ∧ out s3 = out s2) ∧
  (∃ s3 c,
     SGD (MkNetwork (NumLayers n) (Sizes n) (Weights n) (Biases n) (Some accept))
       data eta batchSize (Some tests) s2 = Ok tt s3 ∧
     out s3 = out s2 ++ [(c, Z.of_nat (length tests))] ∧
     0 ≤ c ≤ Z.of_nat (length tests)).
Proof.
  intros Hpos Hint E Hs2 Hdata Hoff Htests HoffT HB.
  assert (Htwo : (2 ≤ length size)%nat).
  { destruct (decide (2 ≤ length size)%nat) as [|Hlt]; [done|].
    unfold Init in E. rewrite decide_True in E by lia. discriminate E. }
  destruct (tspec_inv _ _ _ (Init_run size st Htwo Hpos))
    as (n' & st'' & E' & -> & Hh & _).
  rewrite E in E'. simplify_eq.
  destruct (init_ready (heap st) (rnd st) size Htwo Hpos) as (Hwf & Hsz & Hnd & HoffS).
  rewrite <- Hh in Hwf, Hsz.
  set (n := init_net (length (heap st)) size) in *.
  assert (Hwf2 : wf_net n (heap s2) size
                   (map (init_W (rnd st) size) (seq 0 (length size - 1)))
                   (map (init_B (rnd st) size) (seq 0 (length size - 1)))).
  { rewrite Hs2. eapply wf_net_agree; [|exact Hwf].
    intros q Hq. by apply lookup_app_l. }
  assert (Hsz2 : holds (heap s2) (Sizes n) (sizes_row size))
    by (rewrite Hs2; by apply holds_app).
  assert (Htr : trainable n size data xys s2).
  { split_and!; [by eexists _, _|done..]. }
  assert (Hset : set_up n size data) by (by split_and!).
  split.
  - destruct (SGD_run n size data xys eta batchSize (Some tests) txys s2 Htr Hset HB)
      as (s3 & Ws' & Bs' & E3 & _ & _ & _ & _ & _ & Ho3).
    { intros ts _ Hnone. by destruct Hnone. }
    exists s3. split; [done|]. simpl in Ho3. by rewrite app_nil_r in Ho3.
  - set (n1 := MkNetwork (NumLayers n) (Sizes n) (Weights n) (Biases n) (Some accept)).
    assert (Htr1 : trainable n1 size data xys s2).
    { split_and!; [|exact Hsz2|exact Hdata]. eexists _, _.
      destruct Hwf2 as [h1 h2 h3 h4 h5 h6 h7 h8].
      split; [exact h1|exact h2|exact h3|exact h4|exact h5|exact h6|exact h7|exact h8]. }
    destruct (SGD_run n1 size data xys eta batchSize (Some tests) txys s2 Htr1 Hset HB)
      as (s3 & Ws' & Bs' & E3 & _ & _ & _ & _ & _ & Ho3).
    { intros ts Ets _. by simplify_eq. }
    exists s3, (score size accept Ws' Bs' txys). split_and!; try done.
    + apply score_bounds.
    + rewrite (Forall2_length _ _ _ Htests). apply score_bounds.
Qed.

End InitTheorems.

(** * Saving and loading the parameters *)

(** [DumpWeightsBiases] and [ReadWeightsBiases] move the parameters between
    the heap and a file, in the binary form of mat64's [MarshalBinary]:
    the row and the column count as little-endian 64-bit integers, then the
    entries row by row as the little-endian bit patterns of the floats. *)

(** math.Float64bits and math.Float64frombits: the bit pattern of a
    [float64] as a number, and back. *)
Class Float64Bits (F : Type) := {
  Float64bits : F → Z;
  Float64frombits : Z → F
}.

Section Files.
Context {F : Type} `{Float64 F} `{Float64Bits F}.

Definition sizeFloat64 : Z := 8.
Definition sizeInt64 : Z := 8.

(** Arithmetic on [int] and [int64] keeps the low 64 bits, read as a signed
    number; [uint64(x)] reads them as an unsigned one. *)
Definition wrap64 (z : Z) : Z := (z + 2 ^ 63) mod 2 ^ 64 - 2 ^ 63.
Definition to_uint64 (z : Z) : Z := z mod 2 ^ 64.

(** A byte is a number below 256.  [put_le n u] are the [n] low bytes of
    [u], the lowest first. *)
Fixpoint put_le (n : nat) (u : Z) : list Z :=
  match n with
  | O => []
  | S n' => u mod 256 :: put_le n' (u / 256)
  end.

Fixpoint get_le (bs : list Z) : Z :=
  match bs with
  | [] => 0
  | b :: bs' => b + 256 * get_le bs'
  end.

(** binary.LittleEndian.PutUint64 and binary.LittleEndian.Uint64 *)
Definition PutUint64 (u : Z) : list Z := put_le 8 u.
Definition Uint64 (bs : list Z) : Z := get_le (take 8 bs).

(** ** The file system *)

(** A path names a regular file with its bytes, or something [os.OpenFile]
    fails on with the given error. *)
Inductive node := File (bytes : list Z) | NoOpen (err : string).

Definition Files := string → option node.

Definition set_file (name : string) (nd : node) (fs : Files) : Files :=
  λ k, if decide (k = name) then Some nd else fs k.

(** The process and the files it can reach.  The files outlive an exit. *)
Record World := MkWorld { mem : State F; files : Files }.

Inductive IOResult (A : Type) :=
| Done (a : A) (w : World)
| Exit (msg : string) (w : World)     (* log.Fatal *)
| Crash.                              (* run-time panic *)
Arguments Done {A} a w.
Arguments Exit {A} msg w.
Arguments Crash {A}.

Definition IO (A : Type) := World → IOResult A.

Definition io_ret {A} (a : A) : IO A := λ w, Done a w.
Definition io_bind {A B} (m : IO A) (f : A → IO B) : IO B :=
  λ w, match m w with
       | Done a w' => f a w'
       | Exit msg w' => Exit msg w'
       | Crash => Crash
       end.
Definition exit {A} (msg : string) : IO A := λ w, Exit msg w.
Definition crash {A} : IO A := λ _, Crash.

(** A step that does not touch the files. *)
Definition lift {A} (m : M F A) : IO A :=
  λ w, match m (mem w) with
       | Ok a st => Done a (MkWorld st (files w))
       | Fatal msg st => Exit msg (MkWorld st (files w))
       | Panic => Crash
       end.

Notation "'do!' x ':=' m 'in' k" := (io_bind m (λ x, k))
  (at level 10, x name, m at level 100, k at level 200, only parsing).
Notation "'do!' ' p ':=' m 'in' k" := (io_bind m (λ x, let 'p := x in k))
  (at level 10, p pattern, m at level 100, k at level 200, only parsing).
Notation "'let!' x ':=' m 'in' k" := (bind m (λ x, k))
  (at level 10, x name, m at level 100, k at level 200, only parsing).

Fixpoint io_for_loop {A} (n : nat) (i : Z) (body : Z → A → IO A) (a : A) : IO A :=
  match n with
  | O => io_ret a
  | S n' => do! a' := body i a in io_for_loop n' (i + 1) body a'
  end.

(** for i := range l { a = body i a } *)
Definition io_for_range {A B} (l : list B) (body : Z → A → IO A) (a : A) : IO A :=
  io_for_loop (length l) 0 body a.

(** The error of opening a path that does not exist. *)
Definition msg_noent (name : string) : string :=
  String.append "open " (String.append name ": no such file or directory").

(** os.OpenFile(name, flag, 0644), with [create] for [os.O_CREATE]: the
    error, if any.  An open file is used through its name; the position of
    a reader is kept by the caller. *)
Definition OpenFile (name : string) (create : bool) : IO (option string) :=
  λ w, match files w name with
       | Some (File _) => Done None w
       | Some (NoOpen err) => Done (Some err) w
       | None =>
           if create
           then Done None (MkWorld (mem w) (set_file name (File []) (files w)))
           else Done (Some (msg_noent name)) w
       end.

(** file.Write(data) on a file opened with [os.O_APPEND]. *)
Definition file_Write (name : string) (data : list Z) : IO unit :=
  λ w, match files w name with
       | Some (File bs) =>
           Done tt (MkWorld (mem w) (set_file name (File (bs ++ data)) (files w)))
       | _ => Done tt w
       end.

(** file.Read(data) into a buffer of [size] zero bytes, at position [pos]:
    the buffer and the position afterwards.  At the end of the file fewer
    bytes, or none, are read. *)
Definition file_Read (name : string) (pos size : nat) : IO (list Z * nat) :=
  λ w, match files w name with
       | Some (File bs) =>
           let got := take size (drop pos bs) in
           Done (got ++ replicate (size - length got) 0, (pos + length got)%nat) w
       | _ => Done (replicate size 0, pos) w
       end.

(** ** mat64's binary form *)

Definition errTooBig : string := "mat64: resulting data slice too big".
Definition errTooSmall : string := "mat64: input slice too small".
Definition errBadBuffer : string := "mat64: data buffer size mismatch".
Definition errBadSize : string := "mat64: invalid dimension".

(** The largest length of a slice. *)
Definition maxLen : Z := 2 ^ 63 - 1.

(** func (m Dense) MarshalBinary() ([]byte, error) *)
Definition MarshalBinary (m : Dense) : M F (list Z + string) :=
  let bufLen := wrap64 (Rows m * Cols m * sizeFloat64 + 2 * sizeInt64) in
  if decide (bufLen ≤ 0) then ret (inr errTooBig)
  else
    let head := PutUint64 (to_uint64 (Rows m)) ++ PutUint64 (to_uint64 (Cols m)) in
    let! buf := for_range 0 (Rows m) (λ i buf,
                  for_range 0 (Cols m) (λ j buf,
                    let! x := At m i j in
                    ret (buf ++ PutUint64 (Float64bits x))) buf) head in
    (* the writes go into make([]byte, bufLen) *)
    if decide (Z.of_nat (length buf) ≤ bufLen)
    then ret (inl (buf ++ replicate (Z.to_nat bufLen - length buf) 0))
    else panic.

(** The floats of [k] groups of eight bytes. *)
Fixpoint get_floats (k : nat) (bs : list Z) : list F :=
  match k with
  | O => []
  | S k' => Float64frombits (Uint64 bs) :: get_floats k' (drop 8 bs)
  end.

(** func (m *Dense) UnmarshalBinary(data []byte) error: the receiver
    afterwards, and the error. *)
Definition UnmarshalBinary (m : Dense) (data : list Z) : M F (Dense * option string) :=
  if negb (isZero m) then panic
  else if decide (Z.of_nat (length data) < 2 * sizeInt64) then ret (m, Some errTooSmall)
  else
    let rows := wrap64 (Uint64 data) in
    let cols := wrap64 (Uint64 (drop 8 data)) in
    if decide (rows < 0 ∨ cols < 0) then ret (m, Some errBadSize)
    else
      let size := wrap64 (rows * cols) in
      if decide (size < 0 ∨ maxLen < size) then ret (m, Some errTooBig)
      else if decide (Z.of_nat (length data)
                      ≠ wrap64 (size * sizeFloat64 + 2 * sizeInt64))
      then ret (m, Some errBadBuffer)
      else
        let! m' := reuseAs m rows cols in
        let! _ := slice_put (Data m')
                    (get_floats (len (Data m')) (drop 16 data)) in
        ret (m', None).

(** ** The two methods *)

(** func (n *Network) DumpWeightsBiases(fileName string) *)
Definition DumpWeightsBiases (n : Network F) (fileName : string) : IO unit :=
  do! err := OpenFile fileName true in
  match err with
  | Some e => exit e
  | None =>
      io_for_range (Weights n) (λ i _,
        do! wi := lift (index (Weights n) i) in
        do! r := lift (MarshalBinary wi) in
        match r with
        | inr e => exit e
        | inl data =>
            do! _ := file_Write fileName data in
            do! bi := lift (index (Biases n) i) in
            do! r := lift (MarshalBinary bi) in
            match r with
            | inr e => exit e
            | inl data => file_Write fileName data
            end
        end) tt
  end.

(** The five statements [ReadWeightsBiases] runs on a weight matrix and
    then on a bias matrix: size a buffer by the capacities, read into it,
    reset the matrix and decode the buffer into it, dropping the error. *)
Definition read_dense (fileName : string) (m : Dense) (pos : nat) : IO (Dense * nat) :=
  let '(x, y) := Caps m in
  let size := wrap64 (x * y * sizeFloat64 + 2 * sizeInt64) in
  if decide (size < 0) then crash
  else
    do! '(data, pos) := file_Read fileName pos (Z.to_nat size) in
    do! '(m, _) := lift (UnmarshalBinary (Reset m) data) in
    io_ret (m, pos).

(** func (n *Network) ReadWeightsBiases(fileName string): the network
    afterwards. *)
Definition ReadWeightsBiases (n : Network F) (fileName : string) : IO (Network F) :=
  do! err := OpenFile fileName false in
  match err with
  | Some e => exit e
  | None =>
      do! '(weights, biases, _) :=
        io_for_range (Weights n) (λ i '(weights, biases, pos),
          do! wi := lift (index weights i) in
          do! '(wi, pos) := read_dense fileName wi pos in
          do! weights := lift (assign weights i wi) in
          do! bi := lift (index biases i) in
          do! '(bi, pos) := read_dense fileName bi pos in
          do! biases := lift (assign biases i bi) in
          io_ret (weights, biases, pos)) (Weights n, Biases n, O) in
      io_ret (MkNetwork (NumLayers n) (Sizes n) weights biases (TestFunc n))
  end.

End Files.

Arguments Done {F A} a w.
Arguments Exit {F A} msg w.
Arguments Crash {F A}.

(** ** Facts about the binary form *)

Section FileFacts.
Context {F : Type} `{Float64 F} `{Float64Bits F}.
Implicit Types (st : State F) (m : Dense) (v : matrix F).

(** The bytes of [k] floats. *)
Definition put_floats (xs : list F) : list Z :=
  flat_map (λ x, PutUint64 (Float64bits x)) xs.

(** The binary form of a matrix value. *)
Definition encode (v : matrix F) : list Z :=
  PutUint64 (to_uint64 (mr v)) ++ PutUint64 (to_uint64 (mc v)) ++ put_floats (md v).

(** The content [DumpWeightsBiases] writes for the parameters [Ws], [Bs]. *)
Fixpoint dump_bytes (Ws Bs : list (matrix F)) : list Z :=
  match Ws, Bs with
  | W :: Ws', B :: Bs' => encode W ++ encode B ++ dump_bytes Ws' Bs'
  | _, _ => []
  end.

(** A float whose bit pattern fits 64 bits and gives the float back. *)
Definition storable (x : F) : Prop :=
  0 ≤ Float64bits x < 2 ^ 64 ∧ Float64frombits (Float64bits x) = x.

Lemma wrap64_small z : - 2 ^ 63 ≤ z < 2 ^ 63 → wrap64 z = z.
Proof. intros Hz. unfold wrap64. rewrite Z.mod_small by lia. lia. Qed.

Lemma to_uint64_small z : 0 ≤ z < 2 ^ 64 → to_uint64 z = z.
Proof. intros Hz. unfold to_uint64. by rewrite Z.mod_small. Qed.

Lemma length_put_le n u : length (put_le n u) = n.
Proof. revert u. induction n as [|n IH]; intros u; simpl; [done|]. by rewrite IH. Qed.

Lemma get_put_le n u : 0 ≤ u < 256 ^ Z.of_nat n → get_le (put_le n u) = u.
Proof.
  revert u. induction n as [|n IH]; intros u Hu.
  - simpl in *. lia.
  - cbn [put_le get_le]. rewrite IH.
    + pose proof (Z.div_mod u 256). lia.
    + rewrite Nat2Z.inj_succ, Z.pow_succ_r in Hu by lia.
      split; [apply Z.div_pos; lia|apply Z.div_lt_upper_bound; lia].
Qed.

Lemma length_PutUint64 u : length (PutUint64 u) = 8%nat.
Proof. apply length_put_le. Qed.

Lemma Uint64_put u rest : 0 ≤ u < 2 ^ 64 → Uint64 (PutUint64 u ++ rest) = u.
Proof.
  intros Hu. unfold Uint64.
  rewrite (take_app_length' (PutUint64 u) rest 8 (length_PutUint64 u)).
  apply get_put_le. by change (256 ^ Z.of_nat 8) with (2 ^ 64).
Qed.

Lemma put_floats_snoc xs x :
  put_floats (xs ++ [x]) = put_floats xs ++ PutUint64 (Float64bits x).
Proof. unfold put_floats. rewrite flat_map_app. cbn [flat_map]. by rewrite app_nil_r. Qed.

Lemma length_put_floats xs : length (put_floats xs) = (8 * length xs)%nat.
Proof.
  induction xs as [|x xs IH]; [done|].
  unfold put_floats in *. cbn [flat_map]. rewrite length_app, IH, length_PutUint64.
  simpl. lia.
Qed.

Lemma length_encode v : length (encode v) = (16 + 8 * length (md v))%nat.
Proof.
  unfold encode. rewrite !length_app, !length_PutUint64, length_put_floats. lia.
Qed.

Lemma get_put_floats xs rest :
  Forall storable xs → get_floats (length xs) (put_floats xs ++ rest) = xs.
Proof.
  induction 1 as [|x xs [Hx1 Hx2] _ IH]; [done|].
  unfold put_floats in *. cbn [flat_map length get_floats].
  rewrite <- app_assoc, Uint64_put by done. rewrite Hx2. f_equal.
  rewrite (drop_app_length' _ _ 8 (eq_sym (length_PutUint64 _))). apply IH.
Qed.

Lemma dump_bytes_snoc Ws Bs W B :
  length Ws = length Bs →
  dump_bytes (Ws ++ [W]) (Bs ++ [B]) = dump_bytes Ws Bs ++ encode W ++ encode B.
Proof.
  revert Bs. induction Ws as [|W' Ws IH]; intros [|B' Bs] Hlen; try done.
  - simpl. by rewrite app_nil_r.
  - injection Hlen as Hlen. cbn [app dump_bytes]. rewrite (IH _ Hlen).
    by rewrite <- !app_assoc.
Qed.

(** What [MarshalBinary] returns for a stored matrix. *)
Lemma MarshalBinary_spec st m v :
  holds (heap st) m v → mr v * mc v * 8 + 16 < 2 ^ 63 →
  MarshalBinary m st = Ok (inl (encode v)) st.
Proof.
  intros Hm Hfit. destruct (holds_dims _ _ _ Hm) as [HR HC].
  pose proof Hm as [Hv Hval]. pose proof (value_wfm _ _ Hv) as Hwfm.
  rewrite Hval in Hwfm. destruct Hwfm as (Hr & Hc & Hlen).
  set (head := PutUint64 (to_uint64 (Rows m)) ++ PutUint64 (to_uint64 (Cols m))).
  assert (Hhead : length head = 16%nat).
  { unfold head. rewrite length_app, !length_PutUint64. done. }
  set (Inv := λ (t : Z) (buf : list Z) (s : State F),
        s = st ∧ buf = head ++ put_floats (take (Z.to_nat t) (md v))).
  assert (Hloop : tspec st (for_range 0 (Rows m) (λ i buf,
             for_range 0 (Cols m) (λ j buf,
               bind (At m i j) (λ x, ret (buf ++ PutUint64 (Float64bits x)))) buf) head)
           (λ buf s, Inv (mr v * mc v) buf s)).
  { eapply tspec_mono.
    { apply (tspec_for_range (λ i buf s, Inv (i * mc v) buf s)); [lia| |].
      { split; [done|]. rewrite Z.mul_0_l. change (Z.to_nat 0) with O.
        rewrite take_0. symmetry. apply app_nil_r. }
      intros i buf s Hi [-> ->].
      eapply tspec_mono.
      { apply (tspec_for_range (λ j buf s, Inv (i * mc v + j) buf s)); [lia| |].
        { split; [done|]. by rewrite Z.add_0_r. }
        intros j buf s Hj [-> ->].
        eapply tspec_step; [apply (At_spec st m v i j Hm); lia|].
        apply tspec_ret. split; [done|].
        rewrite <- app_assoc. f_equal.
        replace (Z.to_nat (i * mc v + (j + 1))) with (S (Z.to_nat (i * mc v + j))) by lia.
        destruct (lookup_lt_is_Some_2 (md v) (Z.to_nat (i * mc v + j))) as [x Hx];
          [nia|].
        rewrite (take_S_r _ _ _ Hx), put_floats_snoc.
        unfold mat_at. by rewrite Hx. }
      intros buf s [-> ->]. split; [done|]. do 3 f_equal. lia. }
    intros buf s [-> ->]. split; [done|]. by rewrite HR. }
  destruct (tspec_inv _ _ _ Hloop) as (buf & s & E & -> & ->).
  unfold MarshalBinary. change sizeFloat64 with 8. change sizeInt64 with 8.
  rewrite HR, HC, wrap64_small by nia.
  rewrite decide_False by nia.
  rewrite <- HR, <- HC.
  rewrite (bind_Ok _ _ _ _ _ E).
  rewrite firstn_all2 by lia.
  rewrite decide_True by (rewrite length_app, length_put_floats, Hhead, Hlen; nia).
  replace (Z.to_nat _ - _)%nat with 0%nat
    by (rewrite length_app, length_put_floats, Hhead, Hlen; nia).
  unfold ret. cbn [replicate]. rewrite app_nil_r. unfold encode, head.
  by rewrite HR, HC, <- app_assoc.
Qed.

(** The header [ReadWeightsBiases] leaves for a matrix it decoded. *)
Definition reread (m : Dense) : Dense :=
  MkDense (Rows m) (Cols m) (Rows m) (Cols m)
    (Slice (ptr (Data m)) (cells m) (cap (Data m))).

(** What [UnmarshalBinary] does with the binary form of a matrix value
    that fits the array of the receiver. *)
Lemma UnmarshalBinary_spec st m v arr :
  wfm v → Forall storable (md v) → mr v * mc v * 8 + 16 < 2 ^ 63 →
  heap st !! ptr (Data m) = Some arr → length arr = cap (Data m) →
  (Z.to_nat (mr v * mc v) ≤ cap (Data m))%nat →
  UnmarshalBinary (Reset m) (encode v) st
  = Ok (MkDense (mr v) (mc v) (mr v) (mc v)
          (Slice (ptr (Data m)) (Z.to_nat (mr v * mc v)) (cap (Data m))), None)
       (poke st (ptr (Data m)) (md v ++ drop (length (md v)) arr)).
Proof.
  intros (Hr & Hc & Hlen) Hst Hfit E Harr Hcap.
  assert (Hrb : 0 ≤ mr v < 2 ^ 63) by nia.
  assert (Hcb : 0 ≤ mc v < 2 ^ 63) by nia.
  unfold UnmarshalBinary. change sizeFloat64 with 8. change sizeInt64 with 8.
  change (isZero (Reset m)) with (bool_decide (0 = 0)).
  rewrite bool_decide_eq_true_2 by done. cbn [negb].
  rewrite length_encode. rewrite decide_False by lia.
  assert (E1 : Uint64 (encode v) = mr v).
  { unfold encode. rewrite Uint64_put; [apply to_uint64_small; lia|].
    apply Z.mod_pos_bound. lia. }
  assert (E2 : Uint64 (drop 8 (encode v)) = mc v).
  { unfold encode. rewrite (drop_app_length' _ _ 8 (eq_sym (length_PutUint64 _))).
    rewrite Uint64_put; [apply to_uint64_small; lia|]. apply Z.mod_pos_bound. lia. }
  rewrite E1, E2, !wrap64_small by nia.
  rewrite decide_False by lia.
  rewrite decide_False by (unfold maxLen; nia).
  rewrite decide_False by lia.
  unfold bind at 1. unfold reuseAs. cbn [Reset Rows Cols capRows capCols Data].
  rewrite decide_False by lia.
  change (isZero _) with (bool_decide (0 = 0)). rewrite bool_decide_eq_true_2 by done.
  unfold bind at 1. unfold use. cbn [cap ptr].
  rewrite decide_False by nia. rewrite decide_True by lia.
  unfold ret at 1. unfold ret at 1. cbn [Data len].
  assert (E3 : get_floats (Z.to_nat (mr v * mc v)) (drop 16 (encode v)) = md v).
  { unfold encode. rewrite app_assoc.
    rewrite (drop_app_length' _ _ 16) by (rewrite length_app, !length_PutUint64; done).
    rewrite <- Hlen. rewrite <- (app_nil_r (put_floats _)). by apply get_put_floats. }
  rewrite E3.
  pose proof (store_eq st (MkDense (mr v) (mc v) (mr v) (mc v)
                (Slice (ptr (Data m)) (Z.to_nat (mr v * mc v)) (cap (Data m))))
                (Mat (mr v) (mc v) (md v)) arr E) as Hs.
  unfold store in Hs. cbn [Data len md ptr] in Hs.
  unfold bind. rewrite Hs by lia. done.
Qed.

End FileFacts.

(** ** Running the two methods *)

Section Persistence.
Context {F : Type} `{Float64 F} `{Float64Bits F}.
Implicit Types (st : State F) (m : Dense) (v : matrix F) (w : @World F).

(** [iospec w m Q]: run from [w], [m] returns, and the result and the
    world it leaves satisfy [Q]. *)
Definition iospec {A} w (m : IO A) (Q : A → @World F → Prop) : Prop :=
  match m w with Done a w' => Q a w' | _ => False end.

Lemma iospec_ret {A} w (a : A) Q : Q a w → iospec w (io_ret a) Q.
Proof. done. Qed.

Lemma iospec_bind {A B} w (m : IO A) (f : A → IO B) Q :
  iospec w m (λ a w', iospec w' (f a) Q) → iospec w (io_bind m f) Q.
Proof. unfold iospec, io_bind. by destruct (m w). Qed.

Lemma iospec_step {A B} w (m : IO A) (f : A → IO B) a w' Q :
  m w = Done a w' → iospec w' (f a) Q → iospec w (io_bind m f) Q.
Proof. unfold iospec, io_bind. by intros ->. Qed.

Lemma iospec_eq {A} w (m : IO A) a w' (Q : A → @World F → Prop) :
  m w = Done a w' → Q a w' → iospec w m Q.
Proof. unfold iospec. by intros ->. Qed.

Lemma iospec_mono {A} w (m : IO A) (P Q : A → @World F → Prop) :
  iospec w m P → (∀ a w', P a w' → Q a w') → iospec w m Q.
Proof. unfold iospec. destruct (m w); auto. Qed.

Lemma iospec_inv {A} w (m : IO A) Q :
  iospec w m Q → ∃ a w', m w = Done a w' ∧ Q a w'.
Proof. unfold iospec. destruct (m w); [eauto|done..]. Qed.

Lemma iospec_for_loop {A} (I : nat → A → @World F → Prop) n i
    (body : Z → A → IO A) a w :
  I i a w →
  (∀ j x w', (i ≤ j < i + n)%nat → I j x w' →
     iospec w' (body (Z.of_nat j) x) (I (S j))) →
  iospec w (io_for_loop n (Z.of_nat i) body a) (I (i + n)%nat).
Proof.
  revert i a w. induction n as [|n IH]; intros i a w Hi Hbody.
  - simpl. apply iospec_ret. by rewrite Nat.add_0_r.
  - cbn [io_for_loop]. apply iospec_bind.
    eapply iospec_mono; [apply Hbody; [lia|done]|].
    intros a' w' Ha'.
    replace (i + S n)%nat with (S i + n)%nat by lia.
    replace (Z.of_nat i + 1) with (Z.of_nat (S i)) by lia.
    apply IH; [done|]. intros j x w'' Hj. apply Hbody. lia.
Qed.

Lemma lift_eq {A} (m : M F A) w a st :
  m (mem w) = Ok a st → lift m w = Done a (MkWorld st (files w)).
Proof. unfold lift. by intros ->. Qed.

(** The bytes a writer finds at a path: a missing file is created empty. *)
Definition content (nd : option node) : option (list Z) :=
  match nd with
  | None => Some []
  | Some (File bs) => Some bs
  | Some (NoOpen _) => None
  end.

(** Layer sizes whose matrices have binary forms of less than 2^63 bytes. *)
Definition small (sizes : list Z) : Prop := Forall (λ z, z < 2 ^ 29) sizes.

Lemma small_fits sizes k a b :
  small sizes → sizes !! k = Some a → sizes !! S k = Some b → 0 < a → 0 < b →
  a * b * 8 + 16 < 2 ^ 63 ∧ 1 * b * 8 + 16 < 2 ^ 63.
Proof.
  intros Hs Ha Hb Ha0 Hb0.
  pose proof (proj1 (Forall_lookup _ _) Hs _ _ Ha) as Ha1.
  pose proof (proj1 (Forall_lookup _ _) Hs _ _ Hb) as Hb1.
  cbn beta in Ha1, Hb1.
  assert (a * b ≤ 2 ^ 29 * 2 ^ 29) by nia. lia.
Qed.

Lemma Dump_run n sizes Ws Bs w name old :
  wf_net n (heap (mem w)) sizes Ws Bs → small sizes →
  content (files w name) = Some old →
  ∃ w', DumpWeightsBiases n name w = Done tt w' ∧ mem w' = mem w ∧
        files w' name = Some (File (old ++ dump_bytes Ws Bs)) ∧
        ∀ k, k ≠ name → files w' k = files w k.
Proof.
  intros Hwf Hsmall Hold.
  pose proof (Forall2_length _ _ _ (wf_W _ _ _ _ _ Hwf)) as HlW.
  pose proof (wf_lenW _ _ _ _ _ Hwf) as HlWs.
  pose proof (wf_lenB _ _ _ _ _ Hwf) as HlBs.
  set (Inv := λ (i : nat) (_ : unit) (w' : @World F),
        mem w' = mem w ∧
        files w' name = Some (File (old ++ dump_bytes (take i Ws) (take i Bs))) ∧
        ∀ k, k ≠ name → files w' k = files w k).
  assert (Hopen : ∃ w0, OpenFile name true w = Done None w0 ∧ Inv O tt w0).
  { unfold OpenFile, Inv. destruct (files w name) as [[bs|err]|] eqn:E;
      simpl in Hold; simplify_eq.
    - exists w. rewrite take_0. simpl. by rewrite app_nil_r.
    - eexists. split; [done|]. cbn [mem files]. unfold set_file.
      rewrite decide_True by done. split_and!; [done|done|].
      intros k Hk. by rewrite decide_False. }
  destruct Hopen as (w0 & Eopen & HInv0).
  assert (Hloop : iospec w0 (io_for_range (Weights n) (λ i _,
      io_bind (lift (index (Weights n) i)) (λ wi,
      io_bind (lift (MarshalBinary wi)) (λ r,
        match r with
        | inr e => exit e
        | inl data =>
            io_bind (file_Write name data) (λ _,
            io_bind (lift (index (Biases n) i)) (λ bi,
            io_bind (lift (MarshalBinary bi)) (λ r,
              match r with
              | inr e => exit e
              | inl data => file_Write name data
              end)))
        end))) tt) (Inv (0 + length (Weights n))%nat)).
  { unfold io_for_range. apply (iospec_for_loop Inv _ O); [done|].
    intros j [] w1 Hj (Hmem & Hfile & Hother).
    destruct (wf_net_W _ _ _ _ _ j Hwf) as (wi & W & Ewi & EW & _ & HhW & HsW1 & HsW2);
      [lia|].
    destruct (wf_net_B _ _ _ _ _ j Hwf) as (bi & B & Ebi & EB & _ & HhB & HrB & HsB);
      [lia|].
    pose proof HhW as [(HW1 & HW2 & _) _]. pose proof HhB as [(HB1 & HB2 & _) _].
    destruct (holds_dims _ _ _ HhW) as [HRW HCW].
    destruct (holds_dims _ _ _ HhB) as [HRB HCB].
    destruct (small_fits _ _ _ _ Hsmall HsW1 HsW2) as [HfW HfB]; [lia..|].
    eapply iospec_step.
    { apply lift_eq, index_eq; [lia|]. by rewrite Nat2Z.id. }
    eapply iospec_step.
    { apply lift_eq. cbn [mem]. rewrite Hmem. by apply MarshalBinary_spec. }
    eapply iospec_step.
    { unfold file_Write. cbn [files]. by rewrite Hfile. }
    eapply iospec_step.
    { apply lift_eq, index_eq; [lia|]. by rewrite Nat2Z.id. }
    eapply iospec_step.
    { apply lift_eq. cbn [mem]. rewrite ?Hmem.
      apply MarshalBinary_spec; [done|]. rewrite HrB.
      assert (mc B = mc W) as -> by congruence. lia. }
    eapply iospec_eq.
    { unfold file_Write. cbn [files]. unfold set_file at 1.
      by rewrite decide_True by done. }
    unfold Inv. cbn [mem files]. split_and!; [done| |].
    - unfold set_file. rewrite decide_True by done.
      rewrite (take_S_r _ _ _ EW), (take_S_r _ _ _ EB).
      rewrite dump_bytes_snoc by (rewrite !length_take; lia).
      by rewrite <- !app_assoc.
    - intros k Hk. unfold set_file. rewrite !decide_False by done. by apply Hother. }
  destruct (iospec_inv _ _ _ Hloop) as ([] & w' & E & Hmem & Hfile & Hother).
  exists w'. split_and!; try done.
  - unfold DumpWeightsBiases, io_bind at 1. by rewrite Eopen.
  - rewrite Hfile. simpl. rewrite HlW.
    rewrite !firstn_all2 by lia. done.
Qed.

(** A header whose capacities are its dimensions, as [NewDense] makes it. *)
Definition compact (m : Dense) : Prop := capRows m = Rows m ∧ capCols m = Cols m.

Lemma compact_reread m : compact (reread m).
Proof. done. Qed.

(** Reading one matrix whose binary form is next in the file. *)
Lemma read_dense_spec w name bs pos m v0 v rest :
  files w name = Some (File bs) → drop pos bs = encode v ++ rest →
  holds (heap (mem w)) m v0 → compact m → mr v = mr v0 → mc v = mc v0 →
  wfm v → Forall storable (md v) → mr v * mc v * 8 + 16 < 2 ^ 63 →
  ∃ st', read_dense name m pos w
         = Done (reread m, (pos + length (encode v))%nat) (MkWorld st' (files w)) ∧
         keeps (ptr (Data m)) (mem w) st' ∧
         length (heap st') = length (heap (mem w)) ∧
         holds (heap st') (reread m) v.
Proof.
  intros Hfile Hdrop Hm [HcR HcC] Hr Hc Hwfm Hst Hfit.
  destruct (holds_dims _ _ _ Hm) as [HR HC].
  pose proof Hm as [(_ & _ & _ & _ & Hcells & arr & Earr & Hlen) _].
  pose proof Hwfm as (Hr0 & Hc0 & Hmd).
  assert (Hcell : cells m = Z.to_nat (mr v * mc v)) by (unfold cells; congruence).
  set (arr' := md v ++ drop (length (md v)) arr).
  assert (Hlen' : length arr' = length arr).
  { unfold arr'. rewrite length_app, length_drop. lia. }
  exists (poke (mem w) (ptr (Data m)) arr'). split_and!.
  - unfold read_dense, Caps. change sizeFloat64 with 8. change sizeInt64 with 8.
    rewrite HcR, HcC, HR, HC, <- Hr, <- Hc.
    rewrite wrap64_small by nia. rewrite decide_False by nia.
    unfold io_bind at 1. unfold file_Read. rewrite Hfile, Hdrop.
    assert (Hsz : Z.to_nat (mr v * mc v * 8 + 2 * 8) = length (encode v)).
    { rewrite length_encode, Hmd. lia. }
    rewrite Hsz, take_app_length, Nat.sub_diag. cbn [replicate].
    rewrite app_nil_r.
    unfold io_bind at 1.
    erewrite lift_eq;
      [|apply (UnmarshalBinary_spec _ m v arr); try done; cbn [mem]; lia].
    unfold io_ret. cbn [files]. f_equal. f_equal. unfold reread.
    by rewrite HR, HC, Hcell, <- Hr, <- Hc.
  - by apply (keeps_poke _ _ arr).
  - unfold poke. cbn [heap]. by rewrite length_insert.
  - assert (Hh : holds (heap (poke (mem w) (ptr (Data (reread m))) arr')) (reread m) v).
    { apply (holds_poke _ (reread m) v arr); try done; cbn [reread Rows Cols capRows
        capCols Data len cap ptr]; try lia; try congruence.
      unfold cells. cbn [reread Rows Cols]. unfold cells in Hcells. lia. }
    exact Hh.
Qed.

(** The first [i] elements of a list replaced. *)
Definition mixed {A} (f : A → A) (i : nat) (l : list A) : list A :=
  map f (take i l) ++ drop i l.
Definition mixv {A} (i : nat) (new old : list A) : list A :=
  take i new ++ drop i old.

Lemma length_mixed {A} (f : A → A) i (l : list A) : length (mixed f i l) = length l.
Proof.
  unfold mixed. rewrite length_app, length_map, length_take, length_drop. lia.
Qed.

Lemma mixed_lookup {A} (f : A → A) i (l : list A) k x :
  mixed f i l !! k = Some x → ∃ y, l !! k = Some y ∧ (x = y ∨ x = f y).
Proof.
  unfold mixed. intros E. apply lookup_app_Some in E as [E|[Hk E]].
  - rewrite list_lookup_fmap in E. destruct (take i l !! k) as [y|] eqn:Ey; [|done].
    simpl in E. simplify_eq. apply lookup_take_Some in Ey as [Ey _]. eauto.
  - rewrite lookup_drop in E. rewrite length_map, length_take in Hk, E.
    destruct (decide (i ≤ length l)%nat).
    + replace (i + (k - i `min` length l))%nat with k in E by lia. eauto.
    + apply lookup_lt_Some in E. lia.
Qed.

Lemma mixed_lookup_at {A} (f : A → A) i (l : list A) :
  mixed f i l !! i = l !! i.
Proof.
  unfold mixed. destruct (decide (i ≤ length l)%nat).
  - rewrite lookup_app_r by (rewrite length_map, length_take; lia).
    rewrite length_map, length_take, lookup_drop. f_equal. lia.
  - rewrite drop_ge, app_nil_r by lia. rewrite (lookup_ge_None_2 l) by lia.
    apply lookup_ge_None_2. rewrite length_map, length_take. lia.
Qed.

Lemma mixed_insert {A} (f : A → A) i (l : list A) y :
  l !! i = Some y → <[i := f y]> (mixed f i l) = mixed f (S i) l.
Proof.
  intros E. apply lookup_lt_Some in E as Hi. unfold mixed.
  rewrite insert_app_r_alt by (rewrite length_map, length_take; lia).
  rewrite length_map, length_take, Nat.min_l, Nat.sub_diag by lia.
  rewrite (drop_S _ _ _ E), (take_S_r _ _ _ E), map_app. cbn [map list_insert].
  by rewrite <- app_assoc.
Qed.

Lemma mixv_insert {A} i (new old : list A) x :
  new !! i = Some x → (i < length old)%nat →
  <[i := x]> (mixv i new old) = mixv (S i) new old.
Proof.
  intros E Hold. apply lookup_lt_Some in E as Hi. unfold mixv.
  destruct (lookup_lt_is_Some_2 old i Hold) as [y Ey].
  rewrite insert_app_r_alt by (rewrite length_take; lia).
  rewrite length_take, Nat.min_l, Nat.sub_diag by lia.
  rewrite (drop_S _ _ _ Ey), (take_S_r _ _ _ E). cbn [list_insert].
  by rewrite <- app_assoc.
Qed.

Lemma mixv_lookup_at {A} i (new old : list A) :
  (i ≤ length new)%nat → mixv i new old !! i = old !! i.
Proof.
  intros Hi. unfold mixv.
  rewrite lookup_app_r by (rewrite length_take; lia).
  rewrite length_take, lookup_drop. f_equal. lia.
Qed.

Lemma ptr_reread m : ptr (Data (reread m)) = ptr (Data m).
Proof. done. Qed.

(** Writing the array of one header of a list whose arrays are apart. *)
Lemma holds_update st st' p (ms : list Dense) (vs : list (matrix F)) i m' v' :
  keeps p st st' → Forall2 (holds (heap st)) ms vs →
  (∀ k m, ms !! k = Some m → k ≠ i → ptr (Data m) ≠ p) →
  holds (heap st') m' v' →
  Forall2 (holds (heap st')) (<[i := m']> ms) (<[i := v']> vs).
Proof.
  intros K Hall Hap Hnew. apply Forall2_same_length_lookup.
  apply Forall2_same_length_lookup in Hall as [Hlen Hall].
  split; [by rewrite !length_insert|].
  intros k m v Em Ev. destruct (decide (k = i)) as [->|Hne].
  - apply lookup_lt_Some in Em as Hi. rewrite length_insert in Hi.
    rewrite list_lookup_insert_eq in Em by done.
    rewrite list_lookup_insert_eq in Ev by lia. by simplify_eq.
  - rewrite list_lookup_insert_ne in Em by done.
    rewrite list_lookup_insert_ne in Ev by done.
    eapply holds_keeps; [done|by eapply Hall|by eapply Hap].
Qed.

Lemma holds_others st st' p (ms : list Dense) (vs : list (matrix F)) :
  keeps p st st' → Forall2 (holds (heap st)) ms vs →
  (∀ k m, ms !! k = Some m → ptr (Data m) ≠ p) →
  Forall2 (holds (heap st')) ms vs.
Proof.
  intros K Hall Hap. apply Forall2_same_length_lookup.
  apply Forall2_same_length_lookup in Hall as [Hlen Hall].
  split; [done|]. intros k m v Em Ev.
  eapply holds_keeps; [done|by eapply Hall|by eapply Hap].
Qed.

End Persistence.

Section Reading.
Context {F : Type} `{Float64 F} `{Float64Bits F}.
Implicit Types (st : State F) (m : Dense) (v : matrix F) (w : @World F).

(** The network after its parameters were read. *)
Definition reread_net (n : Network F) : Network F :=
  MkNetwork (NumLayers n) (Sizes n) (map reread (Weights n)) (map reread (Biases n))
    (TestFunc n).

(** Parameter values of a network of the given layer sizes, of storable
    floats: what a dump of such a network holds. *)
Definition dumped (sizes : list Z) (Ws Bs : list (matrix F)) : Prop :=
  length Ws = (length sizes - 1)%nat ∧ length Bs = (length sizes - 1)%nat ∧
  (∀ k W, Ws !! k = Some W →
     wfm W ∧ sizes !! k = Some (mr W) ∧ sizes !! S k = Some (mc W) ∧
     Forall storable (md W)) ∧
  (∀ k B, Bs !! k = Some B →
     wfm B ∧ mr B = 1 ∧ sizes !! S k = Some (mc B) ∧ Forall storable (md B)).

Lemma keeps_lookup p st st' q :
  keeps p st st' → length (heap st') = length (heap st) → q ≠ p →
  heap st' !! q = heap st !! q.
Proof.
  intros (_ & _ & _ & Hq & _) Hlen Hne.
  destruct (decide (q < length (heap st))%nat); [by apply Hq|].
  rewrite !lookup_ge_None_2 by lia. done.
Qed.

Lemma mixed_ptr (l : list Dense) i k m :
  mixed reread i l !! k = Some m →
  ∃ y, l !! k = Some y ∧ ptr (Data m) = ptr (Data y).
Proof.
  intros E. destruct (mixed_lookup _ _ _ _ _ E) as (y & Ey & [->| ->]); eauto.
Qed.

Lemma Read_run (n : Network F) sizes Ws0 Bs0 Ws Bs w name rest :
  wf_net n (heap (mem w)) sizes Ws0 Bs0 → params_apart n →
  Forall compact (Weights n ++ Biases n) →
  small sizes → dumped sizes Ws Bs →
  files w name = Some (File (dump_bytes Ws Bs ++ rest)) →
  ∃ st', ReadWeightsBiases n name w = Done (reread_net n) (MkWorld st' (files w)) ∧
         wf_net (reread_net n) (heap st') sizes Ws Bs ∧
         rnd st' = rnd (mem w) ∧ out st' = out (mem w) ∧
         length (heap st') = length (heap (mem w)) ∧
         ∀ q, ¬ param_array n q → heap st' !! q = heap (mem w) !! q.
Proof.
  intros Hwf Hap Hcomp Hsmall (HlWs & HlBs & HdW & HdB) Hfile.
  pose proof (Forall2_length _ _ _ (wf_W _ _ _ _ _ Hwf)) as HlW.
  pose proof (Forall2_length _ _ _ (wf_B _ _ _ _ _ Hwf)) as HlB.
  pose proof (wf_lenW _ _ _ _ _ Hwf) as HlWs0.
  pose proof (wf_lenB _ _ _ _ _ Hwf) as HlBs0.
  set (bytes := dump_bytes Ws Bs ++ rest) in *.
  set (Inv := λ (i : nat) (s : list Dense * list Dense * nat) (w' : @World F),
        let '(ws, bs, pos) := s in
        files w' = files w ∧
        ws = mixed reread i (Weights n) ∧ bs = mixed reread i (Biases n) ∧
        drop pos bytes = dump_bytes (drop i Ws) (drop i Bs) ++ rest ∧
        Forall2 (holds (heap (mem w'))) ws (mixv i Ws Ws0) ∧
        Forall2 (holds (heap (mem w'))) bs (mixv i Bs Bs0) ∧
        rnd (mem w') = rnd (mem w) ∧ out (mem w') = out (mem w) ∧
        length (heap (mem w')) = length (heap (mem w)) ∧
        ∀ q, ¬ param_array n q → heap (mem w') !! q = heap (mem w) !! q).
  assert (Hopen : OpenFile name false w = Done None w)
    by (unfold OpenFile; by rewrite Hfile).
  assert (Hmain : iospec w (ReadWeightsBiases n name) (λ n' w',
            n' = reread_net n ∧ files w' = files w ∧
            Forall2 (holds (heap (mem w'))) (map reread (Weights n)) Ws ∧
            Forall2 (holds (heap (mem w'))) (map reread (Biases n)) Bs ∧
            rnd (mem w') = rnd (mem w) ∧ out (mem w') = out (mem w) ∧
            length (heap (mem w')) = length (heap (mem w)) ∧
            ∀ q, ¬ param_array n q → heap (mem w') !! q = heap (mem w) !! q)).
  { unfold ReadWeightsBiases. eapply iospec_step; [exact Hopen|]. cbn beta iota.
    apply iospec_bind. eapply iospec_mono.
    { unfold io_for_range. apply (iospec_for_loop Inv _ O).
      - unfold Inv, mixed, mixv. rewrite !take_0, !drop_0. cbn [map app].
        split_and!; try done; [apply (wf_W _ _ _ _ _ Hwf)|apply (wf_B _ _ _ _ _ Hwf)].
      - intros j [[ws bs] pos] [s1 fs1] Hj HInv. unfold Inv in HInv.
        cbn [mem files] in HInv.
        destruct HInv as (Hfiles & -> & -> & Hdrop & HfW & HfB & Hrnd & Hout & Hlen
                          & Hframe).
        destruct (lookup_lt_is_Some_2 (Weights n) j) as [wi0 Ewi]; [lia|].
        destruct (lookup_lt_is_Some_2 (Biases n) j) as [bi0 Ebi]; [lia|].
        destruct (lookup_lt_is_Some_2 Ws j) as [W EW]; [lia|].
        destruct (lookup_lt_is_Some_2 Bs j) as [B EB]; [lia|].
        destruct (lookup_lt_is_Some_2 Ws0 j) as [W0 EW0]; [lia|].
        destruct (lookup_lt_is_Some_2 Bs0 j) as [B0 EB0]; [lia|].
        destruct (HdW _ _ EW) as (HwfW & HsW1 & HsW2 & HstW).
        destruct (HdB _ _ EB) as (HwfB & HrB & HsB & HstB).
        destruct (wf_shapeW _ _ _ _ _ Hwf _ _ EW0) as [HsW01 HsW02].
        destruct (wf_shapeB _ _ _ _ _ Hwf _ _ EB0) as [HrB0 HsB0].
        pose proof HwfW as (HW1 & HW2 & _). pose proof HwfB as (HB1 & HB2 & _).
        destruct (small_fits _ _ _ _ Hsmall HsW1 HsW2) as [HfitW HfitB]; [lia..|].
        assert (mc B = mc W) as HBW by congruence.
        assert (Hcw : compact wi0).
        { apply (proj1 (Forall_lookup _ _) Hcomp j). by apply lookup_app_l_Some. }
        assert (Hcb : compact bi0).
        { apply (proj1 (Forall_lookup _ _) Hcomp (length (Weights n) + j)%nat).
          rewrite lookup_app_r by lia. rewrite <- Ebi. f_equal. lia. }
        assert (Hpw : param_array n (ptr (Data wi0))).
        { exists wi0. split; [|done]. apply elem_of_app. left.
          by eapply list_elem_of_lookup_2. }
        assert (Hpb : param_array n (ptr (Data bi0))).
        { exists bi0. split; [|done]. apply elem_of_app. right.
          by eapply list_elem_of_lookup_2. }
        (* the weight matrix *)
        assert (HhW0 : holds (heap s1) wi0 W0).
        { apply (proj2 (proj1 (Forall2_same_length_lookup _ _ _) HfW) j).
          - by rewrite mixed_lookup_at.
          - by rewrite mixv_lookup_at by lia. }
        assert (Hd1 : drop pos bytes
                      = encode W ++ (encode B ++ dump_bytes (drop (S j) Ws) (drop (S j) Bs)
                                     ++ rest)).
        { rewrite Hdrop, (drop_S _ _ _ EW), (drop_S _ _ _ EB). cbn [dump_bytes].
          by rewrite <- !app_assoc. }
        destruct (read_dense_spec (MkWorld s1 fs1) name bytes pos wi0 W0 W _
                    ltac:(cbn [files]; by rewrite Hfiles) Hd1 HhW0 Hcw)
          as (st2 & E2 & K2 & Hlen2 & Hh2); [congruence|congruence|done|done|lia|].
        cbn [mem files] in E2, K2, Hlen2.
        (* the bias matrix *)
        assert (HhB0 : holds (heap st2) bi0 B0).
        { eapply holds_keeps; [exact K2| |].
          - apply (proj2 (proj1 (Forall2_same_length_lookup _ _ _) HfB) j).
            + by rewrite mixed_lookup_at.
            + by rewrite mixv_lookup_at by lia.
          - intros Heq. by apply (apart_WB n j j wi0 bi0 Hap Ewi Ebi). }
        assert (Hd2 : drop (pos + length (encode W)) bytes
                      = encode B ++ (dump_bytes (drop (S j) Ws) (drop (S j) Bs) ++ rest)).
        { rewrite <- drop_drop, Hd1. by rewrite drop_app_length. }
        destruct (read_dense_spec (MkWorld st2 fs1) name bytes
                    (pos + length (encode W)) bi0 B0 B _
                    ltac:(cbn [files]; by rewrite Hfiles) Hd2 HhB0 Hcb)
          as (st3 & E3 & K3 & Hlen3 & Hh3);
          [congruence|congruence|done|done|rewrite HrB; lia|].
        cbn [mem files] in E3, K3, Hlen3.
        eapply iospec_step.
        { apply lift_eq, index_eq; [lia|]. by rewrite Nat2Z.id, mixed_lookup_at. }
        eapply iospec_step; [exact E2|]. cbn beta iota.
        eapply iospec_step.
        { apply lift_eq, assign_eq. rewrite length_mixed. lia. }
        eapply iospec_step.
        { apply lift_eq, index_eq; [lia|]. by rewrite Nat2Z.id, mixed_lookup_at. }
        eapply iospec_step; [exact E3|]. cbn beta iota.
        eapply iospec_step.
        { apply lift_eq, assign_eq. rewrite length_mixed. lia. }
        apply iospec_ret. unfold Inv. cbn [mem files].
        rewrite !Nat2Z.id, (mixed_insert _ _ _ _ Ewi), (mixed_insert _ _ _ _ Ebi).
        split_and!; try done.
        + rewrite <- drop_drop, Hd2. by rewrite drop_app_length.
        + rewrite <- (mixed_insert _ _ _ _ Ewi), <- (mixv_insert _ _ _ _ EW) by lia.
          eapply (holds_others st2 st3 (ptr (Data bi0))); [done| |].
          * eapply (holds_update s1 st2 (ptr (Data wi0))); try done.
            intros k m Em Hk Heq.
            destruct (mixed_ptr _ _ _ _ Em) as (y & Ey & Hy).
            apply (apart_WW n k j y wi0 Hap Ey Ewi Hk). congruence.
          * intros k m Em Heq.
            rewrite (mixed_insert _ _ _ _ Ewi) in Em.
            destruct (mixed_ptr _ _ _ _ Em) as (y & Ey & Hy).
            apply (apart_WB n k j y bi0 Hap Ey Ebi). congruence.
        + rewrite <- (mixed_insert _ _ _ _ Ebi), <- (mixv_insert _ _ _ _ EB) by lia.
          eapply (holds_update st2 st3 (ptr (Data bi0))); try done.
          * eapply (holds_others s1 st2 (ptr (Data wi0))); [done|done|].
            intros k m Em Heq.
            destruct (mixed_ptr _ _ _ _ Em) as (y & Ey & Hy).
            apply (apart_WB n j k wi0 y Hap Ewi Ey). congruence.
          * intros k m Em Hk Heq.
            destruct (mixed_ptr _ _ _ _ Em) as (y & Ey & Hy).
            apply (apart_BB n k j y bi0 Hap Ey Ebi Hk). congruence.
        + destruct K2 as (? & _), K3 as (? & _). congruence.
        + destruct K2 as (_ & ? & _), K3 as (_ & ? & _). congruence.
        + lia.
        + intros q Hq.
          rewrite (keeps_lookup _ _ _ q K3 Hlen3) by (by intros ->).
          rewrite (keeps_lookup _ _ _ q K2 Hlen2) by (by intros ->).
          by apply Hframe. }
    intros [[ws bs] pos] w' HInv. unfold Inv in HInv. cbn [Nat.add] in HInv.
    destruct HInv as (Hfiles & -> & -> & _ & HfW & HfB & Hrest).
    unfold mixed, mixv in HfW, HfB.
    rewrite !firstn_all2, !drop_ge, !app_nil_r in HfW, HfB by lia.
    destruct Hrest as (? & ? & ? & ?).
    apply iospec_ret. split_and!; try done.
    unfold reread_net, mixed. by rewrite !firstn_all2, !drop_ge, !app_nil_r by lia. }
  destruct (iospec_inv _ _ _ Hmain)
    as (n' & w' & E & -> & Hfiles & HfW & HfB & Hrnd & Hout & Hlen & Hframe).
  exists (mem w'). split_and!; try done.
  - rewrite E. f_equal. destruct w' as [st' fs']. cbn [files mem] in *. by subst.
  - split; try done.
    + apply (wf_layers _ _ _ _ _ Hwf).
    + apply (wf_two _ _ _ _ _ Hwf).
    + intros k W EW. by destruct (HdW _ _ EW) as (_ & ? & ? & _).
    + intros k B EB. by destruct (HdB _ _ EB) as (_ & ? & ? & _).
Qed.

(** The parameters a well-formed network holds, when its floats are
    storable, are what a dump holds. *)
Lemma wf_net_dumped (n : Network F) h sizes Ws Bs :
  wf_net n h sizes Ws Bs → Forall (λ v, Forall storable (md v)) (Ws ++ Bs) →
  dumped sizes Ws Bs.
Proof.
  intros Hwf Hst. apply Forall_app in Hst as [HstW HstB].
  split_and!; [apply (wf_lenW _ _ _ _ _ Hwf)|apply (wf_lenB _ _ _ _ _ Hwf)| |].
  - intros k W EW.
    destruct (Forall2_lookup_r _ _ _ _ _ (wf_W _ _ _ _ _ Hwf) EW) as (m & _ & [Hv <-]).
    destruct (wf_shapeW _ _ _ _ _ Hwf _ _ EW). split_and!; try done.
    + by apply value_wfm.
    + by apply (proj1 (Forall_lookup _ _) HstW k).
  - intros k B EB.
    destruct (Forall2_lookup_r _ _ _ _ _ (wf_B _ _ _ _ _ Hwf) EB) as (m & _ & [Hv <-]).
    destruct (wf_shapeB _ _ _ _ _ Hwf _ _ EB). split_and!; try done.
    + by apply value_wfm.
    + by apply (proj1 (Forall_lookup _ _) HstB k).
Qed.

Lemma get_le_zeros k : get_le (replicate k 0) = 0.
Proof. induction k as [|k IH]; [done|]. cbn [replicate get_le]. lia. Qed.

Lemma Uint64_zeros k : Uint64 (replicate k 0) = 0.
Proof. unfold Uint64. rewrite take_replicate. apply get_le_zeros. Qed.

(** Reading one matrix at the end of the file: the buffer stays zero,
    [UnmarshalBinary] refuses it, and the matrix stays reset. *)
Lemma read_dense_end w name bs pos m :
  files w name = Some (File bs) → (length bs ≤ pos)%nat → compact m →
  0 < Rows m → 0 < Cols m → Rows m * Cols m * 8 + 16 < 2 ^ 63 →
  read_dense name m pos w = Done (Reset m, pos) (MkWorld (mem w) (files w)).
Proof.
  intros Hfile Hpos [HcR HcC] Hr Hc Hfit.
  unfold read_dense, Caps. change sizeFloat64 with 8. change sizeInt64 with 8.
  rewrite HcR, HcC, wrap64_small by nia. rewrite decide_False by nia.
  unfold io_bind at 1. unfold file_Read. rewrite Hfile.
  rewrite drop_ge by done. rewrite take_nil. cbn [length app].
  rewrite Nat.sub_0_r, Nat.add_0_r.
  unfold io_bind. unfold lift, UnmarshalBinary.
  change sizeFloat64 with 8. change sizeInt64 with 8.
  change (isZero (Reset m)) with (bool_decide (0 = 0)).
  rewrite bool_decide_eq_true_2 by done. cbn [negb].
  rewrite length_replicate. rewrite decide_False by nia.
  rewrite drop_replicate, !Uint64_zeros.
  change (wrap64 0) with 0. rewrite decide_False by lia.
  change (wrap64 (0 * 0)) with 0. rewrite decide_False by (unfold maxLen; lia).
  change (wrap64 (0 * 8 + 2 * 8)) with 16. rewrite decide_True by nia.
  done.
Qed.

(** The network after reading at the end of a file. *)
Definition reset_net (n : Network F) : Network F :=
  MkNetwork (NumLayers n) (Sizes n) (map Reset (Weights n)) (map Reset (Biases n))
    (TestFunc n).

Lemma Read_end_run (n : Network F) sizes Ws Bs w name :
  wf_net n (heap (mem w)) sizes Ws Bs → small sizes →
  Forall compact (Weights n ++ Biases n) →
  files w name = Some (File []) →
  ReadWeightsBiases n name w = Done (reset_net n) (MkWorld (mem w) (files w)).
Proof.
  intros Hwf Hsmall Hcomp Hfile. destruct w as [st fs]. cbn [mem files] in *.
  set (w := MkWorld st fs).
  pose proof (Forall2_length _ _ _ (wf_W _ _ _ _ _ Hwf)) as HlW.
  pose proof (Forall2_length _ _ _ (wf_B _ _ _ _ _ Hwf)) as HlB.
  pose proof (wf_lenW _ _ _ _ _ Hwf) as HlWs.
  pose proof (wf_lenB _ _ _ _ _ Hwf) as HlBs.
  set (Inv := λ (i : nat) (s : list Dense * list Dense * nat) (w' : @World F),
        s = (mixed Reset i (Weights n), mixed Reset i (Biases n), O) ∧
        w' = MkWorld (mem w) (files w)).
  assert (Hopen : OpenFile name false w = Done None w)
    by (unfold OpenFile, w; cbn [files]; by rewrite Hfile).
  assert (Hmain : iospec w (ReadWeightsBiases n name) (λ n' w',
            n' = reset_net n ∧ w' = MkWorld (mem w) (files w))).
  { unfold ReadWeightsBiases. eapply iospec_step; [exact Hopen|]. cbn beta iota.
    apply iospec_bind. eapply iospec_mono.
    { unfold io_for_range. apply (iospec_for_loop Inv _ O).
      - unfold Inv, mixed. by rewrite !take_0, !drop_0.
      - intros j s w1 Hj [-> ->].
        destruct (wf_net_W _ _ _ _ _ j Hwf) as (wi & W & Ewi & EW & _ & HhW & HsW1 & HsW2);
          [lia|].
        destruct (wf_net_B _ _ _ _ _ j Hwf) as (bi & B & Ebi & EB & _ & HhB & HrB & HsB);
          [lia|].
        pose proof HhW as [(HW1 & HW2 & _) _]. pose proof HhB as [(HB1 & HB2 & _) _].
        destruct (holds_dims _ _ _ HhW) as [HRW HCW].
        destruct (holds_dims _ _ _ HhB) as [HRB HCB].
        destruct (small_fits _ _ _ _ Hsmall HsW1 HsW2) as [HfW HfB]; [lia..|].
        assert (mc B = mc W) as HBW by congruence.
        assert (Hcw : compact wi).
        { apply (proj1 (Forall_lookup _ _) Hcomp j). by apply lookup_app_l_Some. }
        assert (Hcb : compact bi).
        { apply (proj1 (Forall_lookup _ _) Hcomp (length (Weights n) + j)%nat).
          rewrite lookup_app_r by lia. rewrite <- Ebi. f_equal. lia. }
        cbn beta iota.
        eapply iospec_step.
        { apply lift_eq, index_eq; [lia|]. by rewrite Nat2Z.id, mixed_lookup_at. }
        eapply iospec_step.
        { apply (read_dense_end _ name []); cbn [files length]; try done; try lia.
          all: rewrite HRW, HCW; lia. }
        cbn beta iota.
        eapply iospec_step.
        { apply lift_eq, assign_eq. rewrite length_mixed. lia. }
        eapply iospec_step.
        { apply lift_eq, index_eq; [lia|]. by rewrite Nat2Z.id, mixed_lookup_at. }
        eapply iospec_step.
        { apply (read_dense_end _ name []); cbn [files length]; try done; try lia.
          all: rewrite HRB, HCB, HrB, HBW; lia. }
        cbn beta iota.
        eapply iospec_step.
        { apply lift_eq, assign_eq. rewrite length_mixed. lia. }
        apply iospec_ret. unfold Inv. cbn [mem files].
        by rewrite !Nat2Z.id, (mixed_insert _ _ _ _ Ewi), (mixed_insert _ _ _ _ Ebi). }
    intros s w' [-> ->]. cbn [Nat.add]. apply iospec_ret. split; [|done].
    unfold reset_net, mixed. by rewrite !firstn_all2, !drop_ge, !app_nil_r by lia. }
  destruct (iospec_inv _ _ _ Hmain) as (n' & w' & E & -> & ->). exact E.
Qed.

End Reading.

Section PersistenceFacts.
Context {F : Type} `{Float64 F} `{Float64Bits F}.
Implicit Types (st : State F) (m : Dense) (v : matrix F) (w : @World F).

(** The size of a dump: sixteen bytes for the dimensions of every matrix
    and eight bytes for every parameter. *)
Lemma length_dump_bytes sizes Ws Bs :
  length Ws = (length sizes - 1)%nat → length Bs = length Ws →
  (∀ k W, Ws !! k = Some W →
     wfm W ∧ sizes !! k = Some (mr W) ∧ sizes !! S k = Some (mc W)) →
  (∀ k B, Bs !! k = Some B → wfm B ∧ mr B = 1 ∧ sizes !! S k = Some (mc B)) →
  Z.of_nat (length (dump_bytes Ws Bs))
  = 8 * param_count sizes + 32 * Z.of_nat (length Ws).
Proof.
  revert sizes Bs. induction Ws as [|W Ws IH]; intros sizes Bs HlW HlB HdW HdB.
  - simpl in HlW. destruct sizes as [|a [|b rest]]; simpl in *; lia.
  - destruct Bs as [|B Bs]; [simpl in *; lia|].
    destruct sizes as [|a [|b rest]]; [simpl in *; lia..|].
    destruct (HdW O W eq_refl) as ((HW1 & HW2 & HmdW) & Ea & Eb).
    destruct (HdB O B eq_refl) as ((_ & _ & HmdB) & HrB & EbB).
    simpl in Ea, Eb, EbB. injection Ea as ->. injection Eb as ->.
    injection EbB as HBW.
    simpl in HlW, HlB.
    assert (IH' := IH (mc W :: rest) Bs ltac:(simpl; lia) ltac:(lia)
                     (λ k, HdW (S k)) (λ k, HdB (S k))).
    cbn [dump_bytes]. rewrite !length_app, !length_encode, HmdW, HmdB.
    change (param_count (mr W :: mc W :: rest))
      with ((mr W + 1) * mc W + param_count (mc W :: rest)).
    rewrite HrB, <- HBW in *. cbn [length] in *. nia.
Qed.

Lemma Forall_row_major (P : F → Prop) r c (f : Z → Z → F) :
  (∀ i j, P (f i j)) → Forall P (row_major r c f).
Proof.
  intros Hf. unfold row_major. apply Forall_flat_map, Forall_forall. intros i _.
  apply Forall_fmap, Forall_forall. intros j _. apply Hf.
Qed.

Lemma init_net_compact b0 size :
  Forall compact (Weights (init_net (F := F) b0 size)
                  ++ Biases (init_net (F := F) b0 size)).
Proof.
  apply Forall_app. split; apply Forall_fmap, Forall_forall; by intros i _.
Qed.

Lemma init_net_reread b0 size :
  reread_net (init_net b0 size) = init_net (F := F) b0 size.
Proof.
  unfold reread_net, init_net. cbn [NumLayers Sizes Weights Biases TestFunc].
  f_equal; rewrite map_map; by apply map_ext.
Qed.

Lemma init_storable r0 size k :
  (∀ i, storable (norm_float i)) →
  Forall (λ v, Forall storable (md v))
    (map (init_W r0 size) (seq 0 k) ++ map (init_B r0 size) (seq 0 k)).
Proof.
  intros Hst. apply Forall_app.
  split; apply Forall_fmap, Forall_forall; intros i _; cbn [compose];
    apply Forall_row_major; intros; apply Hst.
Qed.

Lemma reset_net_panics (n : Network F) sizes Ws Bs h input st :
  wf_net n h sizes Ws Bs → Cols input ≠ 0 →
  FeedForward (reset_net n) input st = Panic.
Proof.
  intros Hwf Hc. pose proof (wf_two _ _ _ _ _ Hwf) as Htwo.
  pose proof (wf_layers _ _ _ _ _ Hwf) as HL.
  destruct (wf_net_W _ _ _ _ _ O Hwf) as (w0 & W & Ew & _); [lia|].
  unfold FeedForward. cbn [reset_net NumLayers Weights Biases].
  rewrite for_range_first by lia. apply bind_Panic.
  eapply panic_step.
  { apply index_eq; [lia|]. change (Z.to_nat 0) with O.
    by rewrite list_lookup_fmap, Ew. }
  apply bind_Panic. unfold Mul. cbn [Dims Reset Rows Cols].
  by rewrite decide_True.
Qed.

End PersistenceFacts.

Section PersistenceTheorems.
Context {F : Type} `{Float64 F} `{Float64Bits F}.
Implicit Types (st : State F) (m : Dense) (v : matrix F) (w : @World F).

(** X12: [DumpWeightsBiases] on an initialized network with layer sizes
    below 2^29, for a path that is missing or a regular file.  It
    returns; it changes neither the heap nor another file; the file (created
    when missing) is the old content followed, layer by layer, by the
    binary form of the weight matrix and then of the bias matrix: the row
    and the column count as 8-byte little-endian integers, then the
    entries row by row as the 8-byte little-endian bit patterns.  The
    file grows by 8 bytes for every parameter and 32 bytes for every
    layer after the first. *)
Theorem DumpWeightsBiases_appends (n : Network F) sizes Ws Bs w name old :
  wf_net n (heap (mem w)) sizes Ws Bs → small sizes →
  content (files w name) = Some old →
  ∃ w', DumpWeightsBiases n name w = Done tt w' ∧ mem w' = mem w ∧
        files w' name = Some (File (old ++ dump_bytes Ws Bs)) ∧
        (∀ k, k ≠ name → files w' k = files w k) ∧
        Z.of_nat (length (dump_bytes Ws Bs))
        = 8 * param_count sizes + 32 * (Z.of_nat (length sizes) - 1).
Proof.
  intros Hwf Hsmall Hold.
  destruct (Dump_run n sizes Ws Bs w name old Hwf Hsmall Hold)
    as (w' & E & Hmem & Hfile & Hother).
  exists w'. split_and!; try done.
  pose proof (wf_two _ _ _ _ _ Hwf) as Htwo.
  rewrite (length_dump_bytes sizes Ws Bs).
  - rewrite (wf_lenW _ _ _ _ _ Hwf). lia.
  - apply (wf_lenW _ _ _ _ _ Hwf).
  - by rewrite (wf_lenW _ _ _ _ _ Hwf), (wf_lenB _ _ _ _ _ Hwf).
  - intros k W EW.
    destruct (Forall2_lookup_r _ _ _ _ _ (wf_W _ _ _ _ _ Hwf) EW) as (m & _ & [Hv <-]).
    split; [by apply value_wfm|]. apply (wf_shapeW _ _ _ _ _ Hwf _ _ EW).
  - intros k B EB.
    destruct (Forall2_lookup_r _ _ _ _ _ (wf_B _ _ _ _ _ Hwf) EB) as (m & _ & [Hv <-]).
    split; [by apply value_wfm|]. apply (wf_shapeB _ _ _ _ _ Hwf _ _ EB).
Qed.

(** X13: [ReadWeightsBiases] on an initialized network whose parameter
    matrices have arrays of their own and capacities equal to their
    dimensions, from a file that starts with the dump of parameters of the
    same layer sizes.  It returns; afterwards the network holds exactly the
    dumped parameters, whatever it held before; the file, the random
    source, the output and every array that is not a parameter's are as
    they were. *)
Theorem ReadWeightsBiases_restores (n : Network F) sizes Ws0 Bs0 Ws Bs w name rest :
  wf_net n (heap (mem w)) sizes Ws0 Bs0 → params_apart n →
  Forall compact (Weights n ++ Biases n) →
  small sizes → dumped sizes Ws Bs →
  files w name = Some (File (dump_bytes Ws Bs ++ rest)) →
  ∃ st', ReadWeightsBiases n name w = Done (reread_net n) (MkWorld st' (files w)) ∧
         wf_net (reread_net n) (heap st') sizes Ws Bs ∧
         rnd st' = rnd (mem w) ∧ out st' = out (mem w) ∧
         length (heap st') = length (heap (mem w)) ∧
         ∀ q, ¬ param_array n q → heap st' !! q = heap (mem w) !! q.
Proof. apply Read_run. Qed.

(** X14: dump, then read.  After [DumpWeightsBiases] wrote the parameters
    of an initialized network to a path that was missing or an empty file,
    [ReadWeightsBiases] from that file, in any later world where the
    network is still initialized with the same layer sizes (after more
    training, say), returns and gives the network the parameters it had
    when it was dumped. *)
Theorem Dump_then_Read (n : Network F) sizes Ws Bs w name :
  wf_net n (heap (mem w)) sizes Ws Bs → small sizes →
  Forall (λ v, Forall storable (md v)) (Ws ++ Bs) →
  params_apart n → Forall compact (Weights n ++ Biases n) →
  content (files w name) = Some [] →
  ∃ w1, DumpWeightsBiases n name w = Done tt w1 ∧ mem w1 = mem w ∧
    ∀ w2 Ws2 Bs2,
      files w2 name = files w1 name → wf_net n (heap (mem w2)) sizes Ws2 Bs2 →
      ∃ st3,
        ReadWeightsBiases n name w2 = Done (reread_net n) (MkWorld st3 (files w2)) ∧
        wf_net (reread_net n) (heap st3) sizes Ws Bs ∧
        ∀ q, ¬ param_array n q → heap st3 !! q = heap (mem w2) !! q.
Proof.
  intros Hwf Hsmall Hst Hap Hcomp Hold.
  destruct (Dump_run n sizes Ws Bs w name [] Hwf Hsmall Hold)
    as (w1 & E1 & Hmem & Hfile & _).
  exists w1. split; [done|]. split; [done|]. intros w2 Ws2 Bs2 Hf2 Hwf2.
  destruct (Read_run n sizes Ws2 Bs2 Ws Bs w2 name [] Hwf2 Hap Hcomp Hsmall)
    as (st3 & E3 & Hwf3 & _ & _ & _ & Hframe).
  - by eapply wf_net_dumped.
  - rewrite Hf2, Hfile. by rewrite app_nil_r.
  - by exists st3.
Qed.

(** X15: [DumpWeightsBiases] appends and [ReadWeightsBiases] reads from
    the start.  When the file already holds a dump of parameters of the
    same layer sizes, dumping the current parameters and reading the file
    back gives the network the parameters of the old dump, not the ones
    just written. *)
Theorem Read_restores_first_dump (n : Network F) sizes WsA BsA Ws Bs w name :
  wf_net n (heap (mem w)) sizes Ws Bs → small sizes →
  params_apart n → Forall compact (Weights n ++ Biases n) →
  dumped sizes WsA BsA →
  files w name = Some (File (dump_bytes WsA BsA)) →
  ∃ w1 st3,
    DumpWeightsBiases n name w = Done tt w1 ∧
    files w1 name = Some (File (dump_bytes WsA BsA ++ dump_bytes Ws Bs)) ∧
    ReadWeightsBiases n name w1 = Done (reread_net n) (MkWorld st3 (files w1)) ∧
    wf_net (reread_net n) (heap st3) sizes WsA BsA.
Proof.
  intros Hwf Hsmall Hap Hcomp Hd Hfile.
  destruct (Dump_run n sizes Ws Bs w name (dump_bytes WsA BsA) Hwf Hsmall)
    as (w1 & E1 & Hmem & Hfile1 & _); [by rewrite Hfile|].
  rewrite <- Hmem in Hwf.
  destruct (Read_run n sizes Ws Bs WsA BsA w1 name (dump_bytes Ws Bs)
              Hwf Hap Hcomp Hsmall Hd Hfile1)
    as (st3 & E3 & Hwf3 & _).
  by exists w1, st3.
Qed.

(** X16: reading an empty file.  [ReadWeightsBiases] reports nothing: it
    returns with the heap and the files untouched, but every weight and
    bias matrix is left reset, with no rows and no columns, so that
    [FeedForward] on any input with columns panics. *)
Theorem Read_empty_file (n : Network F) sizes Ws Bs w name :
  wf_net n (heap (mem w)) sizes Ws Bs → small sizes →
  Forall compact (Weights n ++ Biases n) →
  files w name = Some (File []) →
  ReadWeightsBiases n name w = Done (reset_net n) (MkWorld (mem w) (files w)) ∧
  Forall (λ m, Rows m = 0 ∧ Cols m = 0)
    (Weights (reset_net n) ++ Biases (reset_net n)) ∧
  ∀ input st, Cols input ≠ 0 → FeedForward (reset_net n) input st = Panic.
Proof.
  intros Hwf Hsmall Hcomp Hfile. split_and!.
  - by eapply Read_end_run.
  - apply Forall_app. split; apply Forall_fmap, Forall_forall; by intros m _.
  - intros input st Hc. by eapply reset_net_panics.
Qed.

(** X18: [Init], dump, read.  For the network [Init] returns on positive
    layer sizes below 2^29, when the floats of the random source are
    storable: dumping to a path that is missing or an empty file and
    reading it back returns the same network, holding the same parameters
    as before. *)
Theorem Init_Dump_Read (size : list Z) (st : State F) n st' fs name :
  Forall (λ z, 0 < z < 2 ^ 29) size → (∀ i, storable (norm_float i)) →
  Init size st = Ok n st' → content (fs name) = Some [] →
  ∃ w1 st3 Ws Bs,
    DumpWeightsBiases n name (MkWorld st' fs) = Done tt w1 ∧
    ReadWeightsBiases n name w1 = Done n (MkWorld st3 (files w1)) ∧
    wf_net n (heap st') size Ws Bs ∧ wf_net n (heap st3) size Ws Bs.
Proof.
  intros Hsz Hst E Hold.
  assert (Hpos : Forall (λ z, 0 < z) size)
    by (eapply Forall_impl; [exact Hsz|]; intros z Hz; cbn beta in Hz |- *; lia).
  assert (Hsmall : small size)
    by (eapply Forall_impl; [exact Hsz|]; intros z Hz; cbn beta in Hz |- *; lia).
  assert (Htwo : (2 ≤ length size)%nat).
  { destruct (decide (2 ≤ length size)%nat) as [|Hlt]; [done|].
    unfold Init in E. rewrite decide_True in E by lia. discriminate E. }
  destruct (tspec_inv _ _ _ (Init_run size st Htwo Hpos))
    as (n' & st'' & E' & -> & Hh & _).
  rewrite E in E'. simplify_eq.
  destruct (init_ready (heap st) (rnd st) size Htwo Hpos) as (Hwf & _ & Hap & _).
  rewrite <- Hh in Hwf.
  set (n := init_net (length (heap st)) size) in *.
  set (Ws := map (init_W (rnd st) size) (seq 0 (length size - 1))) in *.
  set (Bs := map (init_B (rnd st) size) (seq 0 (length size - 1))) in *.
  destruct (Dump_run n size Ws Bs (MkWorld st'' fs) name [] Hwf Hsmall Hold)
    as (w1 & E1 & Hmem & Hfile & _).
  cbn [mem] in Hmem. pose proof Hwf as Hwf1. rewrite <- Hmem in Hwf1.
  destruct (Read_run n size Ws Bs Ws Bs w1 name [] Hwf1 Hap (init_net_compact _ _)
              Hsmall)
    as (st3 & E3 & Hwf3 & _).
  - eapply wf_net_dumped; [exact Hwf|]. by apply init_storable.
  - rewrite Hfile. by rewrite app_nil_r.
  - unfold n in E3, Hwf3. rewrite init_net_reread in E3, Hwf3.
    by exists w1, st3, Ws, Bs.
Qed.

End PersistenceTheorems.

(** ** Instances on the three-layer example *)

Module Instances.
Import QcModel Example3.

Lemma FeedForward_correct_witness :
  ∃ out st', FeedForward net3 input3 st3 = Ok out st' ∧
             value (heap st') out = activation Ws3 Bs3 x3 2 ∧
             sizes3 !! 2%nat = Some (Cols out).
Proof.
  destruct (FeedForward_correct net3 st3 sizes3 Ws3 Bs3 input3 x3
              wf_net3 holds_input3 eq_refl eq_refl)
    as (out & st' & E & Hv & _ & Hc & _).
  exists out, st'. split; [exact E|]. split; [exact Hv|exact Hc].
Defined.

Lemma backprop_output_gradients_witness :
  ∃ nablaB nablaW st' mW,
    backpropQuadCost net3 [input3; desired3] (q 3) st3 = Ok (nablaB, nablaW) st' ∧
    nablaW !! 1%nat = Some mW ∧
    value (heap st') mW
    = mmul (mtrans (activation Ws3 Bs3 x3 1)) (delta_out Ws3 Bs3 x3 y3 1).
Proof.
  destruct (backprop_output_gradients net3 sizes3 Ws3 Bs3 x3 y3 st3 input3 desired3 (q 3)
              wf_net3 holds_input3 holds_desired3 eq_refl eq_refl eq_refl eq_refl)
    as (nB & nW & st' & mB & mW & E & _ & HmW & _ & Hv & _).
  exists nB, nW, st', mW. split; [exact E|]. split; [exact HmW|exact Hv].
Defined.

(** The run of backpropagation on the example. *)
Lemma backprop3_run :
  ∃ nablaB nablaW st' mW,
    backpropQuadCost net3 [input3; desired3] (q 3) st3 = Ok (nablaB, nablaW) st' ∧
    nablaW !! 1%nat = Some mW ∧
    value (heap st') mW = gradW Ws3 Bs3 x3 y3 1 1.
Proof.
  destruct (tspec_inv _ _ _
    (backprop_spec net3 sizes3 Ws3 Bs3 x3 y3 st3 input3 desired3 (q 3)
       wf_net3 holds_input3 holds_desired3 eq_refl eq_refl eq_refl eq_refl))
    as ([nB nW] & st' & E & _ & _ & _ & HW & _).
  destruct (HW 1%nat) as (mW & HmW & _ & Hv); [simpl; lia|].
  exists nB, nW, st', mW. split; [exact E|]. split; [exact HmW|exact Hv].
Qed.

(** C2 as stated fails: with three layers of sizes 1, 2, 1 the returned
    [nablaW[1]] has two rows, while [activations[0]ᵗ × delta] has one. *)
Lemma backprop_output_gradient_counterexample :
  ∃ nablaB nablaW st' mW,
    backpropQuadCost net3 [input3; desired3] (q 3) st3 = Ok (nablaB, nablaW) st' ∧
    nablaW !! (3 - 2)%nat = Some mW ∧
    value (heap st') mW
    ≠ mmul (mtrans (activation Ws3 Bs3 x3 (3 - 3))) (delta_out Ws3 Bs3 x3 y3 (3 - 2)).
Proof.
  destruct backprop3_run as (nB & nW & st' & mW & E & HmW & Hv).
  exists nB, nW, st', mW. split; [exact E|]. split; [exact HmW|].
  rewrite Hv. intros Eq. apply (f_equal mr) in Eq.
  vm_compute in Eq. discriminate Eq.
Qed.

Lemma quadratic_cost_output_error_witness :
  ∃ e s', quadraticCost input3 desired3 st3 = Ok e s' ∧
          value (heap s') e = msub x3 y3.
Proof.
  exact (proj1 quadratic_cost_output_error st3 input3 desired3 x3 y3
           holds_input3 holds_desired3 eq_refl eq_refl).
Defined.

Lemma frame_effect_witness :
  ∃ r st', backpropQuadCost net3 [input3; desired3] (q 3) st3 = Ok r st' ∧
           ∃ ext, heap st' = heap st3 ++ ext.
Proof.
  destruct backprop3_run as (nB & nW & st' & _ & E & _).
  exists (nB, nW), st'. split; [exact E|].
  exact (proj1 (proj1 (proj2 frame_effect) net3 _ _ _ _ _ E)).
Defined.

Lemma Init_shapes_witness :
  ∃ n st', Init [2; 3; 4] st3 = Ok n st' ∧ length (Weights n) = 2%nat.
Proof.
  destruct (Init_shapes [2; 3; 4] st3) as (n & st' & E & _ & HlW & _).
  - simpl. lia.
  - repeat constructor; lia.
  - exists n, st'. split; [exact E|exact HlW].
Defined.

(** With four examples and batches of two, the fourth example is never
    read: it may even be malformed. *)
Lemma SGD_reads_prefix_only_witness :
  SGD net3 [[input3; desired3]; [input3; desired3]; [input3; desired3];
            [input3; desired3]] (q 3) 2 None st3
  = SGD net3 [[input3; desired3]; [input3; desired3]; [input3; desired3]; []]
      (q 3) 2 None st3.
Proof.
  apply SGD_reads_prefix_only; [lia|reflexivity|].
  intros k Hk.
  match type of Hk with context [sgd_iterations ?a ?b] =>
    assert (E : sgd_iterations a b = 2) by (vm_compute; reflexivity);
    rewrite E in Hk
  end.
  destruct k as [|[|[|k]]]; try reflexivity. lia.
Defined.

(** The example network, as a training set-up. *)
Lemma holds_sizes3 : holds heap3 (Sizes net3) (sizes_row sizes3).
Proof.
  change (holds heap3 (dense_at 0 1 3) (Mat 1 3 [q 1; q 2; q 1])).
  by apply holds3.
Qed.

Lemma sizes3_exact : Forall (λ z, to_int (of_int z) = z) sizes3.
Proof. repeat constructor. Qed.

Lemma apart3 : params_apart net3.
Proof. apply (bool_decide_unpack _). vm_compute. exact I. Qed.

Lemma example3_ok : example_ok sizes3 heap3 [input3; desired3] (x3, y3).
Proof.
  exists input3, desired3.
  split; [reflexivity|]. split; [exact holds_input3|].
  split; [exact holds_desired3|]. by split_and!.
Qed.



(** C3 on four layers of one neuron each, all weights 1, all biases 0,
    input 1 and desired output 0: the returned [nablaB[1]] does not hold
    the error of layer 1. *)
Lemma backprop_nablaB_layer1_counterexample :
  ∃ nablaB nablaW st' d,
    backpropQuadCost net4 example4 (q 3)
      (st4 (q 1) (q 0) (q 1) (q 0) (q 1) (q 0) (q 1) (q 0))
    = Ok (nablaB, nablaW) st' ∧
    nablaB !! 1%nat = Some d ∧
    value (heap st') d
    ≠ delta (Ws4 (q 1) (q 1) (q 1)) (Bs4 (q 0) (q 0) (q 0))
        (x4 (q 1)) (y4 (q 0)) 2 1.
Proof.
  eexists _, _, _, _. split; [vm_compute; reflexivity|].
  split; [reflexivity|].
  intros Eq. apply (f_equal (λ m, Qcanon.this (mat_at m 0 0))) in Eq.
  vm_compute in Eq. discriminate Eq.
Qed.


End Instances.

(** * The further properties on the example network *)

Module MoreInstances.
Import QcModel Example3 Instances.

Lemma off_params3 m :
  bool_decide (ptr (Data m) ∉ [1; 3; 2; 4]%nat) = true → off_params net3 m.
Proof. intros Hb. apply off_params_alt. by apply bool_decide_eq_true_1 in Hb. Qed.

Lemma test3_ok : test_ok sizes3 heap3 [input3; desired3] (x3, y3).
Proof.
  exists input3, desired3, [].
  split; [reflexivity|]. split; [exact holds_input3|].
  split; [reflexivity|]. split; [reflexivity|exact holds_desired3].
Qed.

Lemma trainable3 :
  trainable net3 sizes3 [[input3; desired3]; [input3; desired3]; [input3; desired3]]
    [(x3, y3); (x3, y3); (x3, y3)] st3.
Proof.
  split; [exists Ws3, Bs3; exact wf_net3|]. split; [exact holds_sizes3|].
  repeat (constructor; [exact example3_ok|]). constructor.
Qed.

Lemma set_up3 :
  set_up net3 sizes3 [[input3; desired3]; [input3; desired3]; [input3; desired3]].
Proof.
  split; [exact sizes3_exact|]. split; [exact apart3|].
  split; [by apply off_params3|].
  repeat (constructor; [repeat constructor; by apply off_params3|]). constructor.
Qed.

Lemma backprop_weight_gradients_witness :
  ∃ nablaB nablaW st',
    backpropQuadCost net3 [input3; desired3] (q 3) st3 = Ok (nablaB, nablaW) st' ∧
    length nablaW = 2%nat.
Proof.
  destruct (backprop_weight_gradients net3 sizes3 Ws3 Bs3 x3 y3 st3 input3 desired3 (q 3)
              wf_net3 holds_input3 holds_desired3 eq_refl eq_refl eq_refl eq_refl)
    as (nB & nW & st' & E & _ & HlW & _).
  exists nB, nW, st'. split; [exact E|exact HlW].
Defined.

Lemma backprop_bias_gradients_witness :
  ∃ nablaB nablaW st' mB,
    backpropQuadCost net3 [input3; desired3] (q 3) st3 = Ok (nablaB, nablaW) st' ∧
    nablaB !! 0%nat = Some mB ∧
    value (heap st') mB = delta Ws3 Bs3 x3 y3 1 0.
Proof.
  destruct (backprop_bias_gradients net3 sizes3 Ws3 Bs3 x3 y3 st3 input3 desired3 (q 3)
              wf_net3 holds_input3 holds_desired3 eq_refl eq_refl eq_refl eq_refl)
    as (nB & nW & st' & E & HB).
  destruct (HB 0%nat) as (mB & HmB & Hv); [by left|simpl; lia|].
  exists nB, nW, st', mB. split; [exact E|]. split; [exact HmB|exact Hv].
Defined.

Lemma FeedForward_accepts_witness :
  ∃ out st', FeedForward net3 input3 st3 = Ok out st'.
Proof.
  exact (proj2 (proj1 (FeedForward_accepts net3 st3 sizes3 Ws3 Bs3 input3 x3
                         wf_net3 holds_input3))
           (conj eq_refl eq_refl)).
Defined.

Lemma backprop_accepts_witness :
  ∃ r st', backpropQuadCost net3 [input3; desired3] (q 3) st3 = Ok r st'.
Proof.
  exact (proj2 (proj1 (backprop_accepts net3 st3 sizes3 Ws3 Bs3 input3 desired3 x3 y3
                         (q 3) wf_net3 holds_input3 holds_desired3))
           (conj eq_refl (conj eq_refl (conj eq_refl eq_refl)))).
Defined.

Lemma uninitialized_network_witness :
  FeedForward (MkNetwork 0 Dense0 [] [] None) input3 st3 = Ok input3 st3 ∧
  backpropQuadCost (MkNetwork 0 Dense0 [] [] None) [input3; desired3] (q 3) st3
  = Panic.
Proof.
  destruct (uninitialized_network (F := Qcanon.Qc) (MkNetwork 0 Dense0 [] [] None))
    as [HF HB]; [simpl; lia|].
  split; [apply HF|apply HB].
Defined.

Lemma SGD_test_report_witness :
  ∃ st', sgd_test net3 (λ _ _, true) [[input3; desired3]; [input3; desired3]] st3
         = Ok tt st' ∧
         out st' = [(2, 2)].
Proof.
  destruct (SGD_test_report net3 sizes3 Ws3 Bs3 (λ _ _, true)
              [[input3; desired3]; [input3; desired3]] [(x3, y3); (x3, y3)] st3 wf_net3)
    as (st' & c & E & Ho & Hc & _).
  - repeat (constructor; [exact test3_ok|]). constructor.
  - exists st'. split; [exact E|]. rewrite Ho, Hc. reflexivity.
Defined.

Lemma SGD_returns_witness :
  ∃ st', SGD net3 [[input3; desired3]; [input3; desired3]; [input3; desired3]]
           (q 3) 2 None st3 = Ok tt st' ∧ out st' = [].
Proof.
  destruct (SGD_returns net3 sizes3
              [[input3; desired3]; [input3; desired3]; [input3; desired3]]
              [(x3, y3); (x3, y3); (x3, y3)] (q 3) 2 None [] st3 trainable3 set_up3)
    as (st' & Ws' & Bs' & E & _ & _ & _ & _ & _ & Ho).
  - lia.
  - intros tests Et. discriminate Et.
  - exists st'. split; [exact E|exact Ho].
Defined.


Lemma Init_builds_witness :
  ∃ n st', Init [2; 3; 4] st3 = Ok n st' ∧ rnd st' = 25%nat ∧ TestFunc n = None.
Proof.
  destruct (Init_builds [2; 3; 4] st3) as (n & st' & Ws & Bs & E & _ & _ & _ & _ & HT & _ & _ & Hr & _).
  - simpl. lia.
  - repeat constructor.
  - exists n, st'. split; [exact E|]. split; [exact Hr|exact HT].
Defined.

Definition cell1 : matrix Qcanon.Qc := Mat 1 1 [q 1].

Lemma Init_11 :
  ∃ st', Init [1; 1] st0 = Ok (init_net 0 [1; 1]) st' ∧ length (heap st') = 3%nat ∧
         ∀ ext p, (3 ≤ p)%nat → (heap st' ++ ext) !! p = ext !! (p - 3)%nat.
Proof.
  assert (Hpos : Forall (λ z, 0 < z) [1; 1]) by (repeat constructor).
  destruct (tspec_inv _ _ _ (Init_run [1; 1] st0 ltac:(simpl; lia) Hpos))
    as (n & st' & E & -> & Hh & _).
  assert (Hlen : length (heap st') = 3%nat) by (rewrite Hh; reflexivity).
  exists st'. split; [exact E|]. split; [exact Hlen|].
  intros ext p Hp. rewrite lookup_app_r by lia. by rewrite Hlen.
Qed.

Lemma Init_then_FeedForward_witness :
  ∃ n st' o s3,
    Init [1; 1] st0 = Ok n st' ∧
    FeedForward n (dense_at 3 1 1)
      (MkState (heap st' ++ [[q 1]]) (rnd st') (out st')) = Ok o s3 ∧
    Rows o = 1 ∧ Cols o = 1.
Proof.
  destruct Init_11 as (st' & E & Hlen & Hat).
  destruct (Init_then_FeedForward [1; 1] st0 (init_net 0 [1; 1]) st' [[q 1]]
              (dense_at 3 1 1) cell1
              (MkState (heap st' ++ [[q 1]]) (rnd st') (out st')))
    as (o & s3 & E3 & Hr & Hc).
  - repeat constructor.
  - exact E.
  - reflexivity.
  - apply (holds_dense_at _ 3%nat cell1).
    + cbn [heap]. rewrite Hat by lia. reflexivity.
    + split; [reflexivity|]. split; reflexivity.
  - reflexivity.
  - reflexivity.
  - exists (init_net 0 [1; 1]), st', o, s3.
    split; [exact E|]. split; [exact E3|]. split; [exact Hr|].
    simpl in Hc. by injection Hc as <-.
Defined.

Lemma Init_then_SGD_witness :
  ∃ n st' s3,
    Init [1; 1] st0 = Ok n st' ∧
    SGD (MkNetwork (NumLayers n) (Sizes n) (Weights n) (Biases n) (Some (λ _ _, true)))
      [[dense_at 3 1 1; dense_at 4 1 1]] (q 3) 1
      (Some [[dense_at 3 1 1; dense_at 4 1 1]])
      (MkState (heap st' ++ [[q 1]; [q 1]]) (rnd st') (out st')) = Ok tt s3 ∧
    ∃ c, out s3 = out st' ++ [(c, 1)].
Proof.
  destruct Init_11 as (st' & E & Hlen & Hat).
  set (s2 := MkState (heap st' ++ [[q 1]; [q 1]]) (rnd st') (out st')).
  assert (H3 : holds (heap s2) (dense_at 3 1 1) cell1).
  { apply (holds_dense_at _ 3%nat cell1).
    - cbn [heap s2]. rewrite Hat by lia. reflexivity.
    - split; [reflexivity|]. split; reflexivity. }
  assert (H4 : holds (heap s2) (dense_at 4 1 1) cell1).
  { apply (holds_dense_at _ 4%nat cell1).
    - cbn [heap s2]. rewrite Hat by lia. reflexivity.
    - split; [reflexivity|]. split; reflexivity. }
  assert (Hoff : Forall (Forall (off_params (F := Qcanon.Qc) (init_net 0 [1; 1])))
                   [[dense_at 3 1 1; dense_at 4 1 1]]).
  { repeat constructor; apply off_params_alt;
      apply (bool_decide_eq_true_1 _); reflexivity. }
  destruct (Init_then_SGD [1; 1] st0 (init_net 0 [1; 1]) st' [[q 1]; [q 1]]
              [[dense_at 3 1 1; dense_at 4 1 1]] [(cell1, cell1)] (q 3) 1
              [[dense_at 3 1 1; dense_at 4 1 1]] [(cell1, cell1)] (λ _ _, true) s2)
    as (_ & s3 & c & E3 & Ho & _).
  - repeat constructor.
  - repeat constructor.
  - exact E.
  - reflexivity.
  - constructor; [|constructor].
    exists (dense_at 3 1 1), (dense_at 4 1 1).
    split; [reflexivity|]. split; [exact H3|]. split; [exact H4|].
    split; [reflexivity|]. split; [reflexivity|]. split; reflexivity.
  - exact Hoff.
  - constructor; [|constructor].
    exists (dense_at 3 1 1), (dense_at 4 1 1), [].
    split; [reflexivity|]. split; [exact H3|].
    split; [reflexivity|]. split; [reflexivity|exact H4].
  - exact Hoff.
  - lia.
  - exists (init_net 0 [1; 1]), st', s3.
    split; [exact E|]. split; [exact E3|]. exists c. exact Ho.
Defined.

End MoreInstances.

(** * The file methods on the example network *)

Module FileInstances.
Import QArith_base Qcanon QcModel Example3 Instances MoreInstances.
Local Open Scope Z_scope.

(** Bit patterns for the rationals standing in for [float64]: the
    numerator, shifted to be positive, above the denominator. *)
Definition Qc_bits (x : Qc) : Z :=
  (Qnum (this x) + 2 ^ 31) * 2 ^ 32 + Zpos (Qden (this x)).
Definition Qc_frombits (z : Z) : Qc :=
  Q2Qc (Qmake (z / 2 ^ 32 - 2 ^ 31) (Z.to_pos (z mod 2 ^ 32))).

#[export] Instance Qc_float64bits : Float64Bits Qc := {|
  Float64bits := Qc_bits;
  Float64frombits := Qc_frombits
|}.

Lemma Qc_storable (x : Qc) :
  - 2 ^ 31 ≤ Qnum (this x) < 2 ^ 31 → Zpos (Qden (this x)) < 2 ^ 32 → storable x.
Proof.
  intros Hn Hd. pose proof (Pos2Z.is_pos (Qden (this x))) as Hp.
  unfold storable. cbn [Float64bits Float64frombits Qc_float64bits].
  unfold Qc_bits, Qc_frombits. split; [nia|].
  replace (((Qnum (this x) + 2 ^ 31) * 2 ^ 32 + Z.pos (Qden (this x))) / 2 ^ 32)
    with (Qnum (this x) + 2 ^ 31)
    by (apply Z.div_unique with (r := Z.pos (Qden (this x))); lia).
  replace (((Qnum (this x) + 2 ^ 31) * 2 ^ 32 + Z.pos (Qden (this x))) mod 2 ^ 32)
    with (Z.pos (Qden (this x)))
    by (apply Z.mod_unique with (q := Qnum (this x) + 2 ^ 31); lia).
  rewrite Pos2Z.id. replace (Qnum (this x) + 2 ^ 31 - 2 ^ 31) with (Qnum (this x)) by lia.
  apply Qc_is_canon. simpl. rewrite Qreduction.Qred_correct.
  by destruct x as [[a b] ?].
Qed.

Lemma sample_storable i : storable (norm_float i).
Proof.
  cbn [norm_float Qc_float64]. unfold sample.
  pose proof (Nat.mod_upper_bound i 7 ltac:(lia)) as Hlt.
  destruct (i mod 7)%nat as [|[|[|[|[|[|[|r]]]]]]]; [..|lia];
    apply Qc_storable; vm_compute; split; congruence.
Qed.

Lemma storable3 : Forall (λ v : matrix Qc, Forall storable (md v)) (Ws3 ++ Bs3).
Proof.
  repeat constructor; apply Qc_storable; vm_compute; split; congruence.
Qed.

Lemma small3 : small sizes3.
Proof. repeat constructor. Qed.

Lemma compact3 : Forall compact (Weights net3 ++ Biases net3).
Proof. repeat constructor. Qed.

Lemma dumped3 : dumped sizes3 Ws3 Bs3.
Proof. exact (wf_net_dumped net3 heap3 sizes3 Ws3 Bs3 wf_net3 storable3). Qed.

(** No file at all, an empty file at every path, and a dump of the
    example parameters at every path. *)
Definition no_files : Files := λ _, None.
Definition empty_files : Files := λ _, Some (File []).
Definition dump_files : Files := λ _, Some (File (dump_bytes Ws3 Bs3 ++ [])).

Lemma DumpWeightsBiases_appends_witness :
  ∃ w', DumpWeightsBiases net3 "net.bin" (MkWorld st3 no_files) = Done tt w' ∧
        files w' "net.bin" = Some (File (dump_bytes Ws3 Bs3)) ∧
        Z.of_nat (length (dump_bytes Ws3 Bs3)) = 120.
Proof.
  destruct (DumpWeightsBiases_appends net3 sizes3 Ws3 Bs3 (MkWorld st3 no_files)
              "net.bin" [] wf_net3 small3 eq_refl)
    as (w' & E & _ & Hf & _ & Hlen).
  exists w'. split; [exact E|]. split; [exact Hf|exact Hlen].
Defined.

Lemma ReadWeightsBiases_restores_witness :
  ∃ st', ReadWeightsBiases net3 "net.bin" (MkWorld st3 dump_files)
         = Done (reread_net net3) (MkWorld st' dump_files) ∧
         wf_net (reread_net net3) (heap st') sizes3 Ws3 Bs3.
Proof.
  destruct (ReadWeightsBiases_restores net3 sizes3 Ws3 Bs3 Ws3 Bs3
              (MkWorld st3 dump_files) "net.bin" [] wf_net3 apart3 compact3 small3
              dumped3 eq_refl)
    as (st' & E & Hwf & _).
  exists st'. split; [exact E|exact Hwf].
Defined.

Lemma Dump_then_Read_witness :
  ∃ w1 st',
    DumpWeightsBiases net3 "net.bin" (MkWorld st3 no_files) = Done tt w1 ∧
    ReadWeightsBiases net3 "net.bin" (MkWorld st3 (files w1))
    = Done (reread_net net3) (MkWorld st' (files w1)) ∧
    wf_net (reread_net net3) (heap st') sizes3 Ws3 Bs3.
Proof.
  destruct (Dump_then_Read net3 sizes3 Ws3 Bs3 (MkWorld st3 no_files) "net.bin"
              wf_net3 small3 storable3 apart3 compact3 eq_refl)
    as (w1 & E1 & _ & Hread).
  destruct (Hread (MkWorld st3 (files w1)) Ws3 Bs3 eq_refl wf_net3)
    as (st' & E2 & Hwf & _).
  exists w1, st'. split; [exact E1|]. split; [exact E2|exact Hwf].
Defined.

Lemma Read_restores_first_dump_witness :
  ∃ w1 st',
    DumpWeightsBiases net3 "net.bin"
      (MkWorld st3 (λ _, Some (File (dump_bytes Ws3 Bs3)))) = Done tt w1 ∧
    ReadWeightsBiases net3 "net.bin" w1
    = Done (reread_net net3) (MkWorld st' (files w1)) ∧
    wf_net (reread_net net3) (heap st') sizes3 Ws3 Bs3.
Proof.
  destruct (Read_restores_first_dump net3 sizes3 Ws3 Bs3 Ws3 Bs3
              (MkWorld st3 (λ _, Some (File (dump_bytes Ws3 Bs3)))) "net.bin"
              wf_net3 small3 apart3 compact3 dumped3 eq_refl)
    as (w1 & st' & E1 & _ & E2 & Hwf).
  exists w1, st'. split; [exact E1|]. split; [exact E2|exact Hwf].
Defined.

Lemma Read_empty_file_witness :
  ReadWeightsBiases net3 "net.bin" (MkWorld st3 empty_files)
  = Done (reset_net net3) (MkWorld st3 empty_files) ∧
  FeedForward (reset_net net3) input3 st3 = Panic.
Proof.
  destruct (Read_empty_file net3 sizes3 Ws3 Bs3 (MkWorld st3 empty_files) "net.bin"
              wf_net3 small3 compact3 eq_refl)
    as (E & _ & Hp).
  split; [exact E|]. apply Hp. discriminate.
Defined.

Lemma Init_Dump_Read_witness :
  ∃ n st' w1 st3,
    Init [1; 1] st0 = Ok n st' ∧
    DumpWeightsBiases n "net.bin" (MkWorld st' no_files) = Done tt w1 ∧
    ReadWeightsBiases n "net.bin" w1 = Done n (MkWorld st3 (files w1)).
Proof.
  destruct Init_11 as (st' & E & _).
  destruct (Init_Dump_Read [1; 1] st0 (init_net 0 [1; 1]) st' no_files "net.bin")
    as (w1 & st3 & Ws & Bs & E1 & E2 & _).
  - repeat constructor.
  - exact sample_storable.
  - exact E.
  - reflexivity.
  - exists (init_net 0 [1; 1]), st', w1, st3.
    split; [exact E|]. split; [exact E1|exact E2].
Defined.

End FileInstances.
